(** * The AST Region class (region.c): a shallow embedding

    The Region class of the AST library stores a shape in the base Frame of
    an encapsulated FrameSet and presents it in the current Frame.  This
    development embeds the shape-independent part of region.c: attribute
    access, negation, the private [Equal] test, [Overlap]/[OverlapX],
    [MapRegion], the uncertainty functions and the [Mask<X>] family.

    Objects live in a store and are referred to by pointers, because the C
    code mutates Regions, FrameSets and arrays in place and several
    properties are about what is, and is not, shared.  The global error
    status of the library is part of the state.  Frames, Mappings and
    FrameSets, and the shape-specific virtual functions, belong to other
    classes of the library; they are taken as an interface. *)

From Stdlib Require Import ZArith Lia List Bool.
From Stdlib Require Import Floats.SpecFloat.
From Stdlib Require Import Reals Lra.
From stdpp Require Import base option gmap strings list.

Local Open Scope Z_scope.

(** * C scalar types *)

(** [double] is IEEE binary64, with the arithmetic of [SpecFloat]. *)
Definition double : Type := spec_float.

Definition dbl_mul : double -> double -> double := SFmul 53 1024.
Definition dbl_add : double -> double -> double := SFadd 53 1024.
Definition dbl_lt : double -> double -> bool := SFltb.
Definition dbl_eq : double -> double -> bool := SFeqb.

(** The literals [0.0], [1.0], [0.5] and [0.5E-6]. *)
Definition dbl_0 : double := S754_zero false.
Definition dbl_1 : double := S754_finite false 4503599627370496 (-52).
Definition dbl_half : double := S754_finite false 4503599627370496 (-53).
Definition dbl_half_micro : double := S754_finite false 4722366482869645 (-73).

(** [AST__BAD] is [-DBL_MAX]. *)
Definition AST__BAD : double := S754_finite true 9007199254740991 971.

(** [int] is a 32-bit two's complement integer. *)
Definition INT_MAX : Z := 2147483647.
Definition wrap_int (z : Z) : Z := (z + 2147483648) mod 4294967296 - 2147483648.

(** Frame indices of frameset.h. *)
Definition AST__BASE : Z := 0.
Definition AST__CURRENT : Z := -1.

(** The error codes used by region.c. *)
Inductive AstErrorCode : Set :=
| AST__ATSER   (* attribute setting error *)
| AST__BADIN   (* bad input *)
| AST__GBDIN   (* grid bounds invalid *)
| AST__INTER   (* internal programming error *)
| AST__NCPIN   (* wrong number of coordinates / no conversion *)
| AST__NGDIN   (* wrong number of grid dimensions *)
| AST__NODEF   (* transformation not defined *)
| AST__NOMEM.  (* memory allocation failed *)

#[global] Instance AstErrorCode_eq_dec : EqDecision AstErrorCode.
Proof. solve_decision. Defined.

(** ** Doubles as real numbers *)

(** The real number a double stands for, 0 for one that is not finite. *)
Definition dbl_R (x : double) : R :=
  match x with
  | S754_finite sg m e =>
      ((if sg : bool then - IZR (Z.pos m) else IZR (Z.pos m)) * powerRZ 2 e)%R
  | _ => 0%R
  end.

(** An axis length that is zero, or a normal double of magnitude
    [2^-1001] at least. *)
Definition regular_extent (x : double) : bool :=
  match x with
  | S754_zero _ => true
  | S754_finite _ m e => (Z.pos (digits2_pos m) =? 53) && (-1053 <=? e) && (e <=? 971)
  | _ => false
  end.

(** The length of the diagonal of a box with the given sides. *)
Definition diagonal (sides : list R) : R :=
  sqrt (fold_right (fun x acc => x * x + acc)%R 0%R sides).

(** Modelled from the spec: the Box constructor of box.c is not part of
    the sources; a Box made from a centre and a corner (form 0) extends
    on each axis from the centre as far as the corner, to both sides, so
    that the diagonal of its bounding box is twice the distance from the
    centre to the corner. *)
Definition box_diagonal (centre corner : list double) : R :=
  (2 * diagonal (zip_with (fun c k => dbl_R k - dbl_R c)%R centre corner))%R.

(** What the record of [SpecFloat]'s rounding holds after [k] shifts of
    [M]: the quotient by [2^k], and where the remainder lies in the
    interval of that length. *)
Definition shifted (M : Z) (k : nat) (mrs : shr_record) : Prop :=
  exists rho, M = shr_m mrs * 2 ^ Z.of_nat k + rho /\ 0 <= rho < 2 ^ Z.of_nat k /\
    0 <= shr_m mrs /\
    match shr_r mrs, shr_s mrs with
    | false, false => rho = 0
    | false, true => 0 < 2 * rho < 2 ^ Z.of_nat k
    | true, false => 2 * rho = 2 ^ Z.of_nat k
    | true, true => 2 ^ Z.of_nat k < 2 * rho
    end.

(** * Objects of other classes *)

(** A PointSet holds [npoint] points of [ncoord] axis values each;
    [ptr] is indexed by axis first, as [astGetPoints] returns it. *)
Record AstPointSet : Type := mkPointSet {
  ncoord : Z;
  npoint : Z;
  ptr : list (list double)
}.

(** Frames, Mappings and FrameSets are implemented by other classes.  The
    interface lists the methods region.c invokes on them. *)
Class Collaborators : Type := {
  AstFrame : Type;
  AstMapping : Type;
  AstFrameSet : Type;
  (* Object *)
  astEqual_PointSet : option AstPointSet -> option AstPointSet -> bool;
  astEqual_Frame : AstFrame -> AstFrame -> bool;
  astEqual_Mapping : AstMapping -> AstMapping -> bool;
  astIsA : string -> string -> bool;   (* [astIsA c k]: class [c] is [k] or derives from it *)
  (* Frame *)
  astFrame : Z -> string -> AstFrame;
  astGetNaxes_Frame : AstFrame -> Z;
  astAxDistance : AstFrame -> Z -> double -> double -> double;
  astConvert_Frame : AstFrame -> AstFrame -> option AstFrameSet;
  (* Mapping *)
  astGetNin : AstMapping -> Z;
  astGetNout : AstMapping -> Z;
  astGetTranForward : AstMapping -> bool;
  astGetTranInverse : AstMapping -> bool;
  astIsAUnitMap : AstMapping -> bool;
  astSimplify : AstMapping -> AstMapping;
  astCmpMap : AstMapping -> AstMapping -> Z -> AstMapping;
  astMapBox : AstMapping -> list double -> list double -> Z -> Z -> double * double;
  (* FrameSet *)
  astGetFrame : AstFrameSet -> Z -> AstFrame;
  astGetMapping : AstFrameSet -> Z -> Z -> AstMapping;
  astGetNin_FrameSet : AstFrameSet -> Z;
  astGetNout_FrameSet : AstFrameSet -> Z;
  astGetBase : AstFrameSet -> Z;
  astGetCurrent : AstFrameSet -> Z;
  astSetBase : AstFrameSet -> Z -> AstFrameSet;
  astInvert : AstFrameSet -> AstFrameSet;
  astAddFrame : AstFrameSet -> Z -> AstMapping -> AstFrame -> AstFrameSet;
  astRemoveFrame : AstFrameSet -> Z -> AstFrameSet;
  astConvert_FrameSet :
    AstFrameSet -> AstFrameSet -> AstFrameSet * AstFrameSet * option AstFrameSet
}.

(** * The Region structure and the store *)

Definition loc : Type := positive.

(** The members of [AstRegion] that region.c reads and writes, and the
    class name [astGetClass] reports.  Pointer members are [None] when
    [NULL]. *)
Record AstRegion : Type := mkRegion {
  class_name : string;
  frameset : option loc;
  points : option loc;
  basemesh : option loc;
  unc : option loc;
  defunc : Z;
  negated : Z;
  closed : Z;
  meshsize : Z;
  regionfs : Z;
  fillfactor : double
}.

Definition set_frameset (v : option loc) (r : AstRegion) : AstRegion :=
  mkRegion (class_name r) v (points r) (basemesh r) (unc r) (defunc r)
           (negated r) (closed r) (meshsize r) (regionfs r) (fillfactor r).
Definition set_points (v : option loc) (r : AstRegion) : AstRegion :=
  mkRegion (class_name r) (frameset r) v (basemesh r) (unc r) (defunc r)
           (negated r) (closed r) (meshsize r) (regionfs r) (fillfactor r).
Definition set_basemesh (v : option loc) (r : AstRegion) : AstRegion :=
  mkRegion (class_name r) (frameset r) (points r) v (unc r) (defunc r)
           (negated r) (closed r) (meshsize r) (regionfs r) (fillfactor r).
Definition set_unc (v : option loc) (r : AstRegion) : AstRegion :=
  mkRegion (class_name r) (frameset r) (points r) (basemesh r) v (defunc r)
           (negated r) (closed r) (meshsize r) (regionfs r) (fillfactor r).
Definition set_defunc (v : Z) (r : AstRegion) : AstRegion :=
  mkRegion (class_name r) (frameset r) (points r) (basemesh r) (unc r) v
           (negated r) (closed r) (meshsize r) (regionfs r) (fillfactor r).
Definition set_negated (v : Z) (r : AstRegion) : AstRegion :=
  mkRegion (class_name r) (frameset r) (points r) (basemesh r) (unc r) (defunc r)
           v (closed r) (meshsize r) (regionfs r) (fillfactor r).
Definition set_closed (v : Z) (r : AstRegion) : AstRegion :=
  mkRegion (class_name r) (frameset r) (points r) (basemesh r) (unc r) (defunc r)
           (negated r) v (meshsize r) (regionfs r) (fillfactor r).
Definition set_meshsize (v : Z) (r : AstRegion) : AstRegion :=
  mkRegion (class_name r) (frameset r) (points r) (basemesh r) (unc r) (defunc r)
           (negated r) (closed r) v (regionfs r) (fillfactor r).
Definition set_regionfs (v : Z) (r : AstRegion) : AstRegion :=
  mkRegion (class_name r) (frameset r) (points r) (basemesh r) (unc r) (defunc r)
           (negated r) (closed r) (meshsize r) v (fillfactor r).
Definition set_fillfactor (v : double) (r : AstRegion) : AstRegion :=
  mkRegion (class_name r) (frameset r) (points r) (basemesh r) (unc r) (defunc r)
           (negated r) (closed r) (meshsize r) (regionfs r) v.

Section Store.
Context `{K : Collaborators}.

(** The program state: the global error status (with the codes reported
    through [astError], oldest first) and the three object stores.
    Reference counts are not tracked: [astClone] returns its argument and
    [astAnnul] returns [NULL], neither changes the store. *)
Record State : Type := mkState {
  status : option AstErrorCode;
  reported : list AstErrorCode;
  regions : gmap loc AstRegion;
  framesets : gmap loc AstFrameSet;
  pointsets : gmap loc AstPointSet
}.

(** A computation reads and updates the state; [None] stands for undefined
    behaviour of the C code (a [NULL] or dangling pointer followed, an array
    read outside its bounds) and for recursion that does not terminate. *)
Definition M (A : Type) : Type := State -> option (State * A).

Definition ret {A} (a : A) : M A := fun s => Some (s, a).
Definition bind {A B} (m : M A) (k : A -> M B) : M B :=
  fun s => match m s with
           | Some (s', a) => k a s'
           | None => None
           end.
Definition undef {A} : M A := fun _ => None.
Definition lift {A} (o : option A) : M A :=
  fun s => match o with Some a => Some (s, a) | None => None end.

End Store.

Notation "x <- m ;; k" := (bind m (fun x => k))
  (at level 100, m at next level, right associativity).
Notation "m ;;; k" := (bind m (fun _ => k))
  (at level 100, right associativity).

Section Region.
Context `{K : Collaborators}.

(** ** Error status (error.c) *)

Definition astOK : M bool := fun s => Some (s, bool_decide (status s = None)).

(** [astError] sets the global status to the given code and delivers the
    message. *)
Definition astError (e : AstErrorCode) : M unit :=
  fun s => Some (mkState (Some e) (reported s ++ [e])
                         (regions s) (framesets s) (pointsets s), tt).

(** The pattern "if ( !astOK ) return dflt;". *)
Definition ifOK {A} (dflt : A) (m : M A) : M A :=
  ok <- astOK ;; if ok : bool then m else ret dflt.

(** ** Store access *)

Definition getRegion (p : loc) : M AstRegion := fun s => lift (regions s !! p) s.
Definition getFrameSet (p : loc) : M AstFrameSet := fun s => lift (framesets s !! p) s.
Definition getPointSet (p : loc) : M AstPointSet := fun s => lift (pointsets s !! p) s.

Definition putRegion (p : loc) (r : AstRegion) : M unit :=
  fun s => match regions s !! p with
           | Some _ => Some (mkState (status s) (reported s) (<[p := r]> (regions s))
                                      (framesets s) (pointsets s), tt)
           | None => None
           end.
Definition putFrameSet (p : loc) (f : AstFrameSet) : M unit :=
  fun s => match framesets s !! p with
           | Some _ => Some (mkState (status s) (reported s) (regions s)
                                      (<[p := f]> (framesets s)) (pointsets s), tt)
           | None => None
           end.

Definition newRegion (r : AstRegion) : M loc :=
  fun s => let p := fresh (dom (regions s)) in
           Some (mkState (status s) (reported s) (<[p := r]> (regions s))
                         (framesets s) (pointsets s), p).
Definition newFrameSet (f : AstFrameSet) : M loc :=
  fun s => let p := fresh (dom (framesets s)) in
           Some (mkState (status s) (reported s) (regions s)
                         (<[p := f]> (framesets s)) (pointsets s), p).
Definition newPointSet (f : AstPointSet) : M loc :=
  fun s => let p := fresh (dom (pointsets s)) in
           Some (mkState (status s) (reported s) (regions s)
                         (framesets s) (<[p := f]> (pointsets s)), p).

Definition modRegion (p : loc) (f : AstRegion -> AstRegion) : M unit :=
  r <- getRegion p ;; putRegion p (f r).

(** Reading a member, [this->f]. *)
Definition member {A} (f : AstRegion -> A) (this : loc) : M A :=
  r <- getRegion this ;; ret (f r).

(** Following a pointer that the C code dereferences without a test. *)
Definition deref (p : option loc) : M loc := lift p.

(** [this->frameset], followed. *)
Definition regionFrameSet (this : loc) : M AstFrameSet :=
  f <- member frameset this ;; p <- deref f ;; getFrameSet p.

(** ** Member functions inherited from Frame *)

(** [GetNaxes]: the number of axes of the current Frame. *)
Definition GetNaxes (this : loc) : M Z :=
  ifOK 0 (
    fs <- regionFrameSet this ;;
    let fr := astGetFrame fs AST__CURRENT in
    let result := astGetNaxes_Frame fr in
    ok <- astOK ;;
    ret (if ok : bool then result else 0)).

(** ** Attribute access *)

(** Modelled from the spec: the macros astMAKE_CLEAR, astMAKE_GET,
    astMAKE_SET and astMAKE_TEST of object.h, which region.c expands for
    each attribute.  Each function does nothing when the error status is
    set; a getter evaluates its expression and returns the stated neutral
    value if the status is set afterwards; a setter or clearer evaluates
    its expression and stores the value in the member. *)
Definition astMAKE_GET {A} (bad_value : A) (assign : M A) : M A :=
  ifOK bad_value (
    result <- assign ;;
    ok <- astOK ;;
    ret (if ok : bool then result else bad_value)).

Definition astMAKE_TEST (assign : M bool) : M Z :=
  ifOK 0 (
    result <- assign ;;
    ok <- astOK ;;
    ret (if ok && result then 1 else 0)).

Definition astMAKE_SET {A} (this : loc) (store : A -> AstRegion -> AstRegion)
    (assign : M A) : M unit :=
  ifOK tt (v <- assign ;; modRegion this (store v)).

Definition astMAKE_CLEAR {A} := @astMAKE_SET A.

(** Negated: 0 or 1, [-INT_MAX] when undefined, default 0. *)
Definition ClearNegated (this : loc) : M unit :=
  astMAKE_CLEAR this set_negated (ret (- INT_MAX)).
Definition GetNegated (this : loc) : M Z :=
  astMAKE_GET 0 (v <- member negated this ;; ret (if v =? - INT_MAX then 0 else v)).
Definition SetNegated (this : loc) (value : Z) : M unit :=
  astMAKE_SET this set_negated (ret (if value =? 0 then 0 else 1)).
Definition TestNegated (this : loc) : M Z :=
  astMAKE_TEST (v <- member negated this ;; ret (negb (v =? - INT_MAX))).

(** RegionFS: 0 or 1, [-INT_MAX] when undefined, default 1. *)
Definition ClearRegionFS (this : loc) : M unit :=
  astMAKE_CLEAR this set_regionfs (ret (- INT_MAX)).
Definition GetRegionFS (this : loc) : M Z :=
  astMAKE_GET 1 (v <- member regionfs this ;; ret (if v =? - INT_MAX then 1 else v)).
Definition SetRegionFS (this : loc) (value : Z) : M unit :=
  astMAKE_SET this set_regionfs (ret (if value =? 0 then 0 else 1)).
Definition TestRegionFS (this : loc) : M Z :=
  astMAKE_TEST (v <- member regionfs this ;; ret (negb (v =? - INT_MAX))).

(** FillFactor: a double, [AST__BAD] when undefined, default 1.0.  The
    setter reports [AST__ATSER] twice for a value below 0.0 or above 1.0 and
    then assigns the member its own value. *)
Definition ClearFillFactor (this : loc) : M unit :=
  astMAKE_CLEAR this set_fillfactor (ret AST__BAD).
Definition GetFillFactor (this : loc) : M double :=
  astMAKE_GET dbl_1
    (v <- member fillfactor this ;; ret (if dbl_eq v AST__BAD then dbl_1 else v)).
Definition TestFillFactor (this : loc) : M Z :=
  astMAKE_TEST (v <- member fillfactor this ;; ret (negb (dbl_eq v AST__BAD))).
Definition SetFillFactor (this : loc) (value : double) : M unit :=
  astMAKE_SET this set_fillfactor
    (if dbl_lt value dbl_0 || dbl_lt dbl_1 value
     then astError AST__ATSER ;;; astError AST__ATSER ;;; member fillfactor this
     else ret value).

(** MeshSize: an int, [-INT_MAX] when undefined; the default depends on the
    number of axes.  Setting or clearing it annuls the cached base mesh. *)
Definition annulBaseMesh (this : loc) : M unit :=
  b <- member basemesh this ;;
  match b with
  | Some _ => modRegion this (set_basemesh None)
  | None => ret tt
  end.
Definition ClearMeshSize (this : loc) : M unit :=
  astMAKE_CLEAR this set_meshsize (annulBaseMesh this ;;; ret (- INT_MAX)).
Definition SetMeshSize (this : loc) (value : Z) : M unit :=
  astMAKE_SET this set_meshsize
    (annulBaseMesh this ;;; ret (if value >? 5 then value else 5)).
Definition TestMeshSize (this : loc) : M Z :=
  astMAKE_TEST (v <- member meshsize this ;; ret (negb (v =? - INT_MAX))).
Definition GetMeshSize (this : loc) : M Z :=
  astMAKE_GET 0 (
    v <- member meshsize this ;;
    if v =? - INT_MAX then
      n1 <- GetNaxes this ;;
      if n1 =? 1 then ret 2
      else n2 <- GetNaxes this ;; ret (if n2 =? 2 then 200 else 2000)
    else ret v).

(** Closed: 0 or 1, [-INT_MAX] when undefined, default 1. *)
Definition ClearClosed (this : loc) : M unit :=
  astMAKE_CLEAR this set_closed (ret (- INT_MAX)).
Definition GetClosed (this : loc) : M Z :=
  astMAKE_GET 1 (v <- member closed this ;; ret (if v =? - INT_MAX then 1 else v)).
Definition SetClosed (this : loc) (value : Z) : M unit :=
  astMAKE_SET this set_closed (ret (if value =? 0 then 0 else 1)).
Definition TestClosed (this : loc) : M Z :=
  astMAKE_TEST (v <- member closed this ;; ret (negb (v =? - INT_MAX))).

(** ** Negate *)

(** [Negate] toggles the Negated attribute. *)
Definition Negate (this : loc) : M unit :=
  ifOK tt (
    n <- GetNegated this ;;
    SetNegated this (if n =? 0 then 1 else 0)).

End Region.

(** * Virtual functions supplied by other classes *)

(** The Region methods that concrete shapes implement or override, the
    Box constructor, and the Mapping methods that create or consume
    PointSets and arrays.  They run in the same state as region.c. *)
Class Methods `{K : Collaborators} : Type := {
  astGetBounded : loc -> M Z;
  astRegBaseBox : loc -> M (list double * list double);
  astRegBaseMesh : loc -> M (option loc);
  astRegPins : loc -> option loc -> option loc -> M Z;
  astRegCentre : loc -> option (list double) -> list (list double) -> Z -> Z -> M unit;
  astTransform : AstMapping -> option loc -> Z -> M (option loc);
  astTransform_Region : loc -> option loc -> Z -> M (option loc);
  astBox : AstFrame -> Z -> list double -> list double -> option loc -> M (option loc);
  astResample : forall X : Type,
    loc -> Z -> list Z -> list Z -> list X -> X -> list Z -> list Z ->
    option (list X) -> M (Z * option (list X))
}.

Section Functions.
Context `{K : Collaborators} `{!Methods}.

(** ** Object methods (object.c) *)

(** The virtual function interfaces check the status, then dispatch: with
    the status set they return at once and do not follow their pointer. *)
Definition invoke {A} (dflt : A) (f : loc -> M A) (this : option loc) : M A :=
  ifOK dflt (p <- deref this ;; f p).

Definition astClone (this : option loc) : M (option loc) :=
  invoke None (fun p => ret (Some p)) this.

Definition astIsAObject (p : loc) : M bool :=
  fun s => Some (s, bool_decide (is_Some (regions s !! p))).

Definition astCopy_FrameSet (this : option loc) : M (option loc) :=
  invoke None (fun p => v <- getFrameSet p ;; q <- newFrameSet v ;; ret (Some q)) this.
Definition astCopy_PointSet (this : option loc) : M (option loc) :=
  invoke None (fun p => v <- getPointSet p ;; q <- newPointSet v ;; ret (Some q)) this.

(** The copy constructor of region.c.  [copy] is [astCopy] on Regions. *)
Definition Copy (copy : option loc -> M (option loc)) (objin objout : loc) : M unit :=
  ifOK tt (
    modRegion objout (set_basemesh None) ;;;
    modRegion objout (set_frameset None) ;;;
    modRegion objout (set_points None) ;;;
    modRegion objout (set_unc None) ;;;
    f <- member frameset objin ;;
    f' <- astCopy_FrameSet f ;;
    modRegion objout (set_frameset f') ;;;
    p <- member points objin ;;
    (match p with
     | Some _ => p' <- astCopy_PointSet p ;; modRegion objout (set_points p')
     | None => ret tt
     end) ;;;
    b <- member basemesh objin ;;
    (match b with
     | Some _ => b' <- astCopy_PointSet b ;; modRegion objout (set_basemesh b')
     | None => ret tt
     end) ;;;
    u <- member unc objin ;;
    (match u with
     | Some _ => u' <- copy u ;; modRegion objout (set_unc u')
     | None => ret tt
     end)).

(** Modelled from the spec: [astCopy] of object.c on a Region, a deep copy.
    It copies the structure member by member into new memory and runs the
    copy constructor; if that fails the new object is deleted and [NULL]
    returned.  The recursion follows the [unc] members. *)
Fixpoint astCopy_rec (fuel : nat) (this : option loc) : M (option loc) :=
  match fuel with
  | O => undef
  | S n =>
      invoke None (fun p =>
        r <- getRegion p ;;
        new <- newRegion r ;;
        Copy (astCopy_rec n) p new ;;;
        ok <- astOK ;;
        ret (if ok : bool then Some new else None)) this
  end.

(** A chain of [unc] members is at most as long as there are Regions. *)
Definition astCopy (this : option loc) : M (option loc) :=
  fun s => astCopy_rec (S (size (regions s))) this s.

(** ** Virtual function interfaces of the Region class *)

Definition astNegate_ := invoke tt Negate.
Definition astGetNegated_ := invoke 0 GetNegated.
Definition astGetClosed_ := invoke 1 GetClosed.
Definition astGetNaxes_ := invoke 0 GetNaxes.
Definition astSetRegionFS_ (this : option loc) (value : Z) :=
  invoke tt (fun p => SetRegionFS p value) this.
Definition astGetBounded_ := invoke 0 astGetBounded.
Definition astRegBaseBox_ := invoke ([], []) astRegBaseBox.
Definition astRegBaseMesh_ := invoke None astRegBaseMesh.
Definition astRegPins_ (this pset unc : option loc) : M Z :=
  invoke 0 (fun p => astRegPins p pset unc) this.
Definition astTransform_ (map : option AstMapping) (pset : option loc) (forward : Z) :=
  ifOK None (m <- lift map ;; astTransform m pset forward).
Definition astIsAUnitMap_ (map : option AstMapping) : bool :=
  match map with Some m => astIsAUnitMap m | None => false end.
Definition astTransform_Region_ (this pset : option loc) (forward : Z) :=
  invoke None (fun p => astTransform_Region p pset forward) this.
Definition astBox_ (frame : AstFrame) (form : Z) (point1 point2 : list double)
    (unc : option loc) : M (option loc) :=
  ifOK None (astBox frame form point1 point2 unc).
Definition astGetNcoord_ := invoke 0 (fun p => v <- getPointSet p ;; ret (ncoord v)).
Definition astGetNpoint_ := invoke 0 (fun p => v <- getPointSet p ;; ret (npoint v)).
Definition astGetPoints_ := invoke [] (fun p => v <- getPointSet p ;; ret (ptr v)).

(** ** GetBounded *)

(** The implementation of the base class: bounded unless negated. *)
Definition GetBounded (this : loc) : M Z :=
  n <- astGetNegated_ (Some this) ;; ret (if n =? 0 then 1 else 0).

(** ** Meshes and bounding boxes in the current Frame *)

(** [RegMapping]: the simplified base to current Mapping. *)
Definition RegMapping (this : loc) : M (option AstMapping) :=
  ifOK None (
    fs <- regionFrameSet this ;;
    ret (Some (astSimplify (astGetMapping fs AST__BASE AST__CURRENT)))).

(** [RegMesh]: the boundary mesh in the current Frame.  The base Frame
    mesh is created on first use and kept in the Region. *)
Definition RegMesh (this : loc) : M (option loc) :=
  ifOK None (
    b <- member basemesh this ;;
    (match b with
     | None => m <- astRegBaseMesh_ (Some this) ;; modRegion this (set_basemesh m)
     | Some _ => ret tt
     end) ;;;
    map <- RegMapping this ;;
    result <- (if astIsAUnitMap_ map then
                 b <- member basemesh this ;; astClone b
               else
                 b <- member basemesh this ;; astTransform_ map b 1) ;;
    ok <- astOK ;;
    ret (if ok : bool then result else None)).

Definition astRegMesh_ := invoke None RegMesh.

(** The two loops of [RegCurBox] over the current Frame axes. *)
Fixpoint RegCurBox_copy (n i : nat) (lbndb ubndb : list double)
    : option (list double * list double) :=
  match n with
  | O => Some ([], [])
  | S n' =>
      l ← lbndb !! i;
      u ← ubndb !! i;
      r ← RegCurBox_copy n' (S i) lbndb ubndb;
      Some (l :: r.1, u :: r.2)
  end.

Fixpoint RegCurBox_map (smap : AstMapping) (n i : nat) (lbndb ubndb : list double)
    : list double * list double :=
  match n with
  | O => ([], [])
  | S n' =>
      let b := astMapBox smap lbndb ubndb 1 (Z.of_nat i) in
      let r := RegCurBox_map smap n' (S i) lbndb ubndb in
      (b.1 :: r.1, b.2 :: r.2)
  end.

(** [RegCurBox]: the bounding box in the current Frame, of the Region as
    it is when not negated. *)
Definition RegCurBox (this : loc) : M (list double * list double) :=
  ifOK ([], []) (
    fs <- regionFrameSet this ;;
    let ncur := astGetNout_FrameSet fs in
    box <- astRegBaseBox_ (Some this) ;;
    smap <- RegMapping this ;;
    ok <- astOK ;;
    if ok : bool then
      m <- lift smap ;;
      if astIsAUnitMap m
      then lift (RegCurBox_copy (Z.to_nat ncur) 0 box.1 box.2)
      else ret (RegCurBox_map m (Z.to_nat ncur) 0 box.1 box.2)
    else ret ([], [])).

Definition astRegCurBox_ := invoke ([], []) RegCurBox.

(** ** MapRegion *)

Definition MapRegion (this : loc) (map : AstMapping) (frame : AstFrame)
    : M (option loc) :=
  ifOK None (
    (if negb (astGetTranInverse map) then astError AST__NODEF
     else if negb (astGetTranForward map) then astError AST__NODEF
     else ret tt) ;;;
    result <- astCopy (Some this) ;;
    ok <- astOK ;;
    (if ok : bool then
       res <- deref result ;;
       f <- member frameset res ;;
       fs <- deref f ;;
       v <- getFrameSet fs ;;
       let icurr := astGetCurrent v in
       putFrameSet fs (astAddFrame v AST__CURRENT map frame) ;;;
       v' <- getFrameSet fs ;;
       putFrameSet fs (astRemoveFrame v' icurr) ;;;
       astSetRegionFS_ result 1
     else ret tt) ;;;
    ok <- astOK ;;
    ret (if ok : bool then result else None)).

Definition astMapRegion_ (this : option loc) (map : AstMapping) (frame : AstFrame) :=
  invoke None (fun p => MapRegion p map frame) this.

(** ** Uncertainty *)

(** The loop of [GetDefUnc] over the base Frame axes, from axis [i] for
    [n] iterations: the axis length is read from the bounding box, then
    both array elements are overwritten. *)
Fixpoint GetDefUnc_loop (bfrm : AstFrame) (n i : nat) (lbnd ubnd : list double)
    : option (list double * list double) :=
  match n with
  | O => Some (lbnd, ubnd)
  | S n' =>
      l ← lbnd !! i;
      u ← ubnd !! i;
      let axlen := astAxDistance bfrm (Z.of_nat i + 1) l u in
      GetDefUnc_loop bfrm n' (S i) (<[i := dbl_0]> lbnd)
                     (<[i := dbl_mul dbl_half_micro axlen]> ubnd)
  end.

Definition GetDefUnc (this : loc) : M (option loc) :=
  ifOK None (
    fs <- regionFrameSet this ;;
    let bfrm := astGetFrame fs AST__BASE in
    let nax := astGetNaxes_Frame bfrm in
    box <- astRegBaseBox_ (Some this) ;;
    ok <- astOK ;;
    result <- (if ok : bool then
                 b <- lift (GetDefUnc_loop bfrm (Z.to_nat nax) 0 box.1 box.2) ;;
                 astBox_ bfrm 0 b.1 b.2 None
               else ret None) ;;
    ok <- astOK ;;
    ret (if ok : bool then result else None)).

Definition astGetDefUnc_ := invoke None GetDefUnc.

Definition GetUnc (this : loc) (ifrm : Z) : M (option loc) :=
  ifOK None (
    u <- member unc this ;;
    (match u with
     | None =>
         d <- astGetDefUnc_ (Some this) ;;
         modRegion this (set_unc d) ;;;
         modRegion this (set_defunc 1)
     | Some _ => ret tt
     end) ;;;
    result <- (if ifrm =? AST__BASE then
                 u <- member unc this ;; astClone u
               else
                 fs <- regionFrameSet this ;;
                 let map := astGetMapping fs AST__BASE AST__CURRENT in
                 if astIsAUnitMap map then
                   u <- member unc this ;; astClone u
                 else
                   let frm := astGetFrame fs AST__CURRENT in
                   u <- member unc this ;; astMapRegion_ u map frm) ;;
    ok <- astOK ;;
    ret (if ok : bool then result else None)).

Definition astGetUnc_ (this : option loc) (ifrm : Z) :=
  invoke None (fun p => GetUnc p ifrm) this.

Definition TestUnc (this : loc) : M Z :=
  ifOK 0 (
    u <- member unc this ;;
    d <- member defunc this ;;
    ret (if bool_decide (is_Some u) && (d =? 0) then 1 else 0)).

Definition ClearUnc (this : loc) : M unit :=
  ifOK tt (
    u <- member unc this ;;
    (if bool_decide (is_Some u) then modRegion this (set_unc None) else ret tt) ;;;
    modRegion this (set_defunc 1)).

(** [Conv]: [astConvert] between two FrameSets, with their base Frames
    re-instated afterwards. *)
Definition Conv (from to : loc) : M (option AstFrameSet) :=
  ifOK None (
    tv <- getFrameSet to ;;
    let to_base := astGetBase tv in
    fv <- getFrameSet from ;;
    let from_base := astGetBase fv in
    let c := astConvert_FrameSet fv tv in
    putFrameSet from c.1.1 ;;;
    putFrameSet to c.1.2 ;;;
    tv' <- getFrameSet to ;;
    putFrameSet to (astSetBase tv' to_base) ;;;
    fv' <- getFrameSet from ;;
    putFrameSet from (astSetBase fv' from_base) ;;;
    ret c.2).

(** [Convert], the Frame method as over-ridden for Regions, applied to two
    Regions: [astConvert] between their current Frames. *)
Definition Convert (from to : loc) : M (option AstFrameSet) :=
  ifOK None (
    ffs <- regionFrameSet from ;;
    tfs <- regionFrameSet to ;;
    ret (astConvert_Frame (astGetFrame ffs AST__CURRENT) (astGetFrame tfs AST__CURRENT))).

Definition astConvert_ (from to : option loc) : M (option AstFrameSet) :=
  ifOK None (f <- deref from ;; t <- deref to ;; Convert f t).

Definition usable_unc_class (c : string) : bool :=
  astIsA c "Box" || astIsA c "Circle" || astIsA c "Ellipse".

Definition SetUnc (this : loc) (unc_ : option loc) : M unit :=
  ifOK tt (
    old <- member unc this ;;
    (match old with
     | Some p =>
         isobj <- astIsAObject p ;;
         if isobj : bool then modRegion this (set_unc None) else ret tt
     | None => ret tt
     end) ;;;
    modRegion this (set_defunc 1) ;;;
    usable <- (match unc_ with
               | Some q => c <- member class_name q ;; ret (usable_unc_class c)
               | None => ret false
               end) ;;
    if usable : bool then
      q <- deref unc_ ;;
      f <- member frameset this ;;
      fs <- deref f ;;
      v <- getFrameSet fs ;;
      putFrameSet fs (astInvert v) ;;;
      uf <- member frameset q ;;
      ufs <- deref uf ;;
      fs2 <- Conv ufs fs ;;
      v' <- getFrameSet fs ;;
      putFrameSet fs (astInvert v') ;;;
      match fs2 with
      | Some w =>
          let map := astGetMapping w AST__BASE AST__CURRENT in
          let frm := astGetFrame w AST__CURRENT in
          new <- astMapRegion_ unc_ map frm ;;
          modRegion this (set_unc new) ;;;
          b <- astGetBounded_ new ;;
          (if b =? 0 then astNegate_ new else ret tt) ;;;
          modRegion this (set_defunc 0) ;;;
          n <- deref new ;;
          nfs <- regionFrameSet n ;;
          let map2 := astGetMapping nfs AST__BASE AST__CURRENT in
          let smap := astSimplify map2 in
          (if astIsAUnitMap smap then astSetRegionFS_ new 0 else ret tt) ;;;
          pts <- member points this ;;
          ptr_reg <- astGetPoints_ pts ;;
          invoke tt (fun p => astRegCentre p None ptr_reg 0 AST__CURRENT) new
      | None =>
          ok <- astOK ;;
          if ok : bool then astError AST__BADIN ;;; astError AST__NCPIN else ret tt
      end
    else
      ok <- astOK ;;
      if bool_decide (is_Some unc_) && ok
      then astError AST__BADIN ;;; astError AST__NCPIN
      else ret tt).

(** ** Equal *)

(** The PointSet a member points to, for [astEqual]. *)
Definition pointSetOf (p : option loc) : M (option AstPointSet) :=
  match p with
  | Some q => v <- getPointSet q ;; ret (Some v)
  | None => ret None
  end.

Definition Equal (this_object that_object : loc) : M Z :=
  ifOK 0 (
    class1 <- member class_name this_object ;;
    class2 <- member class_name that_object ;;
    ok <- astOK ;;
    result <-
      (if ok && String.eqb class1 class2 then
         p1 <- member points this_object ;;
         p2 <- member points that_object ;;
         ps1 <- pointSetOf p1 ;;
         ps2 <- pointSetOf p2 ;;
         if astEqual_PointSet ps1 ps2 then
           fs1 <- regionFrameSet this_object ;;
           fs2 <- regionFrameSet that_object ;;
           let bf1 := astGetFrame fs1 AST__BASE in
           let bf2 := astGetFrame fs2 AST__BASE in
           if astEqual_Frame bf1 bf2 then
             let cf1 := astGetFrame fs1 AST__CURRENT in
             let cf2 := astGetFrame fs2 AST__CURRENT in
             if astEqual_Frame cf1 cf2 then
               let m1 := astGetMapping fs1 AST__BASE AST__CURRENT in
               let m2 := astGetMapping fs2 AST__BASE AST__CURRENT in
               if astEqual_Mapping m1 m2 then
                 n1 <- astGetNegated_ (Some this_object) ;;
                 n2 <- astGetNegated_ (Some that_object) ;;
                 if n1 =? n2 then
                   c1 <- astGetClosed_ (Some this_object) ;;
                   c2 <- astGetClosed_ (Some that_object) ;;
                   ret (if c1 =? c2 then 1 else 0)
                 else ret 0
               else ret 0
             else ret 0
           else ret 0
         else ret 0
       else ret 0) ;;
    ok <- astOK ;;
    ret (if ok : bool then result else 0)).

(** ** Overlap *)

(** The scan of one axis of the transformed mesh: [n] values from index
    [ip], updating the flags (allbad, allgood) and leaving the loop once
    both are clear. *)
Fixpoint scan_axis (n ip : nat) (p : list double) (flags : bool * bool)
    : option (bool * bool) :=
  match n with
  | O => Some flags
  | S n' =>
      x ← p !! ip;
      if dbl_eq x AST__BAD then
        if negb flags.1 then Some (flags.1, false)
        else scan_axis n' (S ip) p (flags.1, false)
      else
        if negb flags.2 then Some (false, flags.2)
        else scan_axis n' (S ip) p (false, flags.2)
  end.

Fixpoint scan_axes (n iax : nat) (np : nat) (ptr_ : list (list double))
    (flags : bool * bool) : option (bool * bool) :=
  match n with
  | O => Some flags
  | S n' =>
      p ← ptr_ !! iax;
      flags' ← scan_axis np 0 p flags;
      scan_axes n' (S iax) np ptr_ flags'
  end.

(** Exchange of the codes 2 and 3. *)
Definition swap23 (result : Z) : Z :=
  if result =? 2 then 3 else if result =? 3 then 2 else result.

(** Whether a Region has a boundary of finite length: it is bounded, or
    becomes bounded when negated. *)
Definition finite_boundary (this : option loc) : M Z :=
  b <- astGetBounded_ this ;;
  if b =? 0 then
    astNegate_ this ;;;
    b' <- astGetBounded_ this ;;
    astNegate_ this ;;;
    ret b'
  else ret b.

(** The comparison of the mesh of [reg2] with [reg1], entered once the
    connecting FrameSet [fs] has been found; [result] is the value the
    variable holds on entry, which some paths leave as it is. *)
Definition OverlapX_mesh (reg1 reg2 : loc) (bnd1 result : Z) (fs : AstFrameSet)
    : M Z :=
  fs1 <- regionFrameSet reg1 ;;
  let frm_reg1 := astGetFrame fs1 AST__CURRENT in
  let map_reg1 := astGetMapping fs1 AST__CURRENT AST__BASE in
  let cmap := astGetMapping fs AST__BASE AST__CURRENT in
  let map := astCmpMap cmap map_reg1 1 in
  reg2_mesh <- astRegMesh_ (Some reg2) ;;
  ps1 <- astTransform_ (Some map) reg2_mesh 1 ;;
  unc_ <- astGetUnc_ (Some reg2) AST__CURRENT ;;
  unc1 <- astMapRegion_ unc_ map frm_reg1 ;;
  pins <- astRegPins_ (Some reg1) ps1 unc1 ;;
  if negb (pins =? 0) then
    b1 <- astGetBounded_ (Some reg1) ;;
    b2 <- astGetBounded_ (Some reg2) ;;
    ret (if b1 =? b2 then 5 else 6)
  else
    ps1' <- astTransform_ (Some cmap) reg2_mesh 1 ;;
    ps2 <- astTransform_Region_ (Some reg1) ps1' 1 ;;
    nc <- astGetNcoord_ ps2 ;;
    np <- astGetNpoint_ ps2 ;;
    ptr_ <- astGetPoints_ ps2 ;;
    ok <- astOK ;;
    if ok : bool then
      flags <- lift (scan_axes (Z.to_nat nc) 0 (Z.to_nat np) ptr_ (true, true)) ;;
      let allbad := flags.1 in
      let allgood := flags.2 in
      if allgood : bool then
        b2 <- astGetBounded_ (Some reg2) ;; ret (if b2 =? 0 then 4 else 3)
      else if negb allbad then ret 4
      else
        b1 <- astGetBounded_ (Some reg1) ;;
        if b1 =? 0 then
          b2 <- astGetBounded_ (Some reg2) ;; ret (if b2 =? 0 then 2 else 1)
        else if bnd1 =? 0 then
          ok <- astOK ;;
          (if ok : bool then astError AST__INTER else ret tt) ;;; ret result
        else
          reg1_mesh <- astRegMesh_ (Some reg1) ;;
          ps3 <- astTransform_ (Some cmap) reg1_mesh 0 ;;
          ps4 <- astTransform_Region_ (Some reg2) ps3 1 ;;
          ptr4 <- astGetPoints_ ps4 ;;
          ok <- astOK ;;
          if ok : bool then
            x <- lift (p ← ptr4 !! 0%nat; p !! 0%nat) ;;
            ret (if dbl_eq x AST__BAD then 1 else 2)
          else ret result
    else ret result.

(** The comparison of the two Regions in the order chosen: [reg2] is the
    Region whose mesh is tested against [reg1]. *)
Definition OverlapX_ordered (reg1 reg2 : loc) (bnd1 result : Z) : M Z :=
  fs <- astConvert_ (Some reg2) (Some reg1) ;;
  match fs with
  | Some w => OverlapX_mesh reg1 reg2 bnd1 result w
  | None => ret result
  end.

(** The part of [OverlapX] that follows the tests for a finite boundary:
    the Region with a finite boundary is made the second one, the two are
    compared, and the result is put the way round the caller expects. *)
Definition OverlapX_compare (that this : loc) (result bnd_this bnd_that : Z) : M Z :=
  ok <- astOK ;;
  (if (bnd_this =? 0) && (bnd_that =? 0) && ok
   then astError AST__INTER ;;; astError AST__INTER
   else ret tt) ;;;
  let reg1 := if negb (bnd_that =? 0) then this else that in
  let reg2 := if negb (bnd_that =? 0) then that else this in
  let bnd1 := if negb (bnd_that =? 0) then bnd_this else bnd_that in
  result <- OverlapX_ordered reg1 reg2 bnd1 result ;;
  let result := if Pos.eqb reg1 that then swap23 result else result in
  ok <- astOK ;;
  ret (if ok : bool then result else 0).

Definition OverlapX (that this : loc) : M Z :=
  ifOK 0 (
    eq <- Equal this that ;;
    if negb (eq =? 0) then ret 5
    else
      astNegate_ (Some this) ;;;
      result <- Equal this that ;;
      astNegate_ (Some this) ;;;
      if negb (result =? 0) then ret 6
      else
        bnd_this <- finite_boundary (Some this) ;;
        bnd_that <- finite_boundary (Some that) ;;
        OverlapX_compare that this result bnd_this bnd_that).

Definition astOverlapX_ (that this : option loc) : M Z :=
  ifOK 0 (t <- deref that ;; u <- deref this ;; OverlapX t u).

(** [Overlap] invokes [astOverlapX] with the two arguments swapped. *)
Definition Overlap (this that : loc) : M Z :=
  ifOK 0 (astOverlapX_ (Some that) (Some this)).

Definition astOverlap_ (this that : option loc) : M Z :=
  ifOK 0 (t <- deref this ;; u <- deref that ;; Overlap t u).

(** ** Mask<X> *)

(** The conversion [(int) x] of a double: truncation towards zero,
    undefined for values that are not finite or outside the range of
    [int]. *)
Definition dbl_to_int (x : double) : option Z :=
  match x with
  | S754_zero _ => Some 0
  | S754_finite sg m e =>
      let a := if 0 <=? e then Z.pos m * 2 ^ e else Z.pos m / 2 ^ (- e) in
      let v := if sg : bool then - a else a in
      if (- 2147483648 <=? v) && (v <=? INT_MAX) then Some v else None
  | _ => None
  end.

Section Mask.
Variable Xtype : Type.

(** The loop that checks the grid bounds: it reports [AST__GBDIN] twice
    for the first axis whose lower bound exceeds the upper bound and stops
    there. *)
Fixpoint Mask_check (n idim : nat) (lbnd ubnd : list Z) : M unit :=
  match n with
  | O => ret tt
  | S n' =>
      l <- lift (lbnd !! idim) ;;
      u <- lift (ubnd !! idim) ;;
      if l >? u then astError AST__GBDIN ;;; astError AST__GBDIN
      else Mask_check n' (S idim) lbnd ubnd
  end.

(** The loop that clips the bounding box of the Region to the grid and
    counts the pixels of the grid and of the box. *)
Fixpoint Mask_box (n idim : nat) (lbnd ubnd : list Z) (lbndgd ubndgd : list double)
    (acc : list Z * list Z * Z * Z) : option (list Z * list Z * Z * Z) :=
  match n with
  | O => Some acc
  | S n' =>
      let '(lbndg, ubndg, npix, npixg) := acc in
      l ← lbnd !! idim;
      u ← ubnd !! idim;
      ld ← lbndgd !! idim;
      ud ← ubndgd !! idim;
      li ← dbl_to_int (dbl_add ld dbl_half);
      ui ← dbl_to_int (dbl_add ud dbl_half);
      let lg := Z.max l (wrap_int (li - 2)) in
      let ug := Z.min u (wrap_int (ui + 2)) in
      Mask_box n' (S idim) lbnd ubnd lbndgd ubndgd
        (lbndg ++ [lg], ubndg ++ [ug],
         wrap_int (npix * wrap_int (wrap_int (u - l) + 1)),
         wrap_int (npixg * wrap_int (wrap_int (ug - lg) + 1)))
  end.

(** The first part of [Mask<X>]: the axis counts are checked and the
    Region to use is obtained, mapped into grid coordinates if a Mapping
    is supplied. *)
Definition Mask_region (this : loc) (map : option AstMapping) (ndim : Z)
    : M (option loc) :=
  nax <- astGetNaxes_ (Some this) ;;
  match map with
  | Some m =>
      let nin := astGetNin m in
      let nout := astGetNout m in
      ok <- astOK ;;
      (if ok && negb (nax =? nin)
       then astError AST__NGDIN ;;; astError AST__NGDIN else ret tt) ;;;
      ok <- astOK ;;
      (if ok && negb (ndim =? nout)
       then astError AST__NGDIN ;;; astError AST__NGDIN else ret tt) ;;;
      let grid_frame := astFrame ndim "Domain=grid" in
      astMapRegion_ (Some this) m grid_frame
  | None =>
      ok <- astOK ;;
      if ok && (negb (ndim =? nax) || (ndim <? 1)) then
        astError AST__NGDIN ;;;
        (if negb (ndim =? nax) then astError AST__NGDIN else ret tt) ;;;
        ret None
      else astClone (Some this)
  end.

(** [astMalloc] of [npix] elements, each then set to [val]: [NULL]
    without an error for a size of zero, [AST__NOMEM] for a size that
    cannot be allocated. *)
Definition Mask_fill (npix : Z) (val : Xtype) : M (option (list Xtype)) :=
  ifOK None (
    if npix =? 0 then ret None
    else if npix <? 0 then astError AST__NOMEM ;;; ret None
    else ret (Some (repeat val (Z.to_nat npix)))).

Definition Mask (this : loc) (map : option AstMapping) (inside ndim : Z)
    (lbnd ubnd : list Z) (in_ : list Xtype) (val : Xtype) : M (Z * list Xtype) :=
  ifOK (0, in_) (
    used_region <- Mask_region this map ndim ;;
    ok <- astOK ;;
    (if ok : bool then Mask_check (Z.to_nat ndim) 0 lbnd ubnd else ret tt) ;;;
    ok <- astOK ;;
    out <-
      (if ok : bool then
         box <- astRegCurBox_ used_region ;;
         b <- lift (Mask_box (Z.to_nat ndim) 0 lbnd ubnd box.1 box.2 ([], [], 1, 1)) ;;
         let '(lbndg, ubndg, npix, npixg) := b in
         neg <- astGetNegated_ used_region ;;
         tmp <- (if Bool.eqb (negb (inside =? 0)) (negb (neg =? 0))
                 then
                   t <- Mask_fill npix val ;;
                   ret (t, if bool_decide (is_Some t) then wrap_int (npix - npixg) else 0)
                 else ret (None, 0)) ;;
         let tmp_out := tmp.1 in
         let result := tmp.2 in
         let out := if Bool.eqb (negb (inside =? 0)) (negb (neg =? 0))
                    then tmp_out else Some in_ in
         (if negb (inside =? 0) then astNegate_ used_region else ret tt) ;;;
         r <- ifOK (0, out)
                (u <- deref used_region ;;
                 astResample Xtype u ndim lbnd ubnd in_ val lbndg ubndg out) ;;
         let result := wrap_int (result + r.1) in
         (if negb (inside =? 0) then astNegate_ used_region else ret tt) ;;;
         match tmp_out with
         | Some _ =>
             c <- lift r.2 ;;
             if (Z.of_nat (length c) <? npix) || (Z.of_nat (length in_) <? npix)
             then undef
             else ret (result, take (Z.to_nat npix) c ++ drop (Z.to_nat npix) in_)
         | None =>
             match r.2 with
             | Some d => ret (result, d)
             | None => ret (result, in_)
             end
         end
       else ret (0, in_)) ;;
    ok <- astOK ;;
    ret (if ok : bool then out.1 else 0, out.2)).

End Mask.

End Functions.

(** * Predicates on the store *)

Section StorePredicates.
Context `{K : Collaborators}.

(** Every object of [s] is in [s'], unchanged. *)
Definition heap_le (s s' : State) : Prop :=
  (forall p x, regions s !! p = Some x -> regions s' !! p = Some x) /\
  (forall p x, framesets s !! p = Some x -> framesets s' !! p = Some x) /\
  (forall p x, pointsets s !! p = Some x -> pointsets s' !! p = Some x).

(** No pointer member of [r] refers to an object of [s]. *)
Definition fresh_ptrs (s : State) (r : AstRegion) : Prop :=
  (forall f, frameset r = Some f -> framesets s !! f = None) /\
  (forall p, points r = Some p -> pointsets s !! p = None) /\
  (forall p, basemesh r = Some p -> pointsets s !! p = None) /\
  (forall u, unc r = Some u -> regions s !! u = None).

(** The Regions of [s'] that are not in [s] hold no pointer into [s]:
    nothing reachable from them is shared with an object of [s]. *)
Definition separate (s s' : State) : Prop :=
  forall p r, regions s' !! p = Some r -> regions s !! p = None -> fresh_ptrs s r.

(** The Region at [p] can be copied with [n] nested calls: it and the
    objects it points to exist, down its chain of uncertainty Regions. *)
Fixpoint copyable (n : nat) (s : State) (p : loc) : bool :=
  match n with
  | O => false
  | S n' =>
      match regions s !! p with
      | None => false
      | Some r =>
          match frameset r with
          | Some f => bool_decide (is_Some (framesets s !! f))
          | None => false
          end
          && match points r with
             | Some q => bool_decide (is_Some (pointsets s !! q))
             | None => true
             end
          && match basemesh r with
             | Some q => bool_decide (is_Some (pointsets s !! q))
             | None => true
             end
          && match unc r with
             | Some u => copyable n' s u
             | None => true
             end
      end
  end.

(** What a Region holds: its scalar members and the objects its members
    point to ([None] for a [NULL] member). *)
Definition contents (s : State) (r : AstRegion) :=
  (class_name r, (framesets s !!.) <$> frameset r, (pointsets s !!.) <$> points r,
   (pointsets s !!.) <$> basemesh r, defunc r, negated r, closed r, meshsize r,
   regionfs r, fillfactor r).

(** The Region at [p] in [s] and the Region at [q] in [s'] hold the same,
    down [n] levels of their uncertainty Regions. *)
Fixpoint same_contents (n : nat) (s : State) (p : loc) (s' : State) (q : loc) : Prop :=
  match n with
  | O => True
  | S n' =>
      match regions s !! p, regions s' !! q with
      | Some r, Some r' =>
          contents s r = contents s' r' /\
          match unc r, unc r' with
          | Some u, Some u' => same_contents n' s u s' u'
          | None, None => True
          | _, _ => False
          end
      | _, _ => False
      end
  end.

(** The value of a flag attribute whose member is [v]: the default when
    the member is undefined. *)
Definition flag_value (dflt v : Z) : Z := if v =? - INT_MAX then dflt else v.

(** Equivalence of two Regions in the words of the notes of [Equal]: the
    same class, equal PointSets, equal base Frames, equal current Frames,
    equal base to current Mappings, and the same values of Negated and of
    Closed. *)
Definition equivalent_regions (s : State) (ra rb : AstRegion)
    (fsa fsb : AstFrameSet) : bool :=
  String.eqb (class_name ra) (class_name rb)
  && astEqual_PointSet (points ra ≫= (pointsets s !!.)) (points rb ≫= (pointsets s !!.))
  && astEqual_Frame (astGetFrame fsa AST__BASE) (astGetFrame fsb AST__BASE)
  && astEqual_Frame (astGetFrame fsa AST__CURRENT) (astGetFrame fsb AST__CURRENT)
  && astEqual_Mapping (astGetMapping fsa AST__BASE AST__CURRENT)
                      (astGetMapping fsb AST__BASE AST__CURRENT)
  && (flag_value 0 (negated ra) =? flag_value 0 (negated rb))
  && (flag_value 1 (closed ra) =? flag_value 1 (closed rb)).

(** The same with, in place of the equality of the two Mappings, the
    condition that the base to current Mapping of each Region simplifies
    to a UnitMap. *)
Definition equivalent_regions_unit (s : State) (ra rb : AstRegion)
    (fsa fsb : AstFrameSet) : bool :=
  String.eqb (class_name ra) (class_name rb)
  && astEqual_PointSet (points ra ≫= (pointsets s !!.)) (points rb ≫= (pointsets s !!.))
  && astEqual_Frame (astGetFrame fsa AST__BASE) (astGetFrame fsb AST__BASE)
  && astEqual_Frame (astGetFrame fsa AST__CURRENT) (astGetFrame fsb AST__CURRENT)
  && astIsAUnitMap (astSimplify (astGetMapping fsa AST__BASE AST__CURRENT))
  && astIsAUnitMap (astSimplify (astGetMapping fsb AST__BASE AST__CURRENT))
  && (flag_value 0 (negated ra) =? flag_value 0 (negated rb))
  && (flag_value 1 (closed ra) =? flag_value 1 (closed rb)).

(** A Region whose FrameSet and PointSet members point to objects. *)
Definition region_at (s : State) (p : loc) (r : AstRegion) (fs : AstFrameSet) : Prop :=
  regions s !! p = Some r /\
  (exists f, frameset r = Some f /\ framesets s !! f = Some fs) /\
  (forall q, points r = Some q -> is_Some (pointsets s !! q)).

(** The lengths of the bounding box along the axes of the base Frame,
    from axis [i] on, as [astAxDistance] measures them. *)
Fixpoint axis_lengths (bfrm : AstFrame) (i : nat) (lbnd ubnd : list double)
    : list double :=
  match lbnd, ubnd with
  | l :: lbnd', u :: ubnd' =>
      astAxDistance bfrm (Z.of_nat i + 1) l u :: axis_lengths bfrm (S i) lbnd' ubnd'
  | _, _ => []
  end.

(** The corner of the default uncertainty box: on each axis, from axis
    [i] on, 0.5E-6 times the length of the bounding box as [astAxDistance]
    measures it. *)
Fixpoint defunc_corner (bfrm : AstFrame) (i : nat) (lbnd ubnd : list double)
    : list double :=
  match lbnd, ubnd with
  | l :: lbnd', u :: ubnd' =>
      dbl_mul dbl_half_micro (astAxDistance bfrm (Z.of_nat i + 1) l u)
      :: defunc_corner bfrm (S i) lbnd' ubnd'
  | _, _ => []
  end.

(** The Negated member holds one of the values the class stores in it. *)
Definition negated_valid (r : AstRegion) : Prop :=
  negated r = - INT_MAX \/ negated r = 0 \/ negated r = 1.

(** The Region negated. *)
Definition negation (r : AstRegion) : AstRegion :=
  set_negated (if flag_value 0 (negated r) =? 0 then 1 else 0) r.

(** The Negated member of the Region at [p], if there is one, holds a
    value the class stores in it. *)
Definition negated_valid_at (s : State) (p : loc) : Prop :=
  forall r, regions s !! p = Some r -> negated_valid r.

(** ** States that are alike *)

(** The Region with its Negated member given the value of the attribute:
    0 in place of an undefined member. *)
Definition norm_negated (r : AstRegion) : AstRegion :=
  set_negated (flag_value 0 (negated r)) r.

(** Two states that differ at most in Negated members that are undefined
    in one and 0 in the other. *)
Definition alike (s1 s2 : State) : Prop :=
  status s1 = status s2 /\ reported s1 = reported s2 /\
  norm_negated <$> regions s1 = norm_negated <$> regions s2 /\
  framesets s1 = framesets s2 /\ pointsets s1 = pointsets s2.

(** Two outcomes: both undefined, or alike states with results related
    by [R]. *)
Definition related {A B} (R : A -> B -> Prop)
    (x : option (State * A)) (y : option (State * B)) : Prop :=
  match x, y with
  | Some (s1, a), Some (s2, b) => alike s1 s2 /\ R a b
  | None, None => True
  | _, _ => False
  end.

(** Two computations that take alike states to related outcomes. *)
Definition mrel {A B} (R : A -> B -> Prop) (m1 : M A) (m2 : M B) : Prop :=
  forall s1 s2, alike s1 s2 -> related R (m1 s1) (m2 s2).

(** A computation that cannot tell an undefined Negated member from one
    set to 0. *)
Definition natural {A} (m : M A) : Prop := mrel eq m m.

(** A computation that leaves the state as it found it. *)
Definition readonly {A} (m : M A) : Prop :=
  forall s s' v, m s = Some (s', v) -> s' = s.

(** What a recursive call of [astCopy] on a copyable Region achieves. *)
Definition copies (n : nat) (copy : option loc -> M (option loc)) : Prop :=
  forall (s : State) (this : loc),
    status s = None -> copyable n s this = true ->
    exists s' new, copy (Some this) s = Some (s', Some new) /\
      status s' = None /\ reported s' = reported s /\ heap_le s s' /\
      regions s !! new = None /\ is_Some (regions s' !! new) /\
      separate s s' /\ same_contents n s this s' new.

End StorePredicates.

Section MethodPredicates.
Context `{K : Collaborators} `{!Methods}.

(** The methods of the shapes read the Negated attribute through its
    accessor, and [astGetBounded] changes nothing. *)
Record natural_methods : Prop := {
  natural_astGetBounded : forall p, natural (astGetBounded p);
  natural_astRegBaseBox : forall p, natural (astRegBaseBox p);
  natural_astRegBaseMesh : forall p, natural (astRegBaseMesh p);
  natural_astRegPins : forall p q u, natural (astRegPins p q u);
  natural_astTransform : forall m p f, natural (astTransform m p f);
  natural_astTransform_Region : forall p q f, natural (astTransform_Region p q f);
  natural_astBox : forall f form p1 p2 u, natural (astBox f form p1 p2 u);
  readonly_astGetBounded : forall p, readonly (astGetBounded p)
}.

End MethodPredicates.

(** * A Cartesian implementation of the interface

    Frames are Cartesian with a number of axes and a domain name; Mappings
    are the identity, translations by a whole number, or opaque
    transformations known only by the directions they define; a FrameSet
    lists its Frames with the Mapping from the first Frame to each.  The
    shapes are the Box, stored as centre and corner, and the Interval,
    stored as lower and upper limits of which some may be missing.  The
    theorems are instantiated and the examples computed in this
    implementation. *)

Definition dbl_sub : double -> double -> double := SFsub 53 1024.
Definition dbl_le : double -> double -> bool := SFleb.
Definition dbl_of_Z (z : Z) : double := binary_normalize 53 1024 z 0 false.

#[global] Instance double_eq_dec : EqDecision double.
Proof. solve_decision. Defined.
#[global] Instance AstPointSet_eq_dec : EqDecision AstPointSet.
Proof. solve_decision. Defined.

Record CFrame : Type := mkCFrame { cf_naxes : Z; cf_domain : string }.

Inductive CMap : Type :=
| CUnit (n : Z)
| CShift (n : Z) (d : Z)
| COpaque (nin nout : Z) (fwd inv : bool).

#[global] Instance CFrame_eq_dec : EqDecision CFrame.
Proof. solve_decision. Defined.
#[global] Instance CMap_eq_dec : EqDecision CMap.
Proof. solve_decision. Defined.

Definition cmap_nin (m : CMap) : Z :=
  match m with CUnit n | CShift n _ => n | COpaque n _ _ _ => n end.
Definition cmap_nout (m : CMap) : Z :=
  match m with CUnit n | CShift n _ => n | COpaque _ n _ _ => n end.
Definition cmap_fwd (m : CMap) : bool :=
  match m with COpaque _ _ f _ => f | _ => true end.
Definition cmap_inv (m : CMap) : bool :=
  match m with COpaque _ _ _ i => i | _ => true end.
Definition cmap_invert (m : CMap) : CMap :=
  match m with
  | CUnit n => CUnit n
  | CShift n d => CShift n (- d)
  | COpaque a b f i => COpaque b a i f
  end.
Definition cmap_simplify (m : CMap) : CMap :=
  match m with
  | CShift n 0 => CUnit n
  | _ => m
  end.
Definition cmap_series (m1 m2 : CMap) : CMap :=
  match m1, m2 with
  | CUnit _, _ => m2
  | _, CUnit _ => m1
  | CShift n a, CShift _ b => CShift n (a + b)
  | _, _ => COpaque (cmap_nin m1) (cmap_nout m2)
                    (cmap_fwd m1 && cmap_fwd m2) (cmap_inv m1 && cmap_inv m2)
  end.
Definition cmap_cmp (m1 m2 : CMap) (series : Z) : CMap :=
  if series =? 0
  then COpaque (cmap_nin m1 + cmap_nin m2) (cmap_nout m1 + cmap_nout m2)
               (cmap_fwd m1 && cmap_fwd m2) (cmap_inv m1 && cmap_inv m2)
  else cmap_series m1 m2.

(** A coordinate moved by a Mapping; [AST__BAD] stays bad, and an opaque
    Mapping yields bad values. *)
Definition cmap_coord (m : CMap) (forward : bool) (x : double) : double :=
  if dbl_eq x AST__BAD then AST__BAD
  else match m with
       | CUnit _ => x
       | CShift _ d => dbl_add x (dbl_of_Z (if forward then d else - d))
       | COpaque _ _ _ _ => AST__BAD
       end.
Definition cmap_mapbox (m : CMap) (lbnd ubnd : list double) (forward : Z)
    (coord_out : Z) : double * double :=
  (cmap_coord m (negb (forward =? 0)) (default AST__BAD (lbnd !! Z.to_nat coord_out)),
   cmap_coord m (negb (forward =? 0)) (default AST__BAD (ubnd !! Z.to_nat coord_out))).

Record CFrameSet : Type := mkCFrameSet {
  fs_nodes : list (CFrame * CMap);
  fs_base : Z;
  fs_current : Z
}.

Definition fs_index (fs : CFrameSet) (i : Z) : Z :=
  if i =? AST__BASE then fs_base fs
  else if i =? AST__CURRENT then fs_current fs else i.
Definition fs_node (fs : CFrameSet) (i : Z) : CFrame * CMap :=
  default (mkCFrame 0 "", CUnit 0) (fs_nodes fs !! Z.to_nat (fs_index fs i - 1)).
Definition fs_getmapping (fs : CFrameSet) (i j : Z) : CMap :=
  cmap_simplify (cmap_series (cmap_invert (fs_node fs i).2) (fs_node fs j).2).
Definition fs_addframe (fs : CFrameSet) (i : Z) (m : CMap) (f : CFrame) : CFrameSet :=
  mkCFrameSet (fs_nodes fs ++ [(f, cmap_series (fs_node fs i).2 m)])
              (fs_base fs) (Z.of_nat (length (fs_nodes fs)) + 1).
Definition fs_renumber (n removed i : Z) (dflt : Z) : Z :=
  if i =? removed then dflt else if removed <? i then i - 1 else i.
Definition fs_removeframe (fs : CFrameSet) (i : Z) : CFrameSet :=
  let k := fs_index fs i in
  let rest := delete (Z.to_nat (k - 1)) (fs_nodes fs) in
  let root := default (CUnit 0) (snd <$> head rest) in
  let n := Z.of_nat (length rest) in
  mkCFrameSet (map (fun fm => (fm.1, cmap_series (cmap_invert root) fm.2)) rest)
              (fs_renumber n k (fs_base fs) 1)
              (fs_renumber n k (fs_current fs) n).
Definition fs_invert (fs : CFrameSet) : CFrameSet :=
  mkCFrameSet (fs_nodes fs) (fs_current fs) (fs_base fs).
Definition cframe_convert (a b : CFrame) : option CFrameSet :=
  if (cf_naxes a =? cf_naxes b) && String.eqb (cf_domain a) (cf_domain b)
  then Some (mkCFrameSet [(a, CUnit (cf_naxes a)); (b, CUnit (cf_naxes a))] 1 2)
  else None.
Definition fs_convert (from to : CFrameSet)
    : CFrameSet * CFrameSet * option CFrameSet :=
  (mkCFrameSet (fs_nodes from) (fs_current from) (fs_current from),
   mkCFrameSet (fs_nodes to) (fs_current to) (fs_current to),
   cframe_convert (fs_node from AST__CURRENT).1 (fs_node to AST__CURRENT).1).

#[global] Instance Cartesian : Collaborators := {|
  AstFrame := CFrame;
  AstMapping := CMap;
  AstFrameSet := CFrameSet;
  astEqual_PointSet := fun a b => bool_decide (a = b);
  astEqual_Frame := fun a b => bool_decide (a = b);
  astEqual_Mapping := fun a b => bool_decide (cmap_simplify a = cmap_simplify b);
  astIsA := fun c k => String.eqb c k || String.eqb k "Region";
  astFrame := fun n options => mkCFrame n options;
  astGetNaxes_Frame := cf_naxes;
  astAxDistance := fun _ _ v1 v2 =>
    if dbl_eq v1 AST__BAD || dbl_eq v2 AST__BAD then AST__BAD else dbl_sub v2 v1;
  astConvert_Frame := cframe_convert;
  astGetNin := cmap_nin;
  astGetNout := cmap_nout;
  astGetTranForward := cmap_fwd;
  astGetTranInverse := cmap_inv;
  astIsAUnitMap := fun m => match m with CUnit _ => true | _ => false end;
  astSimplify := cmap_simplify;
  astCmpMap := cmap_cmp;
  astMapBox := cmap_mapbox;
  astGetFrame := fun fs i => (fs_node fs i).1;
  astGetMapping := fs_getmapping;
  astGetNin_FrameSet := fun fs => cf_naxes (fs_node fs AST__BASE).1;
  astGetNout_FrameSet := fun fs => cf_naxes (fs_node fs AST__CURRENT).1;
  astGetBase := fs_base;
  astGetCurrent := fs_current;
  astSetBase := fun fs i => mkCFrameSet (fs_nodes fs) i (fs_current fs);
  astInvert := fs_invert;
  astAddFrame := fs_addframe;
  astRemoveFrame := fs_removeframe;
  astConvert_FrameSet := fs_convert
|}.

(** ** The Box and Interval shapes *)

(** The points of a PointSet, one list of axis values per point, and the
    PointSet of a list of points. *)
Definition ps_points (ps : AstPointSet) : list (list double) :=
  map (fun ip => map (fun ax => default AST__BAD (ax !! ip)) (ptr ps))
      (seq 0 (Z.to_nat (npoint ps))).
Definition ps_make (nc : Z) (pts : list (list double)) : AstPointSet :=
  mkPointSet nc (Z.of_nat (length pts))
    (map (fun iax => map (fun p => default AST__BAD (p !! iax)) pts)
         (seq 0 (Z.to_nat nc))).

Definition point_bad (x : list double) : bool :=
  existsb (fun v => dbl_eq v AST__BAD) x.

(** Half-widths of the box with centre [c] and corner [k]. *)
Definition box_half (c k : list double) : list double :=
  zip_with (fun ci ki => SFabs (dbl_sub ki ci)) c k.

(** Whether [x] is no further than [h] (closer than [h], if [strict])
    from the centre [c] on every axis. *)
Fixpoint box_within (strict : bool) (c h x : list double) : bool :=
  match c, h, x with
  | ci :: c', hi :: h', xi :: x' =>
      let d := SFabs (dbl_sub xi ci) in
      (if strict then dbl_lt d hi else dbl_le d hi) && box_within strict c' h' x'
  | _, _, _ => true
  end.

(** Membership of the Region: the boundary belongs to a closed Region,
    negated or not. *)
Definition box_contains (neg closed : bool) (c h x : list double) : bool :=
  if point_bad x then false
  else xorb neg (box_within (if neg then closed else negb closed) c h x).

(** Whether [x] is within [u] of the boundary. *)
Definition box_on_boundary (c h u x : list double) : bool :=
  negb (point_bad x) &&
  box_within false c (zip_with dbl_add h u) x &&
  negb (box_within true c (zip_with dbl_sub h u) x).

(** An Interval has a lower and an upper limit on each axis, [AST__BAD]
    where there is none.  Whether [x] is within the limits on every axis
    (not on a limit, if [strict]). *)
Definition limit_ok (strict lower : bool) (lim x : double) : bool :=
  dbl_eq lim AST__BAD ||
  (if lower then (if strict then dbl_lt lim x else dbl_le lim x)
   else (if strict then dbl_lt x lim else dbl_le x lim)).

Fixpoint interval_within (strict : bool) (lo hi x : list double) : bool :=
  match lo, hi, x with
  | l :: lo', h :: hi', xi :: x' =>
      limit_ok strict true l xi && limit_ok strict false h xi
      && interval_within strict lo' hi' x'
  | _, _, _ => true
  end.

Definition interval_contains (neg closed : bool) (lo hi x : list double) : bool :=
  if point_bad x then false
  else xorb neg (interval_within (if neg then closed else negb closed) lo hi x).

(** The limits moved by [u], outwards or inwards. *)
Definition limits_moved (op : double -> double -> double) (lim u : list double)
    : list double :=
  zip_with (fun l ui => if dbl_eq l AST__BAD then l else op l ui) lim u.

Definition interval_on_boundary (lo hi u x : list double) : bool :=
  negb (point_bad x) &&
  interval_within false (limits_moved dbl_sub lo u) (limits_moved dbl_add hi u) x &&
  negb (interval_within true (limits_moved dbl_add lo u) (limits_moved dbl_sub hi u) x).

Fixpoint box_corners (lo hi : list double) : list (list double) :=
  match lo, hi with
  | l :: lo', h :: hi' =>
      map (cons l) (box_corners lo' hi') ++ map (cons h) (box_corners lo' hi')
  | _, _ => [[]]
  end.

(** Pixel [i] of a grid, in Fortran order. *)
Fixpoint grid_coords (lbnd ubnd : list Z) (i : Z) : list Z :=
  match lbnd, ubnd with
  | l :: lbnd', u :: ubnd' =>
      let d := u - l + 1 in
      (l + i mod d) :: grid_coords lbnd' ubnd' (i / d)
  | _, _ => []
  end.
Definition grid_size (lbnd ubnd : list Z) : Z :=
  fold_right Z.mul 1 (zip_with (fun l u => u - l + 1) lbnd ubnd).
Fixpoint in_bounds (lbnd ubnd x : list Z) : bool :=
  match lbnd, ubnd, x with
  | l :: lbnd', u :: ubnd', xi :: x' => (l <=? xi) && (xi <=? u) && in_bounds lbnd' ubnd' x'
  | _, _, _ => true
  end.

Definition putPointSet (p : loc) (v : AstPointSet) : M unit :=
  fun s => match pointsets s !! p with
           | Some _ => Some (mkState (status s) (reported s) (regions s)
                                      (framesets s) (<[p := v]> (pointsets s)), tt)
           | None => None
           end.

(** The two points that define a Box or an Interval, in its base Frame. *)
Definition shape_points {A} (this : loc) (dflt : A)
    (k : list double -> list double -> M A) : M A :=
  p <- member points this ;;
  q <- deref p ;;
  ps <- getPointSet q ;;
  match ps_points ps with
  | [p1; p2] => k p1 p2
  | _ => astError AST__INTER ;;; ret dflt
  end.

(** Centre and half-widths of a Box, in its base Frame.  The Region
    class itself implements none of the shape methods and reports an
    error. *)
Definition box_data {A} (this : loc) (dflt : A)
    (k : list double -> list double -> M A) : M A :=
  c <- member class_name this ;;
  if String.eqb c "Box" then
    shape_points this dflt (fun cen cor => k cen (box_half cen cor))
  else astError AST__INTER ;;; ret dflt.

(** The lower and upper bounds of a Box, or of an Interval that has all
    its limits; one that lacks a limit has no bounding box and no mesh. *)
Definition shape_box {A} (this : loc) (dflt : A)
    (k : list double -> list double -> M A) : M A :=
  c <- member class_name this ;;
  if String.eqb c "Interval" then
    shape_points this dflt (fun lo hi =>
      if existsb (fun v => dbl_eq v AST__BAD) (lo ++ hi)
      then astError AST__INTER ;;; ret dflt
      else k lo hi)
  else
    box_data this dflt (fun c h => k (zip_with dbl_sub c h) (zip_with dbl_add c h)).

Definition box_mapping (this : loc) : M CMap :=
  fs <- regionFrameSet this ;; ret (fs_getmapping fs AST__BASE AST__CURRENT).

(** The state the membership test of a Box or an Interval depends on. *)
Definition box_test (this : loc) : M (option (list double -> bool)) :=
  c <- member class_name this ;;
  if String.eqb c "Interval" then
    shape_points this None (fun lo hi =>
      m <- box_mapping this ;;
      neg <- GetNegated this ;;
      closed <- GetClosed this ;;
      ret (Some (fun x => interval_contains (negb (neg =? 0)) (negb (closed =? 0)) lo hi
                            (map (cmap_coord m false) x))))
  else
    box_data this None (fun c h =>
      m <- box_mapping this ;;
      neg <- GetNegated this ;;
      closed <- GetClosed this ;;
      ret (Some (fun x => box_contains (negb (neg =? 0)) (negb (closed =? 0)) c h
                            (map (cmap_coord m false) x)))).

(** Half-widths of an uncertainty Box, none without one. *)
Definition box_unc (unc_ : option loc) (n : nat) : M (list double) :=
  match unc_ with
  | Some w => box_data w [] (fun _ hu => ret hu)
  | None => ret (repeat dbl_0 n)
  end.

Definition box_resample (X : Type) (this : loc) (ndim : Z) (lbnd ubnd : list Z)
    (in_ : list X) (val : X) (lbndg ubndg : list Z) (out : option (list X))
    : M (Z * option (list X)) :=
  t <- box_test this ;;
  match t, out with
  | Some inside, Some o =>
      ret (fold_left
             (fun acc i =>
                let x := grid_coords lbnd ubnd (Z.of_nat i) in
                if in_bounds lbndg ubndg x then
                  if inside (map dbl_of_Z x)
                  then (acc.1, option_map (fun o => match in_ !! i with
                                                     | Some v => <[i := v]> o
                                                     | None => o
                                                     end) acc.2)
                  else (acc.1 + 1, option_map (fun o => <[i := val]> o) acc.2)
                else acc)
             (seq 0 (Z.to_nat (grid_size lbnd ubnd))) (0, Some o))
  | _, _ => ret (0, out)
  end.

#[global] Instance CartesianBox : Methods := {|
  astGetBounded := fun this =>
    c <- member class_name this ;;
    if String.eqb c "Interval" then
      p <- member points this ;;
      q <- deref p ;;
      ps <- getPointSet q ;;
      if existsb point_bad (ps_points ps) then ret 0 else GetBounded this
    else GetBounded this;
  astRegBaseBox := fun this => shape_box this ([], []) (fun lo hi => ret (lo, hi));
  astRegBaseMesh := fun this =>
    shape_box this None (fun lo hi =>
      p <- newPointSet (ps_make (Z.of_nat (length lo)) (box_corners lo hi)) ;;
      ret (Some p));
  astRegPins := fun this pset unc_ =>
    c <- member class_name this ;;
    if String.eqb c "Interval" then
      shape_points this 0 (fun lo hi =>
        q <- deref pset ;;
        ps <- getPointSet q ;;
        u <- box_unc unc_ (length lo) ;;
        ret (if forallb (interval_on_boundary lo hi u) (ps_points ps) then 1 else 0))
    else
      box_data this 0 (fun c h =>
        q <- deref pset ;;
        ps <- getPointSet q ;;
        u <- box_unc unc_ (length h) ;;
        ret (if forallb (box_on_boundary c h u) (ps_points ps) then 1 else 0));
  astRegCentre := fun this cen ptr_ index ifrm =>
    box_data this tt (fun c h =>
      m <- box_mapping this ;;
      let new := match cen with
                 | Some x => x
                 | None => map (fun ax => default AST__BAD (ax !! Z.to_nat index)) ptr_
                 end in
      let newb := if ifrm =? AST__BASE then new else map (cmap_coord m false) new in
      p <- member points this ;;
      q <- deref p ;;
      putPointSet q (ps_make (Z.of_nat (length c)) [newb; zip_with dbl_add newb h]));
  astTransform := fun m pset forward =>
    q <- deref pset ;;
    ps <- getPointSet q ;;
    let fwd := negb (forward =? 0) in
    if if fwd then cmap_fwd m else cmap_inv m then
      p <- newPointSet (mkPointSet (if fwd then cmap_nout m else cmap_nin m) (npoint ps)
                          (match m with
                           | COpaque _ _ _ _ =>
                               repeat (repeat AST__BAD (Z.to_nat (npoint ps)))
                                      (Z.to_nat (if fwd then cmap_nout m else cmap_nin m))
                           | _ => map (map (cmap_coord m fwd)) (ptr ps)
                           end)) ;;
      ret (Some p)
    else astError AST__NODEF ;;; ret None;
  astTransform_Region := fun this pset forward =>
    t <- box_test this ;;
    match t with
    | Some inside =>
        q <- deref pset ;;
        ps <- getPointSet q ;;
        p <- newPointSet (ps_make (ncoord ps)
               (map (fun x => if inside x then x else map (fun _ => AST__BAD) x)
                    (ps_points ps))) ;;
        ret (Some p)
    | None => ret None
    end;
  astBox := fun frame form point1 point2 unc_ =>
    let nax := cf_naxes frame in
    let cen := if form =? 0 then point1
               else zip_with (fun a b => dbl_mul dbl_half (dbl_add a b)) point1 point2 in
    f <- newFrameSet (mkCFrameSet [(frame, CUnit nax); (frame, CUnit nax)] 1 2) ;;
    p <- newPointSet (ps_make nax [cen; point2]) ;;
    r <- newRegion (mkRegion "Box" (Some f) (Some p) None None 1
                             (- INT_MAX) (- INT_MAX) (- INT_MAX) (- INT_MAX) AST__BAD) ;;
    ret (Some r);
  astResample := box_resample
|}.

(** ** Example Regions *)

(** Two Boxes on a line, [0,10] and [2,3], each with its own FrameSet of
    two identical Frames joined by a UnitMap; and a Region of a class
    that is not acceptable as an uncertainty. *)
Definition ex_frame : CFrame := mkCFrame 1 "".
Definition ex_frameset : CFrameSet :=
  mkCFrameSet [(ex_frame, CUnit 1); (ex_frame, CUnit 1)] 1 2.
Definition ex_region (class : string) (f p : loc) (neg : Z) : AstRegion :=
  mkRegion class (Some f) (Some p) None None 1 neg (- INT_MAX) (- INT_MAX)
           (- INT_MAX) AST__BAD.
Definition ex_points (centre corner : double) : AstPointSet :=
  ps_make 1 [[centre]; [corner]].
Definition ex_boxA : AstRegion := ex_region "Box" 1%positive 1%positive (- INT_MAX).
Definition ex_boxB : AstRegion := ex_region "Box" 2%positive 2%positive (- INT_MAX).
Definition ex_interval : AstRegion :=
  ex_region "Interval" 3%positive 3%positive (- INT_MAX).
Definition ex_state : State :=
  mkState None []
    (<[1%positive := ex_boxA]> (<[2%positive := ex_boxB]>
       (<[3%positive := ex_interval]> ∅)))
    (<[1%positive := ex_frameset]> (<[2%positive := ex_frameset]>
       (<[3%positive := ex_frameset]> ∅)))
    (<[1%positive := ex_points (dbl_of_Z 5) (dbl_of_Z 10)]>
       (<[2%positive := ex_points (dbl_mul dbl_half (dbl_of_Z 5)) (dbl_of_Z 3)]>
          (<[3%positive := ex_points (dbl_of_Z 5) (dbl_of_Z 10)]> ∅))).

(** The same with the Box [2,3] negated: all of the line but [2,3]. *)
Definition ex_state_hole : State :=
  mkState None []
    (<[2%positive := ex_region "Box" 2%positive 2%positive 1]> (regions ex_state))
    (framesets ex_state) (pointsets ex_state).

(** The same with the Box [2,3] stored as the uncertainty of the Box
    [0,10]. *)
Definition ex_state_unc : State :=
  mkState None []
    (<[1%positive := set_defunc 0 (set_unc (Some 2%positive) ex_boxA)]>
       (regions ex_state))
    (framesets ex_state) (pointsets ex_state).

(** The same with the Interval given the lower limit 1 and no upper
    limit. *)
Definition ex_state_ray : State :=
  mkState None [] (regions ex_state) (framesets ex_state)
    (<[3%positive := ex_points (dbl_of_Z 1) AST__BAD]> (pointsets ex_state)).

(** Two Boxes [0,10] whose current Frame is the base Frame moved by 2. *)
Definition ex_frameset_moved : CFrameSet :=
  mkCFrameSet [(ex_frame, CUnit 1); (ex_frame, CShift 1 2)] 1 2.
Definition ex_state_moved : State :=
  mkState None []
    (<[1%positive := ex_boxA]> (<[2%positive := ex_region "Box" 2%positive 1%positive (- INT_MAX)]> ∅))
    (<[1%positive := ex_frameset_moved]> (<[2%positive := ex_frameset_moved]> ∅))
    (<[1%positive := ex_points (dbl_of_Z 5) (dbl_of_Z 10)]> ∅).

(** * Further member functions of the Region class *)

Section MoreFunctions.
Context `{K : Collaborators} `{!Methods}.

Definition astTestUnc_ := invoke 0 TestUnc.
Definition astClearUnc_ := invoke tt ClearUnc.
Definition astSetUnc_ (this unc_ : option loc) : M unit :=
  invoke tt (fun p => SetUnc p unc_) this.

(** [DumpUnc]: whether the uncertainty Region is to be written out by
    [Dump]; [astTestUnc] is not invoked for a [NULL] member. *)
Definition DumpUnc (this : loc) : M Z :=
  ifOK 0 (
    u <- member unc this ;;
    match u with
    | Some _ => t <- astTestUnc_ (Some this) ;; ret (if t =? 0 then 0 else 1)
    | None => ret 0
    end).

Definition astDumpUnc_ := invoke 0 DumpUnc.

(** ** The shape methods as the Region class implements them

    The Region class is abstract: its own [RegBaseBox], [RegBaseMesh],
    [RegCentre] and [RegPins] report [AST__INTER] and return nothing.
    [RegBaseBox] leaves the arrays of the caller as they were, which is
    rendered by the empty arrays that the interface yields when it does
    not call the method. *)
Definition RegBaseBox (this : loc) : M (list double * list double) :=
  ifOK ([], []) (astError AST__INTER ;;; ret ([], [])).

Definition RegBaseMesh (this : loc) : M (option loc) :=
  ifOK None (astError AST__INTER ;;; ret None).

Definition RegCentre (this : loc) (cen : option (list double))
    (ptr_ : list (list double)) (index ifrm : Z) : M (option (list double)) :=
  ifOK None (astError AST__INTER ;;; ret None).

Definition RegPins (this : loc) (pset unc_ : option loc) : M Z :=
  ifOK 0 (astError AST__INTER ;;; ret 0).

(** ** RegOverlay *)

Section RegOverlay.

(** [astSimplify] applied to a Region, a method of the shapes: it returns
    the pointer it was given when nothing can be simplified. *)
Variable astSimplify_Region : option loc -> M (option loc).

(** [astIsA<Class>]: whether the class of the object is, or derives
    from, the named class. *)
Definition astIsA_ (this : option loc) (k : string) : M bool :=
  invoke false (fun q => c <- member class_name q ;; ret (astIsA c k)) this.

(** [RegOverlay]: the attributes of [that] are copied into [this], member
    by member, and the uncertainty of [this] is erased if that of [that]
    is a default, else simplified. *)
Definition RegOverlay (this that : loc) : M unit :=
  ifOK tt (
    v <- member meshsize that ;; modRegion this (set_meshsize v) ;;;
    v <- member negated that ;; modRegion this (set_negated v) ;;;
    v <- member closed that ;; modRegion this (set_closed v) ;;;
    v <- member regionfs that ;; modRegion this (set_regionfs v) ;;;
    t <- astTestUnc_ (Some that) ;;
    if t =? 0 then astClearUnc_ (Some this)
    else
      t' <- astTestUnc_ (Some this) ;;
      if negb (t' =? 0) then
        unc_ <- astGetUnc_ (Some this) AST__BASE ;;
        newunc <- astSimplify_Region unc_ ;;
        if negb (bool_decide (newunc = unc_)) then
          c <- astIsA_ newunc "Circle" ;;
          usable <- (if c : bool then ret true
                     else e <- astIsA_ newunc "Ellipse" ;;
                          if e : bool then ret true else astIsA_ newunc "Box") ;;
          if usable : bool then astSetUnc_ (Some this) newunc else ret tt
        else ret tt
      else ret tt).

End RegOverlay.

End MoreFunctions.

(** ** Member functions inherited from Frame and from Mapping *)

Section FrameFunctions.
Context `{K : Collaborators} `{!Methods}.

(** [RegFrame]: the current Frame of the encapsulated FrameSet. *)
Definition RegFrame (this : loc) : M (option AstFrame) :=
  ifOK None (fs <- regionFrameSet this ;; ret (Some (astGetFrame fs AST__CURRENT))).

(** [astTransform] with an output PointSet supplied, a method of the
    Mapping class. *)
Variable astTransform_out : AstMapping -> option loc -> Z -> option loc -> M (option loc).

(** [RegTransform]: positions transformed between the base and the
    current Frame.  The result is the PointSet and, if [frm] is not
    [NULL] ([want_frm]), the Frame the positions are in. *)
Definition RegTransform (this : loc) (in_ : option loc) (forward : Z)
    (out : option loc) (want_frm : bool) : M (option loc * option AstFrame) :=
  ifOK (None, None) (
    smap <- RegMapping this ;;
    result <- (if astIsAUnitMap_ smap && negb (bool_decide (is_Some out))
               then astClone in_
               else match out with
                    | None => astTransform_ smap in_ forward
                    | Some _ => ifOK None (m <- lift smap ;;
                                           astTransform_out m in_ forward out)
                    end) ;;
    frm <- (if want_frm then
              f <- member frameset this ;;
              ifOK None (p <- deref f ;; fs <- getFrameSet p ;;
                         ret (Some (astGetFrame fs (if negb (forward =? 0)
                                                    then AST__CURRENT else AST__BASE))))
            else ret None) ;;
    ret (result, frm)).

(** ** PermAxes *)

(** Methods of other classes and of memory.c, which may report errors:
    [astCheckPerm] of the Frame class, which validates a permutation
    array; [astPermAxes] applied to the Frame of the given index in the
    FrameSet pointed to; [astMalloc] for an array of int, whose elements
    hold whatever the memory held; the PermMap constructor;
    [astRemapFrame]. *)
Variable astCheckPerm_Frame : AstFrame -> list Z -> M unit.
Variable astPermAxes_Frame : option loc -> Z -> list Z -> M unit.
Variable astMalloc_int : Z -> M (option (list Z)).
Variable astPermMap : Z -> option (list Z) -> Z -> list Z -> M (option AstMapping).
Variable astRemapFrame : option loc -> Z -> option AstMapping -> M unit.

(** [CheckPerm]: the array is validated by the current Frame. *)
Definition CheckPerm (this : loc) (perm : list Z) : M unit :=
  ifOK tt (fs <- regionFrameSet this ;;
           astCheckPerm_Frame (astGetFrame fs AST__CURRENT) perm).

(** The loop of [PermAxes] that fills the inverse permutation array, from
    axis [axis] for [n] iterations: [invperm[ perm[ axis ] ] = axis].  An
    index outside one of the arrays is undefined behaviour. *)
Fixpoint PermAxes_invperm (n axis : nat) (perm invperm : list Z) : option (list Z) :=
  match n with
  | O => Some invperm
  | S n' =>
      p ← perm !! axis;
      if (0 <=? p) && (p <? Z.of_nat (length invperm))
      then PermAxes_invperm n' (S axis) perm (<[Z.to_nat p := Z.of_nat axis]> invperm)
      else None
  end.

(** [PermAxes]: the axes of the current Frame are permuted, and the Frame
    is remapped by a PermMap made of the permutation and its inverse, so
    that the axis values stay with their axes. *)
Definition PermAxes (this : loc) (perm : list Z) : M unit :=
  ifOK tt (
    invoke tt (fun p => CheckPerm p perm) (Some this) ;;;
    f <- member frameset this ;;
    ifOK tt (astPermAxes_Frame f AST__CURRENT perm) ;;;
    naxes <- astGetNaxes_ (Some this) ;;
    invperm <- astMalloc_int naxes ;;
    ok <- astOK ;;
    if ok : bool then
      inv <- (if 0 <? naxes then
                buf <- lift invperm ;;
                r <- lift (PermAxes_invperm (Z.to_nat naxes) 0 perm buf) ;;
                ret (Some r)
              else ret invperm) ;;
      map <- astPermMap naxes inv naxes perm ;;
      f <- member frameset this ;;
      ifOK tt (astRemapFrame f AST__CURRENT map)
    else ret tt).

(** ** TestAttrib *)

(** The tests of the attributes of the parent classes, and [astTestAttrib]
    of the encapsulated FrameSet. *)
Variable astTestID : loc -> M Z.
Variable astTestIdent : loc -> M Z.
Variable astTestInvert : loc -> M Z.
Variable astTestReport : loc -> M Z.
Variable astTestAttrib_FrameSet : option loc -> string -> M Z.

Definition astTestNegated_ := invoke 0 TestNegated.
Definition astTestClosed_ := invoke 0 TestClosed.
Definition astTestFillFactor_ := invoke 0 TestFillFactor.
Definition astTestMeshSize_ := invoke 0 TestMeshSize.

(** The attributes that [TestAttrib] knows as read-only. *)
Definition read_only_attributes : list string :=
  ["class"; "nin"; "nobject"; "bounded"; "nout"; "refcount"; "tranforward";
   "traninverse"].

(** The attributes of the encapsulated FrameSet that a Region, which is
    seen as a Frame, keeps to itself. *)
Definition frameset_attributes : list string := ["base"; "current"; "nframe"].

Definition TestAttrib (this_object : loc) (attrib : string) : M Z :=
  ifOK 0 (
    result <-
      (if String.eqb attrib "negated" then astTestNegated_ (Some this_object)
       else if String.eqb attrib "closed" then astTestClosed_ (Some this_object)
       else if String.eqb attrib "fillfactor" then astTestFillFactor_ (Some this_object)
       else if String.eqb attrib "meshsize" then astTestMeshSize_ (Some this_object)
       else if String.eqb attrib "id" then invoke 0 astTestID (Some this_object)
       else if String.eqb attrib "ident" then invoke 0 astTestIdent (Some this_object)
       else if String.eqb attrib "invert" then invoke 0 astTestInvert (Some this_object)
       else if String.eqb attrib "report" then invoke 0 astTestReport (Some this_object)
       else if existsb (String.eqb attrib) read_only_attributes then ret 0
       else if negb (existsb (String.eqb attrib) frameset_attributes) then
         f <- member frameset this_object ;;
         astTestAttrib_FrameSet f attrib
       else ret 0) ;;
    ok <- astOK ;;
    ret (if ok : bool then result else 0)).

End FrameFunctions.

(** * The Fortran interface of the NormMap class (fnormmap.c) *)

Section NormMap.
Context `{K : Collaborators}.

(** Functions of other modules: [astString] makes a C string of a
    Fortran string; [astNormMap], between [astI2P] and [astP2I], makes a
    NormMap for the Frame with the given identifier and returns its
    identifier.  A C string is given by the characters before its
    terminating null. *)
Variable astString : string -> M (option string).
Variable astNormMap : Z -> option string -> M Z.

(** The loop of [ast_normmap]: every comma of the string becomes a
    newline; the loop ends at the terminating null. *)
Definition char_null : Ascii.ascii := Ascii.ascii_of_nat 0.
Definition char_comma : Ascii.ascii := Ascii.ascii_of_nat 44.
Definition char_newline : Ascii.ascii := Ascii.ascii_of_nat 10.

Fixpoint ast_normmap_options (options : string) : string :=
  match options with
  | EmptyString => EmptyString
  | String c rest =>
      if Ascii.eqb c char_null then options
      else String (if Ascii.eqb c char_comma then char_newline else c)
                  (ast_normmap_options rest)
  end.

(** [ast_normmap], run with the status it is given to watch. *)
Definition ast_normmap (FRAME : Z) (OPTIONS : string) : M Z :=
  options <- astString OPTIONS ;;
  ok <- astOK ;;
  options' <- (if ok : bool then o <- lift options ;; ret (Some (ast_normmap_options o))
               else ret options) ;;
  astNormMap FRAME options'.

End NormMap.

(** ** Further example Regions *)

(** A Region of the base class, which implements no shape, on the Frame
    of the examples. *)
Definition ex_plain : AstRegion := ex_region "Region" 1%positive 1%positive (- INT_MAX).
Definition ex_state_plain : State :=
  mkState None [] (<[1%positive := ex_plain]> ∅) (<[1%positive := ex_frameset]> ∅)
          (<[1%positive := ex_points (dbl_of_Z 5) (dbl_of_Z 10)]> ∅).

(** The Box [0,10] with a stored base Frame mesh. *)
Definition ex_state_mesh : State :=
  mkState None []
    (<[1%positive := set_basemesh (Some 2%positive) ex_boxA]> (regions ex_state))
    (framesets ex_state) (pointsets ex_state).

(** Two Intervals without a boundary of finite length: from 1 upwards,
    and up to 5. *)
Definition ex_state_rays : State :=
  mkState None []
    (<[3%positive := ex_interval]>
       (<[4%positive := ex_region "Interval" 4%positive 4%positive (- INT_MAX)]> ∅))
    (<[3%positive := ex_frameset]> (<[4%positive := ex_frameset]> ∅))
    (<[3%positive := ex_points (dbl_of_Z 1) AST__BAD]>
       (<[4%positive := ex_points AST__BAD (dbl_of_Z 5)]> ∅)).

(** The Box [0,10] and a Box [2,3] on a Frame of another domain, to
    which there is no conversion. *)
Definition ex_frameset_grid : CFrameSet :=
  mkCFrameSet [(mkCFrame 1 "GRID", CUnit 1); (mkCFrame 1 "GRID", CUnit 1)] 1 2.
Definition ex_state_domains : State :=
  mkState None [] (regions ex_state)
    (<[2%positive := ex_frameset_grid]> (framesets ex_state)) (pointsets ex_state).

(** * The initialiser of the Region class *)

Section InitRegion.
Context `{K : Collaborators} `{!Methods}.

(** Constructors and methods of other classes: the FrameSet that holds
    one Frame, the UnitMap of a number of axes, and [astGetNaxes] as a
    FrameSet implements it.  Frames are values here, so that [astCopy]
    of a Frame is the Frame. *)
Variable astFrameSet : AstFrame -> AstFrameSet.
Variable astUnitMap : Z -> AstMapping.
Variable astGetNaxes_FrameSet : AstFrameSet -> Z.

(** [astAnnul] of a pointer to a FrameSet: the pointer must refer to a
    FrameSet.  Reference counts are not tracked, so the object stays in
    the store. *)
Definition astAnnul_FrameSet (p : loc) : M unit :=
  getFrameSet p ;;; ret tt.

(** [SetRegFS]: a new FrameSet, of two copies of the Frame joined by a
    UnitMap, becomes the FrameSet of the Region; the FrameSet that the
    member pointed to, if it is not [NULL], is annulled. *)
Definition SetRegFS (this : loc) (frm : AstFrame) : M unit :=
  ifOK tt (
    let f1 := frm in
    let f2 := frm in
    fs <- newFrameSet (astFrameSet f1) ;;
    let um := astUnitMap (astGetNaxes_Frame f1) in
    v <- getFrameSet fs ;;
    putFrameSet fs (astAddFrame v AST__BASE um f2) ;;;
    old <- member frameset this ;;
    (match old with
     | Some p => astAnnul_FrameSet p
     | None => ret tt
     end) ;;;
    modRegion this (set_frameset (Some fs))).

Definition astSetRegFS_ (this : option loc) (frm : AstFrame) : M unit :=
  invoke tt (fun p => SetRegFS p frm) this.

(** The Frame given to the initialiser is a Region, a FrameSet or another
    Frame. *)
Inductive FrameArg : Type :=
  | ARegion (p : loc)
  | AFrameSet (p : loc)
  | AFrame (f : AstFrame).

(** [astGetNaxes] of the Frame given. *)
Definition astGetNaxes_of (frame : FrameArg) : M Z :=
  match frame with
  | ARegion p => astGetNaxes_ (Some p)
  | AFrameSet p => ifOK 0 (v <- getFrameSet p ;; ret (astGetNaxes_FrameSet v))
  | AFrame f => ifOK 0 (ret (astGetNaxes_Frame f))
  end.


(** [astInitFrame], the initialiser of the parent class, for an object
    of the class named, which it allocates; the object holds the members
    of a Region, with whatever values.  [astInitRegion] sets every
    member but [frameset] and [defunc] before it calls [astSetRegFS] and
    [astSetUnc], which read [frameset] and set [defunc]. *)
Variable astInitFrame : string -> M (option loc).

(** [astInitRegion], for memory that [astInitFrame] allocates. *)
Definition astInitRegion_ (name : string) (frame : FrameArg) (pset unc_ : option loc)
    : M (option loc) :=
  ifOK None (
    nax <- astGetNaxes_of frame ;;
    (match pset with
     | Some _ =>
         nc <- astGetNcoord_ pset ;;
         ok <- astOK ;;
         if ok && negb (nc =? nax)
         then astError AST__NCPIN ;;; astError AST__NCPIN
         else ret tt
     | None => ret tt
     end) ;;;
    new <- astInitFrame name ;;
    ok <- astOK ;;
    if ok : bool then
      n <- deref new ;;
      modRegion n (set_meshsize (- INT_MAX)) ;;;
      modRegion n (set_basemesh None) ;;;
      modRegion n (set_negated (- INT_MAX)) ;;;
      modRegion n (set_closed (- INT_MAX)) ;;;
      modRegion n (set_regionfs (- INT_MAX)) ;;;
      modRegion n (set_fillfactor AST__BAD) ;;;
      f0 <- (match frame with
             | ARegion p =>
                 fs <- regionFrameSet p ;; ret (astGetFrame fs AST__CURRENT)
             | AFrameSet p =>
                 fs <- getFrameSet p ;; ret (astGetFrame fs AST__CURRENT)
             | AFrame f => ret f
             end) ;;
      astSetRegFS_ new f0 ;;;
      pc <- (match pset with
             | Some _ => astClone pset
             | None => ret None
             end) ;;
      modRegion n (set_points pc) ;;;
      modRegion n (set_unc None) ;;;
      astSetUnc_ new unc_ ;;;
      ok <- astOK ;;
      ret (if ok : bool then new else None)
    else ret new).

End InitRegion.

(** The parent initialiser for the examples: on a clear status, a new
    object of the class named, its members holding zeros. *)
Definition ex_astInitFrame (name : string) : M (option loc) :=
  ifOK None (p <- newRegion (mkRegion name None None None None 0 0 0 0 0 dbl_0) ;;
             ret (Some p)).

(** The FrameSet of one Frame, and the number of axes of a FrameSet, for
    the examples. *)
Definition ex_astFrameSet (f : CFrame) : CFrameSet :=
  mkCFrameSet [(f, CUnit (cf_naxes f))] 1 1.
Definition ex_astGetNaxes_FrameSet (fs : CFrameSet) : Z :=
  cf_naxes (fs_node fs AST__CURRENT).1.

(** * Points in an array: astRegTranPoint *)

Section RegTranPoint.
Context `{K : Collaborators} `{!Methods}.

(** Functions of pointset.c and memory.c: the PointSet constructor, for a
    number of points and of coordinates per point, whose axis values hold
    whatever the memory held; [astMalloc] for an array of double, by the
    number of elements. *)
Variable astPointSet : Z -> Z -> M (option loc).
Variable astMalloc_double : Z -> M (option (list double)).

(** Writing through the pointers that [astGetPoints] returned: the axis
    values of the PointSet pointed to are replaced. *)
Definition setPoints (q : loc) (ptr_ : list (list double)) : M unit :=
  fun s => match pointsets s !! q with
           | Some ps =>
               Some (mkState (status s) (reported s) (regions s) (framesets s)
                       (<[q := mkPointSet (ncoord ps) (npoint ps) ptr_]> (pointsets s)),
                     tt)
           | None => None
           end.

(** The inner loop that stores the axis values of point [ip], from axis
    [ic] for [n] iterations: [ptr_in[ ic ][ ip ] = *(p++)].  An index
    outside an array is undefined behaviour. *)
Fixpoint RegTranPoint_store (n ic ip p : nat) (in_ : list double)
    (ptr_in : list (list double)) : option (list (list double)) :=
  match n with
  | O => Some ptr_in
  | S n' =>
      v ← in_ !! p;
      row ← ptr_in !! ic;
      if bool_decide (ip < length row)%nat
      then RegTranPoint_store n' (S ic) ip (S p) in_ (<[ic := <[ip := v]> row]> ptr_in)
      else None
  end.

(** The loop over the points, from point [ip] for [n] iterations; [p] is
    the index that the pointer into [in] has reached. *)
Fixpoint RegTranPoint_store_all (n ip naxin p : nat) (in_ : list double)
    (ptr_in : list (list double)) : option (list (list double)) :=
  match n with
  | O => Some ptr_in
  | S n' =>
      ptr' ← RegTranPoint_store naxin 0 ip p in_ ptr_in;
      RegTranPoint_store_all n' (S ip) naxin (p + naxin) in_ ptr'
  end.

(** The loops that fill the array returned: [*(p++) = ptr_out[ ic ][ ip ]]. *)
Fixpoint RegTranPoint_fetch (n ic ip p : nat) (ptr_out : list (list double))
    (result : list double) : option (list double) :=
  match n with
  | O => Some result
  | S n' =>
      row ← ptr_out !! ic;
      v ← row !! ip;
      if bool_decide (p < length result)%nat
      then RegTranPoint_fetch n' (S ic) ip (S p) ptr_out (<[p := v]> result)
      else None
  end.

Fixpoint RegTranPoint_fetch_all (n ip naxout p : nat) (ptr_out : list (list double))
    (result : list double) : option (list double) :=
  match n with
  | O => Some result
  | S n' =>
      result' ← RegTranPoint_fetch naxout 0 ip p ptr_out result;
      RegTranPoint_fetch_all n' (S ip) naxout (p + naxout) ptr_out result'
  end.

(** [astRegTranPoint]: [np] points, given in one array with the axis
    values of a point next to each other, are transformed between the
    base and the current Frame; the result is an array of the same
    layout. *)
Definition astRegTranPoint_ (this : loc) (in_ : list double) (np forward : Z)
    : M (option (list double)) :=
  ifOK None (
    fs <- regionFrameSet this ;;
    let map := if negb (forward =? 0)
               then astGetMapping fs AST__BASE AST__CURRENT
               else astGetMapping fs AST__CURRENT AST__BASE in
    let naxin := astGetNin map in
    let naxout := astGetNout map in
    pset_in <- astPointSet np naxin ;;
    ptr_in <- astGetPoints_ pset_in ;;
    result <- astMalloc_double (wrap_int (naxout * np)) ;;
    ok <- astOK ;;
    result <-
      (if ok : bool then
         ptr_in' <- lift (RegTranPoint_store_all (Z.to_nat np) 0 (Z.to_nat naxin) 0
                            in_ ptr_in) ;;
         (match pset_in with
          | Some q => setPoints q ptr_in'
          | None => ret tt
          end) ;;;
         pset_out <- astTransform_ (Some map) pset_in 1 ;;
         ptr_out <- astGetPoints_ pset_out ;;
         ok <- astOK ;;
         if ok : bool then
           if (0 <? np) && (0 <? naxout) then
             res <- lift result ;;
             r <- lift (RegTranPoint_fetch_all (Z.to_nat np) 0 (Z.to_nat naxout) 0
                          ptr_out res) ;;
             ret (Some r)
           else ret result
         else ret result
       else ret result) ;;
    ok <- astOK ;;
    ret (if ok : bool then result else None)).

End RegTranPoint.

(** The layout of the arrays.  The points of an array, by axis: axis
    [ic] of point [ip] is element [ip * nax + ic] (a bad value, where the
    array has no such element).  The array of the points given by axis:
    element [k] is axis [k mod nax] of point [k / nax]. *)
Definition points_of_array (in_ : list double) (np nax : nat) : list (list double) :=
  (fun ic => (fun ip => default AST__BAD (in_ !! (ip * nax + ic)%nat)) <$> seq 0 np)
    <$> seq 0 nax.
Definition array_of_points (ptr_ : list (list double)) (np nax : nat) : list double :=
  (fun k => default AST__BAD (ptr_ !! (k mod nax)%nat ≫= (.!! (k / nax)%nat)))
    <$> seq 0 (np * nax).

(** [astPointSet] and [astMalloc] for the examples: a new PointSet of
    zeros, an array of zeros. *)
Definition ex_astPointSet (np nc : Z) : M (option loc) :=
  ifOK None (p <- newPointSet (mkPointSet nc np
                                 (repeat (repeat dbl_0 (Z.to_nat np)) (Z.to_nat nc))) ;;
             ret (Some p)).
Definition ex_astMalloc_double (n : Z) : M (option (list double)) :=
  ifOK None (if n =? 0 then ret None
             else if n <? 0 then astError AST__NOMEM ;;; ret None
             else ret (Some (repeat dbl_0 (Z.to_nat n)))).

(** * The boundary mesh within a box: astBndBaseMesh *)

Section BndBaseMesh.
Context `{K : Collaborators} `{!Methods}.

(** Constructors of other classes: the Box on the Frame that a Region
    is, the CmpRegion of two Regions with its operator [AST__AND], and
    the PointSet. *)
Variable astBox_Region :
  loc -> Z -> list double -> list double -> option loc -> M (option loc).
Variable astCmpRegion : option loc -> option loc -> Z -> M (option loc).
Variable AST__AND : Z.
Variable astPointSet : Z -> Z -> M (option loc).

(** The loop that makes the one point bad, from axis [ic] for [n]
    iterations: [ptr[ ic ][ 0 ] = AST__BAD]. *)
Fixpoint BndBaseMesh_bad (n ic : nat) (ptr_ : list (list double))
    : option (list (list double)) :=
  match n with
  | O => Some ptr_
  | S n' =>
      row ← ptr_ !! ic;
      if bool_decide (0 < length row)%nat
      then BndBaseMesh_bad n' (S ic) (<[ic := <[0%nat := AST__BAD]> row]> ptr_)
      else None
  end.

Definition BndBaseMesh (this : loc) (lbnd ubnd : list double) : M (option loc) :=
  ifOK None (
    box <- astBox_Region this 1 lbnd ubnd None ;;
    o <- astOverlap_ (Some this) box ;;
    result <-
      (if 3 <? o then
         cmpreg <- astCmpRegion (Some this) box AST__AND ;;
         astRegBaseMesh_ cmpreg
       else
         f <- member frameset this ;;
         nc <- ifOK 0 (p <- deref f ;; fs <- getFrameSet p ;;
                       ret (astGetNin_FrameSet fs)) ;;
         result <- astPointSet 1 nc ;;
         ptr_ <- astGetPoints_ result ;;
         ok <- astOK ;;
         (if ok : bool then
            ptr' <- lift (BndBaseMesh_bad (Z.to_nat nc) 0 ptr_) ;;
            match result with
            | Some q => setPoints q ptr'
            | None => ret tt
            end
          else ret tt) ;;;
         ret result) ;;
    ok <- astOK ;;
    ret (if ok : bool then result else None)).

End BndBaseMesh.

(** The Box on the Frame that a Region is, for the examples: the Box on
    the current Frame of the Region. *)
Definition ex_astBox_Region (this : loc) (form : Z) (point1 point2 : list double)
    (unc_ : option loc) : M (option loc) :=
  ifOK None (fs <- regionFrameSet this ;;
             astBox (astGetFrame fs AST__CURRENT) form point1 point2 unc_).

(** * Frames and Mappings as objects *)

(** In the program a FrameSet holds pointers to its Frames and Mappings,
    and a Frame is changed through such a pointer: [PermAxes] permutes
    the axes of the Frame that [astGetFrame] returns, and [SetRegFS]
    copies the Frame it is given, twice, "so that modifications using the
    supplied pointer will not affect the new FrameSet" and because "the
    base and current Frames must be independant objects".  With Frames
    and Mappings taken as values, as above, a FrameSet shows what it
    holds, but two FrameSets cannot be seen to hold the same object.
    This section embeds [MapRegion] and the copy constructor once more,
    over a store in which Frames and Mappings are objects too. *)

Section Objects.

(** A FrameSet: the pointers to its Frames, Frame 1 first, the pointers
    to the Mappings it holds, and the indices of the base and of the
    current Frame. *)
Record FrameSetObj : Type := mkFrameSetObj {
  fso_frames : list loc;
  fso_maps : list loc;
  fso_base : Z;
  fso_current : Z
}.

Record OState : Type := mkOState {
  o_status : option AstErrorCode;
  o_reported : list AstErrorCode;
  o_regions : gmap loc AstRegion;
  o_framesets : gmap loc FrameSetObj;
  o_frames : gmap loc CFrame;
  o_mappings : gmap loc CMap;
  o_pointsets : gmap loc AstPointSet
}.

(** Computations over this store; [None] is undefined behaviour, as for
    [M]. *)
Definition OM (A : Type) : Type := OState -> option (OState * A).

Definition oret {A} (a : A) : OM A := fun s => Some (s, a).
Definition obind {A B} (m : OM A) (k : A -> OM B) : OM B :=
  fun s => match m s with
           | Some (s', a) => k a s'
           | None => None
           end.
Definition olift {A} (o : option A) : OM A :=
  fun s => match o with Some a => Some (s, a) | None => None end.

Notation "x <~ m ;; k" := (obind m (fun x => k))
  (at level 100, m at next level, right associativity).
Notation "m ;;~ k" := (obind m (fun _ => k))
  (at level 100, right associativity).

(** ** Error status and store access *)

Definition astOK_o : OM bool :=
  fun s => Some (s, bool_decide (o_status s = None)).

Definition astError_o (e : AstErrorCode) : OM unit :=
  fun s => Some (mkOState (Some e) (o_reported s ++ [e]) (o_regions s) (o_framesets s)
                          (o_frames s) (o_mappings s) (o_pointsets s), tt).

Definition ifOK_o {A} (dflt : A) (m : OM A) : OM A :=
  ok <~ astOK_o ;; if ok : bool then m else oret dflt.

Definition invoke_o {A} (dflt : A) (f : loc -> OM A) (this : option loc) : OM A :=
  ifOK_o dflt (p <~ olift this ;; f p).

Definition getRegion_o (p : loc) : OM AstRegion := fun s => olift (o_regions s !! p) s.
Definition getFrameSet_o (p : loc) : OM FrameSetObj :=
  fun s => olift (o_framesets s !! p) s.
Definition getFrame_o (p : loc) : OM CFrame := fun s => olift (o_frames s !! p) s.
Definition getMapping_o (p : loc) : OM CMap := fun s => olift (o_mappings s !! p) s.
Definition getPointSet_o (p : loc) : OM AstPointSet :=
  fun s => olift (o_pointsets s !! p) s.

Definition putRegion_o (p : loc) (r : AstRegion) : OM unit :=
  fun s => match o_regions s !! p with
           | Some _ =>
               Some (mkOState (o_status s) (o_reported s) (<[p := r]> (o_regions s))
                       (o_framesets s) (o_frames s) (o_mappings s) (o_pointsets s), tt)
           | None => None
           end.
Definition putFrameSet_o (p : loc) (v : FrameSetObj) : OM unit :=
  fun s => match o_framesets s !! p with
           | Some _ =>
               Some (mkOState (o_status s) (o_reported s) (o_regions s)
                       (<[p := v]> (o_framesets s)) (o_frames s) (o_mappings s)
                       (o_pointsets s), tt)
           | None => None
           end.

Definition newRegion_o (r : AstRegion) : OM loc :=
  fun s => let p := fresh (dom (o_regions s)) in
           Some (mkOState (o_status s) (o_reported s) (<[p := r]> (o_regions s))
                   (o_framesets s) (o_frames s) (o_mappings s) (o_pointsets s), p).
Definition newFrameSet_o (v : FrameSetObj) : OM loc :=
  fun s => let p := fresh (dom (o_framesets s)) in
           Some (mkOState (o_status s) (o_reported s) (o_regions s)
                   (<[p := v]> (o_framesets s)) (o_frames s) (o_mappings s)
                   (o_pointsets s), p).
Definition newFrame_o (v : CFrame) : OM loc :=
  fun s => let p := fresh (dom (o_frames s)) in
           Some (mkOState (o_status s) (o_reported s) (o_regions s) (o_framesets s)
                   (<[p := v]> (o_frames s)) (o_mappings s) (o_pointsets s), p).
Definition newMapping_o (v : CMap) : OM loc :=
  fun s => let p := fresh (dom (o_mappings s)) in
           Some (mkOState (o_status s) (o_reported s) (o_regions s) (o_framesets s)
                   (o_frames s) (<[p := v]> (o_mappings s)) (o_pointsets s), p).
Definition newPointSet_o (v : AstPointSet) : OM loc :=
  fun s => let p := fresh (dom (o_pointsets s)) in
           Some (mkOState (o_status s) (o_reported s) (o_regions s) (o_framesets s)
                   (o_frames s) (o_mappings s) (<[p := v]> (o_pointsets s)), p).

Definition modRegion_o (p : loc) (f : AstRegion -> AstRegion) : OM unit :=
  r <~ getRegion_o p ;; putRegion_o p (f r).
Definition member_o {A} (f : AstRegion -> A) (this : loc) : OM A :=
  r <~ getRegion_o this ;; oret (f r).

(** ** Methods of the FrameSet class *)

(** Modelled from the spec: the FrameSet capabilities [addFrame],
    [removeFrame] and [getFrame], and [astGetCurrent].  [astAddFrame]
    puts the pointers it is given into the FrameSet, the new Frame last,
    and makes it the current Frame; [astRemoveFrame] takes a Frame out
    and renumbers the Frames after it (the FrameSet goes on holding its
    Mappings); [astGetFrame] returns the pointer held. *)
Definition fso_index (v : FrameSetObj) (i : Z) : Z :=
  if i =? AST__BASE then fso_base v
  else if i =? AST__CURRENT then fso_current v else i.

Definition astGetFrame_o (v : FrameSetObj) (iframe : Z) : option loc :=
  fso_frames v !! Z.to_nat (fso_index v iframe - 1).

Definition astAddFrame_o (v : FrameSetObj) (iframe : Z) (map frame : loc)
    : FrameSetObj :=
  mkFrameSetObj (fso_frames v ++ [frame]) (fso_maps v ++ [map]) (fso_base v)
                (Z.of_nat (length (fso_frames v)) + 1).

Definition astRemoveFrame_o (v : FrameSetObj) (iframe : Z) : FrameSetObj :=
  let k := fso_index v iframe in
  let rest := delete (Z.to_nat (k - 1)) (fso_frames v) in
  let n := Z.of_nat (length rest) in
  mkFrameSetObj rest (fso_maps v)
                (fs_renumber n k (fso_base v) 1)
                (fs_renumber n k (fso_current v) n).

(** ** Copies *)

(** Modelled from the spec: [astCopy] of object.c, a deep copy.  The copy
    of a Frame, of a Mapping and of a PointSet is a new object that holds
    the same; the copy of a FrameSet is a new FrameSet that holds copies
    of the Frames and of the Mappings of the first. *)
Definition astCopy_Frame_o (p : loc) : OM loc := v <~ getFrame_o p ;; newFrame_o v.
Definition astCopy_Mapping_o (p : loc) : OM loc :=
  v <~ getMapping_o p ;; newMapping_o v.

Fixpoint copy_each (copy : loc -> OM loc) (l : list loc) : OM (list loc) :=
  match l with
  | [] => oret []
  | p :: l' => q <~ copy p ;; r <~ copy_each copy l' ;; oret (q :: r)
  end.

Definition astCopy_FrameSet_o (this : option loc) : OM (option loc) :=
  invoke_o None (fun p =>
    v <~ getFrameSet_o p ;;
    frames <~ copy_each astCopy_Frame_o (fso_frames v) ;;
    maps <~ copy_each astCopy_Mapping_o (fso_maps v) ;;
    q <~ newFrameSet_o (mkFrameSetObj frames maps (fso_base v) (fso_current v)) ;;
    oret (Some q)) this.

Definition astCopy_PointSet_o (this : option loc) : OM (option loc) :=
  invoke_o None (fun p => v <~ getPointSet_o p ;; q <~ newPointSet_o v ;; oret (Some q))
           this.

(** The copy constructor of region.c. *)
Definition Copy_o (copy : option loc -> OM (option loc)) (objin objout : loc)
    : OM unit :=
  ifOK_o tt (
    modRegion_o objout (set_basemesh None) ;;~
    modRegion_o objout (set_frameset None) ;;~
    modRegion_o objout (set_points None) ;;~
    modRegion_o objout (set_unc None) ;;~
    f <~ member_o frameset objin ;;
    f' <~ astCopy_FrameSet_o f ;;
    modRegion_o objout (set_frameset f') ;;~
    p <~ member_o points objin ;;
    (match p with
     | Some _ => p' <~ astCopy_PointSet_o p ;; modRegion_o objout (set_points p')
     | None => oret tt
     end) ;;~
    b <~ member_o basemesh objin ;;
    (match b with
     | Some _ => b' <~ astCopy_PointSet_o b ;; modRegion_o objout (set_basemesh b')
     | None => oret tt
     end) ;;~
    u <~ member_o unc objin ;;
    (match u with
     | Some _ => u' <~ copy u ;; modRegion_o objout (set_unc u')
     | None => oret tt
     end)).

(** Modelled from the spec: [astCopy] on a Region, as [astCopy_rec]. *)
Fixpoint astCopy_rec_o (fuel : nat) (this : option loc) : OM (option loc) :=
  match fuel with
  | O => fun _ => None
  | S n =>
      invoke_o None (fun p =>
        r <~ getRegion_o p ;;
        new <~ newRegion_o r ;;
        Copy_o (astCopy_rec_o n) p new ;;~
        ok <~ astOK_o ;;
        oret (if ok : bool then Some new else None)) this
  end.

Definition astCopy_o (this : option loc) : OM (option loc) :=
  fun s => astCopy_rec_o (S (size (o_regions s))) this s.

(** ** MapRegion *)

Definition SetRegionFS_o (this : loc) (value : Z) : OM unit :=
  ifOK_o tt (modRegion_o this (set_regionfs (if value =? 0 then 0 else 1))).
Definition astSetRegionFS_o (this : option loc) (value : Z) : OM unit :=
  invoke_o tt (fun p => SetRegionFS_o p value) this.

(** [MapRegion], given pointers to the Mapping and to the Frame. *)
Definition MapRegion_o (this map frame : loc) : OM (option loc) :=
  ifOK_o None (
    m <~ getMapping_o map ;;
    (if negb (cmap_inv m) then astError_o AST__NODEF
     else if negb (cmap_fwd m) then astError_o AST__NODEF
     else oret tt) ;;~
    result <~ astCopy_o (Some this) ;;
    ok <~ astOK_o ;;
    (if ok : bool then
       res <~ olift result ;;
       f <~ member_o frameset res ;;
       fs <~ olift f ;;
       v <~ getFrameSet_o fs ;;
       let icurr := fso_current v in
       putFrameSet_o fs (astAddFrame_o v AST__CURRENT map frame) ;;~
       v' <~ getFrameSet_o fs ;;
       putFrameSet_o fs (astRemoveFrame_o v' icurr) ;;~
       astSetRegionFS_o result 1
     else oret tt) ;;~
    ok <~ astOK_o ;;
    oret (if ok : bool then result else None)).

(** The current Frame of the FrameSet of a Region: the pointer to the
    Frame object. *)
Definition current_frame_o (s : OState) (this : loc) : option loc :=
  r ← o_regions s !! this;
  f ← frameset r;
  v ← o_framesets s !! f;
  astGetFrame_o v AST__CURRENT.

(** ** An example *)

(** The Box [0,10] of the examples: Region 1 with FrameSet 1, which
    holds the Frames 1 (base) and 2 (current) joined by the UnitMap 1;
    Mapping 2 is a shift by 2. *)
Definition ex_ostate : OState :=
  mkOState None [] (<[1%positive := ex_boxA]> ∅)
    (<[1%positive := mkFrameSetObj [1%positive; 2%positive] [1%positive] 1 2]> ∅)
    (<[1%positive := ex_frame]> (<[2%positive := ex_frame]> ∅))
    (<[1%positive := CUnit 1]> (<[2%positive := CShift 1 2]> ∅))
    (<[1%positive := ex_points (dbl_of_Z 5) (dbl_of_Z 10)]> ∅).

End Objects.

(** * Properties *)

Section Properties.
Context `{K : Collaborators}.

(** ** The state monad *)

Lemma astOK_clear (s : State) : status s = None -> astOK s = Some (s, true).
Proof. intros H. unfold astOK. rewrite H. reflexivity. Qed.

Lemma astOK_set (s : State) e : status s = Some e -> astOK s = Some (s, false).
Proof. intros H. unfold astOK. rewrite H. reflexivity. Qed.

Lemma ifOK_clear {A} (d : A) (m : M A) (s : State) :
  status s = None -> ifOK d m s = m s.
Proof. intros H. unfold ifOK, bind. rewrite (astOK_clear _ H). reflexivity. Qed.

Lemma ifOK_set {A} (d : A) (m : M A) (s : State) e :
  status s = Some e -> ifOK d m s = Some (s, d).
Proof. intros H. unfold ifOK, bind. rewrite (astOK_set _ _ H). reflexivity. Qed.

Lemma member_get {A} (f : AstRegion -> A) (this : loc) (s : State) r :
  regions s !! this = Some r -> member f this s = Some (s, f r).
Proof. intros H. unfold member, bind, getRegion, lift, ret. rewrite H. reflexivity. Qed.

Lemma state_eta (s : State) :
  mkState (status s) (reported s) (regions s) (framesets s) (pointsets s) = s.
Proof. destruct s; reflexivity. Qed.

Lemma modRegion_get (f : AstRegion -> AstRegion) (this : loc) (s : State) r :
  regions s !! this = Some r ->
  modRegion this f s =
    Some (mkState (status s) (reported s) (<[this := f r]> (regions s))
                  (framesets s) (pointsets s), tt).
Proof.
  intros H. unfold modRegion, bind, getRegion, putRegion, lift.
  rewrite H. simpl. rewrite H. reflexivity.
Qed.

Lemma bind_eq {A B} (m : M A) (k : A -> M B) (s s' : State) a :
  m s = Some (s', a) -> bind m k s = k a s'.
Proof. intros H. unfold bind. rewrite H. reflexivity. Qed.

Lemma bind_assoc {A B C} (m : M A) (k1 : A -> M B) (k2 : B -> M C) (s : State) :
  bind (bind m k1) k2 s = bind m (fun x => bind (k1 x) k2) s.
Proof. unfold bind. destruct (m s) as [[s' a]|]; reflexivity. Qed.

Lemma bind_ret_l {A B} (a : A) (k : A -> M B) (s : State) : bind (ret a) k s = k a s.
Proof. reflexivity. Qed.

(** ** Attributes *)


Lemma regionFrameSet_get (this f : loc) (s : State) r fs :
  regions s !! this = Some r -> frameset r = Some f -> framesets s !! f = Some fs ->
  regionFrameSet this s = Some (s, fs).
Proof.
  intros Hr Hf Hfs. unfold regionFrameSet.
  rewrite (bind_eq _ _ _ _ _ (member_get frameset this s r Hr)), Hf.
  unfold bind, deref, lift, getFrameSet, lift. rewrite Hfs. reflexivity.
Qed.

Lemma GetNaxes_get (this f : loc) (s : State) r fs :
  status s = None ->
  regions s !! this = Some r -> frameset r = Some f -> framesets s !! f = Some fs ->
  GetNaxes this s = Some (s, astGetNaxes_Frame (astGetFrame fs AST__CURRENT)).
Proof.
  intros Hok Hr Hf Hfs. unfold GetNaxes. rewrite (ifOK_clear _ _ _ Hok).
  rewrite (bind_eq _ _ _ _ _ (regionFrameSet_get this f s r fs Hr Hf Hfs)).
  rewrite (bind_eq _ _ _ _ _ (astOK_clear _ Hok)). reflexivity.
Qed.

Lemma set_basemesh_None_id r : basemesh r = None -> set_basemesh None r = r.
Proof. destruct r; simpl; intros ->; reflexivity. Qed.

(** The state after [SetMeshSize]: the cached mesh is annulled and the
    value, raised to 5 if smaller, is stored. *)
Lemma SetMeshSize_get (this : loc) (value : Z) (s : State) r :
  status s = None -> regions s !! this = Some r ->
  SetMeshSize this value s =
    Some (mkState (status s) (reported s)
            (<[this := set_meshsize (if value >? 5 then value else 5)
                         (set_basemesh None r)]> (regions s))
            (framesets s) (pointsets s), tt).
Proof.
  intros Hok Hr. unfold SetMeshSize, astMAKE_SET. rewrite (ifOK_clear _ _ _ Hok).
  unfold annulBaseMesh.
  destruct (basemesh r) as [b|] eqn:Hb.
  - unfold bind at 1. unfold bind at 1. unfold bind at 1.
    rewrite (member_get basemesh this s r Hr), Hb.
    rewrite (modRegion_get _ this s r Hr). unfold ret.
    unfold modRegion, bind, getRegion, putRegion, lift.
    cbn [regions status reported framesets pointsets].
    rewrite lookup_insert_eq. cbn. rewrite lookup_insert_eq.
    rewrite insert_insert_eq. reflexivity.
  - unfold bind at 1. unfold bind at 1. unfold bind at 1.
    rewrite (member_get basemesh this s r Hr), Hb. unfold ret.
    rewrite (modRegion_get _ this s r Hr).
    rewrite (set_basemesh_None_id r Hb). reflexivity.
Qed.

(** C8.  With MeshSize unset, GetMeshSize returns 2 for a Region whose
    current Frame has one axis, 200 for two axes and 2000 for three or
    more.  SetMeshSize stores 5 when given a value below 5 and any other
    value as given; GetMeshSize then returns the stored value. *)
Theorem MeshSize_default_and_minimum
    (this f : loc) (s : State) (r : AstRegion) (fs : AstFrameSet) (value : Z) :
  status s = None ->
  regions s !! this = Some r ->
  frameset r = Some f ->
  framesets s !! f = Some fs ->
  (meshsize r = - INT_MAX ->
     GetMeshSize this s =
       Some (s, let naxes := astGetNaxes_Frame (astGetFrame fs AST__CURRENT) in
                if naxes =? 1 then 2 else if naxes =? 2 then 200 else 2000) /\
     (3 <= astGetNaxes_Frame (astGetFrame fs AST__CURRENT) ->
      GetMeshSize this s = Some (s, 2000))) /\
  (exists s' r',
     SetMeshSize this value s = Some (s', tt) /\
     regions s' !! this = Some r' /\
     meshsize r' = (if value <? 5 then 5 else value) /\
     GetMeshSize this s' = Some (s', if value <? 5 then 5 else value)).
Proof.
  intros Hok Hr Hf Hfs. split.
  - intros Hunset.
    assert (Hget : GetMeshSize this s =
       Some (s, let naxes := astGetNaxes_Frame (astGetFrame fs AST__CURRENT) in
                if naxes =? 1 then 2 else if naxes =? 2 then 200 else 2000)).
    { unfold GetMeshSize, astMAKE_GET. rewrite (ifOK_clear _ _ _ Hok).
      unfold bind at 1. unfold bind at 1.
      rewrite (member_get meshsize this s r Hr), Hunset. rewrite Z.eqb_refl.
      rewrite (bind_eq _ _ _ _ _ (GetNaxes_get this f s r fs Hok Hr Hf Hfs)).
      cbv zeta.
      destruct (astGetNaxes_Frame (astGetFrame fs AST__CURRENT) =? 1).
      - unfold ret. rewrite (bind_eq _ _ _ _ _ (astOK_clear _ Hok)). reflexivity.
      - rewrite (bind_eq _ _ _ _ _ (GetNaxes_get this f s r fs Hok Hr Hf Hfs)).
        unfold ret. rewrite (bind_eq _ _ _ _ _ (astOK_clear _ Hok)). reflexivity. }
    split; [exact Hget|].
    intros H3. rewrite Hget. cbv zeta.
    destruct (Z.eqb_spec (astGetNaxes_Frame (astGetFrame fs AST__CURRENT)) 1); [lia|].
    destruct (Z.eqb_spec (astGetNaxes_Frame (astGetFrame fs AST__CURRENT)) 2); [lia|].
    reflexivity.
  - rewrite (SetMeshSize_get this value s r Hok Hr).
    set (v := if value >? 5 then value else 5).
    assert (Hv : v = if value <? 5 then 5 else value).
    { unfold v. destruct (Z.gtb_spec value 5), (Z.ltb_spec value 5); lia. }
    set (r' := set_meshsize v (set_basemesh None r)).
    set (s' := mkState _ _ _ _ _).
    assert (Hr' : regions s' !! this = Some r') by apply lookup_insert_eq.
    exists s', r'. split; [reflexivity|]. split; [exact Hr'|].
    split; [exact Hv|].
    assert (Hok' : status s' = None) by exact Hok.
    unfold GetMeshSize, astMAKE_GET. rewrite (ifOK_clear _ _ _ Hok').
    unfold bind at 1. unfold bind at 1.
    rewrite (member_get meshsize this s' r' Hr'). cbn [meshsize r' set_meshsize].
    assert (Hne : (v =? - INT_MAX) = false).
    { apply Z.eqb_neq. unfold v, INT_MAX. destruct (Z.gtb_spec value 5); lia. }
    rewrite Hne. unfold ret. rewrite (bind_eq _ _ _ _ _ (astOK_clear s' Hok')).
    rewrite Hv. reflexivity.
Qed.

End Properties.

(** One step of a computation whose result [H] states. *)
Ltac mstep H := rewrite ?bind_assoc, ?bind_ret_l; erewrite bind_eq; [| exact H].

Section FunctionProperties.
Context `{K : Collaborators} `{!Methods}.

Lemma invoke_set {A} (d : A) (f : loc -> M A) (p : option loc) (s : State) e :
  status s = Some e -> invoke d f p s = Some (s, d).
Proof. intros H0. unfold invoke. apply (ifOK_set _ _ _ _ H0). Qed.

Lemma invoke_clear {A} (d : A) (f : loc -> M A) (p : loc) (s : State) :
  status s = None -> invoke d f (Some p) s = f p s.
Proof. intros H0. unfold invoke. rewrite (ifOK_clear _ _ _ H0). reflexivity. Qed.

Lemma astCopy_set (p : option loc) (s : State) e :
  status s = Some e -> astCopy p s = Some (s, None).
Proof. intros H0. unfold astCopy. cbn [astCopy_rec]. apply (invoke_set _ _ _ _ _ H0). Qed.

(** ** Deep copies *)

Lemma fresh_lookup {A} (m : gmap loc A) : m !! fresh (dom m) = None.
Proof. apply not_elem_of_dom, is_fresh. Qed.

Lemma heap_le_refl (s : State) : heap_le s s.
Proof. repeat split; auto. Qed.

Lemma heap_le_trans (s1 s2 s3 : State) : heap_le s1 s2 -> heap_le s2 s3 -> heap_le s1 s3.
Proof.
  intros (A1 & A2 & A3) (B1 & B2 & B3). repeat split; eauto.
Qed.

Lemma copyable_mono (n : nat) (s s' : State) (p : loc) :
  heap_le s s' -> copyable n s p = true -> copyable n s' p = true.
Proof.
  intros (Hr & Hf & Hp). revert p. induction n as [|n IH]; intros p; [discriminate|].
  cbn [copyable]. destruct (regions s !! p) as [r|] eqn:E; [|discriminate].
  rewrite (Hr _ _ E). intros Hc.
  apply andb_true_iff in Hc as [Hc Hu]. apply andb_true_iff in Hc as [Hc Hb].
  apply andb_true_iff in Hc as [Hc Hq].
  repeat (apply andb_true_iff; split).
  - destruct (frameset r) as [f|]; [|discriminate].
    apply bool_decide_eq_true in Hc as [x Hx]. rewrite (Hf _ _ Hx).
    apply bool_decide_eq_true. eauto.
  - destruct (points r) as [q|]; [|reflexivity].
    apply bool_decide_eq_true in Hq as [x Hx]. rewrite (Hp _ _ Hx).
    apply bool_decide_eq_true. eauto.
  - destruct (basemesh r) as [q|]; [|reflexivity].
    apply bool_decide_eq_true in Hb as [x Hx]. rewrite (Hp _ _ Hx).
    apply bool_decide_eq_true. eauto.
  - destruct (unc r) as [u|]; [|reflexivity]. apply IH. exact Hu.
Qed.

Lemma contents_mono (s s' : State) (r : AstRegion) :
  (forall p x, framesets s !! p = Some x -> framesets s' !! p = Some x) ->
  (forall p x, pointsets s !! p = Some x -> pointsets s' !! p = Some x) ->
  (forall f, frameset r = Some f -> is_Some (framesets s !! f)) ->
  (forall q, points r = Some q -> is_Some (pointsets s !! q)) ->
  (forall q, basemesh r = Some q -> is_Some (pointsets s !! q)) ->
  contents s' r = contents s r.
Proof.
  intros Hf Hp Hx Hq Hb. unfold contents.
  assert (E0 : (framesets s' !!.) <$> frameset r = (framesets s !!.) <$> frameset r).
  { destruct (frameset r) as [f|]; [|reflexivity]. cbn.
    destruct (Hx f eq_refl) as [y Hy]. rewrite (Hf _ _ Hy), Hy. reflexivity. }
  assert (E1 : (pointsets s' !!.) <$> points r = (pointsets s !!.) <$> points r).
  { destruct (points r) as [q|]; [|reflexivity]. cbn.
    destruct (Hq q eq_refl) as [y Hy]. rewrite (Hp _ _ Hy), Hy. reflexivity. }
  assert (E2 : (pointsets s' !!.) <$> basemesh r = (pointsets s !!.) <$> basemesh r).
  { destruct (basemesh r) as [q|]; [|reflexivity]. cbn.
    destruct (Hb q eq_refl) as [y Hy]. rewrite (Hp _ _ Hy), Hy. reflexivity. }
  rewrite E0, E1, E2. reflexivity.
Qed.

(** What [copyable] says of the Region itself. *)
Lemma copyable_inv (n : nat) (s : State) (p : loc) :
  copyable (S n) s p = true ->
  exists r, regions s !! p = Some r /\
    (exists f v, frameset r = Some f /\ framesets s !! f = Some v) /\
    (forall q, points r = Some q -> is_Some (pointsets s !! q)) /\
    (forall q, basemesh r = Some q -> is_Some (pointsets s !! q)) /\
    (forall u, unc r = Some u -> copyable n s u = true).
Proof.
  cbn [copyable]. destruct (regions s !! p) as [r|]; [|discriminate]. intros Hc.
  apply andb_true_iff in Hc as [Hc Hu]. apply andb_true_iff in Hc as [Hc Hb].
  apply andb_true_iff in Hc as [Hc Hq].
  exists r. split; [reflexivity|]. repeat split.
  - destruct (frameset r) as [f|]; [|discriminate].
    apply bool_decide_eq_true in Hc as [v Hv]. eauto.
  - intros q E. rewrite E in Hq. apply bool_decide_eq_true in Hq. exact Hq.
  - intros q E. rewrite E in Hb. apply bool_decide_eq_true in Hb. exact Hb.
  - intros u E. rewrite E in Hu. exact Hu.
Qed.

Lemma same_contents_mono_l (n : nat) : forall (s s1 t : State) (p q : loc),
  heap_le s s1 -> copyable n s p = true ->
  same_contents n s1 p t q -> same_contents n s p t q.
Proof.
  induction n as [|n IH]; intros s s1 t p q Hle Hc Hs; [exact I|].
  destruct (copyable_inv _ _ _ Hc) as (r & Hr & (f & v & Hf & Hv) & Hq & Hb & Hu).
  pose proof Hle as (Lr & Lf & Lp).
  cbn [same_contents] in *. rewrite Hr. rewrite (Lr _ _ Hr) in Hs.
  destruct (regions t !! q) as [r'|]; [|destruct Hs]. destruct Hs as [Hcon Hunc].
  split.
  - rewrite <- Hcon. symmetry. apply contents_mono; auto.
    intros f0 E. rewrite Hf in E. injection E as <-. eauto.
  - destruct (unc r) as [u|]; [|exact Hunc]. destruct (unc r') as [u'|]; [|exact Hunc].
    apply (IH s s1 t u u' Hle (Hu u eq_refl) Hunc).
Qed.

Lemma same_contents_mono_r (n : nat) : forall (s b t t' : State) (p q : loc),
  copyable n s p = true -> same_contents n s p t q ->
  (forall x r, regions b !! x = None -> regions t !! x = Some r ->
               regions t' !! x = Some r) ->
  (forall x v, framesets t !! x = Some v -> framesets t' !! x = Some v) ->
  (forall x v, pointsets t !! x = Some v -> pointsets t' !! x = Some v) ->
  separate b t -> regions b !! q = None ->
  same_contents n s p t' q.
Proof.
  induction n as [|n IH]; intros s b t t' p q Hc Hs Hr' Hf' Hp' Hsep Hq; [exact I|].
  destruct (copyable_inv _ _ _ Hc) as (r & Hr & (f & v & Hf & Hv) & Hpt & Hb & Hu).
  cbn [same_contents] in *. rewrite Hr in *.
  destruct (regions t !! q) as [r'|] eqn:Et; [|destruct Hs]. destruct Hs as [Hcon Hunc].
  rewrite (Hr' _ _ Hq Et). split.
  - rewrite Hcon. symmetry.
    unfold contents in Hcon.
    assert (E0 : (framesets s !!.) <$> frameset r = (framesets t !!.) <$> frameset r') by congruence.
    assert (E1 : (pointsets s !!.) <$> points r = (pointsets t !!.) <$> points r') by congruence.
    assert (E2 : (pointsets s !!.) <$> basemesh r = (pointsets t !!.) <$> basemesh r') by congruence.
    apply contents_mono; auto.
    + intros f0 E. rewrite E, Hf in E0. cbn in E0. rewrite Hv in E0.
      injection E0 as E0. rewrite <- E0. eauto.
    + intros q0 E. rewrite E in E1. destruct (points r) as [q1|]; [|discriminate].
      cbn in E1. destruct (Hpt q1 eq_refl) as [y Hy]. rewrite Hy in E1.
      injection E1 as E1. rewrite <- E1. eauto.
    + intros q0 E. rewrite E in E2. destruct (basemesh r) as [q1|]; [|discriminate].
      cbn in E2. destruct (Hb q1 eq_refl) as [y Hy]. rewrite Hy in E2.
      injection E2 as E2. rewrite <- E2. eauto.
  - destruct (unc r) as [u|]; [|exact Hunc]. destruct (unc r') as [u'|] eqn:Eu; [|exact Hunc].
    apply (IH s b t t' u u' (Hu u eq_refl) Hunc Hr' Hf' Hp' Hsep).
    destruct (Hsep q r' Et Hq) as (_ & _ & _ & Hfu). apply Hfu. exact Eu.
Qed.

Lemma getRegion_get (p : loc) (s : State) r :
  regions s !! p = Some r -> getRegion p s = Some (s, r).
Proof. intros E. unfold getRegion, lift. rewrite E. reflexivity. Qed.

Lemma getFrameSet_get (p : loc) (s : State) v :
  framesets s !! p = Some v -> getFrameSet p s = Some (s, v).
Proof. intros E. unfold getFrameSet, lift. rewrite E. reflexivity. Qed.

Lemma getPointSet_get (p : loc) (s : State) v :
  pointsets s !! p = Some v -> getPointSet p s = Some (s, v).
Proof. intros E. unfold getPointSet, lift. rewrite E. reflexivity. Qed.

Lemma astCopy_FrameSet_get (f : loc) (s : State) v :
  status s = None -> framesets s !! f = Some v ->
  astCopy_FrameSet (Some f) s =
    Some (mkState (status s) (reported s) (regions s)
                  (<[fresh (dom (framesets s)) := v]> (framesets s)) (pointsets s),
          Some (fresh (dom (framesets s)))).
Proof.
  intros Hok E. unfold astCopy_FrameSet. rewrite (invoke_clear _ _ _ _ Hok).
  mstep (getFrameSet_get f s v E). reflexivity.
Qed.

Lemma astCopy_PointSet_get (q : loc) (s : State) v :
  status s = None -> pointsets s !! q = Some v ->
  astCopy_PointSet (Some q) s =
    Some (mkState (status s) (reported s) (regions s) (framesets s)
                  (<[fresh (dom (pointsets s)) := v]> (pointsets s)),
          Some (fresh (dom (pointsets s)))).
Proof.
  intros Hok E. unfold astCopy_PointSet. rewrite (invoke_clear _ _ _ _ Hok).
  mstep (getPointSet_get q s v E). reflexivity.
Qed.

(** The copy of an optional PointSet member into the Region [objout]. *)
Lemma copy_opt_pointset (setp : option loc -> AstRegion -> AstRegion)
    (objout : loc) (q : option loc) (s : State) (rc : AstRegion) :
  status s = None -> regions s !! objout = Some rc -> setp None rc = rc ->
  (forall q0, q = Some q0 -> is_Some (pointsets s !! q0)) ->
  exists s' po,
    (match q with
     | Some _ => p' <- astCopy_PointSet q ;; modRegion objout (setp p')
     | None => ret tt
     end) s = Some (s', tt) /\
    status s' = None /\ reported s' = reported s /\ framesets s' = framesets s /\
    regions s' = <[objout := setp po rc]> (regions s) /\
    (forall p x, pointsets s !! p = Some x -> pointsets s' !! p = Some x) /\
    (pointsets s' !!.) <$> po = (pointsets s !!.) <$> q /\
    (forall p', po = Some p' -> pointsets s !! p' = None).
Proof.
  intros Hok Hrc Hset Hq. destruct q as [q0|].
  - destruct (Hq q0 eq_refl) as [v Hv].
    set (p' := fresh (dom (pointsets s))).
    set (s1 := mkState (status s) (reported s) (regions s) (framesets s)
                       (<[p' := v]> (pointsets s))).
    exists (mkState (status s) (reported s) (<[objout := setp (Some p') rc]> (regions s))
                    (framesets s) (<[p' := v]> (pointsets s))), (Some p').
    split.
    { mstep (astCopy_PointSet_get q0 s v Hok Hv).
      apply (modRegion_get (setp (Some p')) objout s1 rc Hrc). }
    cbn. repeat split; auto.
    + intros p x Hp. rewrite lookup_insert_ne; [exact Hp|].
      intros <-. unfold p' in Hp. rewrite fresh_lookup in Hp. discriminate.
    + rewrite lookup_insert_eq. rewrite Hv. reflexivity.
    + intros ? [= <-]. apply fresh_lookup.
  - exists s, None. split; [reflexivity|]. repeat split; auto.
    + rewrite Hset. symmetry. apply insert_id. exact Hrc.
    + intros ? [=].
Qed.

Lemma modRegion_ins (p : loc) (g : AstRegion -> AstRegion) st rep
    (R : gmap loc AstRegion) F P rc :
  modRegion p g (mkState st rep (<[p := rc]> R) F P) =
    Some (mkState st rep (<[p := g rc]> R) F P, tt).
Proof.
  erewrite modRegion_get by apply lookup_insert_eq. cbn.
  rewrite insert_insert_eq. reflexivity.
Qed.

Lemma fresh_ptrs_anti (s s' : State) (r : AstRegion) :
  heap_le s s' -> fresh_ptrs s' r -> fresh_ptrs s r.
Proof.
  intros (Lr & Lf & Lp) (A & B & C & D). repeat split.
  - intros f E. specialize (A f E). destruct (framesets s !! f) eqn:X; [|reflexivity].
    rewrite (Lf _ _ X) in A. discriminate.
  - intros f E. specialize (B f E). destruct (pointsets s !! f) eqn:X; [|reflexivity].
    rewrite (Lp _ _ X) in B. discriminate.
  - intros f E. specialize (C f E). destruct (pointsets s !! f) eqn:X; [|reflexivity].
    rewrite (Lp _ _ X) in C. discriminate.
  - intros f E. specialize (D f E). destruct (regions s !! f) eqn:X; [|reflexivity].
    rewrite (Lr _ _ X) in D. discriminate.
Qed.

Lemma Copy_spec (n : nat) (copy : option loc -> M (option loc)) rep
    (R : gmap loc AstRegion) (F : gmap loc AstFrameSet) (P : gmap loc AstPointSet)
    (this new : loc) :
  copies n copy ->
  copyable (S n) (mkState None rep R F P) this = true ->
  R !! new = None ->
  forall r, R !! this = Some r ->
  exists s', Copy copy this new (mkState None rep (<[new := r]> R) F P) = Some (s', tt) /\
    status s' = None /\ reported s' = rep /\
    heap_le (mkState None rep R F P) s' /\ is_Some (regions s' !! new) /\
    separate (mkState None rep R F P) s' /\
    same_contents (S n) (mkState None rep R F P) this s' new.
Proof.
  intros IH Hc Hnew r Hr.
  destruct (copyable_inv _ _ _ Hc) as (r_ & Hr_ & (f & fv & Hf & Hfv) & Hpt & Hbm & Hu).
  cbn in Hr_. rewrite Hr in Hr_. injection Hr_ as <-. cbn in Hfv, Hpt, Hbm.
  assert (Hne : new <> this) by (intros E; rewrite E in Hnew; congruence).
  set (s := mkState None rep R F P) in *.
  unfold Copy. rewrite ifOK_clear by reflexivity.
  mstep (modRegion_ins new (set_basemesh None) None rep R F P r).
  mstep (modRegion_ins new (set_frameset None) None rep R F P (set_basemesh None r)).
  mstep (modRegion_ins new (set_points None) None rep R F P
           (set_frameset None (set_basemesh None r))).
  mstep (modRegion_ins new (set_unc None) None rep R F P
           (set_points None (set_frameset None (set_basemesh None r)))).
  set (r0 := set_unc None (set_points None (set_frameset None (set_basemesh None r)))).
  assert (Hthis : forall rc, <[new := rc]> R !! this = Some r)
    by (intros rc; rewrite lookup_insert_ne; auto).
  mstep (member_get frameset this (mkState None rep (<[new := r0]> R) F P) r (Hthis _)).
  rewrite Hf.
  mstep (astCopy_FrameSet_get f (mkState None rep (<[new := r0]> R) F P) fv eq_refl Hfv).
  cbn [status reported regions framesets pointsets].
  set (f' := fresh (dom F)).
  assert (Hf' : F !! f' = None) by apply fresh_lookup.
  mstep (modRegion_ins new (set_frameset (Some f')) None rep R (<[f' := fv]> F) P r0).
  set (r1 := set_frameset (Some f') r0).
  mstep (member_get points this (mkState None rep (<[new := r1]> R) (<[f' := fv]> F) P) r
           (Hthis _)).
  destruct (copy_opt_pointset set_points new (points r)
              (mkState None rep (<[new := r1]> R) (<[f' := fv]> F) P) r1
              eq_refl (lookup_insert_eq _ _ _) eq_refl Hpt)
    as (s5 & po & E5 & Hst5 & Hrep5 & HF5 & HR5 & HP5 & Hpo & Hpof).
  mstep E5. destruct s5 as [st5 rep5 R5 F5 P5].
  cbn in Hst5, Hrep5, HF5, HR5, HP5, Hpo, Hpof. subst st5 rep5 F5 R5.
  rewrite insert_insert_eq.
  set (r2 := set_points po r1).
  mstep (member_get basemesh this (mkState None rep (<[new := r2]> R) (<[f' := fv]> F) P5) r
           (Hthis _)).
  assert (Hbm5 : forall q0, basemesh r = Some q0 -> is_Some (P5 !! q0)).
  { intros q0 E. destruct (Hbm q0 E) as [y Hy]. exists y. apply HP5. exact Hy. }
  destruct (copy_opt_pointset set_basemesh new (basemesh r)
              (mkState None rep (<[new := r2]> R) (<[f' := fv]> F) P5) r2
              eq_refl (lookup_insert_eq _ _ _) eq_refl Hbm5)
    as (s6 & bo & E6 & Hst6 & Hrep6 & HF6 & HR6 & HP6 & Hbo & Hbof).
  mstep E6. destruct s6 as [st6 rep6 R6 F6 P6].
  cbn in Hst6, Hrep6, HF6, HR6, HP6, Hbo, Hbof. subst st6 rep6 F6 R6.
  rewrite insert_insert_eq.
  set (r3 := set_basemesh bo r2).
  set (s6 := mkState None rep (<[new := r3]> R) (<[f' := fv]> F) P6).
  mstep (member_get unc this s6 r (Hthis _)).
  (* facts shared by both cases *)
  assert (HFs : forall p x, F !! p = Some x -> <[f' := fv]> F !! p = Some x).
  { intros p x E. rewrite lookup_insert_ne; [exact E|]. intros <-. congruence. }
  assert (HPs : forall p x, P !! p = Some x -> P6 !! p = Some x) by (intros; auto).
  assert (HRs : forall rc p x, R !! p = Some x -> <[new := rc]> R !! p = Some x).
  { intros rc p x E. rewrite lookup_insert_ne; [exact E|]. intros <-. congruence. }
  assert (Hle6 : heap_le s s6) by (repeat split; cbn; auto).
  assert (Hpo' : (P6 !!.) <$> po = (P !!.) <$> points r).
  { rewrite <- Hpo. destruct po as [p'|]; [|reflexivity]. cbn.
    destruct (points r) as [q0|]; [|discriminate]. cbn in Hpo.
    destruct (Hpt q0 eq_refl) as [y Hy]. rewrite Hy in Hpo.
    injection Hpo as Hpo. rewrite Hpo. rewrite (HP6 _ _ Hpo). reflexivity. }
  assert (Hpofr : forall p', po = Some p' -> P !! p' = None) by exact Hpof.
  assert (Hbofr : forall p', bo = Some p' -> P !! p' = None).
  { intros p' E. specialize (Hbof p' E). destruct (P !! p') eqn:X; [|reflexivity].
    rewrite (HP5 _ _ X) in Hbof. discriminate. }
  assert (Hbo' : (P6 !!.) <$> bo = (P !!.) <$> basemesh r).
  { rewrite Hbo. destruct (basemesh r) as [q0|]; [|reflexivity]. cbn.
    destruct (Hbm q0 eq_refl) as [y Hy]. rewrite Hy, (HP5 _ _ Hy). reflexivity. }
  assert (Hcon : forall uo (P' : gmap loc AstPointSet) (F' : gmap loc AstFrameSet) st' rep' R',
             (forall p x, P6 !! p = Some x -> P' !! p = Some x) ->
             (forall p x, <[f' := fv]> F !! p = Some x -> F' !! p = Some x) ->
             contents s r = contents (mkState st' rep' R' F' P') (set_unc uo r3)).
  { intros uo P' F' st' rep' R' HP' HF'. unfold contents. cbn.
    rewrite Hf. cbn. rewrite Hfv, (HF' f' fv (lookup_insert_eq _ _ _)).
    assert (X1 : (P' !!.) <$> po = (P !!.) <$> points r).
    { rewrite <- Hpo'. destruct po as [p'|]; [|reflexivity]. cbn.
      destruct (points r) as [q0|]; [|discriminate]. cbn in Hpo'.
      destruct (Hpt q0 eq_refl) as [y Hy]. rewrite Hy in Hpo'.
      injection Hpo' as Hpo'. rewrite Hpo', (HP' _ _ Hpo'). reflexivity. }
    assert (X2 : (P' !!.) <$> bo = (P !!.) <$> basemesh r).
    { rewrite <- Hbo'. destruct bo as [p'|]; [|reflexivity]. cbn.
      destruct (basemesh r) as [q0|]; [|discriminate]. cbn in Hbo'.
      destruct (Hbm q0 eq_refl) as [y Hy]. rewrite Hy in Hbo'.
      injection Hbo' as Hbo'. rewrite Hbo', (HP' _ _ Hbo'). reflexivity. }
    rewrite X1, X2. reflexivity. }
  assert (Hfr : forall uo, (forall u', uo = Some u' -> R !! u' = None) ->
                           fresh_ptrs s (set_unc uo r3)).
  { intros uo Huo. repeat split; cbn.
    - intros ? [= <-]. exact Hf'.
    - exact Hpofr.
    - exact Hbofr.
    - exact Huo. }
  destruct (unc r) as [u|] eqn:Eu.
  - destruct (IH s6 u eq_refl (copyable_mono n s s6 u Hle6 (Hu u eq_refl)))
      as (s7 & u' & E7 & Hst7 & Hrep7 & Hle7 & Hu'6 & Hu'7 & Hsep7 & Hsame7).
    mstep E7.
    pose proof Hle7 as (L7r & L7f & L7p).
    assert (Hn7 : regions s7 !! new = Some r3) by (apply L7r; apply lookup_insert_eq).
    rewrite (modRegion_get _ new s7 r3 Hn7).
    eexists. split; [reflexivity|]. cbn [status reported regions framesets pointsets].
    assert (Hu'R : R !! u' = None).
    { destruct (R !! u') eqn:X; [|reflexivity].
      cbn in Hu'6. rewrite (HRs r3 _ _ X) in Hu'6. discriminate. }
    assert (Hu'n : u' <> new).
    { intros ->. cbn in Hu'6. rewrite lookup_insert_eq in Hu'6. discriminate. }
    split; [exact Hst7|]. split; [exact Hrep7|]. split; [|split; [|split]].
    + repeat split; cbn.
      * intros p x E. rewrite lookup_insert_ne; [|intros <-; congruence].
        apply L7r. cbn. apply HRs. exact E.
      * intros p x E. apply L7f. cbn. apply HFs. exact E.
      * intros p x E. apply L7p. cbn. apply HPs. exact E.
    + rewrite lookup_insert_eq. eauto.
    + intros p x Ep Hp. cbn in Ep, Hp.
      destruct (decide (p = new)) as [->|Hpn].
      * rewrite lookup_insert_eq in Ep. injection Ep as <-.
        apply Hfr. intros ? [= <-]. exact Hu'R.
      * rewrite lookup_insert_ne in Ep by auto.
        apply (fresh_ptrs_anti s s6 x Hle6). apply (Hsep7 p x Ep).
        cbn. rewrite lookup_insert_ne by auto. exact Hp.
    + cbn [same_contents]. cbn [regions].
      replace (regions s !! this) with (Some r) by (symmetry; exact Hr).
      rewrite lookup_insert_eq. split.
      * apply Hcon; [exact L7p | exact L7f].
      * rewrite Eu. cbn [unc set_unc].
        apply (same_contents_mono_r n s s6 s7 _ u u' (Hu u eq_refl)).
        -- apply (same_contents_mono_l n s s6 s7 u u' Hle6 (Hu u eq_refl) Hsame7).
        -- intros x rx Hx Ex. cbn. rewrite lookup_insert_ne; [exact Ex|].
           intros <-. cbn in Hx. rewrite lookup_insert_eq in Hx. discriminate.
        -- auto.
        -- auto.
        -- exact Hsep7.
        -- exact Hu'6.
  - unfold ret. eexists. split; [reflexivity|].
    split; [reflexivity|]. split; [reflexivity|]. split; [exact Hle6|].
    split; [|split].
    + cbn. rewrite lookup_insert_eq. eauto.
    + intros p x Ep Hp. cbn in Ep, Hp.
      destruct (decide (p = new)) as [->|Hpn].
      * rewrite lookup_insert_eq in Ep. injection Ep as <-.
        assert (E3 : r3 = set_unc None r3) by reflexivity. rewrite E3.
        apply Hfr. intros ? [=].
      * rewrite lookup_insert_ne in Ep by auto. congruence.
    + cbn [same_contents].
      replace (regions s !! this) with (Some r) by (symmetry; exact Hr).
      replace (regions s6 !! new) with (Some r3)
        by (symmetry; apply lookup_insert_eq).
      split.
      * assert (E3 : r3 = set_unc None r3) by reflexivity. rewrite E3.
        apply Hcon; auto.
      * rewrite Eu. reflexivity.
Qed.

Lemma astCopy_rec_spec (n : nat) : copies n (astCopy_rec n).
Proof.
  induction n as [|n IH]; intros s this Hok Hc; [discriminate|].
  destruct (copyable_inv _ _ _ Hc) as (r & Hr & _).
  destruct s as [st rep R F P]. cbn in Hok, Hr. subst st.
  cbn [astCopy_rec]. rewrite invoke_clear by reflexivity.
  mstep (getRegion_get this (mkState None rep R F P) r Hr).
  set (new := fresh (dom R)).
  assert (Hnew : R !! new = None) by apply fresh_lookup.
  unfold bind at 1. unfold newRegion at 1.
  cbn [regions status reported framesets pointsets]. fold new.
  destruct (Copy_spec n (astCopy_rec n) rep R F P this new IH Hc Hnew r Hr)
    as (s' & E & Hst & Hrep & Hle & Hsome & Hsep & Hsame).
  mstep E. mstep (astOK_clear s' Hst).
  exists s', new. split; [reflexivity|].
  split; [exact Hst|]. split; [exact Hrep|]. split; [exact Hle|].
  split; [exact Hnew|]. split; [exact Hsome|]. split; [exact Hsep | exact Hsame].
Qed.

(** ** MapRegion *)

(** C4.  Called with the error status clear and a Mapping that lacks its
    forward or its inverse transformation, MapRegion reports AST__NODEF
    and returns NULL; no object is created or changed. *)
Theorem MapRegion_missing_direction
    (this : loc) (map : AstMapping) (frame : AstFrame) (s : State) :
  status s = None ->
  astGetTranForward map = false \/ astGetTranInverse map = false ->
  MapRegion this map frame s =
    Some (mkState (Some AST__NODEF) (reported s ++ [AST__NODEF])
                  (regions s) (framesets s) (pointsets s), None).
Proof.
  intros Hok Hdir. unfold MapRegion. rewrite (ifOK_clear _ _ _ Hok).
  set (s1 := mkState (Some AST__NODEF) (reported s ++ [AST__NODEF])
                     (regions s) (framesets s) (pointsets s)).
  assert (He : (if negb (astGetTranInverse map) then astError AST__NODEF
                else if negb (astGetTranForward map) then astError AST__NODEF
                else ret tt) s = Some (s1, tt)).
  { destruct (astGetTranInverse map); [|reflexivity].
    destruct Hdir as [-> | Hd]; [reflexivity | discriminate]. }
  assert (H1 : status s1 = Some AST__NODEF) by reflexivity.
  rewrite (bind_eq _ _ _ _ _ He).
  rewrite (bind_eq _ _ _ _ _ (astCopy_set (Some this) s1 _ H1)).
  rewrite (bind_eq _ _ _ _ _ (astOK_set s1 _ H1)).
  unfold ret at 1. unfold bind at 1.
  rewrite (bind_eq _ _ _ _ _ (astOK_set s1 _ H1)). reflexivity.
Qed.

Lemma putFrameSet_get (p : loc) (v w : AstFrameSet) (s : State) :
  framesets s !! p = Some w ->
  putFrameSet p v s =
    Some (mkState (status s) (reported s) (regions s) (<[p := v]> (framesets s))
                  (pointsets s), tt).
Proof. intros E. unfold putFrameSet. rewrite E. reflexivity. Qed.

(** C6, as the code has it.  MapRegion, given a Mapping with both
    transformations and a Region that can be copied, returns a new
    Region.  Every object that existed before the call, the input Region
    and its FrameSet and PointSets among them, is unchanged; the new
    Region and the FrameSet, PointSets and uncertainty Region that its
    members point to are newly created, none of them is an object of the
    input.  The new Region holds what the input holds, except that
    RegionFS is set and that its own FrameSet is the copy of the FrameSet
    of the input to which astAddFrame has added the Frame supplied,
    through the Mapping supplied, as current Frame, and from which the
    former current Frame has been removed.  The Frame and the Mapping go
    to astAddFrame as they are given; what follows from that for the
    objects is shown with Frames as objects, at [MapRegion_o]. *)
Theorem MapRegion_deep_copy
    (this : loc) (map : AstMapping) (frame : AstFrame) (s : State) :
  status s = None ->
  astGetTranForward map = true ->
  astGetTranInverse map = true ->
  copyable (S (size (regions s))) s this = true ->
  exists s' res r r' f fs f',
    MapRegion this map frame s = Some (s', Some res) /\
    status s' = None /\ reported s' = reported s /\
    heap_le s s' /\
    regions s !! res = None /\
    separate s s' /\
    regions s !! this = Some r /\ regions s' !! res = Some r' /\
    frameset r = Some f /\ framesets s !! f = Some fs /\
    frameset r' = Some f' /\
    framesets s' !! f' =
      Some (astRemoveFrame (astAddFrame fs AST__CURRENT map frame) (astGetCurrent fs)) /\
    regionfs r' = 1 /\
    class_name r' = class_name r /\ negated r' = negated r /\
    closed r' = closed r /\ meshsize r' = meshsize r /\
    fillfactor r' = fillfactor r /\ defunc r' = defunc r /\
    (pointsets s' !!.) <$> points r' = (pointsets s !!.) <$> points r /\
    (pointsets s' !!.) <$> basemesh r' = (pointsets s !!.) <$> basemesh r.
Proof.
  intros Hok Hfwd Hinv Hc.
  destruct (astCopy_rec_spec _ s this Hok Hc)
    as (s1 & res & E1 & Hst1 & Hrep1 & Hle1 & Hres & [r1 Hr1] & Hsep1 & Hsame).
  destruct (copyable_inv _ _ _ Hc) as (r & Hr & (f & fs & Hf & Hfs) & _).
  cbn [same_contents] in Hsame. rewrite Hr, Hr1 in Hsame. destruct Hsame as [Hcon _].
  unfold contents in Hcon.
  assert (C1 : class_name r1 = class_name r) by congruence.
  assert (C2 : (framesets s1 !!.) <$> frameset r1 = (framesets s !!.) <$> frameset r)
    by congruence.
  assert (C3 : (pointsets s1 !!.) <$> points r1 = (pointsets s !!.) <$> points r)
    by congruence.
  assert (C4 : (pointsets s1 !!.) <$> basemesh r1 = (pointsets s !!.) <$> basemesh r)
    by congruence.
  assert (C5 : defunc r1 = defunc r) by congruence.
  assert (C6 : negated r1 = negated r) by congruence.
  assert (C7 : closed r1 = closed r) by congruence.
  assert (C8 : meshsize r1 = meshsize r) by congruence.
  assert (C9 : fillfactor r1 = fillfactor r) by congruence.
  clear Hcon.
  rewrite Hf in C2. cbn in C2. rewrite Hfs in C2.
  destruct (frameset r1) as [f'|] eqn:Hf1; [|discriminate].
  cbn in C2. injection C2 as Hfs1.
  pose proof Hle1 as (L1r & L1f & L1p).
  destruct (Hsep1 res r1 Hr1 Hres) as (Fr1 & Fr2 & Fr3 & Fr4).
  set (fsA := astAddFrame fs AST__CURRENT map frame).
  set (fsB := astRemoveFrame fsA (astGetCurrent fs)).
  set (s2 := mkState (status s1) (reported s1) (regions s1)
                     (<[f' := fsA]> (framesets s1)) (pointsets s1)).
  set (s3 := mkState (status s1) (reported s1) (regions s1)
                     (<[f' := fsB]> (framesets s1)) (pointsets s1)).
  set (s4 := mkState (status s1) (reported s1)
                     (<[res := set_regionfs 1 r1]> (regions s1))
                     (<[f' := fsB]> (framesets s1)) (pointsets s1)).
  exists s4, res, r, (set_regionfs 1 r1), f, fs, f'.
  split.
  { unfold MapRegion. rewrite (ifOK_clear _ _ _ Hok).
    rewrite Hinv, Hfwd. cbn [negb]. unfold ret at 1. unfold bind at 1.
    mstep E1. mstep (astOK_clear s1 Hst1).
    assert (E2 : (res0 <- deref (Some res) ;;
                  f0 <- member frameset res0 ;;
                  fs0 <- deref f0 ;;
                  v <- getFrameSet fs0 ;;
                  (let icurr := astGetCurrent v in
                   putFrameSet fs0 (astAddFrame v AST__CURRENT map frame) ;;;
                   v' <- getFrameSet fs0 ;;
                   putFrameSet fs0 (astRemoveFrame v' icurr) ;;;
                   astSetRegionFS_ (Some res) 1)) s1 = Some (s4, tt)).
    { unfold deref at 1. unfold lift at 1. unfold bind at 1.
      mstep (member_get frameset res s1 r1 Hr1). rewrite Hf1.
      unfold deref at 1. unfold lift at 1. unfold bind at 1.
      mstep (getFrameSet_get f' s1 fs Hfs1). cbv zeta.
      mstep (putFrameSet_get f' fsA fs s1 Hfs1). fold s2.
      assert (H2 : framesets s2 !! f' = Some fsA) by apply lookup_insert_eq.
      mstep (getFrameSet_get f' s2 fsA H2).
      mstep (putFrameSet_get f' fsB fsA s2 H2).
      cbn [status reported regions framesets pointsets s2].
      rewrite insert_insert_eq. fold s3.
      unfold astSetRegionFS_. rewrite (invoke_clear _ _ _ s3 Hst1).
      unfold SetRegionFS, astMAKE_SET. rewrite (ifOK_clear _ _ s3 Hst1).
      unfold ret at 1. unfold bind at 1. cbn [Z.eqb].
      apply (modRegion_get (set_regionfs 1) res s3 r1 Hr1). }
    mstep E2. mstep (astOK_clear s4 Hst1). reflexivity. }
  split; [exact Hst1|]. split; [exact Hrep1|].
  assert (Hf's : framesets s !! f' = None) by (apply Fr1; exact Hf1).
  split.
  { repeat split; cbn.
    - intros p x E. rewrite lookup_insert_ne; [apply L1r; exact E|].
      intros <-. congruence.
    - intros p x E. rewrite lookup_insert_ne; [apply L1f; exact E|].
      intros <-. congruence.
    - exact L1p. }
  split; [exact Hres|].
  split.
  { intros p x Ep Hp. cbn in Ep.
    destruct (decide (p = res)) as [->|Hne].
    - rewrite lookup_insert_eq in Ep. injection Ep as <-.
      repeat split; cbn; assumption.
    - rewrite lookup_insert_ne in Ep by auto. exact (Hsep1 p x Ep Hp). }
  split; [exact Hr|].
  split; [apply lookup_insert_eq|].
  split; [exact Hf|]. split; [exact Hfs|].
  split; [exact Hf1|].
  split; [apply lookup_insert_eq|].
  cbn. repeat split; assumption.
Qed.

(** ** Equal and the fast paths of Overlap *)

Lemma pointSetOf_get (p : option loc) (s : State) :
  (forall q, p = Some q -> is_Some (pointsets s !! q)) ->
  pointSetOf p s = Some (s, p ≫= (pointsets s !!.)).
Proof.
  intros Hq. destruct p as [q|]; [|reflexivity].
  destruct (Hq q eq_refl) as [v Hv]. unfold pointSetOf.
  mstep (getPointSet_get q s v Hv). cbn. rewrite Hv. reflexivity.
Qed.

Lemma astGetNegated__get (this : loc) (s : State) r :
  status s = None -> regions s !! this = Some r ->
  astGetNegated_ (Some this) s = Some (s, flag_value 0 (negated r)).
Proof.
  intros Hok Hr. unfold astGetNegated_. rewrite (invoke_clear _ _ _ _ Hok).
  unfold GetNegated, astMAKE_GET. rewrite (ifOK_clear _ _ _ Hok).
  unfold bind at 1. unfold bind at 1. rewrite (member_get negated this s r Hr).
  unfold ret at 1. mstep (astOK_clear s Hok). reflexivity.
Qed.

Lemma astGetClosed__get (this : loc) (s : State) r :
  status s = None -> regions s !! this = Some r ->
  astGetClosed_ (Some this) s = Some (s, flag_value 1 (closed r)).
Proof.
  intros Hok Hr. unfold astGetClosed_. rewrite (invoke_clear _ _ _ _ Hok).
  unfold GetClosed, astMAKE_GET. rewrite (ifOK_clear _ _ _ Hok).
  unfold bind at 1. unfold bind at 1. rewrite (member_get closed this s r Hr).
  unfold ret at 1. mstep (astOK_clear s Hok). reflexivity.
Qed.

Lemma region_at_frameset (s : State) (p : loc) r fs :
  region_at s p r fs -> regionFrameSet p s = Some (s, fs).
Proof.
  intros (Hr & (f & Hf & Hfs) & _). exact (regionFrameSet_get p f s r fs Hr Hf Hfs).
Qed.

(** [Equal] computes the equivalence of the two Regions and changes
    nothing. *)
Lemma Equal_get (a b : loc) (s : State) ra rb fsa fsb :
  status s = None -> region_at s a ra fsa -> region_at s b rb fsb ->
  Equal a b s = Some (s, if equivalent_regions s ra rb fsa fsb then 1 else 0).
Proof.
  intros Hok Ha Hb.
  pose proof Ha as (Hra & _ & Hpa). pose proof Hb as (Hrb & _ & Hpb).
  unfold Equal. rewrite (ifOK_clear _ _ _ Hok).
  mstep (member_get class_name a s ra Hra).
  mstep (member_get class_name b s rb Hrb).
  mstep (astOK_clear s Hok). cbn [andb].
  unfold equivalent_regions.
  destruct (String.eqb (class_name ra) (class_name rb)); cbn [andb];
    [|mstep (astOK_clear s Hok); reflexivity].
  mstep (member_get points a s ra Hra).
  mstep (member_get points b s rb Hrb).
  mstep (pointSetOf_get (points ra) s Hpa).
  mstep (pointSetOf_get (points rb) s Hpb).
  destruct (astEqual_PointSet _ _); cbn [andb];
    [|mstep (astOK_clear s Hok); reflexivity].
  mstep (region_at_frameset s a ra fsa Ha).
  mstep (region_at_frameset s b rb fsb Hb).
  cbv zeta.
  destruct (astEqual_Frame (astGetFrame fsa AST__BASE) _); cbn [andb];
    [|mstep (astOK_clear s Hok); reflexivity].
  destruct (astEqual_Frame (astGetFrame fsa AST__CURRENT) _); cbn [andb];
    [|mstep (astOK_clear s Hok); reflexivity].
  destruct (astEqual_Mapping _ _); cbn [andb];
    [|mstep (astOK_clear s Hok); reflexivity].
  mstep (astGetNegated__get a s ra Hok Hra).
  mstep (astGetNegated__get b s rb Hok Hrb).
  destruct (flag_value 0 (negated ra) =? flag_value 0 (negated rb)); cbn [andb];
    [|mstep (astOK_clear s Hok); reflexivity].
  mstep (astGetClosed__get a s ra Hok Hra).
  mstep (astGetClosed__get b s rb Hok Hrb).
  mstep (astOK_clear s Hok). reflexivity.
Qed.

Lemma Negate_get (this : loc) (s : State) r :
  status s = None -> regions s !! this = Some r ->
  Negate this s =
    Some (mkState (status s) (reported s)
            (<[this := set_negated (if flag_value 0 (negated r) =? 0 then 1 else 0) r]>
               (regions s))
            (framesets s) (pointsets s), tt).
Proof.
  intros Hok Hr. unfold Negate. rewrite (ifOK_clear _ _ _ Hok).
  assert (E : GetNegated this s = Some (s, flag_value 0 (negated r))).
  { pose proof (astGetNegated__get this s r Hok Hr) as E.
    unfold astGetNegated_ in E. rewrite (invoke_clear _ _ _ _ Hok) in E. exact E. }
  mstep E. unfold SetNegated, astMAKE_SET. rewrite (ifOK_clear _ _ _ Hok).
  rewrite bind_ret_l. rewrite (modRegion_get _ this s r Hr).
  destruct (flag_value 0 (negated r) =? 0); reflexivity.
Qed.

Lemma astNegate__get (this : loc) (s : State) r :
  status s = None -> regions s !! this = Some r ->
  astNegate_ (Some this) s =
    Some (mkState (status s) (reported s)
            (<[this := set_negated (if flag_value 0 (negated r) =? 0 then 1 else 0) r]>
               (regions s))
            (framesets s) (pointsets s), tt).
Proof.
  intros Hok Hr. unfold astNegate_. rewrite (invoke_clear _ _ _ _ Hok).
  apply Negate_get; assumption.
Qed.

(** The first fast path of [OverlapX]. *)
Lemma OverlapX_equal (that this : loc) (s : State) :
  status s = None -> Equal this that s = Some (s, 1) ->
  OverlapX that this s = Some (s, 5).
Proof.
  intros Hok E. unfold OverlapX. rewrite (ifOK_clear _ _ _ Hok).
  mstep E. reflexivity.
Qed.

Lemma Overlap_OverlapX (this that : loc) (s : State) :
  status s = None -> Overlap this that s = OverlapX that this s.
Proof.
  intros Hok. unfold Overlap, astOverlapX_. rewrite !(ifOK_clear _ _ _ Hok).
  reflexivity.
Qed.

(** C3, as the code has it.  Called with the status clear on two Regions,
    Equal returns 1 exactly when the Regions are of the same class, have
    equal PointSets, equal base Frames, equal current Frames, base to
    current Mappings that astEqual finds equal to each other, and the
    same values of Negated and of Closed, and 0 otherwise.  When it
    returns 1, Overlap returns 5 at once and changes nothing.  When it
    returns 0, Overlap does not return at its first test: its result is
    that of the tests that follow, which negate the first Region, call
    Equal again, negate the Region back, and return 6 or go on to the
    boundaries and meshes of the two Regions. *)
Theorem Overlap_first_fast_path (a b : loc) (s : State) ra rb fsa fsb :
  status s = None -> region_at s a ra fsa -> region_at s b rb fsb ->
  Equal a b s = Some (s, if equivalent_regions s ra rb fsa fsb then 1 else 0) /\
  (equivalent_regions s ra rb fsa fsb = true -> Overlap a b s = Some (s, 5)) /\
  (equivalent_regions s ra rb fsa fsb = false ->
   Overlap a b s =
     (astNegate_ (Some a) ;;;
      result <- Equal a b ;;
      astNegate_ (Some a) ;;;
      if negb (result =? 0) then ret 6
      else
        bnd_this <- finite_boundary (Some a) ;;
        bnd_that <- finite_boundary (Some b) ;;
        OverlapX_compare b a result bnd_this bnd_that) s).
Proof.
  intros Hok Ha Hb. pose proof (Equal_get a b s ra rb fsa fsb Hok Ha Hb) as E.
  split; [exact E|]. split.
  - intros Heq. rewrite Heq in E.
    rewrite (Overlap_OverlapX a b s Hok). apply OverlapX_equal; assumption.
  - intros Hneq. rewrite Hneq in E.
    rewrite (Overlap_OverlapX a b s Hok).
    unfold OverlapX. rewrite (ifOK_clear _ _ _ Hok).
    rewrite (bind_eq _ _ _ _ _ E). reflexivity.
Qed.

Lemma GetNegated_get (this : loc) (s : State) r :
  status s = None -> regions s !! this = Some r ->
  GetNegated this s = Some (s, flag_value 0 (negated r)).
Proof.
  intros Hok Hr. pose proof (astGetNegated__get this s r Hok Hr) as E.
  unfold astGetNegated_ in E. rewrite (invoke_clear _ _ _ _ Hok) in E. exact E.
Qed.

Lemma fmap_lookup_bind {A} (m m' : gmap loc A) (p p' : option loc) :
  (m !!.) <$> p = (m' !!.) <$> p' -> p ≫= (m !!.) = p' ≫= (m' !!.).
Proof. destruct p, p'; cbn; congruence. Qed.

(** [OverlapX] as far as the tests for a finite boundary, for two Regions
    that [Equal] finds different. *)
Lemma OverlapX_unequal (that this : loc) (s : State) ra rb fsa fsb :
  status s = None -> region_at s this ra fsa -> region_at s that rb fsb ->
  this <> that ->
  flag_value 0 (negated ra) = 0 \/ flag_value 0 (negated ra) = 1 ->
  equivalent_regions s ra rb fsa fsb = false ->
  OverlapX that this s =
    (if equivalent_regions s (negation ra) rb fsa fsb then ret 6
     else bnd_this <- finite_boundary (Some this) ;;
          bnd_that <- finite_boundary (Some that) ;;
          OverlapX_compare that this 0 bnd_this bnd_that)
      (mkState (status s) (reported s)
         (<[this := set_negated (flag_value 0 (negated ra)) ra]> (regions s))
         (framesets s) (pointsets s)).
Proof.
  intros Hok Ha Hb Hne Hv Hneq.
  pose proof Ha as (Hra & (fa & Hfa & Hfsa) & Hpa).
  pose proof Hb as (Hrb & (fb & Hfb & Hfsb) & Hpb).
  unfold OverlapX. rewrite (ifOK_clear _ _ _ Hok).
  mstep (Equal_get this that s ra rb fsa fsb Hok Ha Hb). rewrite Hneq. cbn [Z.eqb negb].
  mstep (astNegate__get this s ra Hok Hra).
  fold (negation ra).
  set (s1 := mkState (status s) (reported s) (<[this := negation ra]> (regions s))
                     (framesets s) (pointsets s)).
  assert (Ha1 : region_at s1 this (negation ra) fsa).
  { split; [apply lookup_insert_eq|]. split; [exists fa; split; assumption | exact Hpa]. }
  assert (Hb1 : region_at s1 that rb fsb).
  { split; [cbn; rewrite lookup_insert_ne; assumption|].
    split; [exists fb; split; assumption | exact Hpb]. }
  mstep (Equal_get this that s1 _ rb fsa fsb Hok Ha1 Hb1).
  change (equivalent_regions s1 (negation ra) rb fsa fsb)
    with (equivalent_regions s (negation ra) rb fsa fsb).
  mstep (astNegate__get this s1 (negation ra) Hok (lookup_insert_eq _ _ _)).
  assert (Es : mkState (status s1) (reported s1)
                 (<[this := set_negated
                      (if flag_value 0 (negated (negation ra)) =? 0 then 1 else 0)
                      (negation ra)]> (regions s1)) (framesets s1) (pointsets s1)
               = mkState (status s) (reported s)
                   (<[this := set_negated (flag_value 0 (negated ra)) ra]> (regions s))
                   (framesets s) (pointsets s)).
  { cbn [status reported regions framesets pointsets s1].
    rewrite insert_insert_eq. f_equal. f_equal.
    unfold negation. cbn [negated set_negated].
    destruct Hv as [-> | ->]; destruct ra; reflexivity. }
  rewrite Es.
  destruct (equivalent_regions s (negation ra) rb fsa fsb); reflexivity.
Qed.

(** The second fast path of [OverlapX]: the Regions are not equal, but
    become so when [this] is negated. *)
Lemma OverlapX_negation (that this : loc) (s : State) ra rb fsa fsb :
  status s = None -> region_at s this ra fsa -> region_at s that rb fsb ->
  this <> that ->
  flag_value 0 (negated ra) = 0 \/ flag_value 0 (negated ra) = 1 ->
  equivalent_regions s ra rb fsa fsb = false ->
  equivalent_regions s (negation ra) rb fsa fsb = true ->
  OverlapX that this s =
    Some (mkState (status s) (reported s)
            (<[this := set_negated (flag_value 0 (negated ra)) ra]> (regions s))
            (framesets s) (pointsets s), 6).
Proof.
  intros Hok Ha Hb Hne Hv Hneq Heq.
  rewrite (OverlapX_unequal that this s ra rb fsa fsb Hok Ha Hb Hne Hv Hneq), Heq.
  reflexivity.
Qed.

(** C1.  With astEqual reflexive on PointSets, Frames and Mappings, and
    the status clear: Overlap(R,R) returns 5 and changes nothing; and for
    a deep copy of R that has been negated, Overlap(R, copy) returns 6 and
    changes only the Negated member of R, whose attribute value after the
    call is the value before it. *)
Theorem Overlap_self_consistency (a : loc) (s : State) ra fsa :
  (forall x, astEqual_PointSet x x = true) ->
  (forall x, astEqual_Frame x x = true) ->
  (forall x, astEqual_Mapping x x = true) ->
  status s = None -> region_at s a ra fsa -> negated_valid ra ->
  copyable (S (size (regions s))) s a = true ->
  Overlap a a s = Some (s, 5) /\
  exists s1 b s2 s3,
    astCopy (Some a) s = Some (s1, Some b) /\
    Negate b s1 = Some (s2, tt) /\
    Overlap a b s2 = Some (s3, 6) /\
    GetNegated a s2 = Some (s2, flag_value 0 (negated ra)) /\
    GetNegated a s3 = Some (s3, flag_value 0 (negated ra)) /\
    status s3 = None /\ reported s3 = reported s /\
    regions s3 = <[a := set_negated (flag_value 0 (negated ra)) ra]> (regions s2) /\
    framesets s3 = framesets s2 /\ pointsets s3 = pointsets s2.
Proof.
  intros RP RF RM Hok Ha Hnv Hc.
  pose proof Ha as (Hra & (fa & Hfa & Hfsa) & Hpa).
  assert (Hv : flag_value 0 (negated ra) = 0 \/ flag_value 0 (negated ra) = 1).
  { unfold flag_value. destruct Hnv as [-> | [-> | ->]]; cbn; auto. }
  assert (Hself : forall t (r : AstRegion) fs,
            equivalent_regions t r r fs fs = true).
  { intros t r fs. unfold equivalent_regions.
    rewrite String.eqb_refl, RP, !RF, RM, !Z.eqb_refl. reflexivity. }
  split.
  { rewrite (Overlap_OverlapX a a s Hok). apply OverlapX_equal; [exact Hok|].
    rewrite (Equal_get a a s ra ra fsa fsa Hok Ha Ha), Hself. reflexivity. }
  destruct (astCopy_rec_spec _ s a Hok Hc)
    as (s1 & b & E1 & Hst1 & Hrep1 & Hle1 & Hbf & [rb Hrb] & Hsep1 & Hsame).
  pose proof Hle1 as (L1r & L1f & L1p).
  cbn [same_contents] in Hsame. rewrite Hra, Hrb in Hsame. destruct Hsame as [Hcon _].
  unfold contents in Hcon.
  assert (C1 : class_name ra = class_name rb) by congruence.
  assert (C2 : (framesets s !!.) <$> frameset ra = (framesets s1 !!.) <$> frameset rb)
    by congruence.
  assert (C3 : (pointsets s !!.) <$> points ra = (pointsets s1 !!.) <$> points rb)
    by congruence.
  assert (C6 : negated ra = negated rb) by congruence.
  assert (C7 : closed ra = closed rb) by congruence.
  clear Hcon.
  rewrite Hfa in C2. cbn in C2. rewrite Hfsa in C2.
  destruct (frameset rb) as [fb|] eqn:Hfb; [|discriminate].
  cbn in C2. injection C2 as Hfsb. symmetry in Hfsb.
  assert (Hpb : forall q, points rb = Some q -> is_Some (pointsets s1 !! q)).
  { intros q E. rewrite E in C3. destruct (points ra) as [q0|]; [|discriminate].
    cbn in C3. injection C3 as C3. rewrite <- C3. apply (Hpa q0 eq_refl). }
  assert (Hab : a <> b) by (intros ->; congruence).
  set (t := if flag_value 0 (negated ra) =? 0 then 1 else 0).
  set (rb2 := set_negated t rb).
  set (s2 := mkState (status s1) (reported s1) (<[b := rb2]> (regions s1))
                     (framesets s1) (pointsets s1)).
  assert (EN : Negate b s1 = Some (s2, tt)).
  { rewrite (Negate_get b s1 rb Hst1 Hrb). rewrite <- C6. reflexivity. }
  assert (Ha2 : region_at s2 a ra fsa).
  { split; [cbn; rewrite lookup_insert_ne by auto; apply L1r; exact Hra|].
    split; [exists fa; split; [exact Hfa | apply L1f; exact Hfsa]|].
    intros q E. destruct (Hpa q E) as [y Hy]. exists y. apply L1p. exact Hy. }
  assert (Hb2 : region_at s2 b rb2 fsa).
  { split; [apply lookup_insert_eq|].
    split; [exists fb; split; assumption | exact Hpb]. }
  assert (Hpts : points ra ≫= (pointsets s1 !!.) = points rb ≫= (pointsets s1 !!.)).
  { rewrite <- (fmap_lookup_bind _ _ _ _ C3).
    destruct (points ra) as [q0|]; [|reflexivity]. cbn.
    destruct (Hpa q0 eq_refl) as [y Hy]. rewrite Hy. apply L1p. exact Hy. }
  assert (Ht : flag_value 0 t = t).
  { unfold t. destruct (flag_value 0 (negated ra) =? 0); reflexivity. }
  assert (Hneq : equivalent_regions s2 ra rb2 fsa fsa = false).
  { unfold equivalent_regions. cbn [negated rb2 set_negated]. rewrite Ht.
    assert (X : (flag_value 0 (negated ra) =? t) = false).
    { unfold t. destruct Hv as [-> | ->]; reflexivity. }
    rewrite X, andb_false_r. reflexivity. }
  assert (Heq : equivalent_regions s2 (set_negated t ra) rb2 fsa fsa = true).
  { unfold equivalent_regions.
    cbn [negated closed class_name points rb2 set_negated pointsets s2].
    rewrite C1, String.eqb_refl, Hpts, RP, !RF, RM, C7, !Z.eqb_refl. reflexivity. }
  exists s1, b, s2.
  eexists. split; [exact E1|]. split; [exact EN|].
  split.
  { rewrite (Overlap_OverlapX a b s2 Hst1).
    apply (OverlapX_negation b a s2 ra rb2 fsa fsa Hst1 Ha2 Hb2 Hab Hv Hneq Heq). }
  destruct Ha2 as (Hra2 & _).
  split; [apply (GetNegated_get a s2 ra Hst1 Hra2)|].
  split.
  { erewrite GetNegated_get; [| exact Hst1 | apply lookup_insert_eq].
    cbn [negated set_negated].
    assert (X : flag_value 0 (flag_value 0 (negated ra)) = flag_value 0 (negated ra))
      by (destruct Hv as [-> | ->]; reflexivity).
    rewrite X. reflexivity. }
  cbn. repeat split; auto.
Qed.

(** ** GetDefUnc *)

(** The loop of [GetDefUnc] leaves the axes before [i] as they are, sets
    the lower bounds to zero and the upper bounds to the corner. *)
Lemma GetDefUnc_loop_spec (bfrm : AstFrame) (n : nat) :
  forall (i : nat) (lbnd ubnd : list double),
    length lbnd = (i + n)%nat -> length ubnd = (i + n)%nat ->
    GetDefUnc_loop bfrm n i lbnd ubnd =
      Some (take i lbnd ++ repeat dbl_0 n,
            take i ubnd ++ defunc_corner bfrm i (drop i lbnd) (drop i ubnd)).
Proof.
  induction n as [|n IH]; intros i lbnd ubnd Hl Hu.
  - cbn [GetDefUnc_loop repeat].
    rewrite !take_ge, !drop_ge by lia. cbn. rewrite !app_nil_r. reflexivity.
  - cbn [GetDefUnc_loop].
    destruct (lookup_lt_is_Some_2 lbnd i ltac:(lia)) as [l El].
    destruct (lookup_lt_is_Some_2 ubnd i ltac:(lia)) as [u Eu].
    rewrite El, Eu. cbn [mbind option_bind].
    rewrite IH by (rewrite length_insert; lia).
    rewrite (drop_S lbnd l i El), (drop_S ubnd u i Eu). cbn [defunc_corner].
    rewrite !drop_insert_lt by lia.
    rewrite (take_S_r (<[i:=dbl_0]> lbnd) i dbl_0)
      by (apply list_lookup_insert_eq; lia).
    rewrite (take_S_r (<[i:=_]> ubnd) i _) by (apply list_lookup_insert_eq; lia).
    rewrite !take_insert_ge by lia.
    rewrite <- !app_assoc. reflexivity.
Qed.

(** What [GetDefUnc] returns: the Box that [astBox] makes in the base
    Frame from a centre at the origin and the corner of [defunc_corner],
    or [NULL] if making it fails. *)
Lemma GetDefUnc_get (this : loc) (s s1 : State) r fs (lb ub : list double) :
  status s = None -> region_at s this r fs ->
  astRegBaseBox this s = Some (s1, (lb, ub)) -> status s1 = None ->
  length lb = Z.to_nat (astGetNaxes_Frame (astGetFrame fs AST__BASE)) ->
  length ub = Z.to_nat (astGetNaxes_Frame (astGetFrame fs AST__BASE)) ->
  GetDefUnc this s =
    (result <- astBox (astGetFrame fs AST__BASE) 0 (repeat dbl_0 (length lb))
                 (defunc_corner (astGetFrame fs AST__BASE) 0 lb ub) None ;;
     ok <- astOK ;;
     ret (if ok : bool then result else None)) s1.
Proof.
  intros Hok Ha Hbox Hok1 Hl Hu.
  unfold GetDefUnc. rewrite (ifOK_clear _ _ _ Hok).
  mstep (region_at_frameset s this r fs Ha). cbv zeta.
  assert (E : astRegBaseBox_ (Some this) s = Some (s1, (lb, ub))).
  { unfold astRegBaseBox_. rewrite (invoke_clear _ _ _ _ Hok). exact Hbox. }
  mstep E. mstep (astOK_clear s1 Hok1). cbn [fst snd].
  rewrite (GetDefUnc_loop_spec _ _ 0 lb ub) by (cbn; lia).
  cbn [take drop app]. rewrite <- Hl.
  unfold lift at 1. unfold bind at 2. cbn [fst snd].
  unfold astBox_. unfold bind at 1. rewrite (ifOK_clear _ _ _ Hok1).
  reflexivity.
Qed.

(** ** SetUnc *)

(** The first two statements of [SetUnc]: the stored uncertainty Region
    is annulled and marked as a default; [k] is the rest of the function. *)
Lemma SetUnc_annul {A} (k : M A) (this : loc) (s : State) r :
  regions s !! this = Some r ->
  (forall old, unc r = Some old -> is_Some (regions s !! old)) ->
  (old <- member unc this ;;
   (match old with
    | Some p =>
        isobj <- astIsAObject p ;;
        if isobj : bool then modRegion this (set_unc None) else ret tt
    | None => ret tt
    end) ;;;
   modRegion this (set_defunc 1) ;;; k) s =
  k (mkState (status s) (reported s)
       (<[this := set_defunc 1 (set_unc None r)]> (regions s))
       (framesets s) (pointsets s)).
Proof.
  intros Hr Hold. mstep (member_get unc this s r Hr).
  destruct (unc r) as [old|] eqn:Eu.
  - assert (E : astIsAObject old s = Some (s, true)).
    { unfold astIsAObject. rewrite bool_decide_eq_true_2; [reflexivity|].
      apply Hold. reflexivity. }
    mstep E. mstep (modRegion_get (set_unc None) this s r Hr).
    erewrite bind_eq; [|apply modRegion_get; apply lookup_insert_eq].
    cbn [status reported regions framesets pointsets]. rewrite insert_insert_eq.
    reflexivity.
  - mstep (modRegion_get (set_defunc 1) this s r Hr).
    assert (E : set_unc None r = r) by (destruct r; cbn in *; subst; reflexivity).
    rewrite E. reflexivity.
Qed.

Lemma Conv_get (from to : loc) (s : State) fv tv :
  status s = None -> from <> to ->
  framesets s !! from = Some fv -> framesets s !! to = Some tv ->
  exists F',
    Conv from to s =
      Some (mkState (status s) (reported s) (regions s) F' (pointsets s),
            (astConvert_FrameSet fv tv).2) /\
    is_Some (F' !! to).
Proof.
  intros Hok Hne Hf Ht. unfold Conv. rewrite (ifOK_clear _ _ _ Hok).
  mstep (getFrameSet_get to s tv Ht). mstep (getFrameSet_get from s fv Hf).
  cbv zeta. set (c := astConvert_FrameSet fv tv).
  mstep (putFrameSet_get from c.1.1 fv s Hf).
  set (s1 := mkState _ _ _ _ _).
  assert (H1 : framesets s1 !! to = Some tv)
    by (cbn; rewrite lookup_insert_ne; assumption).
  mstep (putFrameSet_get to c.1.2 tv s1 H1).
  set (s2 := mkState _ _ _ _ _).
  assert (H2 : framesets s2 !! to = Some c.1.2) by apply lookup_insert_eq.
  mstep (getFrameSet_get to s2 _ H2).
  mstep (putFrameSet_get to (astSetBase c.1.2 (astGetBase tv)) _ s2 H2).
  set (s3 := mkState _ _ _ _ _).
  assert (H3 : framesets s3 !! from = Some c.1.1).
  { cbn. rewrite !lookup_insert_ne by auto. apply lookup_insert_eq. }
  mstep (getFrameSet_get from s3 _ H3).
  mstep (putFrameSet_get from (astSetBase c.1.1 (astGetBase fv)) _ s3 H3).
  eexists. split; [reflexivity|]. cbn.
  rewrite lookup_insert_ne by auto. rewrite lookup_insert_eq. eauto.
Qed.

(** C10.  SetUnc first annuls the stored uncertainty Region and marks the
    uncertainty as a default.  When the supplied Region is then rejected,
    for its class or because no conversion to the base Frame is found,
    AST__BADIN and AST__NCPIN are reported and the owning Region is left
    without an uncertainty Region: the previous one is not kept. *)
Theorem SetUnc_failure_clears (this q : loc) (s : State) r rq :
  status s = None ->
  regions s !! this = Some r ->
  (forall old, unc r = Some old -> is_Some (regions s !! old)) ->
  regions s !! q = Some rq ->
  (usable_unc_class (class_name rq) = false \/
   (usable_unc_class (class_name rq) = true /\
    exists f fs uf ufs,
      frameset r = Some f /\ framesets s !! f = Some fs /\
      frameset rq = Some uf /\ framesets s !! uf = Some ufs /\ uf <> f /\
      (astConvert_FrameSet ufs (astInvert fs)).2 = None)) ->
  exists s' r',
    SetUnc this (Some q) s = Some (s', tt) /\
    status s' = Some AST__NCPIN /\
    reported s' = reported s ++ [AST__BADIN; AST__NCPIN] /\
    regions s' = <[this := set_defunc 1 (set_unc None r)]> (regions s) /\
    regions s' !! this = Some r' /\ unc r' = None /\ defunc r' = 1.
Proof.
  intros Hok Hr Hold Hq Hfail.
  unfold SetUnc. rewrite (ifOK_clear _ _ _ Hok).
  rewrite (SetUnc_annul _ this s r Hr Hold).
  set (r1 := set_defunc 1 (set_unc None r)).
  set (s1 := mkState (status s) (reported s) (<[this := r1]> (regions s))
                     (framesets s) (pointsets s)).
  assert (Hq1 : exists rq1, regions s1 !! q = Some rq1 /\
                  class_name rq1 = class_name rq /\ frameset rq1 = frameset rq).
  { destruct (decide (q = this)) as [->|Hne].
    - exists r1. split; [apply lookup_insert_eq|].
      rewrite Hr in Hq. injection Hq as <-. split; reflexivity.
    - exists rq. split; [cbn; rewrite lookup_insert_ne; auto|]. split; reflexivity. }
  destruct Hq1 as (rq1 & Hq1 & Hcl & Hfr).
  mstep (member_get class_name q s1 rq1 Hq1). rewrite Hcl.
  assert (Hr1 : regions s1 !! this = Some r1) by apply lookup_insert_eq.
  destruct Hfail as [Hbad | (Hgood & f & fs & uf & ufs & Hf & Hfs & Huf & Hufs & Hne & Hconv)].
  - rewrite Hbad, bind_ret_l. mstep (astOK_clear s1 Hok). cbn [bool_decide andb].
    rewrite bool_decide_eq_true_2 by eauto. cbn [andb].
    eexists _, r1. split; [reflexivity|]. cbn.
    rewrite <- app_assoc. repeat split; try reflexivity. apply lookup_insert_eq.
  - rewrite Hgood, bind_ret_l. unfold deref at 1. unfold lift at 1. unfold bind at 1.
    mstep (member_get frameset this s1 r1 Hr1). cbn [frameset r1 set_defunc set_unc].
    rewrite Hf. unfold deref at 1. unfold lift at 1. unfold bind at 1.
    mstep (getFrameSet_get f s1 fs Hfs).
    mstep (putFrameSet_get f (astInvert fs) fs s1 Hfs).
    set (s2 := mkState _ _ _ _ _).
    assert (Hq2 : regions s2 !! q = Some rq1) by exact Hq1.
    mstep (member_get frameset q s2 rq1 Hq2). rewrite Hfr, Huf.
    unfold deref at 1. unfold lift at 1. unfold bind at 1.
    assert (Hu2 : framesets s2 !! uf = Some ufs)
      by (cbn; rewrite lookup_insert_ne; auto).
    assert (Hf2 : framesets s2 !! f = Some (astInvert fs)) by apply lookup_insert_eq.
    destruct (Conv_get uf f s2 ufs (astInvert fs) Hok Hne Hu2 Hf2) as (F' & EC & [w Hw]).
    mstep EC. rewrite Hconv.
    set (s3 := mkState _ _ _ _ _).
    mstep (getFrameSet_get f s3 w Hw).
    mstep (putFrameSet_get f (astInvert w) w s3 Hw).
    set (s4 := mkState _ _ _ _ _).
    assert (Hok4 : status s4 = None) by exact Hok.
    mstep (astOK_clear s4 Hok4).
    eexists _, r1. split; [reflexivity|]. cbn.
    rewrite <- app_assoc. repeat split; try reflexivity. apply lookup_insert_eq.
Qed.

(** ** Mask<X> *)

(** The bounds check reports the first axis, of the [n] from [idim],
    whose lower bound exceeds its upper bound. *)
Lemma Mask_check_bad (n : nat) : forall (idim i : nat) (lbnd ubnd : list Z) (s : State) l u,
  (idim <= i < idim + n)%nat ->
  (idim + n <= length lbnd)%nat -> (idim + n <= length ubnd)%nat ->
  lbnd !! i = Some l -> ubnd !! i = Some u -> l > u ->
  Mask_check n idim lbnd ubnd s =
    Some (mkState (Some AST__GBDIN) (reported s ++ [AST__GBDIN; AST__GBDIN])
                  (regions s) (framesets s) (pointsets s), tt).
Proof.
  induction n as [|n IH]; intros idim i lbnd ubnd s l u Hi Hl Hu El Eu Hgt; [lia|].
  cbn [Mask_check].
  destruct (lookup_lt_is_Some_2 lbnd idim ltac:(lia)) as [l0 El0].
  destruct (lookup_lt_is_Some_2 ubnd idim ltac:(lia)) as [u0 Eu0].
  rewrite El0, Eu0. unfold lift at 1. unfold bind at 1.
  unfold lift at 1. unfold bind at 1.
  destruct (Z.gtb_spec l0 u0) as [Hg|Hle].
  - unfold bind, astError. cbn. rewrite <- app_assoc. reflexivity.
  - assert (idim <> i) by (intros ->; rewrite El in El0; rewrite Eu in Eu0;
                           injection El0 as <-; injection Eu0 as <-; lia).
    apply (IH (S idim) i lbnd ubnd s l u); auto; lia.
Qed.

(** C9, as the code has it.  Mask<X> compares the lower with the upper
    grid bound on each of the ndim axes only while the error status is
    clear, after the axis counts have been checked and the Region to use
    obtained.  If it is, and a lower bound exceeds its upper bound, the
    call reports AST__GBDIN, returns 0, and leaves the data array, and
    every object, unchanged.  If the earlier checks have reported an
    error, the bounds are not examined: the call returns 0 with the data
    array unchanged and reports nothing more. *)
Theorem Mask_invalid_bounds (Xtype : Type) (this : loc) (map : option AstMapping)
    (inside ndim : Z) (lbnd ubnd : list Z) (in_ : list Xtype) (val : Xtype)
    (s s1 : State) (used_region : option loc) (i : nat) (l u : Z) :
  status s = None ->
  Mask_region this map ndim s = Some (s1, used_region) ->
  (Z.to_nat ndim <= length lbnd)%nat -> (Z.to_nat ndim <= length ubnd)%nat ->
  (i < Z.to_nat ndim)%nat -> lbnd !! i = Some l -> ubnd !! i = Some u -> l > u ->
  (status s1 = None ->
   exists s2,
     Mask Xtype this map inside ndim lbnd ubnd in_ val s = Some (s2, (0, in_)) /\
     status s2 = Some AST__GBDIN /\
     reported s2 = reported s1 ++ [AST__GBDIN; AST__GBDIN] /\
     regions s2 = regions s1 /\ framesets s2 = framesets s1 /\
     pointsets s2 = pointsets s1) /\
  (status s1 <> None ->
   Mask Xtype this map inside ndim lbnd ubnd in_ val s = Some (s1, (0, in_))).
Proof.
  intros Hok Hreg Hl Hu Hi El Eu Hgt. split.
  - intros Hok1. eexists. split.
    + unfold Mask. rewrite (ifOK_clear _ _ _ Hok).
      mstep Hreg. mstep (astOK_clear s1 Hok1).
      mstep (Mask_check_bad (Z.to_nat ndim) 0 i lbnd ubnd s1 l u
               ltac:(lia) Hl Hu El Eu Hgt).
      set (s2 := mkState _ _ _ _ _).
      assert (H2 : status s2 = Some AST__GBDIN) by reflexivity.
      mstep (astOK_set s2 _ H2). cbv iota. mstep (astOK_set s2 _ H2). reflexivity.
    + cbn. repeat split; reflexivity.
  - intros Hset. destruct (status s1) as [e|] eqn:Hst; [|contradiction].
    unfold Mask. rewrite (ifOK_clear _ _ _ Hok).
    mstep Hreg. mstep (astOK_set s1 e Hst). cbv iota. rewrite bind_ret_l.
    mstep (astOK_set s1 e Hst). cbv iota. rewrite bind_ret_l.
    mstep (astOK_set s1 e Hst). reflexivity.
Qed.

(** Without a Mapping, the first part succeeds when the Region has as
    many axes as the grid, and that is at least one. *)
Lemma Mask_region_clone (this f : loc) (ndim : Z) (s : State) r fs :
  status s = None ->
  regions s !! this = Some r -> frameset r = Some f -> framesets s !! f = Some fs ->
  astGetNaxes_Frame (astGetFrame fs AST__CURRENT) = ndim -> 1 <= ndim ->
  Mask_region this None ndim s = Some (s, Some this).
Proof.
  intros Hok Hr Hf Hfs Hn H1. unfold Mask_region.
  assert (E : astGetNaxes_ (Some this) s = Some (s, ndim)).
  { unfold astGetNaxes_. rewrite (invoke_clear _ _ _ _ Hok).
    rewrite (GetNaxes_get this f s r fs Hok Hr Hf Hfs), Hn. reflexivity. }
  mstep E. mstep (astOK_clear s Hok).
  rewrite Z.eqb_refl. cbn [negb orb andb].
  destruct (Z.ltb_spec ndim 1); [lia|].
  unfold astClone. rewrite (invoke_clear _ _ _ _ Hok). reflexivity.
Qed.

End FunctionProperties.

(** * Rounding of a product to binary64 *)

Section Rounding.

Lemma iter_pos_nat {A} (f : A -> A) (p : positive) (x : A) :
  SpecFloat.iter_pos f p x = Nat.iter (Pos.to_nat p) f x.
Proof.
  revert x. induction p as [p IH | p IH |]; intros x; cbn [SpecFloat.iter_pos].
  - rewrite !IH, Pos2Nat.inj_xI.
    replace (S (2 * Pos.to_nat p)) with (Pos.to_nat p + Pos.to_nat p + 1)%nat by lia.
    rewrite !Nat.iter_add. reflexivity.
  - rewrite !IH, Pos2Nat.inj_xO.
    replace (2 * Pos.to_nat p)%nat with (Pos.to_nat p + Pos.to_nat p)%nat by lia.
    rewrite Nat.iter_add. reflexivity.
  - reflexivity.
Qed.

Lemma shifted_shr_1 (M : Z) (k : nat) (mrs : shr_record) :
  shifted M k mrs -> shifted M (S k) (shr_1 mrs).
Proof.
  intros (rho & HM & Hrho & Hm & Hloc). destruct mrs as [m r s]. cbn in HM, Hm, Hloc.
  assert (Hp : 2 ^ Z.of_nat (S k) = 2 * 2 ^ Z.of_nat k).
  { rewrite Nat2Z.inj_succ, Z.pow_succ_r by lia. reflexivity. }
  assert (Hpos : 0 < 2 ^ Z.of_nat k) by (apply Z.pow_pos_nonneg; lia).
  assert (Hs : orb r s = false -> rho = 0).
  { destruct r, s; cbn; try discriminate. intros _. exact Hloc. }
  assert (Hs' : orb r s = true -> 0 < rho).
  { destruct r, s; cbn; try discriminate; intros _; lia. }
  destruct m as [|[p|p|]|p]; try lia; cbn [shr_1].
  - exists rho. cbn. rewrite Hp. destruct (orb r s) eqn:E.
    + specialize (Hs' eq_refl). repeat split; try lia.
    + specialize (Hs eq_refl). repeat split; try lia.
  - exists (2 ^ Z.of_nat k + rho). cbn. rewrite Hp.
    rewrite Pos2Z.inj_xI in HM. destruct (orb r s) eqn:E.
    + specialize (Hs' eq_refl). repeat split; try lia.
    + specialize (Hs eq_refl). repeat split; try lia.
  - exists rho. cbn. rewrite Hp.
    rewrite Pos2Z.inj_xO in HM. destruct (orb r s) eqn:E.
    + specialize (Hs' eq_refl). repeat split; try lia.
    + specialize (Hs eq_refl). repeat split; try lia.
  - exists (2 ^ Z.of_nat k + rho). cbn. rewrite Hp. destruct (orb r s) eqn:E.
    + specialize (Hs' eq_refl). repeat split; try lia.
    + specialize (Hs eq_refl). repeat split; try lia.
Qed.

Lemma shifted_iter (M : Z) (k : nat) :
  0 <= M -> shifted M k (Nat.iter k shr_1 (Build_shr_record M false false)).
Proof.
  intros HM. induction k as [|k IH].
  - exists 0. cbn. repeat split; lia.
  - cbn [Nat.iter]. apply shifted_shr_1, IH.
Qed.

(** Rounding to nearest moves the quotient by at most half a unit. *)
Lemma round_nearest_even_shifted (M : Z) (k : nat) (mrs : shr_record) :
  shifted M k mrs ->
  let m1 := round_nearest_even (shr_m mrs) (loc_of_shr_record mrs) in
  shr_m mrs <= m1 <= shr_m mrs + 1 /\
  2 * Z.abs (m1 * 2 ^ Z.of_nat k - M) <= 2 ^ Z.of_nat k.
Proof.
  intros (rho & HM & Hrho & Hm & Hloc). destruct mrs as [m r s].
  cbn in HM, Hm, Hloc |- *.
  set (P := 2 ^ Z.of_nat k) in *.
  destruct r, s; cbn [loc_of_shr_record round_nearest_even shr_m];
    try destruct (Z.even m); (split; [lia|]); rewrite ?Z.mul_add_distr_r; lia.
Qed.

(** The number of binary digits. *)
Lemma digits2_pos_bounds (p : positive) :
  2 ^ (Z.pos (digits2_pos p) - 1) <= Z.pos p < 2 ^ Z.pos (digits2_pos p).
Proof.
  induction p as [p IH | p IH |]; cbn [digits2_pos].
  - set (d := Z.pos (digits2_pos p)) in *. rewrite Pos2Z.inj_succ.
    change (Z.pos p~1) with (2 * Z.pos p + 1). fold d. replace (Z.succ d - 1) with d by lia.
    assert (E : 2 ^ d = 2 * 2 ^ (d - 1)).
    { replace d with (Z.succ (d - 1)) at 1 by lia. apply Z.pow_succ_r. unfold d. lia. }
    rewrite Z.pow_succ_r by (unfold d; lia). lia.
  - set (d := Z.pos (digits2_pos p)) in *. rewrite Pos2Z.inj_succ.
    change (Z.pos p~0) with (2 * Z.pos p). fold d. replace (Z.succ d - 1) with d by lia.
    assert (E : 2 ^ d = 2 * 2 ^ (d - 1)).
    { replace d with (Z.succ (d - 1)) at 1 by lia. apply Z.pow_succ_r. unfold d. lia. }
    rewrite Z.pow_succ_r by (unfold d; lia). lia.
  - cbn. lia.
Qed.

Lemma digits2_pos_unique (p : positive) (d : Z) :
  2 ^ (d - 1) <= Z.pos p < 2 ^ d -> Z.pos (digits2_pos p) = d.
Proof.
  intros [Hlo Hhi]. pose proof (digits2_pos_bounds p) as [Blo Bhi].
  set (n := Z.pos (digits2_pos p)) in *.
  assert (Hn : 0 < n) by (unfold n; lia).
  assert (Hd : 0 < d).
  { destruct (Z_lt_le_dec 0 d) as [H|H]; [exact H|].
    assert (2 ^ d <= 1).
    { destruct (Z.eq_dec d 0) as [->|Hne]; [cbn; lia|].
      rewrite Z.pow_neg_r by lia. lia. }
    lia. }
  destruct (Z_lt_le_dec n d) as [H1|H1].
  - assert (2 ^ n <= 2 ^ (d - 1)) by (apply Z.pow_le_mono_r; lia). lia.
  - destruct (Z_lt_le_dec d n) as [H2|H2]; [|lia].
    assert (2 ^ d <= 2 ^ (n - 1)) by (apply Z.pow_le_mono_r; lia). lia.
Qed.

(** The rounding of [M * 2^E], where [M] has more than 53 digits and the
    result is a normal number: the result is within [2^-53] of it,
    relatively. *)
Lemma binary_round_aux_error (sx : bool) (M : positive) (E : Z) :
  53 < Z.pos (digits2_pos M) ->
  -1021 <= Z.pos (digits2_pos M) + E <= 1023 ->
  exists m' e',
    binary_round_aux 53 1024 sx (Z.pos M) E loc_Exact = S754_finite sx m' e' /\
    E <= e' /\
    2 ^ 53 * Z.abs (Z.pos m' * 2 ^ (e' - E) - Z.pos M) <= Z.pos M.
Proof.
  intros Hd Hrange. pose proof (digits2_pos_bounds M) as [Blo Bhi].
  set (d := Z.pos (digits2_pos M)) in *.
  unfold binary_round_aux, shr_fexp. cbn [Zdigits2 shr_record_of_loc]. fold d.
  assert (Efexp : fexp 53 1024 (d + E) - E = d - 53) by (unfold fexp, emin; lia).
  rewrite Efexp.
  destruct (d - 53) as [|pn|pn] eqn:En; try lia.
  cbn [shr]. rewrite iter_pos_nat.
  set (k := Pos.to_nat pn).
  assert (Ek : Z.of_nat k = Z.pos pn) by (unfold k; apply positive_nat_Z).
  pose proof (shifted_iter (Z.pos M) k ltac:(lia)) as Hsh.
  set (mrs := Nat.iter k shr_1 (Build_shr_record (Z.pos M) false false)) in *.
  pose proof (round_nearest_even_shifted _ _ _ Hsh) as [Hm1 Herr].
  destruct Hsh as (rho & HM & Hrho & Hq & _).
  set (q := shr_m mrs) in *.
  set (m1 := round_nearest_even q (loc_of_shr_record mrs)) in *.
  rewrite Ek in HM, Hrho, Herr.
  set (P := 2 ^ Z.pos pn) in *.
  assert (HP : 0 < P) by (apply Z.pow_pos_nonneg; lia).
  assert (Ed : 2 ^ d = 2 ^ 53 * P).
  { replace d with (53 + Z.pos pn) by lia. apply Z.pow_add_r; lia. }
  assert (Ed1 : 2 ^ (d - 1) = 2 ^ 52 * P).
  { replace (d - 1) with (52 + Z.pos pn) by lia. apply Z.pow_add_r; lia. }
  rewrite Ed in Bhi. rewrite Ed1 in Blo.
  change (2 ^ 53) with 9007199254740992 in *.
  change (2 ^ 52) with 4503599627370496 in *.
  assert (Hqlo : 4503599627370496 <= q) by nia.
  assert (Hqhi : q < 9007199254740992) by nia.
  destruct m1 as [|pm|pm] eqn:Em1; try lia.
  destruct (Z.eq_dec (Z.pos pm) 9007199254740992) as [Ecarry | Hnocarry].
  - (* the rounded quotient has one digit too many *)
    injection Ecarry as ->.
    assert (Edig : Z.pos (digits2_pos 9007199254740992) = 54) by reflexivity.
    cbn [Zdigits2]. rewrite Edig.
    assert (Ef2 : fexp 53 1024 (54 + (E + Z.pos pn)) - (E + Z.pos pn) = 1)
      by (unfold fexp, emin; lia).
    rewrite Ef2. cbn [shr SpecFloat.iter_pos shr_1 shr_m].
    assert (Ele : (E + Z.pos pn + 1 <=? 1024 - 53) = true) by (apply Z.leb_le; lia).
    rewrite Ele. eexists _, _. split; [reflexivity|]. split; [lia|].
    replace (E + Z.pos pn + 1 - E) with (Z.succ (Z.pos pn)) by lia.
    rewrite Z.pow_succ_r by lia. fold P. lia.
  - assert (Edig : Z.pos (digits2_pos pm) = 53).
    { apply digits2_pos_unique. change (2 ^ (53 - 1)) with 4503599627370496.
      change (2 ^ 53) with 9007199254740992. lia. }
    cbn [Zdigits2]. rewrite Edig.
    assert (Ef2 : fexp 53 1024 (53 + (E + Z.pos pn)) - (E + Z.pos pn) = 0)
      by (unfold fexp, emin; lia).
    rewrite Ef2. cbn [shr shr_m].
    assert (Ele : (E + Z.pos pn <=? 1024 - 53) = true) by (apply Z.leb_le; lia).
    rewrite Ele. exists pm, (E + Z.pos pn). split; [reflexivity|]. split; [lia|].
    replace (E + Z.pos pn - E) with (Z.pos pn) by lia. fold P. lia.
Qed.

End Rounding.

Section RealRounding.
Local Open Scope R_scope.

Lemma IZR_pow2 (k : Z) : (0 <= k)%Z -> IZR (2 ^ k) = powerRZ 2 k.
Proof.
  intros Hk. destruct k as [|p|p]; [reflexivity | | lia].
  rewrite <- (positive_nat_Z p), <- pow_IZR. cbn [powerRZ].
  rewrite positive_nat_Z. reflexivity.
Qed.

Lemma dbl_R_finite (sg : bool) (m : positive) (e : Z) :
  dbl_R (S754_finite sg m e) = (if sg then -1 else 1) * IZR (Z.pos m) * powerRZ 2 e.
Proof. cbn [dbl_R]. destruct sg; lra. Qed.

Lemma sign_xorb (a b : bool) :
  (if xorb a b then -1 else 1) = (if a then -1 else 1) * (if b then -1 else 1).
Proof. destruct a, b; cbn; lra. Qed.

(** The product of two doubles is within [2^-53] of the product of the
    numbers, relatively, when it is a normal number. *)
Lemma dbl_mul_error (sx sy : bool) (mx my : positive) (ex ey : Z) :
  (53 < Z.pos (digits2_pos (mx * my)))%Z ->
  (-1021 <= Z.pos (digits2_pos (mx * my)) + (ex + ey) <= 1023)%Z ->
  Rabs (dbl_R (dbl_mul (S754_finite sx mx ex) (S754_finite sy my ey))
        - dbl_R (S754_finite sx mx ex) * dbl_R (S754_finite sy my ey))
  <= / IZR (2 ^ 53) * Rabs (dbl_R (S754_finite sx mx ex) * dbl_R (S754_finite sy my ey)).
Proof.
  intros Hd Hr. unfold dbl_mul. cbn [SFmul].
  destruct (binary_round_aux_error (xorb sx sy) (mx * my) (ex + ey) Hd Hr)
    as (m' & e' & -> & He & Hb).
  rewrite !dbl_R_finite, sign_xorb.
  set (sa := if sx then -1 else 1). set (sb := if sy then -1 else 1).
  assert (Hsa : Rabs (sa * sb) = 1).
  { unfold sa, sb. destruct sx, sy; unfold Rabs; destruct (Rcase_abs _); lra. }
  assert (Ee : powerRZ 2 e' = IZR (2 ^ (e' - (ex + ey))) * powerRZ 2 (ex + ey)).
  { rewrite IZR_pow2 by lia. rewrite <- powerRZ_add by lra. f_equal. lia. }
  rewrite Ee. rewrite Pos2Z.inj_mul in Hb.
  set (D := (Z.pos m' * 2 ^ (e' - (ex + ey)) - Z.pos mx * Z.pos my)%Z) in *.
  set (T := powerRZ 2 (ex + ey)).
  assert (HT : 0 < T) by (apply powerRZ_lt; lra).
  replace (sa * sb * IZR (Z.pos m') * (IZR (2 ^ (e' - (ex + ey))) * T)
           - sa * IZR (Z.pos mx) * powerRZ 2 ex * (sb * IZR (Z.pos my) * powerRZ 2 ey))
    with (sa * sb * (IZR D * T)).
  2:{ unfold D, T. rewrite minus_IZR, !mult_IZR, powerRZ_add by lra. ring. }
  replace (sa * IZR (Z.pos mx) * powerRZ 2 ex * (sb * IZR (Z.pos my) * powerRZ 2 ey))
    with (sa * sb * (IZR (Z.pos mx * Z.pos my) * T)).
  2:{ unfold T. rewrite mult_IZR, powerRZ_add by lra. ring. }
  rewrite !(Rabs_mult (sa * sb)), Hsa, !Rmult_1_l, !Rabs_mult, (Rabs_pos_eq T) by lra.
  rewrite <- !abs_IZR.
  assert (Hb' : IZR (2 ^ 53) * IZR (Z.abs D) <= IZR (Z.abs (Z.pos mx * Z.pos my))).
  { rewrite <- mult_IZR. apply IZR_le. rewrite (Z.abs_eq (_ * _)) by lia. exact Hb. }
  assert (H53 : 0 < IZR (2 ^ 53)) by (apply IZR_lt; reflexivity).
  set (a := IZR (Z.abs D)) in *. set (b := IZR (Z.abs (Z.pos mx * Z.pos my))) in *.
  set (c := IZR (2 ^ 53)) in *.
  assert (Ha : a <= / c * b).
  { apply (Rmult_le_reg_l c); [exact H53|]. rewrite <- Rmult_assoc, Rinv_r by lra. lra. }
  rewrite <- Rmult_assoc. apply Rmult_le_compat_r; lra.
Qed.

End RealRounding.

Section Diagonal.
Local Open Scope R_scope.

Lemma powerRZ_2_neg73 : powerRZ 2 (-73) = / IZR (2 ^ 73).
Proof.
  change (-73)%Z with (- (73))%Z. rewrite powerRZ_neg', <- IZR_pow2 by lia. reflexivity.
Qed.

(** 0.5E-6 as a double is within [2^-53] of 5/10^7, relatively. *)
Lemma dbl_half_micro_error :
  Rabs (dbl_R dbl_half_micro - 5 / 10000000) <= / IZR (2 ^ 53) * (5 / 10000000).
Proof.
  unfold dbl_half_micro. cbn [dbl_R]. rewrite powerRZ_2_neg73.
  change (2 ^ 73)%Z with 9444732965739290427392%Z.
  change (2 ^ 53)%Z with 9007199254740992%Z.
  unfold Rabs. destruct (Rcase_abs _); lra.
Qed.

Lemma product_digits (my : positive) :
  Z.pos (digits2_pos my) = 53%Z ->
  (104 < Z.pos (digits2_pos (4722366482869645 * my)) <= 106)%Z.
Proof.
  intros Hd. pose proof (digits2_pos_bounds my) as [Hlo Hhi]. rewrite Hd in Hlo, Hhi.
  change (2 ^ (53 - 1))%Z with 4503599627370496%Z in Hlo.
  change (2 ^ 53)%Z with 9007199254740992%Z in Hhi.
  pose proof (digits2_pos_bounds (4722366482869645 * my)) as [Plo Phi].
  set (d := Z.pos (digits2_pos (4722366482869645 * my))) in *.
  rewrite Pos2Z.inj_mul in Plo, Phi.
  assert (Hd0 : (0 < d)%Z) by (unfold d; lia).
  split.
  - destruct (Z_lt_le_dec 104 d) as [H|H]; [exact H|].
    assert (2 ^ d <= 2 ^ 104)%Z by (apply Z.pow_le_mono_r; lia).
    change (2 ^ 104)%Z with 20282409603651670423947251286016%Z in *. nia.
  - destruct (Z_lt_le_dec 106 d) as [H|H]; [|exact H].
    assert (2 ^ 106 <= 2 ^ (d - 1))%Z by (apply Z.pow_le_mono_r; lia).
    change (2 ^ 106)%Z with 81129638414606681695789005144064%Z in *. nia.
Qed.

(** The half-width that [GetDefUnc] computes for an axis is within
    [2^-51] of 5/10^7 times the length of the axis, relatively. *)
Lemma half_width_error (a : double) :
  regular_extent a = true ->
  Rabs (dbl_R (dbl_mul dbl_half_micro a) - 5 / 10000000 * dbl_R a)
  <= / IZR (2 ^ 51) * (5 / 10000000 * Rabs (dbl_R a)).
Proof.
  intros Hreg. destruct a as [sg| | |sy my ey]; try discriminate.
  - cbn. rewrite Rmult_0_r, Rminus_0_r, Rabs_R0. lra.
  - cbn [regular_extent] in Hreg.
    apply andb_prop in Hreg as [Hreg He2]. apply andb_prop in Hreg as [Hd He1].
    apply Z.eqb_eq in Hd. apply Z.leb_le in He1, He2.
    pose proof (product_digits my Hd) as Hpd.
    pose proof (dbl_mul_error false sy 4722366482869645 my (-73) ey
                  ltac:(lia) ltac:(lia)) as Hmul.
    fold dbl_half_micro in Hmul.
    pose proof dbl_half_micro_error as Hc.
    set (c0 := dbl_R dbl_half_micro) in *.
    set (x := dbl_R (S754_finite sy my ey)) in *.
    set (r := dbl_R (dbl_mul dbl_half_micro (S754_finite sy my ey))) in *.
    change (2 ^ 53)%Z with 9007199254740992%Z in *.
    change (2 ^ 51)%Z with 2251799813685248%Z.
    rewrite Rabs_mult in Hmul.
    assert (Hx : 0 <= Rabs x) by apply Rabs_pos.
    assert (Hc0 : Rabs c0 <= (1 + / 9007199254740992) * (5 / 10000000)).
    { revert Hc. unfold Rabs. repeat destruct (Rcase_abs _); lra. }
    assert (Htri : Rabs (r - 5 / 10000000 * x)
                   <= Rabs (r - c0 * x) + Rabs (c0 - 5 / 10000000) * Rabs x).
    { rewrite <- Rabs_mult.
      replace (r - 5 / 10000000 * x) with ((r - c0 * x) + (c0 - 5 / 10000000) * x) by ring.
      apply Rabs_triang. }
    assert (H1 : Rabs (c0 - 5 / 10000000) * Rabs x
                 <= / 9007199254740992 * (5 / 10000000) * Rabs x)
      by (apply Rmult_le_compat_r; assumption).
    assert (H2 : Rabs c0 * Rabs x
                 <= (1 + / 9007199254740992) * (5 / 10000000) * Rabs x)
      by (apply Rmult_le_compat_r; assumption).
    nra.
Qed.

(** ** The diagonal *)

Lemma sum_squares_nonneg (l : list R) :
  0 <= fold_right (fun x acc => x * x + acc) 0 l.
Proof. induction l as [|x l IH]; cbn; [lra | nra]. Qed.

Lemma diagonal_nonneg (l : list R) : 0 <= diagonal l.
Proof. apply sqrt_pos. Qed.

(** Sides that are each within [eps] of [k] times the sides of another
    box, relatively, give a diagonal within [eps] of [k] times its
    diagonal. *)
Lemma diagonal_scaled (k eps : R) (c a : list R) :
  0 <= k -> 0 <= eps <= 1 ->
  Forall2 (fun ci ai => Rabs (ci - k * ai) <= eps * (k * Rabs ai)) c a ->
  Rabs (diagonal c - k * diagonal a) <= eps * (k * diagonal a).
Proof.
  intros Hk Heps Hall.
  set (S := fold_right (fun x acc => x * x + acc) 0).
  assert (Hsum : ((1 - eps) * k) * ((1 - eps) * k) * S a <= S c
                 <= ((1 + eps) * k) * ((1 + eps) * k) * S a).
  { induction Hall as [|ci ai c a Hi _ IH]; cbn; [lra|].
    fold (S c) in *. fold (S a) in *.
    assert (Hlo : (1 - eps) * k * Rabs ai <= Rabs ci).
    { revert Hi. unfold Rabs. repeat destruct (Rcase_abs _); intros; nra. }
    assert (Hhi : Rabs ci <= (1 + eps) * k * Rabs ai).
    { revert Hi. unfold Rabs. repeat destruct (Rcase_abs _); intros; nra. }
    assert (Hci : ci * ci = Rabs ci * Rabs ci)
      by (unfold Rabs; destruct (Rcase_abs _); ring).
    assert (Hai : ai * ai = Rabs ai * Rabs ai)
      by (unfold Rabs; destruct (Rcase_abs _); ring).
    assert (Ha0 : 0 <= Rabs ai) by apply Rabs_pos.
    assert (Hc0 : 0 <= Rabs ci) by apply Rabs_pos.
    assert (Hk1 : 0 <= (1 - eps) * k) by nra.
    assert (Hk2 : 0 <= (1 + eps) * k) by nra.
    rewrite Hci, Hai. split.
    - assert (((1 - eps) * k * Rabs ai) * ((1 - eps) * k * Rabs ai) <= Rabs ci * Rabs ci)
        by (apply Rmult_le_compat; nra).
      nra.
    - assert (Rabs ci * Rabs ci <= ((1 + eps) * k * Rabs ai) * ((1 + eps) * k * Rabs ai))
        by (apply Rmult_le_compat; nra).
      nra. }
  assert (HS : 0 <= S a) by apply sum_squares_nonneg.
  assert (Hk1 : 0 <= (1 - eps) * k) by nra.
  assert (Hk2 : 0 <= (1 + eps) * k) by nra.
  unfold diagonal. fold (S c). fold (S a).
  assert (Elo : sqrt ((1 - eps) * k * ((1 - eps) * k) * S a) = (1 - eps) * k * sqrt (S a)).
  { rewrite sqrt_mult_alt by nra. rewrite sqrt_square by exact Hk1. reflexivity. }
  assert (Ehi : sqrt ((1 + eps) * k * ((1 + eps) * k) * S a) = (1 + eps) * k * sqrt (S a)).
  { rewrite sqrt_mult_alt by nra. rewrite sqrt_square by exact Hk2. reflexivity. }
  assert (Hlo : (1 - eps) * k * sqrt (S a) <= sqrt (S c)).
  { rewrite <- Elo. apply sqrt_le_1_alt. apply Hsum. }
  assert (Hhi : sqrt (S c) <= (1 + eps) * k * sqrt (S a)).
  { rewrite <- Ehi. apply sqrt_le_1_alt. apply Hsum. }
  unfold Rabs. destruct (Rcase_abs _); lra.
Qed.

End Diagonal.

(** * The default uncertainty *)

Section DefaultUncertainty.
Context `{K : Collaborators} `{!Methods}.

Lemma defunc_corner_lengths (bfrm : AstFrame) (i : nat) (lbnd ubnd : list double) :
  defunc_corner bfrm i lbnd ubnd
  = map (dbl_mul dbl_half_micro) (axis_lengths bfrm i lbnd ubnd).
Proof.
  revert i ubnd. induction lbnd as [|l lbnd IH]; intros i [|u ubnd]; cbn; try reflexivity.
  rewrite IH. reflexivity.
Qed.

Lemma axis_lengths_length (bfrm : AstFrame) (i : nat) (lbnd ubnd : list double) :
  length lbnd = length ubnd -> length (axis_lengths bfrm i lbnd ubnd) = length lbnd.
Proof.
  revert i ubnd. induction lbnd as [|l lbnd IH]; intros i [|u ubnd]; cbn;
    try reflexivity; try discriminate.
  intros [= E]. rewrite (IH _ _ E). reflexivity.
Qed.

Lemma zip_with_origin (corner : list double) :
  zip_with (fun c k => dbl_R k - dbl_R c)%R (repeat dbl_0 (length corner)) corner
  = map dbl_R corner.
Proof.
  induction corner as [|k corner IH]; cbn; [reflexivity|].
  rewrite IH. f_equal. lra.
Qed.

(** C5.  Called with the status clear on a Region whose bounding box
    [astRegBaseBox] delivers without error, GetDefUnc returns the Box
    that [astBox] makes in the base Frame from a centre at the origin and
    a corner that lies, on each axis, at 0.5E-6 times the length of the
    bounding box on that axis, the product being a double (or NULL if
    [astBox] fails).  Where the lengths are zero or normal numbers, each
    half-width is within [2^-51] of 5/10^7 times the length, relatively,
    and the diagonal of the bounding box of the Box is within [2^-51] of
    1/10^6 times the diagonal of the bounding box of the Region. *)
Theorem GetDefUnc_box (this : loc) (s s1 : State) r fs (lb ub : list double) :
  status s = None -> region_at s this r fs ->
  astRegBaseBox this s = Some (s1, (lb, ub)) -> status s1 = None ->
  length lb = Z.to_nat (astGetNaxes_Frame (astGetFrame fs AST__BASE)) ->
  length ub = Z.to_nat (astGetNaxes_Frame (astGetFrame fs AST__BASE)) ->
  let bfrm := astGetFrame fs AST__BASE in
  let lengths := axis_lengths bfrm 0 lb ub in
  let centre := repeat dbl_0 (length lb) in
  let corner := map (dbl_mul dbl_half_micro) lengths in
  GetDefUnc this s =
    (result <- astBox bfrm 0 centre corner None ;;
     ok <- astOK ;;
     ret (if ok : bool then result else None)) s1 /\
  (forallb regular_extent lengths = true ->
   Forall2 (fun k a =>
              Rabs ((dbl_R k - dbl_R dbl_0) - 5 / 10000000 * dbl_R a)
              <= / IZR (2 ^ 51) * (5 / 10000000 * Rabs (dbl_R a)))%R corner lengths /\
   (Rabs (box_diagonal centre corner - 1 / 1000000 * diagonal (map dbl_R lengths))
    <= / IZR (2 ^ 51) * (1 / 1000000 * diagonal (map dbl_R lengths)))%R).
Proof.
  intros Hok Ha Hbox Hok1 Hl Hu bfrm lengths centre corner.
  split.
  { unfold corner, lengths. rewrite <- defunc_corner_lengths.
    exact (GetDefUnc_get this s s1 r fs lb ub Hok Ha Hbox Hok1 Hl Hu). }
  intros Hreg.
  assert (Hall : Forall2 (fun k a =>
                   Rabs (dbl_R k - 5 / 10000000 * dbl_R a)
                   <= / IZR (2 ^ 51) * (5 / 10000000 * Rabs (dbl_R a)))%R corner lengths).
  { unfold corner. clearbody lengths. clear -Hreg.
    induction lengths as [|a l IH]; cbn; [constructor|].
    cbn in Hreg. apply andb_prop in Hreg as [Ha Hl].
    constructor; [apply half_width_error; exact Ha | apply IH; exact Hl]. }
  split.
  { eapply Forall2_impl; [exact Hall|]. intros k a Hka. cbn [dbl_R dbl_0].
    rewrite Rminus_0_r. exact Hka. }
  assert (Elen : length lb = length corner).
  { unfold corner, lengths. rewrite length_map, axis_lengths_length; [reflexivity|].
    rewrite Hl, Hu. reflexivity. }
  unfold box_diagonal, centre. rewrite Elen, zip_with_origin.
  assert (Hd : (Rabs (diagonal (map dbl_R corner)
                      - 5 / 10000000 * diagonal (map dbl_R lengths))
                <= / IZR (2 ^ 51) * (5 / 10000000 * diagonal (map dbl_R lengths)))%R).
  { apply diagonal_scaled.
    - lra.
    - change (2 ^ 51) with 2251799813685248. lra.
    - clear -Hall. induction Hall; cbn; constructor; assumption. }
  revert Hd. pose proof (diagonal_nonneg (map dbl_R lengths)).
  unfold Rabs. repeat destruct (Rcase_abs _); intros; lra.
Qed.

End DefaultUncertainty.

(** * Computations on states that are alike *)

Section Alike.
Context `{K : Collaborators}.

Lemma alike_refl (s : State) : alike s s.
Proof. repeat split. Qed.

Lemma alike_sym (s1 s2 : State) : alike s1 s2 -> alike s2 s1.
Proof. intros (?&?&?&?&?). repeat split; congruence. Qed.

Lemma alike_trans (s1 s2 s3 : State) : alike s1 s2 -> alike s2 s3 -> alike s1 s3.
Proof. intros (?&?&?&?&?) (?&?&?&?&?). repeat split; congruence. Qed.

Lemma alike_lookup (s1 s2 : State) (p : loc) :
  alike s1 s2 -> norm_negated <$> regions s1 !! p = norm_negated <$> regions s2 !! p.
Proof. intros (_&_&H&_). rewrite <- !lookup_fmap, H. reflexivity. Qed.

Lemma alike_dom (s1 s2 : State) : alike s1 s2 -> dom (regions s1) = dom (regions s2).
Proof.
  intros (_&_&H&_).
  rewrite <- (dom_fmap_L norm_negated (regions s1)), H. apply dom_fmap_L.
Qed.

Lemma alike_size (s1 s2 : State) : alike s1 s2 -> size (regions s1) = size (regions s2).
Proof.
  intros (_&_&H&_).
  rewrite <- (map_size_fmap norm_negated (regions s1)), H. apply map_size_fmap.
Qed.

(** ** The monad *)

Lemma mrel_ret {A B} (R : A -> B -> Prop) a b : R a b -> mrel R (ret a) (ret b).
Proof. intros H s1 s2 Hs. split; assumption. Qed.

Lemma mrel_bind {A B A' B'} (R : A -> B -> Prop) (Q : A' -> B' -> Prop)
    (m1 : M A) (m2 : M B) (k1 : A -> M A') (k2 : B -> M B') :
  mrel R m1 m2 -> (forall a b, R a b -> mrel Q (k1 a) (k2 b)) ->
  mrel Q (bind m1 k1) (bind m2 k2).
Proof.
  intros Hm Hk s1 s2 Hs. unfold bind. specialize (Hm s1 s2 Hs). unfold related in Hm.
  destruct (m1 s1) as [[s1' a]|], (m2 s2) as [[s2' b]|]; try contradiction.
  - destruct Hm as [Hs' Hab]. exact (Hk a b Hab s1' s2' Hs').
  - exact I.
Qed.

Lemma natural_ret {A} (a : A) : natural (ret a).
Proof. apply mrel_ret. reflexivity. Qed.

Lemma natural_bind {A B} (m : M A) (k : A -> M B) :
  natural m -> (forall a, natural (k a)) -> natural (bind m k).
Proof. intros Hm Hk. apply (mrel_bind eq); [exact Hm|]. intros a b <-. apply Hk. Qed.

Lemma natural_undef {A} : natural (@undef _ A).
Proof. intros s1 s2 _. exact I. Qed.

Lemma natural_lift {A} (o : option A) : natural (lift o).
Proof. intros s1 s2 Hs. unfold lift. destruct o; [split; [exact Hs | reflexivity] | exact I]. Qed.

Lemma natural_astOK : natural astOK.
Proof.
  intros s1 s2 Hs. unfold astOK. split; [exact Hs|].
  destruct Hs as (E&_). rewrite E. reflexivity.
Qed.

Lemma natural_astError e : natural (astError e).
Proof.
  intros s1 s2 (E1&E2&E3&E4&E5). unfold astError. split; [|reflexivity].
  repeat split; cbn; congruence.
Qed.

Lemma natural_ifOK {A} (d : A) (m : M A) : natural m -> natural (ifOK d m).
Proof.
  intros Hm. unfold ifOK. apply natural_bind; [apply natural_astOK|].
  intros [|]; [exact Hm | apply natural_ret].
Qed.

(** ** The store *)

Lemma mrel_getRegion (p : loc) :
  mrel (fun r1 r2 => norm_negated r1 = norm_negated r2) (getRegion p) (getRegion p).
Proof.
  intros s1 s2 Hs. unfold getRegion, lift. pose proof (alike_lookup _ _ p Hs) as E.
  destruct (regions s1 !! p), (regions s2 !! p); cbn in E; try discriminate.
  - split; [exact Hs | congruence].
  - exact I.
Qed.

Lemma natural_getFrameSet (p : loc) : natural (getFrameSet p).
Proof.
  intros s1 s2 Hs. unfold getFrameSet, lift. destruct Hs as (E1&E2&E3&E4&E5) eqn:Hs'.
  rewrite E4. destruct (framesets s2 !! p); [|exact I].
  split; [repeat split; assumption | reflexivity].
Qed.

Lemma natural_getPointSet (p : loc) : natural (getPointSet p).
Proof.
  intros s1 s2 Hs. unfold getPointSet, lift. destruct Hs as (E1&E2&E3&E4&E5) eqn:Hs'.
  rewrite E5. destruct (pointsets s2 !! p); [|exact I].
  split; [repeat split; assumption | reflexivity].
Qed.

Lemma mrel_putRegion (p : loc) (r1 r2 : AstRegion) :
  norm_negated r1 = norm_negated r2 -> mrel eq (putRegion p r1) (putRegion p r2).
Proof.
  intros Hr s1 s2 Hs. unfold putRegion. pose proof (alike_lookup _ _ p Hs) as E.
  destruct (regions s1 !! p), (regions s2 !! p); cbn in E; try discriminate; [|exact I].
  destruct Hs as (E1&E2&E3&E4&E5). split; [|reflexivity].
  repeat split; cbn; try assumption. rewrite !fmap_insert, Hr, E3. reflexivity.
Qed.

Lemma natural_putFrameSet (p : loc) (f : AstFrameSet) : natural (putFrameSet p f).
Proof.
  intros s1 s2 (E1&E2&E3&E4&E5). unfold putFrameSet. rewrite E4.
  destruct (framesets s2 !! p); [|exact I].
  split; [|reflexivity]. repeat split; cbn; congruence.
Qed.

Lemma mrel_newRegion (r1 r2 : AstRegion) :
  norm_negated r1 = norm_negated r2 -> mrel eq (newRegion r1) (newRegion r2).
Proof.
  intros Hr s1 s2 Hs. unfold newRegion. rewrite (alike_dom _ _ Hs).
  destruct Hs as (E1&E2&E3&E4&E5). split; [|reflexivity].
  repeat split; cbn; try assumption. rewrite !fmap_insert, Hr, E3. reflexivity.
Qed.

Lemma natural_newFrameSet (f : AstFrameSet) : natural (newFrameSet f).
Proof.
  intros s1 s2 (E1&E2&E3&E4&E5). unfold newFrameSet. rewrite E4.
  split; [|reflexivity]. repeat split; cbn; congruence.
Qed.

Lemma natural_newPointSet (f : AstPointSet) : natural (newPointSet f).
Proof.
  intros s1 s2 (E1&E2&E3&E4&E5). unfold newPointSet. rewrite E5.
  split; [|reflexivity]. repeat split; cbn; congruence.
Qed.

Lemma natural_modRegion (p : loc) (f : AstRegion -> AstRegion) :
  (forall r1 r2, norm_negated r1 = norm_negated r2 ->
                 norm_negated (f r1) = norm_negated (f r2)) ->
  natural (modRegion p f).
Proof.
  intros Hf. unfold modRegion. eapply mrel_bind; [apply mrel_getRegion|].
  intros r1 r2 Hr. apply mrel_putRegion, Hf, Hr.
Qed.

Lemma natural_member {A} (f : AstRegion -> A) (p : loc) :
  (forall r1 r2, norm_negated r1 = norm_negated r2 -> f r1 = f r2) ->
  natural (member f p).
Proof.
  intros Hf. unfold member. eapply mrel_bind; [apply mrel_getRegion|].
  intros r1 r2 Hr. apply mrel_ret, Hf, Hr.
Qed.

End Alike.

Create HintDb natural discriminated.

(** A member other than Negated is the same in two Regions that are
    alike; so is a Region after the same member has been set in both. *)
Ltac alike_member :=
  let r1 := fresh in let r2 := fresh in let Hr := fresh in
  intros r1 r2 Hr; destruct r1, r2; unfold norm_negated, set_negated in Hr;
  cbn in Hr |- *; congruence.

Ltac alike_update :=
  let r1 := fresh in let r2 := fresh in let Hr := fresh in
  intros r1 r2 Hr; destruct r1, r2;
  unfold norm_negated, set_negated, set_frameset, set_points, set_basemesh, set_unc,
    set_defunc, set_closed, set_meshsize, set_regionfs, set_fillfactor in Hr |- *;
  cbn in Hr |- *; congruence.

Ltac natural_step :=
  lazymatch goal with
  | |- natural (bind _ _) => apply natural_bind; [|intros ?]
  | |- natural (ret _) => apply natural_ret
  | |- natural (ifOK _ _) => apply natural_ifOK
  | |- natural astOK => apply natural_astOK
  | |- natural (astError _) => apply natural_astError
  | |- natural (lift _) => apply natural_lift
  | |- natural (deref _) => apply natural_lift
  | |- natural undef => apply natural_undef
  | |- natural (getFrameSet _) => apply natural_getFrameSet
  | |- natural (getPointSet _) => apply natural_getPointSet
  | |- natural (putFrameSet _ _) => apply natural_putFrameSet
  | |- natural (newFrameSet _) => apply natural_newFrameSet
  | |- natural (newPointSet _) => apply natural_newPointSet
  | |- natural (member _ _) => apply natural_member; alike_member
  | |- natural (modRegion _ _) => apply natural_modRegion; alike_update
  | |- natural (match ?x with _ => _ end) => destruct x
  | |- natural (let _ := _ in _) => cbv zeta
  | |- natural _ => solve [auto with natural]
  end.

Ltac natural_tac := repeat natural_step.

Section NaturalRegion.
Context `{K : Collaborators}.

Lemma natural_regionFrameSet (p : loc) : natural (regionFrameSet p).
Proof. unfold regionFrameSet. natural_tac. Qed.
#[local] Hint Resolve natural_regionFrameSet : natural.

Lemma natural_astMAKE_GET {A} (bad : A) (assign : M A) :
  natural assign -> natural (astMAKE_GET bad assign).
Proof. intros H. unfold astMAKE_GET. natural_tac. Qed.

Lemma natural_astMAKE_SET {A} (this : loc) (store : A -> AstRegion -> AstRegion)
    (assign : M A) :
  natural assign ->
  (forall v r1 r2, norm_negated r1 = norm_negated r2 ->
                   norm_negated (store v r1) = norm_negated (store v r2)) ->
  natural (astMAKE_SET this store assign).
Proof.
  intros H Hs. unfold astMAKE_SET. apply natural_ifOK, natural_bind; [exact H|].
  intros v. apply natural_modRegion, Hs.
Qed.

Lemma natural_GetNegated (p : loc) : natural (GetNegated p).
Proof.
  unfold GetNegated. apply natural_astMAKE_GET.
  apply (mrel_bind (fun v1 v2 => flag_value 0 v1 = flag_value 0 v2)).
  - unfold member. eapply mrel_bind; [apply mrel_getRegion|].
    intros r1 r2 Hr. apply mrel_ret. exact (f_equal negated Hr).
  - intros v1 v2 Hv. apply mrel_ret. exact Hv.
Qed.
#[local] Hint Resolve natural_GetNegated : natural.

Lemma natural_SetNegated (p : loc) (v : Z) : natural (SetNegated p v).
Proof.
  unfold SetNegated. apply natural_astMAKE_SET; [apply natural_ret|].
  intros w. alike_update.
Qed.
#[local] Hint Resolve natural_SetNegated : natural.

Lemma natural_Negate (p : loc) : natural (Negate p).
Proof. unfold Negate. natural_tac. Qed.

Lemma natural_GetClosed (p : loc) : natural (GetClosed p).
Proof. unfold GetClosed. apply natural_astMAKE_GET. natural_tac. Qed.

Lemma natural_SetRegionFS (p : loc) (v : Z) : natural (SetRegionFS p v).
Proof.
  unfold SetRegionFS. apply natural_astMAKE_SET; [apply natural_ret|].
  intros w. alike_update.
Qed.

Lemma natural_GetNaxes (p : loc) : natural (GetNaxes p).
Proof. unfold GetNaxes. natural_tac. Qed.

End NaturalRegion.

#[local] Hint Resolve natural_regionFrameSet natural_GetNegated natural_SetNegated
  natural_Negate natural_GetClosed natural_SetRegionFS natural_GetNaxes : natural.

Section NaturalFunctions.
Context `{K : Collaborators} `{!Methods}.
Context (Hnat : natural_methods).

Lemma natural_invoke {A} (d : A) (f : loc -> M A) (this : option loc) :
  (forall p, natural (f p)) -> natural (invoke d f this).
Proof. intros Hf. unfold invoke. natural_tac. Qed.

Lemma natural_astClone (this : option loc) : natural (astClone this).
Proof. apply natural_invoke. intros p. natural_tac. Qed.

Lemma natural_astCopy_FrameSet (this : option loc) : natural (astCopy_FrameSet this).
Proof. apply natural_invoke. intros p. natural_tac. Qed.

Lemma natural_astCopy_PointSet (this : option loc) : natural (astCopy_PointSet this).
Proof. apply natural_invoke. intros p. natural_tac. Qed.

#[local] Hint Resolve natural_astClone natural_astCopy_FrameSet natural_astCopy_PointSet
  : natural.

Lemma natural_Copy (copy : option loc -> M (option loc)) (objin objout : loc) :
  (forall u, natural (copy u)) -> natural (Copy copy objin objout).
Proof. intros Hc. unfold Copy. natural_tac. Qed.

Lemma natural_astCopy_rec (fuel : nat) (this : option loc) :
  natural (astCopy_rec fuel this).
Proof.
  revert this. induction fuel as [|n IH]; intros this; cbn [astCopy_rec].
  - apply natural_undef.
  - apply natural_invoke. intros p.
    eapply mrel_bind; [apply mrel_getRegion|]. intros r1 r2 Hr.
    eapply mrel_bind; [apply (mrel_newRegion _ _ Hr)|]. intros new ? <-.
    fold (natural (Copy (astCopy_rec n) p new ;;;
                   ok <- astOK ;; ret (if ok : bool then Some new else None))).
    apply natural_bind; [apply natural_Copy, IH|]. intros _. natural_tac.
Qed.

Lemma natural_astCopy (this : option loc) : natural (astCopy this).
Proof.
  intros s1 s2 Hs. unfold astCopy. rewrite (alike_size _ _ Hs).
  apply natural_astCopy_rec, Hs.
Qed.
#[local] Hint Resolve natural_astCopy : natural.

Lemma natural_astNegate_ (this : option loc) : natural (astNegate_ this).
Proof. apply natural_invoke. auto with natural. Qed.
Lemma natural_astGetNegated_ (this : option loc) : natural (astGetNegated_ this).
Proof. apply natural_invoke. auto with natural. Qed.
Lemma natural_astGetClosed_ (this : option loc) : natural (astGetClosed_ this).
Proof. apply natural_invoke. auto with natural. Qed.
Lemma natural_astSetRegionFS_ (this : option loc) (v : Z) :
  natural (astSetRegionFS_ this v).
Proof. apply natural_invoke. auto with natural. Qed.
Lemma natural_astGetBounded_ (this : option loc) : natural (astGetBounded_ this).
Proof. apply natural_invoke, Hnat. Qed.
Lemma natural_astRegBaseBox_ (this : option loc) : natural (astRegBaseBox_ this).
Proof. apply natural_invoke, Hnat. Qed.
Lemma natural_astRegBaseMesh_ (this : option loc) : natural (astRegBaseMesh_ this).
Proof. apply natural_invoke, Hnat. Qed.
Lemma natural_astRegPins_ (this pset unc_ : option loc) :
  natural (astRegPins_ this pset unc_).
Proof. apply natural_invoke. intros p. apply Hnat. Qed.
Lemma natural_astTransform_ (map : option AstMapping) (pset : option loc) (f : Z) :
  natural (astTransform_ map pset f).
Proof. unfold astTransform_. natural_tac; apply Hnat. Qed.
Lemma natural_astTransform_Region_ (this pset : option loc) (f : Z) :
  natural (astTransform_Region_ this pset f).
Proof. apply natural_invoke. intros p. apply Hnat. Qed.
Lemma natural_astBox_ frame form p1 p2 (u : option loc) :
  natural (astBox_ frame form p1 p2 u).
Proof. unfold astBox_. natural_tac; apply Hnat. Qed.
Lemma natural_astGetNcoord_ (this : option loc) : natural (astGetNcoord_ this).
Proof. apply natural_invoke. intros p. natural_tac. Qed.
Lemma natural_astGetNpoint_ (this : option loc) : natural (astGetNpoint_ this).
Proof. apply natural_invoke. intros p. natural_tac. Qed.
Lemma natural_astGetPoints_ (this : option loc) : natural (astGetPoints_ this).
Proof. apply natural_invoke. intros p. natural_tac. Qed.

#[local] Hint Resolve natural_astNegate_ natural_astGetNegated_ natural_astGetClosed_
  natural_astSetRegionFS_ natural_astGetBounded_ natural_astRegBaseBox_
  natural_astRegBaseMesh_ natural_astRegPins_ natural_astTransform_
  natural_astTransform_Region_ natural_astBox_ natural_astGetNcoord_
  natural_astGetNpoint_ natural_astGetPoints_ : natural.

Lemma natural_RegMapping (p : loc) : natural (RegMapping p).
Proof. unfold RegMapping. natural_tac. Qed.
#[local] Hint Resolve natural_RegMapping : natural.

Lemma natural_RegMesh (p : loc) : natural (RegMesh p).
Proof. unfold RegMesh. natural_tac. Qed.

Lemma natural_astRegMesh_ (this : option loc) : natural (astRegMesh_ this).
Proof. apply natural_invoke, natural_RegMesh. Qed.

Lemma natural_MapRegion (p : loc) map frame : natural (MapRegion p map frame).
Proof. unfold MapRegion. natural_tac. Qed.

Lemma natural_astMapRegion_ (this : option loc) map frame :
  natural (astMapRegion_ this map frame).
Proof. apply natural_invoke. intros p. apply natural_MapRegion. Qed.
#[local] Hint Resolve natural_astRegMesh_ natural_astMapRegion_ : natural.

Lemma natural_GetDefUnc (p : loc) : natural (GetDefUnc p).
Proof. unfold GetDefUnc. natural_tac. Qed.

Lemma natural_astGetDefUnc_ (this : option loc) : natural (astGetDefUnc_ this).
Proof. apply natural_invoke, natural_GetDefUnc. Qed.
#[local] Hint Resolve natural_astGetDefUnc_ : natural.

Lemma natural_GetUnc (p : loc) (ifrm : Z) : natural (GetUnc p ifrm).
Proof. unfold GetUnc. natural_tac. Qed.

Lemma natural_astGetUnc_ (this : option loc) (ifrm : Z) : natural (astGetUnc_ this ifrm).
Proof. apply natural_invoke. intros p. apply natural_GetUnc. Qed.
#[local] Hint Resolve natural_astGetUnc_ : natural.

Lemma natural_Convert (from to : loc) : natural (Convert from to).
Proof. unfold Convert. natural_tac. Qed.

Lemma natural_astConvert_ (from to : option loc) : natural (astConvert_ from to).
Proof. unfold astConvert_. natural_tac; apply natural_Convert. Qed.
#[local] Hint Resolve natural_astConvert_ : natural.

Lemma natural_finite_boundary (this : option loc) : natural (finite_boundary this).
Proof. unfold finite_boundary. natural_tac. Qed.

Lemma natural_OverlapX_mesh (reg1 reg2 : loc) (bnd1 result : Z) fs :
  natural (OverlapX_mesh reg1 reg2 bnd1 result fs).
Proof. unfold OverlapX_mesh. natural_tac. Qed.
#[local] Hint Resolve natural_OverlapX_mesh : natural.

Lemma natural_OverlapX_ordered (reg1 reg2 : loc) (bnd1 result : Z) :
  natural (OverlapX_ordered reg1 reg2 bnd1 result).
Proof. unfold OverlapX_ordered. natural_tac. Qed.

End NaturalFunctions.

(** * Exchange of the arguments of Overlap *)

Section Swap.
Context `{K : Collaborators} `{!Methods}.

Lemma swap23_involutive (r : Z) : swap23 (swap23 r) = r.
Proof.
  unfold swap23. destruct (r =? 2) eqn:E2; [apply Z.eqb_eq in E2; subst; reflexivity|].
  destruct (r =? 3) eqn:E3; [apply Z.eqb_eq in E3; subst; reflexivity|].
  rewrite E2, E3. reflexivity.
Qed.

Lemma equivalent_regions_sym (s : State) ra rb fsa fsb :
  (forall x y, astEqual_PointSet x y = astEqual_PointSet y x) ->
  (forall x y, astEqual_Frame x y = astEqual_Frame y x) ->
  (forall x y, astEqual_Mapping x y = astEqual_Mapping y x) ->
  equivalent_regions s ra rb fsa fsb = equivalent_regions s rb ra fsb fsa.
Proof.
  intros HP HF HM. unfold equivalent_regions.
  rewrite (String.eqb_sym (class_name ra)), (HP (points ra ≫= _)),
    (HF (astGetFrame fsa AST__BASE)), (HF (astGetFrame fsa AST__CURRENT)),
    (HM (astGetMapping fsa AST__BASE AST__CURRENT)),
    (Z.eqb_sym (flag_value 0 (negated ra))), (Z.eqb_sym (flag_value 1 (closed ra))).
  reflexivity.
Qed.

Lemma negated_valid_flag r :
  negated_valid r -> flag_value 0 (negated r) = 0 \/ flag_value 0 (negated r) = 1.
Proof. intros [-> | [-> | ->]]; cbn; auto. Qed.

Lemma equivalent_negation_sym (s : State) ra rb fsa fsb :
  (forall x y, astEqual_PointSet x y = astEqual_PointSet y x) ->
  (forall x y, astEqual_Frame x y = astEqual_Frame y x) ->
  (forall x y, astEqual_Mapping x y = astEqual_Mapping y x) ->
  negated_valid ra -> negated_valid rb ->
  equivalent_regions s (negation ra) rb fsa fsb
  = equivalent_regions s (negation rb) ra fsb fsa.
Proof.
  intros HP HF HM Va Vb.
  rewrite (equivalent_regions_sym s (negation rb) ra fsb fsa HP HF HM).
  unfold equivalent_regions, negation. cbn [class_name points negated closed set_negated].
  f_equal. f_equal.
  destruct (negated_valid_flag _ Va) as [-> | ->], (negated_valid_flag _ Vb) as [-> | ->];
    reflexivity.
Qed.

Lemma alike_norm (s : State) (p : loc) r :
  regions s !! p = Some r ->
  alike s (mkState (status s) (reported s)
             (<[p := set_negated (flag_value 0 (negated r)) r]> (regions s))
             (framesets s) (pointsets s)).
Proof.
  intros Hr. repeat split. cbn. rewrite fmap_insert.
  symmetry. apply insert_id. rewrite lookup_fmap, Hr. cbn. f_equal.
  assert (Ei : flag_value 0 (flag_value 0 (negated r)) = flag_value 0 (negated r)).
  { unfold flag_value. destruct (Z.eqb_spec (negated r) (- INT_MAX)) as [E|E];
      [reflexivity|].
    destruct (Z.eqb_spec (negated r) (- INT_MAX)); [contradiction | reflexivity]. }
  unfold norm_negated. cbn [negated set_negated]. rewrite Ei. destruct r; reflexivity.
Qed.

Lemma alike_valid (s s' : State) (p : loc) :
  alike s s' -> negated_valid_at s p -> negated_valid_at s' p.
Proof.
  intros Hs Hv r' Hr'. pose proof (alike_lookup _ _ p Hs) as E. rewrite Hr' in E.
  destruct (regions s !! p) as [r|] eqn:Hr; [|discriminate].
  apply (f_equal (fmap negated)) in E. cbn in E. injection E as E.
  specialize (Hv r Hr). unfold negated_valid in *. unfold flag_value in E.
  destruct (Z.eqb_spec (negated r) (- INT_MAX)) as [E1|E1],
           (Z.eqb_spec (negated r') (- INT_MAX)) as [E2|E2]; lia.
Qed.

Lemma astNegate__none (this : loc) (s : State) :
  status s = None -> regions s !! this = None -> astNegate_ (Some this) s = None.
Proof.
  intros Hst Hr. unfold astNegate_. rewrite (invoke_clear _ _ _ _ Hst).
  unfold Negate. rewrite (ifOK_clear _ _ _ Hst).
  unfold GetNegated, astMAKE_GET. unfold bind at 1. rewrite (ifOK_clear _ _ _ Hst).
  unfold member, getRegion, bind, lift. rewrite Hr. reflexivity.
Qed.

Context (Hnat : natural_methods).

Lemma astGetBounded__const (this : option loc) (s s' : State) v :
  astGetBounded_ this s = Some (s', v) -> s' = s.
Proof.
  unfold astGetBounded_, invoke, ifOK, bind, astOK, deref, lift, ret.
  destruct (bool_decide (status s = None)); [|congruence].
  destruct this as [p|]; [|discriminate].
  intros E. exact (readonly_astGetBounded Hnat p s s' v E).
Qed.

(** The tests for a finite boundary leave the state as it was, but for a
    Negated member that was undefined and is now 0. *)
Lemma finite_boundary_alike (x : loc) (s s' : State) v :
  negated_valid_at s x -> finite_boundary (Some x) s = Some (s', v) -> alike s s'.
Proof.
  intros Hv. unfold finite_boundary. unfold bind at 1.
  destruct (astGetBounded_ (Some x) s) as [[s0 b]|] eqn:E0; [|discriminate].
  apply astGetBounded__const in E0. subst s0.
  destruct (b =? 0); [|intros [= <- _]; apply alike_refl].
  destruct (status s) as [e|] eqn:Hst.
  - unfold astNegate_. unfold bind at 1. rewrite (invoke_set _ _ _ _ e Hst).
    unfold bind at 1.
    destruct (astGetBounded_ (Some x) s) as [[s0 b']|] eqn:E1; [|discriminate].
    apply astGetBounded__const in E1. subst s0.
    unfold bind at 1. rewrite (invoke_set _ _ _ _ e Hst).
    intros [= <- _]. apply alike_refl.
  - destruct (regions s !! x) as [r|] eqn:Hr.
    + unfold bind at 1. rewrite (astNegate__get x s r Hst Hr).
      set (s1 := mkState _ _ _ _ _). unfold bind at 1.
      destruct (astGetBounded_ (Some x) s1) as [[s0 b']|] eqn:E1; [|discriminate].
      apply astGetBounded__const in E1. subst s0.
      unfold bind at 1.
      rewrite (astNegate__get x s1 _ Hst (lookup_insert_eq _ _ _)).
      intros [= <- _].
      cbn [status reported regions framesets pointsets s1].
      rewrite insert_insert_eq.
      replace (set_negated _ _) with (set_negated (flag_value 0 (negated r)) r).
      * apply alike_norm, Hr.
      * cbn [negated set_negated].
        destruct (negated_valid_flag _ (Hv r Hr)) as [-> | ->]; destruct r; reflexivity.
    + unfold bind at 1. rewrite (astNegate__none x s Hst Hr). discriminate.
Qed.

Lemma finite_boundary_value (x : loc) (s t : State) v :
  alike s t -> negated_valid_at t x ->
  snd <$> finite_boundary (Some x) s = Some v ->
  exists t', finite_boundary (Some x) t = Some (t', v) /\ alike t t'.
Proof.
  intros Hs Hv E. pose proof (natural_finite_boundary Hnat (Some x) s t Hs) as Hr.
  destruct (finite_boundary (Some x) s) as [[s' v']|]; [|discriminate].
  cbn in E. injection E as ->.
  destruct (finite_boundary (Some x) t) as [[t' w]|] eqn:Et; [|contradiction].
  destruct Hr as [_ <-]. exists t'. split; [reflexivity|].
  exact (finite_boundary_alike x t t' v Hv Et).
Qed.

Lemma OverlapX_ordered_set (reg1 reg2 : loc) (bnd1 result : Z) (s : State) e :
  status s = Some e -> OverlapX_ordered reg1 reg2 bnd1 result s = Some (s, result).
Proof.
  intros Hst. unfold OverlapX_ordered, astConvert_. unfold bind.
  rewrite (ifOK_set _ _ _ e Hst). reflexivity.
Qed.

(** The two orders of the arguments lead to the same comparison when at
    most one Region has a finite boundary. *)
Lemma OverlapX_compare_swap (a b : loc) (result v w : Z) :
  a <> b -> v = 0 \/ w = 0 ->
  mrel (fun r1 r2 => r2 = swap23 r1)
       (OverlapX_compare b a result v w) (OverlapX_compare a b result w v).
Proof.
  intros Hne Hvw. unfold OverlapX_compare.
  assert (Eab : Pos.eqb a b = false) by (apply Pos.eqb_neq; exact Hne).
  assert (Eba : Pos.eqb b a = false) by (apply Pos.eqb_neq; congruence).
  assert (Hend : forall c1 c2 : Z, c2 = swap23 c1 ->
            mrel (fun r1 r2 : Z => r2 = swap23 r1)
              (ok <- astOK ;; ret (if ok : bool then c1 else 0))
              (ok <- astOK ;; ret (if ok : bool then c2 else 0))).
  { intros c1 c2 ->. apply (mrel_bind eq); [apply natural_astOK|].
    intros ok ? <-. apply mrel_ret. destruct ok; reflexivity. }
  destruct (v =? 0) eqn:Ev, (w =? 0) eqn:Ew.
  - (* neither Region has a finite boundary *)
    cbn [andb negb]. rewrite !Pos.eqb_refl.
    intros s1 s2 Hs.
    assert (Hpre : forall s : State, exists s' e,
              (ok <- astOK ;;
               if ok : bool then astError AST__INTER ;;; astError AST__INTER else ret tt) s
              = Some (s', tt) /\ status s' = Some e).
    { intros s. unfold bind, astOK. destruct (status s) as [e|] eqn:Hst.
      - rewrite bool_decide_eq_false_2 by discriminate. cbn. eauto.
      - rewrite bool_decide_eq_true_2 by reflexivity. cbn. eauto. }
    assert (Hnatpre : natural
              (ok <- astOK ;;
               if ok : bool then astError AST__INTER ;;; astError AST__INTER else ret tt)).
    { natural_tac. }
    specialize (Hnatpre s1 s2 Hs).
    destruct (Hpre s1) as (s1' & e1 & E1 & Hst1), (Hpre s2) as (s2' & e2 & E2 & Hst2).
    rewrite E1, E2 in Hnatpre. destruct Hnatpre as [Hs' _].
    assert (Hside : forall (s s' : State) e r1 r2 (c : bool),
              (ok <- astOK ;;
               if ok : bool then astError AST__INTER ;;; astError AST__INTER else ret tt) s
              = Some (s', tt) -> status s' = Some e ->
              (ok <- astOK ;;
               (if ok : bool then astError AST__INTER ;;; astError AST__INTER else ret tt) ;;;
               res <- OverlapX_ordered r1 r2 0 result ;;
               ok' <- astOK ;;
               ret (if ok' : bool then swap23 res else 0)) s = Some (s', 0)).
    { intros s s' e r1 r2 _ E Hst.
      rewrite <- bind_assoc. unfold bind at 1. rewrite E.
      unfold bind at 1. rewrite (OverlapX_ordered_set _ _ _ _ _ e Hst).
      unfold bind, astOK. rewrite Hst. reflexivity. }
    apply Z.eqb_eq in Ev, Ew. subst v w.
    rewrite (Hside s1 s1' e1 b a true E1 Hst1), (Hside s2 s2' e2 a b true E2 Hst2).
    split; [exact Hs' | reflexivity].
  - (* only [b] has a finite boundary *)
    cbn [andb negb]. rewrite Eab, Pos.eqb_refl.
    apply (mrel_bind eq); [apply natural_astOK|]. intros ok ? <-.
    apply (mrel_bind eq); [apply natural_ret|]. intros _ _ _.
    apply (mrel_bind eq); [apply (natural_OverlapX_ordered Hnat)|]. intros r ? <-.
    apply Hend. reflexivity.
  - (* only [a] has a finite boundary *)
    cbn [andb negb]. rewrite Eba, Pos.eqb_refl.
    apply (mrel_bind eq); [apply natural_astOK|]. intros ok ? <-.
    apply (mrel_bind eq); [apply natural_ret|]. intros _ _ _.
    apply (mrel_bind eq); [apply (natural_OverlapX_ordered Hnat)|]. intros r ? <-.
    apply Hend. symmetry. apply swap23_involutive.
  - apply Z.eqb_neq in Ev, Ew. destruct Hvw; contradiction.
Qed.

End Swap.

Section OverlapSwap.
Context `{K : Collaborators} `{!Methods}.

Lemma Overlap_swap_related (a b : loc) (s : State) ra rb fsa fsb :
  (forall x y, astEqual_PointSet x y = astEqual_PointSet y x) ->
  (forall x y, astEqual_Frame x y = astEqual_Frame y x) ->
  (forall x y, astEqual_Mapping x y = astEqual_Mapping y x) ->
  natural_methods ->
  status s = None -> a <> b ->
  region_at s a ra fsa -> region_at s b rb fsb ->
  negated_valid ra -> negated_valid rb ->
  equivalent_regions s ra rb fsa fsb = true \/
  equivalent_regions s (negation ra) rb fsa fsb = true \/
  (exists v w, snd <$> finite_boundary (Some a) s = Some v /\
               snd <$> finite_boundary (Some b) s = Some w /\ (v = 0 \/ w = 0)) ->
  related (fun r1 r2 => r2 = swap23 r1) (Overlap a b s) (Overlap b a s).
Proof.
  intros HP HF HM Hnat Hok Hne Ha Hb Va Vb Hcase.
  rewrite !Overlap_OverlapX by exact Hok.
  pose proof (equivalent_regions_sym s ra rb fsa fsb HP HF HM) as E5.
  pose proof (equivalent_negation_sym s ra rb fsa fsb HP HF HM Va Vb) as E6.
  pose proof Ha as (Hra & _). pose proof Hb as (Hrb & _).
  destruct (equivalent_regions s ra rb fsa fsb) eqn:H5.
  { pose proof (Equal_get a b s ra rb fsa fsb Hok Ha Hb) as Eab.
    pose proof (Equal_get b a s rb ra fsb fsa Hok Hb Ha) as Eba.
    rewrite H5 in Eab. rewrite <- E5 in Eba.
    rewrite (OverlapX_equal b a s Hok Eab), (OverlapX_equal a b s Hok Eba).
    split; [apply alike_refl | reflexivity]. }
  rewrite (OverlapX_unequal b a s ra rb fsa fsb Hok Ha Hb Hne (negated_valid_flag _ Va) H5).
  rewrite (OverlapX_unequal a b s rb ra fsb fsa Hok Hb Ha (not_eq_sym Hne)
             (negated_valid_flag _ Vb) (eq_sym E5)).
  rewrite <- E6.
  set (sa := mkState (status s) (reported s)
               (<[a := set_negated (flag_value 0 (negated ra)) ra]> (regions s))
               (framesets s) (pointsets s)).
  set (sb := mkState (status s) (reported s)
               (<[b := set_negated (flag_value 0 (negated rb)) rb]> (regions s))
               (framesets s) (pointsets s)).
  assert (Hsa : alike s sa) by (apply alike_norm; exact Hra).
  assert (Hsb : alike s sb) by (apply alike_norm; exact Hrb).
  assert (Hab : alike sa sb) by exact (alike_trans _ _ _ (alike_sym _ _ Hsa) Hsb).
  destruct (equivalent_regions s (negation ra) rb fsa fsb) eqn:H6.
  { split; [exact Hab | reflexivity]. }
  destruct Hcase as [Hc | [Hc | (v & w & Hv & Hw & Hvw)]]; try discriminate.
  assert (Vsa : negated_valid_at s a)
    by (intros r Hr; rewrite Hra in Hr; injection Hr as <-; exact Va).
  assert (Vsb : negated_valid_at s b)
    by (intros r Hr; rewrite Hrb in Hr; injection Hr as <-; exact Vb).
  (* the order (a, b) *)
  destruct (finite_boundary_value Hnat a s sa v Hsa (alike_valid _ _ _ Hsa Vsa) Hv)
    as (sa1 & Ea1 & Hsa1).
  assert (Hs_sa1 : alike s sa1) by exact (alike_trans _ _ _ Hsa Hsa1).
  destruct (finite_boundary_value Hnat b s sa1 w Hs_sa1 (alike_valid _ _ _ Hs_sa1 Vsb) Hw)
    as (sa2 & Ea2 & Hsa2).
  (* the order (b, a) *)
  destruct (finite_boundary_value Hnat b s sb w Hsb (alike_valid _ _ _ Hsb Vsb) Hw)
    as (sb1 & Eb1 & Hsb1).
  assert (Hs_sb1 : alike s sb1) by exact (alike_trans _ _ _ Hsb Hsb1).
  destruct (finite_boundary_value Hnat a s sb1 v Hs_sb1 (alike_valid _ _ _ Hs_sb1 Vsa) Hv)
    as (sb2 & Eb2 & Hsb2).
  unfold bind at 1. rewrite Ea1. unfold bind at 1. rewrite Ea2.
  unfold bind at 1. rewrite Eb1. unfold bind at 1. rewrite Eb2.
  apply (OverlapX_compare_swap Hnat a b 0 v w Hne Hvw).
  exact (alike_trans _ _ _ (alike_sym _ _ (alike_trans _ _ _ Hs_sa1 Hsa2))
           (alike_trans _ _ _ Hs_sb1 Hsb2)).
Qed.

(** Where the exchange of the arguments works.  Overlap(B,A) is
    Overlap(A,B) with the codes 2 and 3 exchanged whenever a fast path
    decides the result (the two Regions are equal, or become equal when
    one is negated), or at most one of the two Regions has a finite
    boundary: then both calls compare the mesh of the same Region with
    the other one, and only the exchange of 2 and 3 tells them apart.
    The two calls leave states that differ at most in Negated members
    left undefined by one and 0 by the other.  Assumed: astEqual is
    symmetric, the methods of the shapes read the Negated attribute
    through its accessor, astGetBounded changes nothing, and the status
    is clear at entry. *)
Theorem Overlap_swap (a b : loc) (s : State) ra rb fsa fsb :
  (forall x y, astEqual_PointSet x y = astEqual_PointSet y x) ->
  (forall x y, astEqual_Frame x y = astEqual_Frame y x) ->
  (forall x y, astEqual_Mapping x y = astEqual_Mapping y x) ->
  natural_methods ->
  status s = None -> a <> b ->
  region_at s a ra fsa -> region_at s b rb fsb ->
  negated_valid ra -> negated_valid rb ->
  equivalent_regions s ra rb fsa fsb = true \/
  equivalent_regions s (negation ra) rb fsa fsb = true \/
  (exists v w, snd <$> finite_boundary (Some a) s = Some v /\
               snd <$> finite_boundary (Some b) s = Some w /\ (v = 0 \/ w = 0)) ->
  (forall s1 r1, Overlap a b s = Some (s1, r1) ->
     exists s2, Overlap b a s = Some (s2, swap23 r1) /\ alike s1 s2) /\
  (forall s2 r2, Overlap b a s = Some (s2, r2) ->
     exists s1, Overlap a b s = Some (s1, swap23 r2) /\ alike s1 s2).
Proof.
  intros HP HF HM Hnat Hok Hne Ha Hb Va Vb Hcase.
  pose proof (Overlap_swap_related a b s ra rb fsa fsb HP HF HM Hnat Hok Hne Ha Hb
                Va Vb Hcase) as Hrel.
  unfold related in Hrel.
  destruct (Overlap a b s) as [[s1 r1]|], (Overlap b a s) as [[s2 r2]|];
    try contradiction.
  - destruct Hrel as [Hs ->]. split.
    + intros ? ? [= <- <-]. exists s2. split; [reflexivity | exact Hs].
    + intros ? ? [= <- <-]. exists s1. rewrite swap23_involutive.
      split; [reflexivity | exact Hs].
  - split; intros ? ?; discriminate.
Qed.

End OverlapSwap.

Section ReadOnly.
Context `{K : Collaborators} `{!Methods}.

Lemma readonly_ret {A} (a : A) : readonly (ret a).
Proof. intros s s' v [= <- _]. reflexivity. Qed.

Lemma readonly_bind {A B} (m : M A) (k : A -> M B) :
  readonly m -> (forall a, readonly (k a)) -> readonly (bind m k).
Proof.
  intros Hm Hk s s' v. unfold bind. destruct (m s) as [[s1 a]|] eqn:E; [|discriminate].
  apply Hm in E. subst s1. apply Hk.
Qed.

Lemma readonly_lift {A} (o : option A) : readonly (lift o).
Proof. intros s s' v. unfold lift. destruct o; [intros [= <- _]; reflexivity | discriminate]. Qed.

Lemma readonly_astOK : readonly astOK.
Proof. intros s s' v [= <- _]. reflexivity. Qed.

Lemma readonly_member {A} (f : AstRegion -> A) (p : loc) : readonly (member f p).
Proof.
  unfold member, getRegion. apply readonly_bind; [|intros r; apply readonly_ret].
  intros s s' v. apply readonly_lift.
Qed.

Lemma readonly_getPointSet (p : loc) : readonly (getPointSet p).
Proof. intros s s' v. unfold getPointSet. apply readonly_lift. Qed.

Lemma readonly_GetBounded (p : loc) : readonly (GetBounded p).
Proof.
  unfold GetBounded, astGetNegated_, invoke, ifOK, GetNegated, astMAKE_GET, ifOK, deref.
  repeat first [ apply readonly_member | apply readonly_astOK | apply readonly_lift
               | apply readonly_ret | apply readonly_bind; [|intros ?]
               | match goal with |- readonly (if ?b then _ else _) => destruct b end ].
Qed.

End ReadOnly.

(** * The Cartesian implementation satisfies the assumptions *)

Lemma Cartesian_equal_sym :
  (forall x y, astEqual_PointSet x y = astEqual_PointSet y x) /\
  (forall x y, astEqual_Frame x y = astEqual_Frame y x) /\
  (forall x y, astEqual_Mapping x y = astEqual_Mapping y x).
Proof.
  repeat split; intros x y; cbn; apply bool_decide_ext; split; congruence.
Qed.

Ltac natural_box :=
  repeat first
    [ natural_step
    | match goal with
      | |- natural (newRegion _) => apply mrel_newRegion; reflexivity
      | |- natural (astGetNegated_ _) => apply natural_astGetNegated_
      | |- natural (shape_points _ _ _) => unfold shape_points
      | |- natural (shape_box _ _ _) => unfold shape_box
      | |- natural (box_data _ _ _) => unfold box_data
      | |- natural (box_unc _ _) => unfold box_unc
      | |- natural (box_mapping _) => unfold box_mapping
      | |- natural (box_test _) => unfold box_test
      | |- natural (GetBounded _) => unfold GetBounded
      end ].

Lemma CartesianBox_natural : natural_methods.
Proof.
  constructor; intros; cbn [astGetBounded astRegBaseBox astRegBaseMesh astRegPins
    astTransform astTransform_Region astBox CartesianBox].
  - natural_box.
  - natural_box.
  - natural_box.
  - natural_box.
  - natural_box.
  - natural_box.
  - natural_box.
  - change (readonly (c <- member class_name p ;;
       if String.eqb c "Interval" then
         p0 <- member points p ;; q <- deref p0 ;; ps <- getPointSet q ;;
         if existsb point_bad (ps_points ps) then ret 0 else GetBounded p
       else GetBounded p)).
    repeat first [ apply readonly_GetBounded | apply readonly_member
                 | apply readonly_getPointSet | apply readonly_lift | apply readonly_ret
                 | apply readonly_bind; [|intros ?]
                 | match goal with |- readonly (if ?b then _ else _) => destruct b end ].
Qed.

(** * The theorems at the example Regions *)


Lemma MeshSize_default_and_minimum_witness :
  status ex_state = None /\
  regions ex_state !! 1%positive = Some ex_boxA /\
  frameset ex_boxA = Some 1%positive /\
  framesets ex_state !! 1%positive = Some ex_frameset /\
  GetMeshSize 1%positive ex_state = Some (ex_state, 2) /\
  exists s', SetMeshSize 1%positive 3 ex_state = Some (s', tt) /\
             GetMeshSize 1%positive s' = Some (s', 5).
Proof.
  assert (H1 : status ex_state = None) by reflexivity.
  assert (H2 : regions ex_state !! 1%positive = Some ex_boxA) by reflexivity.
  assert (H3 : frameset ex_boxA = Some 1%positive) by reflexivity.
  assert (H4 : framesets ex_state !! 1%positive = Some ex_frameset) by reflexivity.
  split; [exact H1|]. split; [exact H2|]. split; [exact H3|]. split; [exact H4|].
  destruct (MeshSize_default_and_minimum (K := Cartesian) 1%positive 1%positive ex_state ex_boxA
              ex_frameset 3 H1 H2 H3 H4) as [Hget (s' & r' & E & _ & _ & Hg)].
  split.
  - destruct (Hget eq_refl) as [Hg1 _]. exact Hg1.
  - exists s'. split; [exact E | exact Hg].
Defined.

Lemma MapRegion_missing_direction_witness :
  status ex_state = None /\
  (astGetTranForward (COpaque 1 1 true false) = false \/
   astGetTranInverse (COpaque 1 1 true false) = false) /\
  exists s', MapRegion 1%positive (COpaque 1 1 true false) ex_frame ex_state
               = Some (s', None) /\
             status s' = Some AST__NODEF /\ regions s' = regions ex_state.
Proof.
  assert (H1 : status ex_state = None) by reflexivity.
  assert (H2 : astGetTranForward (COpaque 1 1 true false) = false \/
               astGetTranInverse (COpaque 1 1 true false) = false)
    by (right; reflexivity).
  split; [exact H1|]. split; [exact H2|].
  eexists. split.
  - exact (MapRegion_missing_direction (K := Cartesian) 1%positive (COpaque 1 1 true false)
             ex_frame ex_state H1 H2).
  - split; reflexivity.
Defined.

Lemma MapRegion_deep_copy_witness :
  status ex_state = None /\
  astGetTranForward (CShift 1 2) = true /\
  astGetTranInverse (CShift 1 2) = true /\
  copyable (S (size (regions ex_state))) ex_state 1%positive = true /\
  exists s' res,
    MapRegion 1%positive (CShift 1 2) ex_frame ex_state = Some (s', Some res) /\
    heap_le ex_state s' /\ regions ex_state !! res = None /\ separate ex_state s'.
Proof.
  assert (H1 : status ex_state = None) by reflexivity.
  assert (H2 : astGetTranForward (CShift 1 2) = true) by reflexivity.
  assert (H3 : astGetTranInverse (CShift 1 2) = true) by reflexivity.
  assert (H4 : copyable (S (size (regions ex_state))) ex_state 1%positive = true)
    by (vm_compute; reflexivity).
  split; [exact H1|]. split; [exact H2|]. split; [exact H3|]. split; [exact H4|].
  destruct (MapRegion_deep_copy (K := Cartesian) 1%positive (CShift 1 2) ex_frame ex_state H1 H2 H3 H4)
    as (s' & res & r & r' & f & fs & f' & E & _ & _ & Hle & Hres & Hsep & _).
  exists s', res. auto.
Defined.

(** MapRegion called on the Box [0,10] with the current Frame of that
    Box itself as the Frame of the result (and a shift as the Mapping),
    with Frames and Mappings as objects: the Region returned is a new
    Region with a new FrameSet, whose base Frame is a new copy, but the
    current Frame of that FrameSet is the Frame object given, which is
    the current Frame of the input Region as well, and the FrameSet
    holds the Mapping given.  The Region returned and the input share a
    mutable object. *)
Lemma MapRegion_shares_frame :
  current_frame_o ex_ostate 1%positive = Some 2%positive /\
  exists s' res f',
    MapRegion_o 1%positive 2%positive 2%positive ex_ostate = Some (s', Some res) /\
    res <> 1%positive /\
    frameset <$> o_regions s' !! res = Some (Some f') /\
    f' <> 1%positive /\
    (fso_frames <$> o_framesets s' !! f') = Some [3%positive; 2%positive] /\
    (fso_maps <$> o_framesets s' !! f') = Some [3%positive; 2%positive] /\
    current_frame_o s' res = Some 2%positive /\
    current_frame_o s' 1%positive = Some 2%positive /\
    o_frames s' !! 3%positive = Some ex_frame.
Proof.
  split; [reflexivity|].
  destruct (MapRegion_o 1%positive 2%positive 2%positive ex_ostate)
    as [[s' [res|]]|] eqn:E.
  2,3: exfalso; revert E; clear; intros E; vm_compute in E; discriminate E.
  exists s', res.
  assert (Hres : Some res = Some 2%positive).
  { change (Some res) with (snd (s', Some res)).
    assert (E' : snd <$> MapRegion_o 1%positive 2%positive 2%positive ex_ostate
                 = Some (Some 2%positive)) by (vm_compute; reflexivity).
    rewrite E in E'. cbn in E'. injection E' as ->. reflexivity. }
  injection Hres as ->.
  exists 2%positive.
  split; [reflexivity|]. split; [discriminate|].
  split.
  { assert (H : (fun t => frameset <$> o_regions t !! 2%positive)
                  <$> (fst <$> MapRegion_o 1%positive 2%positive 2%positive ex_ostate)
                = Some (Some (Some 2%positive))) by (vm_compute; reflexivity).
    rewrite E in H. injection H as H. exact H. }
  split; [discriminate|].
  split.
  { assert (H : (fun t => fso_frames <$> o_framesets t !! 2%positive)
                  <$> (fst <$> MapRegion_o 1%positive 2%positive 2%positive ex_ostate)
                = Some (Some [3%positive; 2%positive])) by (vm_compute; reflexivity).
    rewrite E in H. injection H as H. exact H. }
  split.
  { assert (H : (fun t => fso_maps <$> o_framesets t !! 2%positive)
                  <$> (fst <$> MapRegion_o 1%positive 2%positive 2%positive ex_ostate)
                = Some (Some [3%positive; 2%positive])) by (vm_compute; reflexivity).
    rewrite E in H. injection H as H. exact H. }
  split.
  { assert (H : (fun t => current_frame_o t 2%positive)
                  <$> (fst <$> MapRegion_o 1%positive 2%positive 2%positive ex_ostate)
                = Some (Some 2%positive)) by (vm_compute; reflexivity).
    rewrite E in H. injection H as H. exact H. }
  split.
  { assert (H : (fun t => current_frame_o t 1%positive)
                  <$> (fst <$> MapRegion_o 1%positive 2%positive 2%positive ex_ostate)
                = Some (Some 2%positive)) by (vm_compute; reflexivity).
    rewrite E in H. injection H as H. exact H. }
  assert (H : (fun t => o_frames t !! 3%positive)
                <$> (fst <$> MapRegion_o 1%positive 2%positive 2%positive ex_ostate)
              = Some (Some ex_frame)) by (vm_compute; reflexivity).
  rewrite E in H. injection H as H. exact H.
Qed.

Lemma Overlap_self_consistency_witness :
  (forall x, astEqual_PointSet x x = true) /\
  (forall x, astEqual_Frame x x = true) /\
  (forall x, astEqual_Mapping x x = true) /\
  status ex_state = None /\
  region_at ex_state 1%positive ex_boxA ex_frameset /\
  negated_valid ex_boxA /\
  copyable (S (size (regions ex_state))) ex_state 1%positive = true /\
  Overlap 1%positive 1%positive ex_state = Some (ex_state, 5) /\
  exists s1 b s2 s3,
    astCopy (Some 1%positive) ex_state = Some (s1, Some b) /\
    Negate b s1 = Some (s2, tt) /\
    Overlap 1%positive b s2 = Some (s3, 6).
Proof.
  assert (R1 : forall x, astEqual_PointSet x x = true)
    by (intros x; apply bool_decide_eq_true_2; reflexivity).
  assert (R2 : forall x, astEqual_Frame x x = true)
    by (intros x; apply bool_decide_eq_true_2; reflexivity).
  assert (R3 : forall x, astEqual_Mapping x x = true)
    by (intros x; apply bool_decide_eq_true_2; reflexivity).
  assert (H1 : status ex_state = None) by reflexivity.
  assert (H2 : region_at ex_state 1%positive ex_boxA ex_frameset).
  { split; [reflexivity|]. split; [exists 1%positive; split; reflexivity|].
    intros q [= <-]. eexists. reflexivity. }
  assert (H3 : negated_valid ex_boxA) by (left; reflexivity).
  assert (H4 : copyable (S (size (regions ex_state))) ex_state 1%positive = true)
    by (vm_compute; reflexivity).
  do 7 (split; [assumption|]).
  destruct (Overlap_self_consistency (K := Cartesian) 1%positive ex_state ex_boxA ex_frameset
              R1 R2 R3 H1 H2 H3 H4)
    as [Hself (s1 & b & s2 & s3 & E1 & E2 & E3 & _)].
  split; [exact Hself|]. exists s1, b, s2, s3. auto.
Defined.

Lemma Overlap_first_fast_path_witness :
  (status ex_state_moved = None /\
   region_at ex_state_moved 1%positive ex_boxA ex_frameset_moved /\
   region_at ex_state_moved 2%positive
     (ex_region "Box" 2%positive 1%positive (- INT_MAX)) ex_frameset_moved /\
   Equal 1%positive 2%positive ex_state_moved = Some (ex_state_moved, 1) /\
   Overlap 1%positive 2%positive ex_state_moved = Some (ex_state_moved, 5)) /\
  (status ex_state = None /\
   region_at ex_state 1%positive ex_boxA ex_frameset /\
   region_at ex_state 2%positive ex_boxB ex_frameset /\
   equivalent_regions ex_state ex_boxA ex_boxB ex_frameset ex_frameset = false /\
   Equal 1%positive 2%positive ex_state = Some (ex_state, 0) /\
   snd <$> Overlap 1%positive 2%positive ex_state = Some 3).
Proof.
  split.
  - assert (H1 : status ex_state_moved = None) by reflexivity.
    assert (H2 : region_at ex_state_moved 1%positive ex_boxA ex_frameset_moved).
    { split; [reflexivity|]. split; [exists 1%positive; split; reflexivity|].
      intros q [= <-]. eexists. reflexivity. }
    assert (H3 : region_at ex_state_moved 2%positive
                   (ex_region "Box" 2%positive 1%positive (- INT_MAX)) ex_frameset_moved).
    { split; [reflexivity|]. split; [exists 2%positive; split; reflexivity|].
      intros q [= <-]. eexists. reflexivity. }
    do 3 (split; [assumption|]).
    destruct (Overlap_first_fast_path (K := Cartesian) 1%positive 2%positive
                ex_state_moved _ _ _ _ H1 H2 H3) as (E & Hfast & _).
    split; [exact E|]. apply Hfast. reflexivity.
  - assert (H1 : status ex_state = None) by reflexivity.
    assert (H2 : region_at ex_state 1%positive ex_boxA ex_frameset).
    { split; [reflexivity|]. split; [exists 1%positive; split; reflexivity|].
      intros q [= <-]. eexists. reflexivity. }
    assert (H3 : region_at ex_state 2%positive ex_boxB ex_frameset).
    { split; [reflexivity|]. split; [exists 2%positive; split; reflexivity|].
      intros q [= <-]. eexists. reflexivity. }
    assert (H4 : equivalent_regions ex_state ex_boxA ex_boxB ex_frameset ex_frameset
                 = false) by (vm_compute; reflexivity).
    do 3 (split; [assumption|]). split; [exact H4|].
    destruct (Overlap_first_fast_path (K := Cartesian) 1%positive 2%positive
                ex_state _ _ _ _ H1 H2 H3) as (E & _ & Hslow).
    split.
    + rewrite E. rewrite H4. reflexivity.
    + rewrite (Hslow H4). vm_compute. reflexivity.
Defined.

(** Two equal Regions whose base to current Mapping is a shift, not the
    identity: Equal returns 1 and Overlap returns 5 by its first fast
    path. *)
Lemma Overlap_first_fast_path_not_identity :
  Equal 1%positive 2%positive ex_state_moved = Some (ex_state_moved, 1) /\
  Overlap 1%positive 2%positive ex_state_moved = Some (ex_state_moved, 5) /\
  astIsAUnitMap (astSimplify (astGetMapping ex_frameset_moved AST__BASE AST__CURRENT))
    = false /\
  equivalent_regions_unit ex_state_moved ex_boxA
    (ex_region "Box" 2%positive 1%positive (- INT_MAX))
    ex_frameset_moved ex_frameset_moved = false.
Proof. repeat split; reflexivity. Qed.

Lemma Mask_invalid_bounds_witness :
  status ex_state = None /\
  Mask_region 1%positive None 1 ex_state = Some (ex_state, Some 1%positive) /\
  (Z.to_nat 1 <= length [5])%nat /\ (Z.to_nat 1 <= length [1])%nat /\
  (0 < Z.to_nat 1)%nat /\ [5] !! 0%nat = Some 5 /\ [1] !! 0%nat = Some 1 /\ 5 > 1 /\
  exists s2, Mask Z 1%positive None 1 1 [5] [1] [10; 20; 30] (-1) ex_state
               = Some (s2, (0, [10; 20; 30])) /\
             status s2 = Some AST__GBDIN.
Proof.
  assert (H1 : status ex_state = None) by reflexivity.
  assert (H2 : Mask_region 1%positive None 1 ex_state = Some (ex_state, Some 1%positive))
    by reflexivity.
  assert (H3 : (Z.to_nat 1 <= length [5])%nat) by (cbn; lia).
  assert (H4 : (Z.to_nat 1 <= length [1])%nat) by (cbn; lia).
  assert (H5 : (0 < Z.to_nat 1)%nat) by (cbn; lia).
  assert (H6 : [5] !! 0%nat = Some 5) by reflexivity.
  assert (H7 : [1] !! 0%nat = Some 1) by reflexivity.
  assert (H8 : 5 > 1) by lia.
  do 8 (split; [assumption|]).
  destruct (Mask_invalid_bounds (K := Cartesian) Z 1%positive None 1 1 [5] [1]
              [10; 20; 30] (-1) ex_state ex_state (Some 1%positive) 0%nat 5 1
              H1 H2 H3 H4 H5 H6 H7 H8) as [Hclear _].
  destruct (Hclear H1) as (s2 & E & Hs & _).
  exists s2. auto.
Defined.

(** A call whose grid has two dimensions for a Region of one axis, and
    whose first lower bound exceeds the upper bound: only the
    dimension error AST__NGDIN is reported. *)
Lemma Mask_bounds_not_checked :
  Mask Z 1%positive None 1 2 [5; 1] [1; 1] [10; 20; 30] (-1) ex_state
    = Some (mkState (Some AST__NGDIN) [AST__NGDIN; AST__NGDIN] (regions ex_state)
                    (framesets ex_state) (pointsets ex_state),
            (0, [10; 20; 30])) /\
  ~ In AST__GBDIN [AST__NGDIN; AST__NGDIN].
Proof.
  split; [reflexivity|].
  cbn. intros [H|[H|[]]]; discriminate.
Qed.

Lemma SetUnc_failure_clears_witness :
  status ex_state_unc = None /\
  regions ex_state_unc !! 1%positive
    = Some (set_defunc 0 (set_unc (Some 2%positive) ex_boxA)) /\
  regions ex_state_unc !! 3%positive = Some ex_interval /\
  usable_unc_class (class_name ex_interval) = false /\
  exists s' r', SetUnc 1%positive (Some 3%positive) ex_state_unc = Some (s', tt) /\
                status s' = Some AST__NCPIN /\
                regions s' !! 1%positive = Some r' /\ unc r' = None /\ defunc r' = 1.
Proof.
  assert (H1 : status ex_state_unc = None) by reflexivity.
  assert (H2 : regions ex_state_unc !! 1%positive
               = Some (set_defunc 0 (set_unc (Some 2%positive) ex_boxA))) by reflexivity.
  assert (H3 : regions ex_state_unc !! 3%positive = Some ex_interval) by reflexivity.
  assert (H4 : usable_unc_class (class_name ex_interval) = false) by reflexivity.
  do 4 (split; [assumption|]).
  assert (H5 : forall old, unc (set_defunc 0 (set_unc (Some 2%positive) ex_boxA)) = Some old ->
                           is_Some (regions ex_state_unc !! old)).
  { intros old [= <-]. eexists. reflexivity. }
  destruct (SetUnc_failure_clears (K := Cartesian) 1%positive 3%positive ex_state_unc _ ex_interval
              H1 H2 H5 H3 (or_introl H4))
    as (s' & r' & E & Hs & _ & _ & Hr & Hu & Hd).
  exists s', r'. auto.
Defined.

(** C2.  Overlap(B,A) is not always Overlap(A,B) with the codes 2 and 3
    exchanged.  For A the Box [0,10] and B the negated Box [2,3] (all of
    the line but [2,3]) on the same Frame, Overlap(A,B) returns 4 and
    Overlap(B,A) returns 3, while the exchange of 2 and 3 leaves 4 as it
    is.  Both Regions have a finite boundary, so each call tests the mesh
    of its second argument against its first; the mesh of A is inside B,
    and A is bounded, so Overlap(B,A) answers that A is inside B, which
    it is not. *)
Lemma Overlap_swap_differs :
  snd <$> Overlap 1%positive 2%positive ex_state_hole = Some 4 /\
  snd <$> Overlap 2%positive 1%positive ex_state_hole = Some 3 /\
  swap23 4 <> 3.
Proof. repeat split; [vm_compute; reflexivity .. | discriminate]. Qed.

Lemma Overlap_swap_witness :
  (forall x y, astEqual_PointSet x y = astEqual_PointSet y x) /\
  (forall x y, astEqual_Frame x y = astEqual_Frame y x) /\
  (forall x y, astEqual_Mapping x y = astEqual_Mapping y x) /\
  natural_methods /\
  status ex_state_ray = None /\ 2%positive <> 3%positive /\
  region_at ex_state_ray 2%positive ex_boxB ex_frameset /\
  region_at ex_state_ray 3%positive ex_interval ex_frameset /\
  negated_valid ex_boxB /\ negated_valid ex_interval /\
  (snd <$> finite_boundary (Some 2%positive) ex_state_ray = Some 1 /\
   snd <$> finite_boundary (Some 3%positive) ex_state_ray = Some 0) /\
  exists s1 s2,
    Overlap 2%positive 3%positive ex_state_ray = Some (s1, 2) /\
    Overlap 3%positive 2%positive ex_state_ray = Some (s2, 3) /\
    alike s1 s2.
Proof.
  destruct Cartesian_equal_sym as (HP & HF & HM).
  pose proof CartesianBox_natural as Hnat.
  assert (H1 : status ex_state_ray = None) by reflexivity.
  assert (H2 : 2%positive <> 3%positive) by discriminate.
  assert (H3 : region_at ex_state_ray 2%positive ex_boxB ex_frameset).
  { split; [reflexivity|]. split; [exists 2%positive; split; reflexivity|].
    intros q [= <-]. eexists. reflexivity. }
  assert (H4 : region_at ex_state_ray 3%positive ex_interval ex_frameset).
  { split; [reflexivity|]. split; [exists 3%positive; split; reflexivity|].
    intros q [= <-]. eexists. reflexivity. }
  assert (H5 : negated_valid ex_boxB) by (left; reflexivity).
  assert (H6 : negated_valid ex_interval) by (left; reflexivity).
  assert (H7 : snd <$> finite_boundary (Some 2%positive) ex_state_ray = Some 1)
    by (vm_compute; reflexivity).
  assert (H8 : snd <$> finite_boundary (Some 3%positive) ex_state_ray = Some 0)
    by (vm_compute; reflexivity).
  do 3 (split; [assumption|]). split; [exact Hnat|].
  do 6 (split; [assumption|]). split; [split; assumption|].
  assert (E : snd <$> Overlap 2%positive 3%positive ex_state_ray = Some 2)
    by (vm_compute; reflexivity).
  destruct (Overlap_swap 2%positive 3%positive ex_state_ray ex_boxB ex_interval
              ex_frameset ex_frameset HP HF HM Hnat H1 H2 H3 H4 H5 H6
              (or_intror (or_intror (ex_intro _ 1 (ex_intro _ 0
                 (conj H7 (conj H8 (or_intror eq_refl)))))))) as [Hfwd _].
  destruct (Overlap 2%positive 3%positive ex_state_ray) as [[s1 r1]|]; [|discriminate].
  cbn in E. injection E as ->.
  destruct (Hfwd s1 2 eq_refl) as (s2 & E2 & Hs).
  exists s1, s2. split; [reflexivity|]. split; [exact E2 | exact Hs].
Defined.

Lemma GetDefUnc_box_witness :
  status ex_state = None /\
  region_at ex_state 1%positive ex_boxA ex_frameset /\
  astRegBaseBox 1%positive ex_state
    = Some (ex_state, ([dbl_of_Z 0], [dbl_of_Z 10])) /\
  length [dbl_of_Z 0] = Z.to_nat (astGetNaxes_Frame (astGetFrame ex_frameset AST__BASE)) /\
  forallb regular_extent (axis_lengths (astGetFrame ex_frameset AST__BASE) 0
                            [dbl_of_Z 0] [dbl_of_Z 10]) = true /\
  (Rabs (box_diagonal [dbl_0] [dbl_mul dbl_half_micro (dbl_of_Z 10)]
         - 1 / 1000000 * diagonal [dbl_R (dbl_of_Z 10)])
   <= / IZR (2 ^ 51) * (1 / 1000000 * diagonal [dbl_R (dbl_of_Z 10)]))%R.
Proof.
  assert (H1 : status ex_state = None) by reflexivity.
  assert (H2 : region_at ex_state 1%positive ex_boxA ex_frameset).
  { split; [reflexivity|]. split; [exists 1%positive; split; reflexivity|].
    intros q [= <-]. eexists. reflexivity. }
  assert (H3 : astRegBaseBox 1%positive ex_state
               = Some (ex_state, ([dbl_of_Z 0], [dbl_of_Z 10]))) by reflexivity.
  assert (H4 : length [dbl_of_Z 0]
               = Z.to_nat (astGetNaxes_Frame (astGetFrame ex_frameset AST__BASE)))
    by reflexivity.
  assert (H5 : forallb regular_extent
                 (axis_lengths (astGetFrame ex_frameset AST__BASE) 0
                    [dbl_of_Z 0] [dbl_of_Z 10]) = true) by (vm_compute; reflexivity).
  do 5 (split; [assumption|]).
  destruct (GetDefUnc_box 1%positive ex_state ex_state ex_boxA ex_frameset
              [dbl_of_Z 0] [dbl_of_Z 10] H1 H2 H3 H1 H4 H4) as [_ Hreal].
  destruct (Hreal H5) as [_ Hdiag]. exact Hdiag.
Defined.

(** * Further properties of the attributes *)

Section AttributeProperties.
Context `{K : Collaborators}.

Lemma astMAKE_SET_ret {A} (this : loc) (store : A -> AstRegion -> AstRegion) (v : A)
    (s : State) r :
  status s = None -> regions s !! this = Some r ->
  astMAKE_SET this store (ret v) s =
    Some (mkState (status s) (reported s) (<[this := store v r]> (regions s))
                  (framesets s) (pointsets s), tt).
Proof.
  intros Hok Hr. unfold astMAKE_SET. rewrite (ifOK_clear _ _ _ Hok).
  rewrite bind_ret_l. apply modRegion_get. exact Hr.
Qed.

Lemma astMAKE_GET_member {A B} (bad : A) (f : AstRegion -> B) (g : B -> A)
    (this : loc) (s : State) r :
  status s = None -> regions s !! this = Some r ->
  astMAKE_GET bad (v <- member f this ;; ret (g v)) s = Some (s, g (f r)).
Proof.
  intros Hok Hr. unfold astMAKE_GET. rewrite (ifOK_clear _ _ _ Hok).
  unfold bind at 1. unfold bind at 1. rewrite (member_get f this s r Hr).
  unfold ret at 1. rewrite (bind_eq _ _ _ _ _ (astOK_clear s Hok)). reflexivity.
Qed.

Lemma astMAKE_TEST_member {B} (f : AstRegion -> B) (g : B -> bool)
    (this : loc) (s : State) r :
  status s = None -> regions s !! this = Some r ->
  astMAKE_TEST (v <- member f this ;; ret (g v)) s = Some (s, if g (f r) then 1 else 0).
Proof.
  intros Hok Hr. unfold astMAKE_TEST. rewrite (ifOK_clear _ _ _ Hok).
  unfold bind at 1. unfold bind at 1. rewrite (member_get f this s r Hr).
  unfold ret at 1. rewrite (bind_eq _ _ _ _ _ (astOK_clear s Hok)). reflexivity.
Qed.

(** The value a flag attribute is given by its setter. *)
Lemma flag_stored (value : Z) :
  let b := if value =? 0 then 0 else 1 in
  flag_value 0 b = b /\ flag_value 1 b = b /\ (b =? - INT_MAX) = false.
Proof. cbv zeta. destruct (value =? 0); repeat split. Qed.

(** The flag attributes Negated, Closed and RegionFS hold 0 or 1 once
    set: the setter stores 0 for the value 0 and 1 for any other value,
    the getter then returns what was stored and the test returns 1.  No
    other member of the Region changes and no error is reported. *)
Theorem flag_attributes_set (this : loc) (value : Z) (s : State) (r : AstRegion) :
  status s = None ->
  regions s !! this = Some r ->
  let b := if value =? 0 then 0 else 1 in
  (exists s', SetNegated this value s = Some (s', tt) /\
     s' = mkState None (reported s) (<[this := set_negated b r]> (regions s))
                  (framesets s) (pointsets s) /\
     GetNegated this s' = Some (s', b) /\ TestNegated this s' = Some (s', 1)) /\
  (exists s', SetClosed this value s = Some (s', tt) /\
     s' = mkState None (reported s) (<[this := set_closed b r]> (regions s))
                  (framesets s) (pointsets s) /\
     GetClosed this s' = Some (s', b) /\ TestClosed this s' = Some (s', 1)) /\
  (exists s', SetRegionFS this value s = Some (s', tt) /\
     s' = mkState None (reported s) (<[this := set_regionfs b r]> (regions s))
                  (framesets s) (pointsets s) /\
     GetRegionFS this s' = Some (s', b) /\ TestRegionFS this s' = Some (s', 1)).
Proof.
  intros Hok Hr b. destruct (flag_stored value) as (F0 & F1 & Fne). fold b in F0, F1, Fne.
  repeat split.
  - eexists. split; [apply (astMAKE_SET_ret this set_negated b s r Hok Hr)|].
    rewrite Hok. split; [reflexivity|]. split.
    + unfold GetNegated.
      erewrite (astMAKE_GET_member 0 negated (fun v => if v =? - INT_MAX then 0 else v));
        [| reflexivity | apply lookup_insert_eq].
      cbn [negated set_negated]. rewrite Fne. reflexivity.
    + unfold TestNegated.
      erewrite (astMAKE_TEST_member negated (fun v => negb (v =? - INT_MAX)));
        [| reflexivity | apply lookup_insert_eq].
      cbn [negated set_negated]. rewrite Fne. reflexivity.
  - eexists. split; [apply (astMAKE_SET_ret this set_closed b s r Hok Hr)|].
    rewrite Hok. split; [reflexivity|]. split.
    + unfold GetClosed.
      erewrite (astMAKE_GET_member 1 closed (fun v => if v =? - INT_MAX then 1 else v));
        [| reflexivity | apply lookup_insert_eq].
      cbn [closed set_closed]. rewrite Fne. reflexivity.
    + unfold TestClosed.
      erewrite (astMAKE_TEST_member closed (fun v => negb (v =? - INT_MAX)));
        [| reflexivity | apply lookup_insert_eq].
      cbn [closed set_closed]. rewrite Fne. reflexivity.
  - eexists. split; [apply (astMAKE_SET_ret this set_regionfs b s r Hok Hr)|].
    rewrite Hok. split; [reflexivity|]. split.
    + unfold GetRegionFS.
      erewrite (astMAKE_GET_member 1 regionfs (fun v => if v =? - INT_MAX then 1 else v));
        [| reflexivity | apply lookup_insert_eq].
      cbn [regionfs set_regionfs]. rewrite Fne. reflexivity.
    + unfold TestRegionFS.
      erewrite (astMAKE_TEST_member regionfs (fun v => negb (v =? - INT_MAX)));
        [| reflexivity | apply lookup_insert_eq].
      cbn [regionfs set_regionfs]. rewrite Fne. reflexivity.
Qed.

(** Clearing a flag attribute makes it undefined again: the test returns
    0 and the getter returns the default, which is 0 for Negated and 1
    for Closed and for RegionFS, whatever the attribute held before. *)
Theorem flag_attributes_clear (this : loc) (s : State) (r : AstRegion) :
  status s = None ->
  regions s !! this = Some r ->
  (exists s', ClearNegated this s = Some (s', tt) /\
     GetNegated this s' = Some (s', 0) /\ TestNegated this s' = Some (s', 0)) /\
  (exists s', ClearClosed this s = Some (s', tt) /\
     GetClosed this s' = Some (s', 1) /\ TestClosed this s' = Some (s', 0)) /\
  (exists s', ClearRegionFS this s = Some (s', tt) /\
     GetRegionFS this s' = Some (s', 1) /\ TestRegionFS this s' = Some (s', 0)).
Proof.
  intros Hok Hr. repeat split.
  - eexists. split; [apply (astMAKE_SET_ret this set_negated (- INT_MAX) s r Hok Hr)|].
    split.
    + unfold GetNegated.
      erewrite (astMAKE_GET_member 0 negated (fun v => if v =? - INT_MAX then 0 else v));
        [| exact Hok | apply lookup_insert_eq]; reflexivity.
    + unfold TestNegated.
      erewrite (astMAKE_TEST_member negated (fun v => negb (v =? - INT_MAX)));
        [| exact Hok | apply lookup_insert_eq]; reflexivity.
  - eexists. split; [apply (astMAKE_SET_ret this set_closed (- INT_MAX) s r Hok Hr)|].
    split.
    + unfold GetClosed.
      erewrite (astMAKE_GET_member 1 closed (fun v => if v =? - INT_MAX then 1 else v));
        [| exact Hok | apply lookup_insert_eq]; reflexivity.
    + unfold TestClosed.
      erewrite (astMAKE_TEST_member closed (fun v => negb (v =? - INT_MAX)));
        [| exact Hok | apply lookup_insert_eq]; reflexivity.
  - eexists. split; [apply (astMAKE_SET_ret this set_regionfs (- INT_MAX) s r Hok Hr)|].
    split.
    + unfold GetRegionFS.
      erewrite (astMAKE_GET_member 1 regionfs (fun v => if v =? - INT_MAX then 1 else v));
        [| exact Hok | apply lookup_insert_eq]; reflexivity.
    + unfold TestRegionFS.
      erewrite (astMAKE_TEST_member regionfs (fun v => negb (v =? - INT_MAX)));
        [| exact Hok | apply lookup_insert_eq]; reflexivity.
Qed.

(** A double for which [value < 0.0] is false is not [AST__BAD]. *)
Lemma not_below_zero_not_bad (value : double) :
  dbl_lt value dbl_0 = false -> dbl_eq value AST__BAD = false.
Proof.
  destruct value as [sg| sg | | sg m e]; try reflexivity.
  - destruct sg; reflexivity.
  - destruct sg; [discriminate | reflexivity].
Qed.

(** SetFillFactor stores every value for which neither [value < 0.0] nor
    [value > 1.0] holds, which is every value from 0.0 to 1.0 and also a
    NaN, without reporting an error; GetFillFactor then returns that
    value and TestFillFactor returns 1. *)
Theorem FillFactor_round_trip (this : loc) (value : double) (s : State) (r : AstRegion) :
  status s = None ->
  regions s !! this = Some r ->
  dbl_lt value dbl_0 = false ->
  dbl_lt dbl_1 value = false ->
  exists s', SetFillFactor this value s = Some (s', tt) /\
    s' = mkState None (reported s) (<[this := set_fillfactor value r]> (regions s))
                 (framesets s) (pointsets s) /\
    GetFillFactor this s' = Some (s', value) /\
    TestFillFactor this s' = Some (s', 1).
Proof.
  intros Hok Hr H0 H1. pose proof (not_below_zero_not_bad value H0) as Hbad.
  eexists. split.
  - unfold SetFillFactor. rewrite H0, H1. cbn [orb].
    apply (astMAKE_SET_ret this set_fillfactor value s r Hok Hr).
  - rewrite Hok. split; [reflexivity|]. split.
    + unfold GetFillFactor.
      erewrite (astMAKE_GET_member dbl_1 fillfactor
                  (fun v => if dbl_eq v AST__BAD then dbl_1 else v));
        [| reflexivity | apply lookup_insert_eq].
      cbn [fillfactor set_fillfactor]. rewrite Hbad. reflexivity.
    + unfold TestFillFactor.
      erewrite (astMAKE_TEST_member fillfactor (fun v => negb (dbl_eq v AST__BAD)));
        [| reflexivity | apply lookup_insert_eq].
      cbn [fillfactor set_fillfactor]. rewrite Hbad. reflexivity.
Qed.

(** Negate toggles the Negated attribute, and a second Negate gives the
    attribute its first value back (0 for 0, 1 for any other value); but
    the attribute is then set, also when it was undefined at first. *)
Theorem Negate_twice (this : loc) (s : State) (r : AstRegion) :
  status s = None ->
  regions s !! this = Some r ->
  let n := flag_value 0 (negated r) in
  exists s1 s2,
    Negate this s = Some (s1, tt) /\
    GetNegated this s1 = Some (s1, if n =? 0 then 1 else 0) /\
    Negate this s1 = Some (s2, tt) /\
    GetNegated this s2 = Some (s2, if n =? 0 then 0 else 1) /\
    TestNegated this s2 = Some (s2, 1) /\
    s2 = mkState None (reported s)
           (<[this := set_negated (if n =? 0 then 0 else 1) r]> (regions s))
           (framesets s) (pointsets s).
Proof.
  intros Hok Hr n.
  set (r1 := set_negated (if n =? 0 then 1 else 0) r).
  set (s1 := mkState (status s) (reported s) (<[this := r1]> (regions s))
                     (framesets s) (pointsets s)).
  assert (Hr1 : regions s1 !! this = Some r1) by apply lookup_insert_eq.
  assert (Hn1 : flag_value 0 (negated r1) = if n =? 0 then 1 else 0).
  { unfold r1. cbn [negated set_negated]. destruct (n =? 0); reflexivity. }
  set (r2 := set_negated (if n =? 0 then 0 else 1) r).
  set (s2 := mkState (status s) (reported s) (<[this := r2]> (regions s))
                     (framesets s) (pointsets s)).
  assert (E2 : Negate this s1 = Some (s2, tt)).
  { rewrite (Negate_get this s1 r1 Hok Hr1). rewrite Hn1.
    unfold s2, s1. cbn [status reported regions framesets pointsets].
    rewrite insert_insert_eq. do 3 f_equal.
    unfold r2, r1. destruct (n =? 0); destruct r; reflexivity. }
  assert (Hr2 : regions s2 !! this = Some r2) by apply lookup_insert_eq.
  exists s1, s2. split; [apply (Negate_get this s r Hok Hr)|].
  split; [rewrite (GetNegated_get this s1 r1 Hok Hr1), Hn1; reflexivity|].
  split; [exact E2|].
  split.
  { rewrite (GetNegated_get this s2 r2 Hok Hr2). unfold r2. cbn [negated set_negated].
    destruct (n =? 0); reflexivity. }
  split.
  { unfold TestNegated.
    erewrite (astMAKE_TEST_member negated (fun v => negb (v =? - INT_MAX)));
      [| exact Hok | exact Hr2].
    unfold r2. cbn [negated set_negated]. destruct (n =? 0); reflexivity. }
  unfold s2. rewrite Hok. reflexivity.
Qed.

End AttributeProperties.

(** * Further properties of the uncertainty and of the mesh *)

Section UncertaintyProperties.
Context `{K : Collaborators} `{!Methods}.

Lemma TestUnc_get (this : loc) (s : State) r :
  status s = None -> regions s !! this = Some r ->
  TestUnc this s =
    Some (s, if bool_decide (is_Some (unc r)) && (defunc r =? 0) then 1 else 0).
Proof.
  intros Hok Hr. unfold TestUnc. rewrite (ifOK_clear _ _ _ Hok).
  mstep (member_get unc this s r Hr). mstep (member_get defunc this s r Hr).
  reflexivity.
Qed.

Lemma ClearUnc_get (this : loc) (s : State) r :
  status s = None -> regions s !! this = Some r ->
  ClearUnc this s =
    Some (mkState (status s) (reported s)
            (<[this := set_defunc 1 (set_unc None r)]> (regions s))
            (framesets s) (pointsets s), tt).
Proof.
  intros Hok Hr. unfold ClearUnc. rewrite (ifOK_clear _ _ _ Hok).
  mstep (member_get unc this s r Hr).
  destruct (unc r) as [old|] eqn:Eu.
  - rewrite bool_decide_eq_true_2 by eauto.
    mstep (modRegion_get (set_unc None) this s r Hr).
    rewrite (modRegion_get (set_defunc 1) this _ _ (lookup_insert_eq _ _ _)).
    cbn [status reported regions framesets pointsets]. rewrite insert_insert_eq.
    reflexivity.
  - rewrite bool_decide_eq_false_2 by (intros [x Hx]; discriminate).
    rewrite bind_ret_l. rewrite (modRegion_get (set_defunc 1) this s r Hr).
    assert (E : set_unc None r = r) by (destruct r; cbn in *; subst; reflexivity).
    rewrite E. reflexivity.
Qed.

Lemma DumpUnc_get (this : loc) (s : State) r :
  status s = None -> regions s !! this = Some r ->
  DumpUnc this s =
    Some (s, if bool_decide (is_Some (unc r)) && (defunc r =? 0) then 1 else 0).
Proof.
  intros Hok Hr. unfold DumpUnc. rewrite (ifOK_clear _ _ _ Hok).
  mstep (member_get unc this s r Hr).
  destruct (unc r) as [u|] eqn:Eu; [|reflexivity].
  unfold astTestUnc_. rewrite (bind_eq _ _ _ _ _ (eq_trans (invoke_clear _ _ _ _ Hok)
                                                 (TestUnc_get this s r Hok Hr))).
  rewrite Eu. rewrite bool_decide_eq_true_2 by eauto. cbn [andb].
  destruct (defunc r =? 0); reflexivity.
Qed.

(** After ClearUnc the Region has no uncertainty Region and is marked as
    having a default one: TestUnc returns 0 and DumpUnc returns 0,
    whatever uncertainty was stored before.  No error is reported and no
    other member changes. *)
Theorem ClearUnc_TestUnc (this : loc) (s : State) (r : AstRegion) :
  status s = None ->
  regions s !! this = Some r ->
  exists s',
    ClearUnc this s = Some (s', tt) /\
    s' = mkState None (reported s) (<[this := set_defunc 1 (set_unc None r)]> (regions s))
                 (framesets s) (pointsets s) /\
    TestUnc this s' = Some (s', 0) /\
    DumpUnc this s' = Some (s', 0).
Proof.
  intros Hok Hr. eexists. split; [apply (ClearUnc_get this s r Hok Hr)|].
  rewrite Hok. split; [reflexivity|]. split.
  - erewrite TestUnc_get; [| reflexivity | apply lookup_insert_eq]. reflexivity.
  - erewrite DumpUnc_get; [| reflexivity | apply lookup_insert_eq]. reflexivity.
Qed.

(** SetUnc with a [NULL] uncertainty does what ClearUnc does, when the
    stored uncertainty pointer, if any, refers to an object: the
    uncertainty is erased and no error is reported. *)
Theorem SetUnc_null (this : loc) (s : State) (r : AstRegion) :
  status s = None ->
  regions s !! this = Some r ->
  (forall old, unc r = Some old -> is_Some (regions s !! old)) ->
  SetUnc this None s = ClearUnc this s /\
  SetUnc this None s =
    Some (mkState None (reported s) (<[this := set_defunc 1 (set_unc None r)]> (regions s))
                  (framesets s) (pointsets s), tt).
Proof.
  intros Hok Hr Hold.
  assert (E : SetUnc this None s =
    Some (mkState (status s) (reported s)
            (<[this := set_defunc 1 (set_unc None r)]> (regions s))
            (framesets s) (pointsets s), tt)).
  { unfold SetUnc. rewrite (ifOK_clear _ _ _ Hok).
    rewrite (SetUnc_annul _ this s r Hr Hold). rewrite bind_ret_l.
    set (s1 := mkState _ _ _ _ _). mstep (astOK_clear s1 Hok). reflexivity. }
  split.
  - rewrite E. symmetry. apply (ClearUnc_get this s r Hok Hr).
  - rewrite E, Hok. reflexivity.
Qed.

Lemma astClone_get (p : loc) (s : State) :
  status s = None -> astClone (Some p) s = Some (s, Some p).
Proof. intros Hok. unfold astClone. rewrite (invoke_clear _ _ _ _ Hok). reflexivity. Qed.

(** GetUnc on a Region without an uncertainty Region creates the default
    one with astGetDefUnc, stores it in the Region marked as a default,
    and returns the stored pointer itself, not a copy, when asked for the
    base Frame.  TestUnc and DumpUnc then still return 0, and a second
    call returns the same pointer without creating anything. *)
Theorem GetUnc_default_cached (this u : loc) (s s1 : State) (r r1 : AstRegion) :
  status s = None ->
  regions s !! this = Some r ->
  unc r = None ->
  astGetDefUnc_ (Some this) s = Some (s1, Some u) ->
  status s1 = None ->
  regions s1 !! this = Some r1 ->
  exists s2,
    GetUnc this AST__BASE s = Some (s2, Some u) /\
    s2 = mkState None (reported s1)
           (<[this := set_defunc 1 (set_unc (Some u) r1)]> (regions s1))
           (framesets s1) (pointsets s1) /\
    TestUnc this s2 = Some (s2, 0) /\
    DumpUnc this s2 = Some (s2, 0) /\
    GetUnc this AST__BASE s2 = Some (s2, Some u).
Proof.
  intros Hok Hr Hu Hdef Hok1 Hr1.
  set (r2 := set_defunc 1 (set_unc (Some u) r1)).
  set (s2 := mkState (status s1) (reported s1) (<[this := r2]> (regions s1))
                     (framesets s1) (pointsets s1)).
  assert (Hr2 : regions s2 !! this = Some r2) by apply lookup_insert_eq.
  assert (Hok2 : status s2 = None) by exact Hok1.
  assert (Htail : forall t, status t = None -> regions t !! this = Some r2 ->
            (result <- (if AST__BASE =? AST__BASE
                        then u0 <- member unc this ;; astClone u0
                        else
                          fs <- regionFrameSet this ;;
                          let map := astGetMapping fs AST__BASE AST__CURRENT in
                          if astIsAUnitMap map then
                            u0 <- member unc this ;; astClone u0
                          else
                            let frm := astGetFrame fs AST__CURRENT in
                            u0 <- member unc this ;; astMapRegion_ u0 map frm) ;;
             ok <- astOK ;;
             ret (if ok : bool then result else None)) t = Some (t, Some u)).
  { intros t Ht Hrt. cbn [Z.eqb AST__BASE].
    mstep (member_get unc this t r2 Hrt). cbn [unc r2 set_defunc set_unc].
    mstep (astClone_get u t Ht). mstep (astOK_clear t Ht). reflexivity. }
  exists s2. split.
  { unfold GetUnc. rewrite (ifOK_clear _ _ _ Hok).
    mstep (member_get unc this s r Hr). rewrite Hu.
    mstep Hdef. mstep (modRegion_get (set_unc (Some u)) this s1 r1 Hr1).
    set (s1' := mkState _ _ _ _ _).
    assert (Hr1' : regions s1' !! this = Some (set_unc (Some u) r1))
      by apply lookup_insert_eq.
    mstep (modRegion_get (set_defunc 1) this s1' _ Hr1').
    cbn [s1' status reported regions framesets pointsets]. rewrite insert_insert_eq.
    apply (Htail s2 Hok2 Hr2). }
  split; [unfold s2; rewrite Hok1; reflexivity|].
  split; [rewrite (TestUnc_get this s2 r2 Hok2 Hr2); reflexivity|].
  split; [rewrite (DumpUnc_get this s2 r2 Hok2 Hr2); reflexivity|].
  unfold GetUnc. rewrite (ifOK_clear _ _ _ Hok2).
  mstep (member_get unc this s2 r2 Hr2). cbn [unc r2 set_defunc set_unc].
  rewrite bind_ret_l. apply (Htail s2 Hok2 Hr2).
Qed.

End UncertaintyProperties.

Section MeshProperties.
Context `{K : Collaborators} `{!Methods}.

Lemma RegMapping_get (this f : loc) (s : State) r fs :
  status s = None ->
  regions s !! this = Some r -> frameset r = Some f -> framesets s !! f = Some fs ->
  RegMapping this s = Some (s, Some (astSimplify (astGetMapping fs AST__BASE AST__CURRENT))).
Proof.
  intros Hok Hr Hf Hfs. unfold RegMapping. rewrite (ifOK_clear _ _ _ Hok).
  mstep (regionFrameSet_get this f s r fs Hr Hf Hfs). reflexivity.
Qed.

Lemma RegMapping_set (this : loc) (s : State) e :
  status s = Some e -> RegMapping this s = Some (s, None).
Proof. intros Hst. unfold RegMapping. apply (ifOK_set _ _ _ _ Hst). Qed.

(** RegMesh keeps the base Frame mesh in the Region: when one is stored
    and the base to current Mapping simplifies to a UnitMap, the pointer
    to the stored mesh itself is returned, astRegBaseMesh is not called,
    and nothing changes. *)
Theorem RegMesh_cached (this f b : loc) (s : State) (r : AstRegion) (fs : AstFrameSet) :
  status s = None ->
  regions s !! this = Some r ->
  frameset r = Some f ->
  framesets s !! f = Some fs ->
  basemesh r = Some b ->
  astIsAUnitMap (astSimplify (astGetMapping fs AST__BASE AST__CURRENT)) = true ->
  RegMesh this s = Some (s, Some b).
Proof.
  intros Hok Hr Hf Hfs Hb Hunit. unfold RegMesh. rewrite (ifOK_clear _ _ _ Hok).
  mstep (member_get basemesh this s r Hr). rewrite Hb. rewrite bind_ret_l.
  mstep (RegMapping_get this f s r fs Hok Hr Hf Hfs).
  cbn [astIsAUnitMap_]. rewrite Hunit.
  mstep (member_get basemesh this s r Hr). rewrite Hb.
  mstep (astClone_get b s Hok). mstep (astOK_clear s Hok). reflexivity.
Qed.

Lemma astError_get (e : AstErrorCode) (s : State) :
  astError e s = Some (mkState (Some e) (reported s ++ [e]) (regions s)
                               (framesets s) (pointsets s), tt).
Proof. reflexivity. Qed.

(** For a Region whose class leaves astRegBaseMesh as the Region class
    implements it, RegMesh reports AST__INTER once and returns NULL; the
    Region is left without a stored mesh. *)
Theorem RegMesh_not_implemented (this : loc) (s : State) (r : AstRegion) :
  status s = None ->
  regions s !! this = Some r ->
  basemesh r = None ->
  astRegBaseMesh this s = RegBaseMesh this s ->
  RegMesh this s =
    Some (mkState (Some AST__INTER) (reported s ++ [AST__INTER]) (regions s)
                  (framesets s) (pointsets s), None).
Proof.
  intros Hok Hr Hb Hbase. unfold RegMesh. rewrite (ifOK_clear _ _ _ Hok).
  mstep (member_get basemesh this s r Hr). rewrite Hb.
  set (s1 := mkState (Some AST__INTER) (reported s ++ [AST__INTER]) (regions s)
                     (framesets s) (pointsets s)).
  assert (E : astRegBaseMesh_ (Some this) s = Some (s1, None)).
  { unfold astRegBaseMesh_. rewrite (invoke_clear _ _ _ _ Hok), Hbase.
    unfold RegBaseMesh. rewrite (ifOK_clear _ _ _ Hok). reflexivity. }
  assert (H1 : status s1 = Some AST__INTER) by reflexivity.
  assert (Hr1 : regions s1 !! this = Some r) by exact Hr.
  mstep E. mstep (modRegion_get (set_basemesh None) this s1 r Hr1).
  rewrite (set_basemesh_None_id r Hb).
  cbn [s1 status reported regions framesets pointsets].
  rewrite (insert_id _ _ _ Hr). fold s1.
  mstep (RegMapping_set this s1 _ H1). cbn [astIsAUnitMap_].
  mstep (member_get basemesh this s1 r Hr1).
  unfold astTransform_. mstep (ifOK_set None (m <- lift None ;; astTransform m (basemesh r) 1) s1 _ H1).
  mstep (astOK_set s1 _ H1). reflexivity.
Qed.

(** Setting or clearing MeshSize discards the stored base Frame mesh,
    whatever the value: the Region is left without one, so that the next
    RegMesh has to create it again.  Only the MeshSize and the mesh
    members change. *)
Theorem MeshSize_discards_mesh (this : loc) (value : Z) (s : State) (r : AstRegion) :
  status s = None ->
  regions s !! this = Some r ->
  SetMeshSize this value s =
    Some (mkState None (reported s)
            (<[this := set_meshsize (if value >? 5 then value else 5)
                         (set_basemesh None r)]> (regions s))
            (framesets s) (pointsets s), tt) /\
  exists s',
    ClearMeshSize this s = Some (s', tt) /\
    s' = mkState None (reported s)
           (<[this := set_meshsize (- INT_MAX) (set_basemesh None r)]> (regions s))
           (framesets s) (pointsets s) /\
    TestMeshSize this s' = Some (s', 0).
Proof.
  intros Hok Hr. split.
  - rewrite (SetMeshSize_get this value s r Hok Hr), Hok. reflexivity.
  - assert (E : ClearMeshSize this s =
      Some (mkState (status s) (reported s)
              (<[this := set_meshsize (- INT_MAX) (set_basemesh None r)]> (regions s))
              (framesets s) (pointsets s), tt)).
    { unfold ClearMeshSize, astMAKE_CLEAR, astMAKE_SET. rewrite (ifOK_clear _ _ _ Hok).
      unfold annulBaseMesh. mstep (member_get basemesh this s r Hr).
      destruct (basemesh r) as [b|] eqn:Hb.
      - mstep (modRegion_get (set_basemesh None) this s r Hr).
        set (s1 := mkState _ _ _ _ _).
        assert (Hr1 : regions s1 !! this = Some (set_basemesh None r))
          by apply lookup_insert_eq.
        rewrite bind_ret_l, (modRegion_get _ this s1 _ Hr1).
        cbn [s1 status reported regions framesets pointsets].
        rewrite insert_insert_eq. reflexivity.
      - rewrite !bind_ret_l, (modRegion_get _ this s r Hr).
        rewrite (set_basemesh_None_id r Hb). reflexivity. }
    eexists. split; [exact E|]. rewrite Hok. split; [reflexivity|].
    unfold TestMeshSize.
    erewrite (astMAKE_TEST_member meshsize (fun v => negb (v =? - INT_MAX)));
      [| reflexivity | apply lookup_insert_eq]; reflexivity.
Qed.

Lemma GetBounded_get (this : loc) (s : State) r :
  status s = None -> regions s !! this = Some r ->
  GetBounded this s = Some (s, if flag_value 0 (negated r) =? 0 then 1 else 0).
Proof.
  intros Hok Hr. unfold GetBounded.
  mstep (astGetNegated__get this s r Hok Hr). reflexivity.
Qed.

(** GetBounded as the Region class implements it: a Region is bounded
    exactly when it is not negated, so of a Region and its negation one
    is bounded and the other is not. *)
Theorem GetBounded_Negate (this : loc) (s : State) (r : AstRegion) :
  status s = None ->
  regions s !! this = Some r ->
  let n := flag_value 0 (negated r) in
  GetBounded this s = Some (s, if n =? 0 then 1 else 0) /\
  exists s1,
    Negate this s = Some (s1, tt) /\
    GetBounded this s1 = Some (s1, if n =? 0 then 0 else 1).
Proof.
  intros Hok Hr n. split; [apply (GetBounded_get this s r Hok Hr)|].
  eexists. split; [apply (Negate_get this s r Hok Hr)|].
  erewrite GetBounded_get; [| exact Hok | apply lookup_insert_eq].
  cbn [negated set_negated]. fold n. destruct (n =? 0); reflexivity.
Qed.

(** For a Region without an uncertainty Region whose class leaves
    astRegBaseBox as the Region class implements it, no default
    uncertainty can be made: GetUnc reports AST__INTER once and returns
    NULL, for either Frame, and the Region stays without an uncertainty
    Region. *)
Theorem GetUnc_not_implemented (this f : loc) (ifrm : Z) (s : State) (r : AstRegion)
    (fs : AstFrameSet) :
  status s = None ->
  regions s !! this = Some r ->
  frameset r = Some f ->
  framesets s !! f = Some fs ->
  unc r = None ->
  astRegBaseBox this s = RegBaseBox this s ->
  GetUnc this ifrm s =
    Some (mkState (Some AST__INTER) (reported s ++ [AST__INTER])
            (<[this := set_defunc 1 r]> (regions s)) (framesets s) (pointsets s), None).
Proof.
  intros Hok Hr Hf Hfs Hu Hbase. unfold GetUnc. rewrite (ifOK_clear _ _ _ Hok).
  mstep (member_get unc this s r Hr). rewrite Hu.
  set (s1 := mkState (Some AST__INTER) (reported s ++ [AST__INTER]) (regions s)
                     (framesets s) (pointsets s)).
  assert (H1 : status s1 = Some AST__INTER) by reflexivity.
  assert (Hr1 : regions s1 !! this = Some r) by exact Hr.
  assert (E : astGetDefUnc_ (Some this) s = Some (s1, None)).
  { unfold astGetDefUnc_. rewrite (invoke_clear _ _ _ _ Hok).
    unfold GetDefUnc. rewrite (ifOK_clear _ _ _ Hok).
    mstep (regionFrameSet_get this f s r fs Hr Hf Hfs). cbv zeta.
    assert (Eb : astRegBaseBox_ (Some this) s = Some (s1, ([], []))).
    { unfold astRegBaseBox_. rewrite (invoke_clear _ _ _ _ Hok), Hbase.
      unfold RegBaseBox. rewrite (ifOK_clear _ _ _ Hok). reflexivity. }
    mstep Eb. mstep (astOK_set s1 _ H1). cbv iota.
    mstep (astOK_set s1 _ H1). reflexivity. }
  mstep E. mstep (modRegion_get (set_unc None) this s1 r Hr1).
  assert (Eu : set_unc None r = r) by (destruct r; cbn in *; subst; reflexivity).
  rewrite Eu. cbn [s1 status reported regions framesets pointsets].
  rewrite (insert_id _ _ _ Hr). fold s1.
  mstep (modRegion_get (set_defunc 1) this s1 r Hr1).
  set (s2 := mkState _ _ _ _ _).
  assert (H2 : status s2 = Some AST__INTER) by reflexivity.
  assert (Hr2 : regions s2 !! this = Some (set_defunc 1 r)) by apply lookup_insert_eq.
  assert (Hclone : forall o, astClone o s2 = Some (s2, None)).
  { intros o. unfold astClone. apply (invoke_set _ _ _ _ _ H2). }
  assert (Hfs2 : regionFrameSet this s2 = Some (s2, fs)).
  { apply (regionFrameSet_get this f s2 _ fs Hr2); [exact Hf | exact Hfs]. }
  destruct (ifrm =? AST__BASE).
  - mstep (member_get unc this s2 _ Hr2). mstep (Hclone (unc (set_defunc 1 r))).
    mstep (astOK_set s2 _ H2). reflexivity.
  - mstep Hfs2. cbv zeta.
    destruct (astIsAUnitMap (astGetMapping fs AST__BASE AST__CURRENT)).
    + mstep (member_get unc this s2 _ Hr2). mstep (Hclone (unc (set_defunc 1 r))).
      mstep (astOK_set s2 _ H2). reflexivity.
    + mstep (member_get unc this s2 _ Hr2).
      unfold astMapRegion_. mstep (invoke_set None
        (fun p => MapRegion p (astGetMapping fs AST__BASE AST__CURRENT)
                    (astGetFrame fs AST__CURRENT)) (unc (set_defunc 1 r)) s2 _ H2).
      mstep (astOK_set s2 _ H2). reflexivity.
Qed.

End MeshProperties.

Section OverlayProperties.
Context `{K : Collaborators} `{!Methods}.

(** RegOverlay copies MeshSize, Negated, Closed and RegionFS from [that]
    into [this] as they are stored, set or not, and nothing else: the
    FillFactor, the FrameSet, the points and the stored mesh of [this]
    stay, the mesh also when the MeshSize changes.  When the uncertainty
    of [that] is a default, [this] is left without an uncertainty
    Region.  No error is reported. *)
Theorem RegOverlay_default_uncertainty
    (simplify : option loc -> M (option loc)) (this that : loc) (s : State)
    (r r' : AstRegion) :
  status s = None ->
  this <> that ->
  regions s !! this = Some r ->
  regions s !! that = Some r' ->
  unc r' = None \/ defunc r' <> 0 ->
  RegOverlay simplify this that s =
    Some (mkState None (reported s)
            (<[this := mkRegion (class_name r) (frameset r) (points r) (basemesh r)
                         None 1 (negated r') (closed r') (meshsize r') (regionfs r')
                         (fillfactor r)]> (regions s))
            (framesets s) (pointsets s), tt).
Proof.
  intros Hok Hne Hr Hr' Hdef. unfold RegOverlay. rewrite (ifOK_clear _ _ _ Hok).
  mstep (member_get meshsize that s r' Hr').
  mstep (modRegion_get (set_meshsize (meshsize r')) this s r Hr).
  set (s1 := mkState _ _ _ _ _).
  assert (H1 : regions s1 !! this = Some (set_meshsize (meshsize r') r))
    by apply lookup_insert_eq.
  assert (H1' : regions s1 !! that = Some r')
    by (cbn; rewrite lookup_insert_ne; assumption).
  mstep (member_get negated that s1 r' H1').
  mstep (modRegion_get (set_negated (negated r')) this s1 _ H1).
  set (s2 := mkState _ _ _ _ _).
  assert (H2 : regions s2 !! this
               = Some (set_negated (negated r') (set_meshsize (meshsize r') r)))
    by apply lookup_insert_eq.
  assert (H2' : regions s2 !! that = Some r')
    by (cbn; rewrite lookup_insert_ne; assumption).
  mstep (member_get closed that s2 r' H2').
  mstep (modRegion_get (set_closed (closed r')) this s2 _ H2).
  set (s3 := mkState _ _ _ _ _).
  assert (H3 : regions s3 !! this
               = Some (set_closed (closed r')
                         (set_negated (negated r') (set_meshsize (meshsize r') r))))
    by apply lookup_insert_eq.
  assert (H3' : regions s3 !! that = Some r')
    by (cbn; rewrite lookup_insert_ne; assumption).
  mstep (member_get regionfs that s3 r' H3').
  mstep (modRegion_get (set_regionfs (regionfs r')) this s3 _ H3).
  set (s4 := mkState _ _ _ _ _).
  assert (H4 : regions s4 !! this
               = Some (set_regionfs (regionfs r')
                         (set_closed (closed r')
                            (set_negated (negated r') (set_meshsize (meshsize r') r)))))
    by apply lookup_insert_eq.
  assert (H4' : regions s4 !! that = Some r')
    by (cbn; rewrite lookup_insert_ne; assumption).
  assert (Hok4 : status s4 = None) by exact Hok.
  assert (Et : astTestUnc_ (Some that) s4 = Some (s4, 0)).
  { unfold astTestUnc_. rewrite (invoke_clear _ _ _ _ Hok4).
    rewrite (TestUnc_get that s4 r' Hok4 H4'). do 2 f_equal.
    destruct Hdef as [-> | Hd]; [reflexivity|].
    apply Z.eqb_neq in Hd. rewrite Hd, andb_false_r. reflexivity. }
  mstep Et. cbn [Z.eqb].
  unfold astClearUnc_. rewrite (invoke_clear _ _ _ _ Hok4).
  rewrite (ClearUnc_get this s4 _ Hok4 H4).
  cbn [s4 s3 s2 s1 status reported regions framesets pointsets].
  rewrite !insert_insert_eq, Hok. reflexivity.
Qed.

End OverlayProperties.

Section MaskProperties.
Context `{K : Collaborators} `{!Methods}.

(** Once the first part of [Mask<X>] has left the status set, nothing
    more is done. *)
Lemma Mask_region_failed (Xtype : Type) (this : loc) (map : option AstMapping)
    (inside ndim : Z) (lbnd ubnd : list Z) (in_ : list Xtype) (val : Xtype)
    (s s1 : State) (used_region : option loc) e :
  status s = None ->
  Mask_region this map ndim s = Some (s1, used_region) ->
  status s1 = Some e ->
  Mask Xtype this map inside ndim lbnd ubnd in_ val s = Some (s1, (0, in_)).
Proof.
  intros Hok Hreg Hst. unfold Mask. rewrite (ifOK_clear _ _ _ Hok).
  mstep Hreg. mstep (astOK_set s1 e Hst). cbv iota. rewrite bind_ret_l.
  mstep (astOK_set s1 e Hst). cbv iota. rewrite bind_ret_l.
  mstep (astOK_set s1 e Hst). reflexivity.
Qed.

Lemma astGetNaxes__get (this f : loc) (s : State) r fs :
  status s = None ->
  regions s !! this = Some r -> frameset r = Some f -> framesets s !! f = Some fs ->
  astGetNaxes_ (Some this) s = Some (s, astGetNaxes_Frame (astGetFrame fs AST__CURRENT)).
Proof.
  intros Hok Hr Hf Hfs. unfold astGetNaxes_. rewrite (invoke_clear _ _ _ _ Hok).
  apply (GetNaxes_get this f s r fs Hok Hr Hf Hfs).
Qed.

(** Mask<X> without a Mapping, for a grid that has not as many
    dimensions as the Region has axes: AST__NGDIN is reported twice, 0 is
    returned, and the data array and every object stay as they were;
    the grid bounds are not looked at.  A grid of as many dimensions as
    the Region has axes, but fewer than one, is reported once. *)
Theorem Mask_wrong_dimensions (Xtype : Type) (this f : loc) (inside ndim : Z)
    (lbnd ubnd : list Z) (in_ : list Xtype) (val : Xtype) (s : State)
    (r : AstRegion) (fs : AstFrameSet) :
  status s = None ->
  regions s !! this = Some r ->
  frameset r = Some f ->
  framesets s !! f = Some fs ->
  let nax := astGetNaxes_Frame (astGetFrame fs AST__CURRENT) in
  (ndim <> nax ->
   Mask Xtype this None inside ndim lbnd ubnd in_ val s =
     Some (mkState (Some AST__NGDIN) (reported s ++ [AST__NGDIN; AST__NGDIN])
                   (regions s) (framesets s) (pointsets s), (0, in_))) /\
  (ndim = nax -> ndim < 1 ->
   Mask Xtype this None inside ndim lbnd ubnd in_ val s =
     Some (mkState (Some AST__NGDIN) (reported s ++ [AST__NGDIN])
                   (regions s) (framesets s) (pointsets s), (0, in_))).
Proof.
  intros Hok Hr Hf Hfs nax. split.
  - intros Hne.
    eapply Mask_region_failed; [exact Hok | | reflexivity].
    unfold Mask_region. mstep (astGetNaxes__get this f s r fs Hok Hr Hf Hfs).
    mstep (astOK_clear s Hok). fold nax.
    apply Z.eqb_neq in Hne. rewrite Hne. cbn [negb orb andb].
    unfold bind, astError, ret. cbn [status reported regions framesets pointsets].
    rewrite <- app_assoc. reflexivity.
  - intros Heq Hlt.
    eapply Mask_region_failed; [exact Hok | | reflexivity].
    unfold Mask_region. mstep (astGetNaxes__get this f s r fs Hok Hr Hf Hfs).
    mstep (astOK_clear s Hok). fold nax.
    apply Z.eqb_eq in Heq. rewrite Heq. apply Z.ltb_lt in Hlt. rewrite Hlt.
    cbn [negb orb andb]. reflexivity.
Qed.

(** Mask<X> with a Mapping whose number of inputs is not the number of
    axes of the Region, or whose number of outputs is not the number of
    grid dimensions: AST__NGDIN is reported twice (once per message,
    and for the first mismatch only), no Region is created, 0 is
    returned, and the data array and every object stay as they were. *)
Theorem Mask_wrong_mapping (Xtype : Type) (this f : loc) (map : AstMapping)
    (inside ndim : Z) (lbnd ubnd : list Z) (in_ : list Xtype) (val : Xtype)
    (s : State) (r : AstRegion) (fs : AstFrameSet) :
  status s = None ->
  regions s !! this = Some r ->
  frameset r = Some f ->
  framesets s !! f = Some fs ->
  astGetNaxes_Frame (astGetFrame fs AST__CURRENT) <> astGetNin map \/
  ndim <> astGetNout map ->
  Mask Xtype this (Some map) inside ndim lbnd ubnd in_ val s =
    Some (mkState (Some AST__NGDIN) (reported s ++ [AST__NGDIN; AST__NGDIN])
                  (regions s) (framesets s) (pointsets s), (0, in_)).
Proof.
  intros Hok Hr Hf Hfs Hbad.
  set (s2 := mkState (Some AST__NGDIN) (reported s ++ [AST__NGDIN; AST__NGDIN])
                     (regions s) (framesets s) (pointsets s)).
  assert (H2 : status s2 = Some AST__NGDIN) by reflexivity.
  assert (Herr : (astError AST__NGDIN ;;; astError AST__NGDIN) s = Some (s2, tt)).
  { unfold bind, astError. cbn [status reported regions framesets pointsets].
    rewrite <- app_assoc. reflexivity. }
  assert (Hmap : forall fr,
            astMapRegion_ (Some this) map fr s2 = Some (s2, None)).
  { intros fr. unfold astMapRegion_. apply (invoke_set _ _ _ _ _ H2). }
  eapply Mask_region_failed; [exact Hok | | exact H2].
  unfold Mask_region. mstep (astGetNaxes__get this f s r fs Hok Hr Hf Hfs).
  mstep (astOK_clear s Hok). cbn [andb].
  destruct (Z.eqb_spec (astGetNaxes_Frame (astGetFrame fs AST__CURRENT)) (astGetNin map))
    as [Hin|Hin]; cbn [negb].
  - destruct Hbad as [Hb|Hb]; [contradiction|].
    rewrite bind_ret_l. mstep (astOK_clear s Hok). cbn [andb].
    apply Z.eqb_neq in Hb. rewrite Hb. cbn [negb].
    rewrite (bind_eq _ _ _ _ _ Herr). apply Hmap.
  - rewrite (bind_eq _ _ _ _ _ Herr). mstep (astOK_set s2 _ H2). cbn [andb]. rewrite bind_ret_l.
    apply Hmap.
Qed.

End MaskProperties.

Section EqualProperties.
Context `{K : Collaborators} `{!Methods}.

(** Equal does not depend on the order of the two Regions, when astEqual
    is symmetric on PointSets, Frames and Mappings. *)
Theorem Equal_symmetric (a b : loc) (s : State) (ra rb : AstRegion)
    (fsa fsb : AstFrameSet) :
  (forall x y, astEqual_PointSet x y = astEqual_PointSet y x) ->
  (forall x y, astEqual_Frame x y = astEqual_Frame y x) ->
  (forall x y, astEqual_Mapping x y = astEqual_Mapping y x) ->
  status s = None ->
  region_at s a ra fsa ->
  region_at s b rb fsb ->
  Equal a b s = Equal b a s.
Proof.
  intros HP HF HM Hok Ha Hb.
  rewrite (Equal_get a b s ra rb fsa fsb Hok Ha Hb).
  rewrite (Equal_get b a s rb ra fsb fsa Hok Hb Ha).
  rewrite (equivalent_regions_sym s ra rb fsa fsb HP HF HM). reflexivity.
Qed.

(** Conv leaves each of the two FrameSets with the base Frame it had,
    whatever astConvert did to it, provided astSetBase sets what
    astGetBase reads; Regions, PointSets and the status are not
    touched. *)
Theorem Conv_keeps_base (from to : loc) (s : State) (fv tv : AstFrameSet) :
  (forall fs i, astGetBase (astSetBase fs i) = i) ->
  status s = None ->
  from <> to ->
  framesets s !! from = Some fv ->
  framesets s !! to = Some tv ->
  exists s' fv' tv',
    Conv from to s = Some (s', (astConvert_FrameSet fv tv).2) /\
    framesets s' !! from = Some fv' /\ astGetBase fv' = astGetBase fv /\
    framesets s' !! to = Some tv' /\ astGetBase tv' = astGetBase tv /\
    status s' = None /\ reported s' = reported s /\
    regions s' = regions s /\ pointsets s' = pointsets s /\
    dom (framesets s') = dom (framesets s).
Proof.
  intros Hbase Hok Hne Hf Ht. unfold Conv. rewrite (ifOK_clear _ _ _ Hok).
  mstep (getFrameSet_get to s tv Ht). mstep (getFrameSet_get from s fv Hf).
  cbv zeta. set (c := astConvert_FrameSet fv tv).
  mstep (putFrameSet_get from c.1.1 fv s Hf).
  set (s1 := mkState _ _ _ _ _).
  assert (H1 : framesets s1 !! to = Some tv)
    by (cbn; rewrite lookup_insert_ne; assumption).
  mstep (putFrameSet_get to c.1.2 tv s1 H1).
  set (s2 := mkState _ _ _ _ _).
  assert (H2 : framesets s2 !! to = Some c.1.2) by apply lookup_insert_eq.
  mstep (getFrameSet_get to s2 _ H2).
  mstep (putFrameSet_get to (astSetBase c.1.2 (astGetBase tv)) _ s2 H2).
  set (s3 := mkState _ _ _ _ _).
  assert (H3 : framesets s3 !! from = Some c.1.1).
  { cbn. rewrite !lookup_insert_ne by auto. apply lookup_insert_eq. }
  mstep (getFrameSet_get from s3 _ H3).
  mstep (putFrameSet_get from (astSetBase c.1.1 (astGetBase fv)) _ s3 H3).
  eexists _, _, _. split; [reflexivity|].
  cbn [status reported regions framesets pointsets s3 s2 s1].
  split; [apply lookup_insert_eq|]. split; [apply Hbase|].
  split; [rewrite lookup_insert_ne by auto; apply lookup_insert_eq|].
  split; [apply Hbase|].
  split; [exact Hok|]. do 3 (split; [reflexivity|]).
  rewrite !dom_insert_lookup_L; [reflexivity | eauto ..].
Qed.

End EqualProperties.

Section OverlapProperties.
Context `{K : Collaborators} `{!Methods}.

Lemma alike_region_at (s t : State) (p : loc) r fs :
  alike s t -> region_at s p r fs ->
  exists r', region_at t p r' fs /\ norm_negated r' = norm_negated r.
Proof.
  intros Hs (Hr & (f & Hf & Hfs) & Hp).
  pose proof (alike_lookup _ _ p Hs) as E. rewrite Hr in E.
  destruct (regions t !! p) as [r'|] eqn:Hr'; [|discriminate].
  cbn in E. assert (E' : norm_negated r = norm_negated r') by congruence.
  clear E. rename E' into E.
  destruct Hs as (_ & _ & _ & Ef & Ep).
  exists r'. split; [|symmetry; exact E].
  split; [exact Hr'|]. split.
  - exists f. split.
    + apply (f_equal frameset) in E. cbn in E. rewrite <- E. exact Hf.
    + rewrite <- Ef. exact Hfs.
  - intros q Hq. rewrite <- Ep. apply Hp.
    apply (f_equal points) in E. cbn in E. rewrite E. exact Hq.
Qed.

(** The state in which [OverlapX] compares two Regions that are neither
    equal nor the negation of one another: it is like the state at
    entry. *)
Lemma OverlapX_to_compare (a b : loc) (s : State) ra rb fsa fsb v w :
  natural_methods ->
  status s = None -> a <> b ->
  region_at s a ra fsa -> region_at s b rb fsb ->
  negated_valid ra -> negated_valid rb ->
  equivalent_regions s ra rb fsa fsb = false ->
  equivalent_regions s (negation ra) rb fsa fsb = false ->
  snd <$> finite_boundary (Some a) s = Some v ->
  snd <$> finite_boundary (Some b) s = Some w ->
  exists t, alike s t /\ Overlap a b s = OverlapX_compare b a 0 v w t.
Proof.
  intros Hnat Hok Hne Ha Hb Va Vb H5 H6 Hv Hw.
  pose proof Ha as (Hra & _). pose proof Hb as (Hrb & _).
  rewrite (Overlap_OverlapX a b s Hok).
  rewrite (OverlapX_unequal b a s ra rb fsa fsb Hok Ha Hb Hne (negated_valid_flag _ Va) H5).
  rewrite H6.
  set (sa := mkState (status s) (reported s)
               (<[a := set_negated (flag_value 0 (negated ra)) ra]> (regions s))
               (framesets s) (pointsets s)).
  assert (Hsa : alike s sa) by (apply alike_norm; exact Hra).
  assert (Vsa : negated_valid_at s a)
    by (intros r Hr; rewrite Hra in Hr; injection Hr as <-; exact Va).
  assert (Vsb : negated_valid_at s b)
    by (intros r Hr; rewrite Hrb in Hr; injection Hr as <-; exact Vb).
  destruct (finite_boundary_value Hnat a s sa v Hsa (alike_valid _ _ _ Hsa Vsa) Hv)
    as (sa1 & Ea1 & Hsa1).
  assert (Hs1 : alike s sa1) by exact (alike_trans _ _ _ Hsa Hsa1).
  destruct (finite_boundary_value Hnat b s sa1 w Hs1 (alike_valid _ _ _ Hs1 Vsb) Hw)
    as (sa2 & Ea2 & Hsa2).
  exists sa2. split; [exact (alike_trans _ _ _ Hs1 Hsa2)|].
  unfold bind at 1. rewrite Ea1. unfold bind at 1. rewrite Ea2. reflexivity.
Qed.

(** Overlap cannot compare two Regions of which neither has a boundary
    of finite length, neither as it is nor negated: unless a fast path
    decides (the Regions are equal, or one is the negation of the
    other), it reports AST__INTER twice and returns 0.  FrameSets and
    PointSets are unchanged, and the Regions but for Negated members
    that were undefined and are now 0. *)
Theorem Overlap_no_finite_boundary (a b : loc) (s : State) (ra rb : AstRegion)
    (fsa fsb : AstFrameSet) :
  natural_methods ->
  status s = None -> a <> b ->
  region_at s a ra fsa -> region_at s b rb fsb ->
  negated_valid ra -> negated_valid rb ->
  equivalent_regions s ra rb fsa fsb = false ->
  equivalent_regions s (negation ra) rb fsa fsb = false ->
  snd <$> finite_boundary (Some a) s = Some 0 ->
  snd <$> finite_boundary (Some b) s = Some 0 ->
  exists s2,
    Overlap a b s = Some (s2, 0) /\
    status s2 = Some AST__INTER /\
    reported s2 = reported s ++ [AST__INTER; AST__INTER] /\
    norm_negated <$> regions s2 = norm_negated <$> regions s /\
    framesets s2 = framesets s /\ pointsets s2 = pointsets s.
Proof.
  intros Hnat Hok Hne Ha Hb Va Vb H5 H6 Hv Hw.
  destruct (OverlapX_to_compare a b s ra rb fsa fsb 0 0 Hnat Hok Hne Ha Hb Va Vb H5 H6 Hv Hw)
    as (t & (Hst & Hrep & Hreg & Hfs & Hps) & ->).
  assert (Hokt : status t = None) by congruence.
  set (s3 := mkState (Some AST__INTER) (reported t ++ [AST__INTER; AST__INTER])
                     (regions t) (framesets t) (pointsets t)).
  assert (H3 : status s3 = Some AST__INTER) by reflexivity.
  exists s3. split.
  - unfold OverlapX_compare. mstep (astOK_clear t Hokt). cbn [Z.eqb andb].
    assert (Herr : (astError AST__INTER ;;; astError AST__INTER) t = Some (s3, tt)).
    { unfold bind, astError. cbn [status reported regions framesets pointsets].
      rewrite <- app_assoc. reflexivity. }
    rewrite (bind_eq _ _ _ _ _ Herr). cbn [negb].
    mstep (OverlapX_ordered_set b a 0 0 s3 _ H3).
    mstep (astOK_set s3 _ H3). reflexivity.
  - cbn [s3 status reported regions framesets pointsets].
    split; [reflexivity|]. split; [congruence|]. split; [congruence|].
    split; congruence.
Qed.

(** Overlap returns 0 and reports no error when astConvert finds no
    conversion between the current Frames of the two Regions (and no
    fast path decides, and at least one Region has a boundary of finite
    length): the state it leaves is like the state at entry. *)
Theorem Overlap_no_conversion (a b : loc) (s : State) (ra rb : AstRegion)
    (fsa fsb : AstFrameSet) (v w : Z) :
  natural_methods ->
  status s = None -> a <> b ->
  region_at s a ra fsa -> region_at s b rb fsb ->
  negated_valid ra -> negated_valid rb ->
  equivalent_regions s ra rb fsa fsb = false ->
  equivalent_regions s (negation ra) rb fsa fsb = false ->
  snd <$> finite_boundary (Some a) s = Some v ->
  snd <$> finite_boundary (Some b) s = Some w ->
  v <> 0 \/ w <> 0 ->
  astConvert_Frame (astGetFrame fsa AST__CURRENT) (astGetFrame fsb AST__CURRENT) = None ->
  astConvert_Frame (astGetFrame fsb AST__CURRENT) (astGetFrame fsa AST__CURRENT) = None ->
  exists s2, Overlap a b s = Some (s2, 0) /\ alike s s2.
Proof.
  intros Hnat Hok Hne Ha Hb Va Vb H5 H6 Hv Hw Hvw Cab Cba.
  destruct (OverlapX_to_compare a b s ra rb fsa fsb v w Hnat Hok Hne Ha Hb Va Vb H5 H6 Hv Hw)
    as (t & Hst & ->).
  assert (Hokt : status t = None) by (destruct Hst as (<- & _); exact Hok).
  destruct (alike_region_at s t a ra fsa Hst Ha) as (ra' & Ha' & _).
  destruct (alike_region_at s t b rb fsb Hst Hb) as (rb' & Hb' & _).
  exists t. split; [|exact Hst].
  unfold OverlapX_compare. mstep (astOK_clear t Hokt).
  assert (Hcond : (v =? 0) && (w =? 0) && true = false).
  { destruct Hvw as [Hn|Hn]; apply Z.eqb_neq in Hn; rewrite Hn;
      [reflexivity | rewrite andb_false_r; reflexivity]. }
  rewrite Hcond. rewrite bind_ret_l.
  assert (Hconv : forall x y rx ry fx fy,
            region_at t x rx fx -> region_at t y ry fy ->
            astConvert_Frame (astGetFrame fy AST__CURRENT) (astGetFrame fx AST__CURRENT)
              = None ->
            OverlapX_ordered x y (if negb (w =? 0) then v else w) 0 t = Some (t, 0)).
  { intros x y rx ry fx fy Hx Hy Hc. unfold OverlapX_ordered.
    assert (E : astConvert_ (Some y) (Some x) t = Some (t, None)).
    { unfold astConvert_. rewrite (ifOK_clear _ _ _ Hokt).
      change ((f <- deref (Some y) ;; t0 <- deref (Some x) ;; Convert f t0) t)
        with (Convert y x t).
      unfold Convert. rewrite (ifOK_clear _ _ _ Hokt).
      mstep (region_at_frameset t y ry fy Hy).
      mstep (region_at_frameset t x rx fx Hx). rewrite Hc. reflexivity. }
    mstep E. reflexivity. }
  destruct (w =? 0); cbn [negb].
  - mstep (Hconv b a rb' ra' fsb fsa Hb' Ha' Cab).
    rewrite Pos.eqb_refl. mstep (astOK_clear t Hokt). reflexivity.
  - mstep (Hconv a b ra' rb' fsa fsb Ha' Hb' Cba).
    assert (Eab : Pos.eqb a b = false) by (apply Pos.eqb_neq; exact Hne).
    rewrite Eab. mstep (astOK_clear t Hokt). reflexivity.
Qed.

End OverlapProperties.

(** * Further properties of the Frame and Mapping functions *)

Section PermAxesProperties.

(** The loop on a part of the axes: the elements of the array that the
    remaining axes select are set, the others are left. *)
Lemma PermAxes_invperm_spec (perm : list Z) (n : nat) : forall (axis : nat) (inv0 : list Z),
  (axis + n = length perm)%nat ->
  length inv0 = length perm ->
  NoDup perm ->
  (forall p, p ∈ perm -> 0 <= p < Z.of_nat (length perm)) ->
  exists inv,
    PermAxes_invperm n axis perm inv0 = Some inv /\
    length inv = length perm /\
    (forall i p, (axis <= i)%nat -> perm !! i = Some p ->
                 inv !! Z.to_nat p = Some (Z.of_nat i)) /\
    (forall j, (forall i, (axis <= i)%nat -> perm !! i <> Some (Z.of_nat j)) ->
               inv !! j = inv0 !! j).
Proof.
  induction n as [|n IH]; intros axis inv0 Hn Hlen Hnd Hrange.
  - exists inv0. cbn. split; [reflexivity|]. split; [exact Hlen|]. split; [|reflexivity].
    intros i p Hi Hp. apply lookup_lt_Some in Hp. lia.
  - destruct (lookup_lt_is_Some_2 perm axis ltac:(lia)) as [p Hp].
    pose proof (Hrange p (list_elem_of_lookup_2 _ _ _ Hp)) as Hpr.
    cbn [PermAxes_invperm]. rewrite Hp. cbn [mbind option_bind].
    assert (Hc : (0 <=? p) && (p <? Z.of_nat (length inv0)) = true).
    { rewrite Hlen. apply andb_true_iff. split; [apply Z.leb_le | apply Z.ltb_lt]; lia. }
    rewrite Hc.
    destruct (IH (S axis) (<[Z.to_nat p := Z.of_nat axis]> inv0) ltac:(lia)
                 ltac:(rewrite length_insert; exact Hlen) Hnd Hrange)
      as (inv & E & Hl & Hset & Hkeep).
    exists inv. split; [exact E|]. split; [exact Hl|]. split.
    + intros i q Hi Hq. destruct (decide (i = axis)) as [->|Hne].
      * rewrite Hp in Hq. injection Hq as <-.
        rewrite Hkeep.
        -- apply list_lookup_insert_eq. lia.
        -- intros i Hi' Hq. rewrite Z2Nat.id in Hq by lia.
           pose proof (NoDup_lookup _ _ _ _ Hnd Hp Hq). lia.
      * apply Hset; [lia | exact Hq].
    + intros j Hj. rewrite Hkeep by (intros i Hi; apply Hj; lia).
      apply list_lookup_insert_ne. intros Ej.
      apply (Hj axis (le_n _)). rewrite Hp. f_equal. lia.
Qed.

(** For a genuine permutation of the axes, which is what astCheckPerm
    lets through, the loop of PermAxes fills the whole array, whatever
    it held, with the inverse permutation: element [perm[i]] holds [i],
    and so [perm[inv[j]]] is [j] for every axis [j]. *)
Theorem PermAxes_inverse_permutation (perm buf : list Z) :
  length buf = length perm ->
  NoDup perm ->
  (forall p, p ∈ perm -> 0 <= p < Z.of_nat (length perm)) ->
  exists inv,
    PermAxes_invperm (length perm) 0 perm buf = Some inv /\
    length inv = length perm /\
    (forall i p, perm !! i = Some p -> inv !! Z.to_nat p = Some (Z.of_nat i)) /\
    (forall j i, inv !! j = Some i -> perm !! Z.to_nat i = Some (Z.of_nat j)).
Proof.
  intros Hlen Hnd Hrange.
  destruct (PermAxes_invperm_spec perm (length perm) 0 buf eq_refl Hlen Hnd Hrange)
    as (inv & E & Hl & Hset & _).
  exists inv. split; [exact E|]. split; [exact Hl|]. split.
  - intros i p Hp. apply (Hset i p); [lia | exact Hp].
  - intros j i Hj.
    assert (Hjl : (j < length perm)%nat) by (rewrite <- Hl; eapply lookup_lt_Some; eauto).
    assert (Hin : Z.of_nat j ∈ perm).
    { apply list_elem_of_In.
      apply (NoDup_length_incl (l := perm) (l' := map Z.of_nat (seq 0 (length perm)))).
      - apply NoDup_ListNoDup. exact Hnd.
      - rewrite length_map, length_seq. lia.
      - intros p Hp. apply list_elem_of_In in Hp. specialize (Hrange p Hp).
        apply in_map_iff. exists (Z.to_nat p). split; [lia|].
        apply in_seq. lia.
      - apply in_map_iff. exists j. split; [reflexivity|]. apply in_seq. lia. }
    apply list_elem_of_lookup_1 in Hin as [i0 Hi0].
    pose proof (Hset i0 _ (Nat.le_0_l _) Hi0) as E0.
    rewrite Nat2Z.id, Hj in E0. injection E0 as ->.
    rewrite Nat2Z.id. exact Hi0.
Qed.

End PermAxesProperties.

Section FrameFunctionProperties.
Context `{K : Collaborators} `{!Methods}.

(** When the base to current Mapping simplifies to a UnitMap and no
    output PointSet is supplied, RegTransform returns the pointer to the
    PointSet it was given, not a copy, whatever the direction, together
    with the current Frame for the forward and the base Frame for the
    inverse direction; nothing changes. *)
Theorem RegTransform_unit (transform_out : AstMapping -> option loc -> Z -> option loc -> M (option loc))
    (this f p : loc) (forward : Z) (s : State) (r : AstRegion) (fs : AstFrameSet) :
  status s = None ->
  regions s !! this = Some r ->
  frameset r = Some f ->
  framesets s !! f = Some fs ->
  astIsAUnitMap (astSimplify (astGetMapping fs AST__BASE AST__CURRENT)) = true ->
  RegTransform transform_out this (Some p) forward None true s =
    Some (s, (Some p, Some (astGetFrame fs (if forward =? 0 then AST__BASE
                                            else AST__CURRENT)))) /\
  RegTransform transform_out this (Some p) forward None false s = Some (s, (Some p, None)).
Proof.
  intros Hok Hr Hf Hfs Hunit. unfold RegTransform. rewrite !(ifOK_clear _ _ _ Hok).
  split.
  - mstep (RegMapping_get this f s r fs Hok Hr Hf Hfs).
    cbn [astIsAUnitMap_]. rewrite Hunit. cbn [andb negb].
    rewrite bool_decide_eq_false_2 by (intros [x Hx]; discriminate). cbn [negb].
    mstep (astClone_get p s Hok).
    mstep (member_get frameset this s r Hr). rewrite Hf.
    assert (Efrm : forall i,
              ifOK None (p0 <- deref (Some f) ;; fs0 <- getFrameSet p0 ;;
                         ret (Some (astGetFrame fs0 i))) s
              = Some (s, Some (astGetFrame fs i))).
    { intros i. rewrite (ifOK_clear _ _ _ Hok).
      unfold bind, deref, lift, getFrameSet, lift. rewrite Hfs. reflexivity. }
    mstep (Efrm (if negb (forward =? 0) then AST__CURRENT else AST__BASE)).
    destruct (forward =? 0); reflexivity.
  - mstep (RegMapping_get this f s r fs Hok Hr Hf Hfs).
    cbn [astIsAUnitMap_]. rewrite Hunit. cbn [andb negb].
    rewrite bool_decide_eq_false_2 by (intros [x Hx]; discriminate). cbn [negb].
    mstep (astClone_get p s Hok). reflexivity.
Qed.

(** TestAttrib answers 0 for every attribute it knows as read-only, and
    for the attributes Base, Current and Nframe of the encapsulated
    FrameSet, which a Region does not show: neither the parent classes
    nor the FrameSet are asked, and nothing changes. *)
Theorem TestAttrib_hidden
    (testID testIdent testInvert testReport : loc -> M Z)
    (testAttrib_FrameSet : option loc -> string -> M Z)
    (this : loc) (attrib : string) (s : State) :
  attrib ∈ read_only_attributes ++ frameset_attributes ->
  TestAttrib testID testIdent testInvert testReport testAttrib_FrameSet this attrib s
    = Some (s, 0).
Proof.
  intros Hin. destruct (status s) as [e|] eqn:Hst.
  { unfold TestAttrib. apply (ifOK_set _ _ _ _ Hst). }
  unfold TestAttrib. rewrite (ifOK_clear _ _ _ Hst).
  unfold read_only_attributes, frameset_attributes in Hin. cbn [app] in Hin.
  repeat (apply elem_of_cons in Hin as [-> | Hin]);
    [ .. | apply elem_of_nil in Hin; contradiction ];
    cbn [String.eqb Ascii.eqb Bool.eqb existsb negb orb andb
         read_only_attributes frameset_attributes];
    rewrite bind_ret_l; mstep (astOK_clear s Hst); reflexivity.
Qed.

Lemma bind_lift_Some {A B} (a : A) (k : A -> M B) (s : State) :
  bind (lift (Some a)) k s = k a s.
Proof. reflexivity. Qed.

Lemma RegCurBox_copy_take (n : nat) : forall (i : nat) (l u : list double),
  (i + n <= length l)%nat -> (i + n <= length u)%nat ->
  RegCurBox_copy n i l u = Some (take n (drop i l), take n (drop i u)).
Proof.
  induction n as [|n IH]; intros i l u Hl Hu; [reflexivity|].
  cbn [RegCurBox_copy].
  destruct (lookup_lt_is_Some_2 l i ltac:(lia)) as [x Hx].
  destruct (lookup_lt_is_Some_2 u i ltac:(lia)) as [y Hy].
  rewrite Hx, Hy. cbn [mbind option_bind].
  rewrite (IH (S i) l u) by lia. cbn [mbind option_bind fst snd].
  rewrite (drop_S l x i Hx), (drop_S u y i Hy). reflexivity.
Qed.

(** When the base to current Mapping simplifies to a UnitMap, the
    bounding box of RegCurBox is that of astRegBaseBox, as many axes of
    it as the current Frame has; astMapBox is not used. *)
Theorem RegCurBox_unit (this f f1 : loc) (s s1 : State) (r r1 : AstRegion)
    (fs fs1 : AstFrameSet) (lbndb ubndb : list double) :
  status s = None ->
  regions s !! this = Some r ->
  frameset r = Some f ->
  framesets s !! f = Some fs ->
  astRegBaseBox this s = Some (s1, (lbndb, ubndb)) ->
  status s1 = None ->
  regions s1 !! this = Some r1 ->
  frameset r1 = Some f1 ->
  framesets s1 !! f1 = Some fs1 ->
  astIsAUnitMap (astSimplify (astGetMapping fs1 AST__BASE AST__CURRENT)) = true ->
  (Z.to_nat (astGetNout_FrameSet fs) <= length lbndb)%nat ->
  (Z.to_nat (astGetNout_FrameSet fs) <= length ubndb)%nat ->
  RegCurBox this s =
    Some (s1, (take (Z.to_nat (astGetNout_FrameSet fs)) lbndb,
               take (Z.to_nat (astGetNout_FrameSet fs)) ubndb)).
Proof.
  intros Hok Hr Hf Hfs Hbox Hok1 Hr1 Hf1 Hfs1 Hunit Hl Hu.
  unfold RegCurBox. rewrite (ifOK_clear _ _ _ Hok).
  mstep (regionFrameSet_get this f s r fs Hr Hf Hfs). cbv zeta.
  assert (Eb : astRegBaseBox_ (Some this) s = Some (s1, (lbndb, ubndb))).
  { unfold astRegBaseBox_. rewrite (invoke_clear _ _ _ _ Hok). exact Hbox. }
  mstep Eb. mstep (RegMapping_get this f1 s1 r1 fs1 Hok1 Hr1 Hf1 Hfs1).
  mstep (astOK_clear s1 Hok1). cbv iota. rewrite bind_lift_Some, Hunit.
  cbn [fst snd]. rewrite (RegCurBox_copy_take _ 0 lbndb ubndb) by lia.
  reflexivity.
Qed.

End FrameFunctionProperties.

Section NormMapProperties.
Context `{K : Collaborators}.

Lemma ast_normmap_options_get (o : string) :
  (forall i, String.get i o <> Some char_null) ->
  forall i, String.get i (ast_normmap_options o)
            = (fun c => if Ascii.eqb c char_comma then char_newline else c)
                <$> String.get i o.
Proof.
  induction o as [|c o IH]; intros Hnull i; [reflexivity|].
  cbn [ast_normmap_options].
  destruct (Ascii.eqb c char_null) eqn:Ec.
  { apply Ascii.eqb_eq in Ec. subst c. exfalso. apply (Hnull 0%nat). reflexivity. }
  destruct i as [|i]; [reflexivity|].
  cbn [String.get]. apply IH. intros j. apply (Hnull (S j)).
Qed.

Lemma ast_normmap_options_length (o : string) :
  String.length (ast_normmap_options o) = String.length o.
Proof.
  induction o as [|c o IH]; [reflexivity|]. cbn [ast_normmap_options].
  destruct (Ascii.eqb c char_null); [reflexivity|]. cbn [String.length].
  rewrite IH. reflexivity.
Qed.

(** The option string that ast_normmap hands to the NormMap constructor
    is that of the caller with every comma replaced by a newline: it has
    the same length, every other character is where it was, and it holds
    no comma.  An option value can therefore not contain a comma. *)
Theorem ast_normmap_commas (astString : string -> M (option string))
    (astNormMap : Z -> option string -> M Z) (FRAME : Z) (OPTIONS o : string)
    (s s1 : State) :
  astString OPTIONS s = Some (s1, Some o) ->
  status s1 = None ->
  (forall i, String.get i o <> Some char_null) ->
  exists o',
    ast_normmap astString astNormMap FRAME OPTIONS s = astNormMap FRAME (Some o') s1 /\
    String.length o' = String.length o /\
    (forall i, String.get i o' <> Some char_comma) /\
    (forall i c, String.get i o = Some c -> c <> char_comma -> String.get i o' = Some c) /\
    (forall i, String.get i o = Some char_comma -> String.get i o' = Some char_newline).
Proof.
  intros Estr Hok Hnull. exists (ast_normmap_options o).
  pose proof (ast_normmap_options_get o Hnull) as Hget.
  split; [|split; [apply ast_normmap_options_length|]; split; [|split]].
  - unfold ast_normmap. mstep Estr. mstep (astOK_clear s1 Hok). reflexivity.
  - intros i. rewrite Hget. destruct (String.get i o) as [c|]; [|discriminate].
    cbn. destruct (Ascii.eqb c char_comma) eqn:Ec; [discriminate|].
    intros [= ->]. rewrite Ascii.eqb_refl in Ec. discriminate.
  - intros i c Hc Hne. rewrite Hget, Hc. cbn.
    destruct (Ascii.eqb c char_comma) eqn:Ec; [|reflexivity].
    apply Ascii.eqb_eq in Ec. contradiction.
  - intros i Hc. rewrite Hget, Hc. reflexivity.
Qed.

End NormMapProperties.

(** * The further properties at the example Regions *)

Lemma flag_attributes_set_witness :
  status ex_state = None /\
  regions ex_state !! 1%positive = Some ex_boxA /\
  exists s', SetNegated 1%positive 7 ex_state = Some (s', tt) /\
             GetNegated 1%positive s' = Some (s', 1) /\
             TestNegated 1%positive s' = Some (s', 1).
Proof.
  assert (H1 : status ex_state = None) by reflexivity.
  assert (H2 : regions ex_state !! 1%positive = Some ex_boxA) by reflexivity.
  do 2 (split; [assumption|]).
  destruct (flag_attributes_set (K := Cartesian) 1%positive 7 ex_state ex_boxA H1 H2)
    as [(s' & E & _ & Hg & Ht) _].
  exists s'. auto.
Defined.

Lemma flag_attributes_clear_witness :
  status ex_state_hole = None /\
  regions ex_state_hole !! 2%positive = Some (ex_region "Box" 2%positive 2%positive 1) /\
  exists s', ClearNegated 2%positive ex_state_hole = Some (s', tt) /\
             GetNegated 2%positive s' = Some (s', 0) /\
             TestNegated 2%positive s' = Some (s', 0).
Proof.
  assert (H1 : status ex_state_hole = None) by reflexivity.
  assert (H2 : regions ex_state_hole !! 2%positive
               = Some (ex_region "Box" 2%positive 2%positive 1)) by reflexivity.
  do 2 (split; [assumption|]).
  destruct (flag_attributes_clear (K := Cartesian) 2%positive ex_state_hole _ H1 H2)
    as [(s' & E & Hg & Ht) _].
  exists s'. auto.
Defined.

Lemma FillFactor_round_trip_witness :
  status ex_state = None /\
  regions ex_state !! 1%positive = Some ex_boxA /\
  dbl_lt S754_nan dbl_0 = false /\
  dbl_lt dbl_1 S754_nan = false /\
  exists s', SetFillFactor 1%positive S754_nan ex_state = Some (s', tt) /\
             status s' = None /\
             GetFillFactor 1%positive s' = Some (s', S754_nan).
Proof.
  assert (H1 : status ex_state = None) by reflexivity.
  assert (H2 : regions ex_state !! 1%positive = Some ex_boxA) by reflexivity.
  assert (H3 : dbl_lt S754_nan dbl_0 = false) by reflexivity.
  assert (H4 : dbl_lt dbl_1 S754_nan = false) by reflexivity.
  do 4 (split; [assumption|]).
  destruct (FillFactor_round_trip (K := Cartesian) 1%positive S754_nan ex_state ex_boxA
              H1 H2 H3 H4) as (s' & E & Hs & Hg & _).
  exists s'. split; [exact E|]. split; [rewrite Hs; reflexivity | exact Hg].
Defined.

Lemma Negate_twice_witness :
  status ex_state = None /\
  regions ex_state !! 1%positive = Some ex_boxA /\
  exists s1 s2,
    Negate 1%positive ex_state = Some (s1, tt) /\
    Negate 1%positive s1 = Some (s2, tt) /\
    GetNegated 1%positive s2 = Some (s2, 0) /\
    TestNegated 1%positive ex_state = Some (ex_state, 0) /\
    TestNegated 1%positive s2 = Some (s2, 1).
Proof.
  assert (H1 : status ex_state = None) by reflexivity.
  assert (H2 : regions ex_state !! 1%positive = Some ex_boxA) by reflexivity.
  do 2 (split; [assumption|]).
  destruct (Negate_twice (K := Cartesian) 1%positive ex_state ex_boxA H1 H2)
    as (s1 & s2 & E1 & _ & E2 & Hg & Ht & _).
  exists s1, s2. repeat split; try assumption.
Defined.

Lemma ClearUnc_TestUnc_witness :
  status ex_state_unc = None /\
  regions ex_state_unc !! 1%positive
    = Some (set_defunc 0 (set_unc (Some 2%positive) ex_boxA)) /\
  TestUnc 1%positive ex_state_unc = Some (ex_state_unc, 1) /\
  exists s', ClearUnc 1%positive ex_state_unc = Some (s', tt) /\
             TestUnc 1%positive s' = Some (s', 0) /\
             DumpUnc 1%positive s' = Some (s', 0).
Proof.
  assert (H1 : status ex_state_unc = None) by reflexivity.
  assert (H2 : regions ex_state_unc !! 1%positive
               = Some (set_defunc 0 (set_unc (Some 2%positive) ex_boxA))) by reflexivity.
  do 2 (split; [assumption|]). split; [reflexivity|].
  destruct (ClearUnc_TestUnc (K := Cartesian) 1%positive ex_state_unc _ H1 H2)
    as (s' & E & _ & Ht & Hd).
  exists s'. auto.
Defined.

Lemma SetUnc_null_witness :
  status ex_state_unc = None /\
  regions ex_state_unc !! 1%positive
    = Some (set_defunc 0 (set_unc (Some 2%positive) ex_boxA)) /\
  SetUnc 1%positive None ex_state_unc = ClearUnc 1%positive ex_state_unc.
Proof.
  assert (H1 : status ex_state_unc = None) by reflexivity.
  assert (H2 : regions ex_state_unc !! 1%positive
               = Some (set_defunc 0 (set_unc (Some 2%positive) ex_boxA))) by reflexivity.
  do 2 (split; [assumption|]).
  assert (H3 : forall old, unc (set_defunc 0 (set_unc (Some 2%positive) ex_boxA)) = Some old ->
                           is_Some (regions ex_state_unc !! old)).
  { intros old [= <-]. eexists. reflexivity. }
  exact (proj1 (SetUnc_null (K := Cartesian) 1%positive ex_state_unc _ H1 H2 H3)).
Defined.

Lemma GetUnc_default_cached_witness :
  status ex_state = None /\
  regions ex_state !! 1%positive = Some ex_boxA /\
  unc ex_boxA = None /\
  exists s1 u s2,
    astGetDefUnc_ (Some 1%positive) ex_state = Some (s1, Some u) /\
    status s1 = None /\ regions s1 !! 1%positive = Some ex_boxA /\
    GetUnc 1%positive AST__BASE ex_state = Some (s2, Some u) /\
    TestUnc 1%positive s2 = Some (s2, 0) /\
    GetUnc 1%positive AST__BASE s2 = Some (s2, Some u).
Proof.
  assert (H1 : status ex_state = None) by reflexivity.
  assert (H2 : regions ex_state !! 1%positive = Some ex_boxA) by reflexivity.
  assert (H3 : unc ex_boxA = None) by reflexivity.
  do 3 (split; [assumption|]).
  destruct (astGetDefUnc_ (Some 1%positive) ex_state) as [[s1 [u|]]|] eqn:E;
    [| exfalso; revert E; clear; intros E; discriminate E
     | exfalso; revert E; clear; intros E; discriminate E].
  assert (H4 : status s1 = None).
  { revert E. clear. intros E. injection E as <- _. reflexivity. }
  assert (H5 : regions s1 !! 1%positive = Some ex_boxA).
  { revert E. clear. intros E. injection E as <- _. reflexivity. }
  destruct (GetUnc_default_cached 1%positive u ex_state s1 ex_boxA ex_boxA H1 H2 H3 E H4 H5)
    as (s2 & E2 & _ & Ht & _ & E3).
  exists s1, u, s2. auto 10.
Defined.

Lemma RegMesh_cached_witness :
  status ex_state_mesh = None /\
  regions ex_state_mesh !! 1%positive = Some (set_basemesh (Some 2%positive) ex_boxA) /\
  frameset (set_basemesh (Some 2%positive) ex_boxA) = Some 1%positive /\
  framesets ex_state_mesh !! 1%positive = Some ex_frameset /\
  basemesh (set_basemesh (Some 2%positive) ex_boxA) = Some 2%positive /\
  astIsAUnitMap (astSimplify (astGetMapping ex_frameset AST__BASE AST__CURRENT)) = true /\
  RegMesh 1%positive ex_state_mesh = Some (ex_state_mesh, Some 2%positive).
Proof.
  assert (H1 : status ex_state_mesh = None) by reflexivity.
  assert (H2 : regions ex_state_mesh !! 1%positive
               = Some (set_basemesh (Some 2%positive) ex_boxA)) by reflexivity.
  assert (H3 : frameset (set_basemesh (Some 2%positive) ex_boxA) = Some 1%positive)
    by reflexivity.
  assert (H4 : framesets ex_state_mesh !! 1%positive = Some ex_frameset) by reflexivity.
  assert (H5 : basemesh (set_basemesh (Some 2%positive) ex_boxA) = Some 2%positive)
    by reflexivity.
  assert (H6 : astIsAUnitMap (astSimplify (astGetMapping ex_frameset AST__BASE AST__CURRENT))
               = true) by reflexivity.
  do 6 (split; [assumption|]).
  exact (RegMesh_cached 1%positive 1%positive 2%positive ex_state_mesh _ ex_frameset
           H1 H2 H3 H4 H5 H6).
Defined.

Lemma RegMesh_not_implemented_witness :
  status ex_state_plain = None /\
  regions ex_state_plain !! 1%positive = Some ex_plain /\
  basemesh ex_plain = None /\
  astRegBaseMesh 1%positive ex_state_plain = RegBaseMesh 1%positive ex_state_plain /\
  exists s', RegMesh 1%positive ex_state_plain = Some (s', None) /\
             status s' = Some AST__INTER /\ reported s' = [AST__INTER].
Proof.
  assert (H1 : status ex_state_plain = None) by reflexivity.
  assert (H2 : regions ex_state_plain !! 1%positive = Some ex_plain) by reflexivity.
  assert (H3 : basemesh ex_plain = None) by reflexivity.
  assert (H4 : astRegBaseMesh 1%positive ex_state_plain
               = RegBaseMesh 1%positive ex_state_plain) by reflexivity.
  do 4 (split; [assumption|]).
  eexists. split.
  - exact (RegMesh_not_implemented 1%positive ex_state_plain ex_plain H1 H2 H3 H4).
  - split; reflexivity.
Defined.

Lemma MeshSize_discards_mesh_witness :
  status ex_state_mesh = None /\
  regions ex_state_mesh !! 1%positive = Some (set_basemesh (Some 2%positive) ex_boxA) /\
  exists s' r', SetMeshSize 1%positive 100 ex_state_mesh = Some (s', tt) /\
                regions s' !! 1%positive = Some r' /\
                basemesh r' = None /\ meshsize r' = 100.
Proof.
  assert (H1 : status ex_state_mesh = None) by reflexivity.
  assert (H2 : regions ex_state_mesh !! 1%positive
               = Some (set_basemesh (Some 2%positive) ex_boxA)) by reflexivity.
  do 2 (split; [assumption|]).
  eexists _, _. split.
  - exact (proj1 (MeshSize_discards_mesh (K := Cartesian) 1%positive 100 ex_state_mesh _ H1 H2)).
  - split; [apply lookup_insert_eq|]. split; reflexivity.
Defined.

Lemma GetBounded_Negate_witness :
  status ex_state = None /\
  regions ex_state !! 1%positive = Some ex_boxA /\
  GetBounded 1%positive ex_state = Some (ex_state, 1) /\
  exists s1, Negate 1%positive ex_state = Some (s1, tt) /\
             GetBounded 1%positive s1 = Some (s1, 0).
Proof.
  assert (H1 : status ex_state = None) by reflexivity.
  assert (H2 : regions ex_state !! 1%positive = Some ex_boxA) by reflexivity.
  do 2 (split; [assumption|]).
  exact (GetBounded_Negate (K := Cartesian) 1%positive ex_state ex_boxA H1 H2).
Defined.

Lemma GetUnc_not_implemented_witness :
  status ex_state_plain = None /\
  regions ex_state_plain !! 1%positive = Some ex_plain /\
  frameset ex_plain = Some 1%positive /\
  framesets ex_state_plain !! 1%positive = Some ex_frameset /\
  unc ex_plain = None /\
  astRegBaseBox 1%positive ex_state_plain = RegBaseBox 1%positive ex_state_plain /\
  exists s', GetUnc 1%positive AST__CURRENT ex_state_plain = Some (s', None) /\
             status s' = Some AST__INTER /\ reported s' = [AST__INTER].
Proof.
  assert (H1 : status ex_state_plain = None) by reflexivity.
  assert (H2 : regions ex_state_plain !! 1%positive = Some ex_plain) by reflexivity.
  assert (H3 : frameset ex_plain = Some 1%positive) by reflexivity.
  assert (H4 : framesets ex_state_plain !! 1%positive = Some ex_frameset) by reflexivity.
  assert (H5 : unc ex_plain = None) by reflexivity.
  assert (H6 : astRegBaseBox 1%positive ex_state_plain
               = RegBaseBox 1%positive ex_state_plain) by reflexivity.
  do 6 (split; [assumption|]).
  eexists. split.
  - exact (GetUnc_not_implemented 1%positive 1%positive AST__CURRENT ex_state_plain ex_plain
             ex_frameset H1 H2 H3 H4 H5 H6).
  - split; reflexivity.
Defined.

Lemma RegOverlay_default_uncertainty_witness :
  status ex_state_hole = None /\
  1%positive <> 2%positive /\
  regions ex_state_hole !! 1%positive = Some ex_boxA /\
  regions ex_state_hole !! 2%positive = Some (ex_region "Box" 2%positive 2%positive 1) /\
  (unc (ex_region "Box" 2%positive 2%positive 1) = None \/
   defunc (ex_region "Box" 2%positive 2%positive 1) <> 0) /\
  exists s', RegOverlay (fun o => ret o) 1%positive 2%positive ex_state_hole = Some (s', tt) /\
             GetNegated 1%positive s' = Some (s', 1).
Proof.
  assert (H1 : status ex_state_hole = None) by reflexivity.
  assert (H2 : 1%positive <> 2%positive) by discriminate.
  assert (H3 : regions ex_state_hole !! 1%positive = Some ex_boxA) by reflexivity.
  assert (H4 : regions ex_state_hole !! 2%positive
               = Some (ex_region "Box" 2%positive 2%positive 1)) by reflexivity.
  assert (H5 : unc (ex_region "Box" 2%positive 2%positive 1) = None \/
               defunc (ex_region "Box" 2%positive 2%positive 1) <> 0)
    by (left; reflexivity).
  do 5 (split; [assumption|]).
  eexists. split.
  - exact (RegOverlay_default_uncertainty (fun o => ret o) 1%positive 2%positive
             ex_state_hole _ _ H1 H2 H3 H4 H5).
  - reflexivity.
Defined.

Lemma Mask_wrong_dimensions_witness :
  status ex_state = None /\
  regions ex_state !! 1%positive = Some ex_boxA /\
  frameset ex_boxA = Some 1%positive /\
  framesets ex_state !! 1%positive = Some ex_frameset /\
  2 <> astGetNaxes_Frame (astGetFrame ex_frameset AST__CURRENT) /\
  exists s', Mask Z 1%positive None 0 2 [1; 1] [2; 2] [10; 20; 30; 40] (-1) ex_state
               = Some (s', (0, [10; 20; 30; 40])) /\
             status s' = Some AST__NGDIN.
Proof.
  assert (H1 : status ex_state = None) by reflexivity.
  assert (H2 : regions ex_state !! 1%positive = Some ex_boxA) by reflexivity.
  assert (H3 : frameset ex_boxA = Some 1%positive) by reflexivity.
  assert (H4 : framesets ex_state !! 1%positive = Some ex_frameset) by reflexivity.
  assert (H5 : 2 <> astGetNaxes_Frame (astGetFrame ex_frameset AST__CURRENT))
    by discriminate.
  do 5 (split; [assumption|]).
  eexists. split.
  - exact (proj1 (Mask_wrong_dimensions Z 1%positive 1%positive 0 2 [1; 1] [2; 2]
                    [10; 20; 30; 40] (-1) ex_state ex_boxA ex_frameset H1 H2 H3 H4) H5).
  - reflexivity.
Defined.

Lemma Mask_wrong_mapping_witness :
  status ex_state = None /\
  regions ex_state !! 1%positive = Some ex_boxA /\
  frameset ex_boxA = Some 1%positive /\
  framesets ex_state !! 1%positive = Some ex_frameset /\
  (astGetNaxes_Frame (astGetFrame ex_frameset AST__CURRENT) <> astGetNin (CUnit 2) \/
   2 <> astGetNout (CUnit 2)) /\
  exists s', Mask Z 1%positive (Some (CUnit 2)) 0 2 [1; 1] [2; 2] [10; 20; 30; 40] (-1)
               ex_state = Some (s', (0, [10; 20; 30; 40])) /\
             status s' = Some AST__NGDIN /\ regions s' = regions ex_state.
Proof.
  assert (H1 : status ex_state = None) by reflexivity.
  assert (H2 : regions ex_state !! 1%positive = Some ex_boxA) by reflexivity.
  assert (H3 : frameset ex_boxA = Some 1%positive) by reflexivity.
  assert (H4 : framesets ex_state !! 1%positive = Some ex_frameset) by reflexivity.
  assert (H5 : astGetNaxes_Frame (astGetFrame ex_frameset AST__CURRENT)
                 <> astGetNin (CUnit 2) \/ 2 <> astGetNout (CUnit 2))
    by (left; discriminate).
  do 5 (split; [assumption|]).
  eexists. split.
  - exact (Mask_wrong_mapping Z 1%positive 1%positive (CUnit 2) 0 2 [1; 1] [2; 2]
             [10; 20; 30; 40] (-1) ex_state ex_boxA ex_frameset H1 H2 H3 H4 H5).
  - split; reflexivity.
Defined.

Lemma Equal_symmetric_witness :
  (forall x y, astEqual_PointSet x y = astEqual_PointSet y x) /\
  (forall x y, astEqual_Frame x y = astEqual_Frame y x) /\
  (forall x y, astEqual_Mapping x y = astEqual_Mapping y x) /\
  status ex_state = None /\
  region_at ex_state 1%positive ex_boxA ex_frameset /\
  region_at ex_state 2%positive ex_boxB ex_frameset /\
  Equal 1%positive 2%positive ex_state = Equal 2%positive 1%positive ex_state.
Proof.
  destruct Cartesian_equal_sym as (HP & HF & HM).
  assert (H1 : status ex_state = None) by reflexivity.
  assert (H2 : region_at ex_state 1%positive ex_boxA ex_frameset).
  { split; [reflexivity|]. split; [exists 1%positive; split; reflexivity|].
    intros q [= <-]. eexists. reflexivity. }
  assert (H3 : region_at ex_state 2%positive ex_boxB ex_frameset).
  { split; [reflexivity|]. split; [exists 2%positive; split; reflexivity|].
    intros q [= <-]. eexists. reflexivity. }
  do 6 (split; [assumption|]).
  exact (Equal_symmetric 1%positive 2%positive ex_state ex_boxA ex_boxB ex_frameset
           ex_frameset HP HF HM H1 H2 H3).
Defined.

Lemma Conv_keeps_base_witness :
  (forall (fs : CFrameSet) i, astGetBase (astSetBase fs i) = i) /\
  status ex_state = None /\
  1%positive <> 2%positive /\
  framesets ex_state !! 1%positive = Some ex_frameset /\
  framesets ex_state !! 2%positive = Some ex_frameset /\
  exists s' fv' tv' res,
    Conv 1%positive 2%positive ex_state = Some (s', res) /\
    framesets s' !! 1%positive = Some fv' /\ astGetBase fv' = 1 /\
    framesets s' !! 2%positive = Some tv' /\ astGetBase tv' = 1.
Proof.
  assert (H0 : forall (fs : CFrameSet) i, astGetBase (astSetBase fs i) = i)
    by (intros fs i; reflexivity).
  assert (H1 : status ex_state = None) by reflexivity.
  assert (H2 : 1%positive <> 2%positive) by discriminate.
  assert (H3 : framesets ex_state !! 1%positive = Some ex_frameset) by reflexivity.
  assert (H4 : framesets ex_state !! 2%positive = Some ex_frameset) by reflexivity.
  do 5 (split; [assumption|]).
  destruct (Conv_keeps_base (K := Cartesian) 1%positive 2%positive ex_state ex_frameset
              ex_frameset H0 H1 H2 H3 H4)
    as (s' & fv' & tv' & E & Hf & Hbf & Ht & Hbt & _).
  exists s', fv', tv', (@astConvert_FrameSet Cartesian ex_frameset ex_frameset).2.
  split; [exact E|]. split; [exact Hf|]. split; [exact Hbf|]. split; [exact Ht | exact Hbt].
Defined.

Lemma Overlap_no_finite_boundary_witness :
  natural_methods /\
  status ex_state_rays = None /\ 3%positive <> 4%positive /\
  region_at ex_state_rays 3%positive ex_interval ex_frameset /\
  region_at ex_state_rays 4%positive
    (ex_region "Interval" 4%positive 4%positive (- INT_MAX)) ex_frameset /\
  snd <$> finite_boundary (Some 3%positive) ex_state_rays = Some 0 /\
  snd <$> finite_boundary (Some 4%positive) ex_state_rays = Some 0 /\
  exists s2, Overlap 3%positive 4%positive ex_state_rays = Some (s2, 0) /\
             status s2 = Some AST__INTER /\
             reported s2 = [AST__INTER; AST__INTER].
Proof.
  pose proof CartesianBox_natural as Hnat.
  assert (H1 : status ex_state_rays = None) by reflexivity.
  assert (H2 : 3%positive <> 4%positive) by discriminate.
  assert (H3 : region_at ex_state_rays 3%positive ex_interval ex_frameset).
  { split; [reflexivity|]. split; [exists 3%positive; split; reflexivity|].
    intros q [= <-]. eexists. reflexivity. }
  assert (H4 : region_at ex_state_rays 4%positive
                 (ex_region "Interval" 4%positive 4%positive (- INT_MAX)) ex_frameset).
  { split; [reflexivity|]. split; [exists 4%positive; split; reflexivity|].
    intros q [= <-]. eexists. reflexivity. }
  assert (H5 : negated_valid ex_interval) by (left; reflexivity).
  assert (H6 : negated_valid (ex_region "Interval" 4%positive 4%positive (- INT_MAX)))
    by (left; reflexivity).
  assert (H7 : equivalent_regions ex_state_rays ex_interval
                 (ex_region "Interval" 4%positive 4%positive (- INT_MAX))
                 ex_frameset ex_frameset = false) by (vm_compute; reflexivity).
  assert (H8 : equivalent_regions ex_state_rays (negation ex_interval)
                 (ex_region "Interval" 4%positive 4%positive (- INT_MAX))
                 ex_frameset ex_frameset = false) by (vm_compute; reflexivity).
  assert (H9 : snd <$> finite_boundary (Some 3%positive) ex_state_rays = Some 0)
    by (vm_compute; reflexivity).
  assert (H10 : snd <$> finite_boundary (Some 4%positive) ex_state_rays = Some 0)
    by (vm_compute; reflexivity).
  split; [exact Hnat|]. split; [exact H1|]. split; [exact H2|]. split; [exact H3|].
  split; [exact H4|]. split; [exact H9|]. split; [exact H10|].
  destruct (Overlap_no_finite_boundary 3%positive 4%positive ex_state_rays _ _ _ _
              Hnat H1 H2 H3 H4 H5 H6 H7 H8 H9 H10)
    as (s2 & E & Hs & Hrep & _).
  exists s2. split; [exact E|]. split; [exact Hs | exact Hrep].
Defined.

Lemma Overlap_no_conversion_witness :
  natural_methods /\
  status ex_state_domains = None /\ 1%positive <> 2%positive /\
  region_at ex_state_domains 1%positive ex_boxA ex_frameset /\
  region_at ex_state_domains 2%positive ex_boxB ex_frameset_grid /\
  snd <$> finite_boundary (Some 1%positive) ex_state_domains = Some 1 /\
  snd <$> finite_boundary (Some 2%positive) ex_state_domains = Some 1 /\
  astConvert_Frame (astGetFrame ex_frameset AST__CURRENT)
                   (astGetFrame ex_frameset_grid AST__CURRENT) = None /\
  astConvert_Frame (astGetFrame ex_frameset_grid AST__CURRENT)
                   (astGetFrame ex_frameset AST__CURRENT) = None /\
  exists s2, Overlap 1%positive 2%positive ex_state_domains = Some (s2, 0) /\
             status s2 = None /\ reported s2 = [].
Proof.
  assert (H13 : 1 <> 0 \/ 1 <> 0) by (left; discriminate).
  pose proof CartesianBox_natural as Hnat.
  assert (H1 : status ex_state_domains = None) by reflexivity.
  assert (H2 : 1%positive <> 2%positive) by discriminate.
  assert (H3 : region_at ex_state_domains 1%positive ex_boxA ex_frameset).
  { split; [reflexivity|]. split; [exists 1%positive; split; reflexivity|].
    intros q [= <-]. eexists. reflexivity. }
  assert (H4 : region_at ex_state_domains 2%positive ex_boxB ex_frameset_grid).
  { split; [reflexivity|]. split; [exists 2%positive; split; reflexivity|].
    intros q [= <-]. eexists. reflexivity. }
  assert (H5 : negated_valid ex_boxA) by (left; reflexivity).
  assert (H6 : negated_valid ex_boxB) by (left; reflexivity).
  assert (H7 : equivalent_regions ex_state_domains ex_boxA ex_boxB
                 ex_frameset ex_frameset_grid = false) by (vm_compute; reflexivity).
  assert (H8 : equivalent_regions ex_state_domains (negation ex_boxA) ex_boxB
                 ex_frameset ex_frameset_grid = false) by (vm_compute; reflexivity).
  assert (H9 : snd <$> finite_boundary (Some 1%positive) ex_state_domains = Some 1)
    by (vm_compute; reflexivity).
  assert (H10 : snd <$> finite_boundary (Some 2%positive) ex_state_domains = Some 1)
    by (vm_compute; reflexivity).
  assert (H11 : astConvert_Frame (astGetFrame ex_frameset AST__CURRENT)
                  (astGetFrame ex_frameset_grid AST__CURRENT) = None) by reflexivity.
  assert (H12 : astConvert_Frame (astGetFrame ex_frameset_grid AST__CURRENT)
                  (astGetFrame ex_frameset AST__CURRENT) = None) by reflexivity.
  split; [exact Hnat|]. split; [exact H1|]. split; [exact H2|]. split; [exact H3|].
  split; [exact H4|]. split; [exact H9|]. split; [exact H10|]. split; [exact H11|].
  split; [exact H12|].
  destruct (Overlap_no_conversion 1%positive 2%positive ex_state_domains _ _ _ _ 1 1
              Hnat H1 H2 H3 H4 H5 H6 H7 H8 H9 H10 H13 H11 H12)
    as (s2 & E & (Hs & Hrep & _)).
  exists s2. split; [exact E|]. split; [rewrite <- Hs | rewrite <- Hrep]; reflexivity.
Defined.

Lemma PermAxes_inverse_permutation_witness :
  length [7; 7; 7] = length [2; 0; 1] /\
  NoDup [2; 0; 1] /\
  (forall p, p ∈ [2; 0; 1] -> 0 <= p < Z.of_nat (length [2; 0; 1])) /\
  PermAxes_invperm 3 0 [2; 0; 1] [7; 7; 7] = Some [1; 2; 0].
Proof.
  assert (H1 : length [7; 7; 7] = length [2; 0; 1]) by reflexivity.
  assert (H2 : NoDup [2; 0; 1]).
  { apply NoDup_ListNoDup. repeat constructor; cbn; intuition discriminate. }
  assert (H3 : forall p, p ∈ [2; 0; 1] -> 0 <= p < Z.of_nat (length [2; 0; 1])).
  { intros p Hp. repeat (apply elem_of_cons in Hp as [-> | Hp]); cbn; try lia.
    apply elem_of_nil in Hp. contradiction. }
  do 3 (split; [assumption|]).
  destruct (PermAxes_inverse_permutation [2; 0; 1] [7; 7; 7] H1 H2 H3) as (inv & E & _).
  change (PermAxes_invperm (length [2; 0; 1]) 0 [2; 0; 1] [7; 7; 7] = Some [1; 2; 0]).
  rewrite E. f_equal. cbn in E. injection E as <-. reflexivity.
Defined.

Lemma RegTransform_unit_witness :
  status ex_state = None /\
  regions ex_state !! 1%positive = Some ex_boxA /\
  frameset ex_boxA = Some 1%positive /\
  framesets ex_state !! 1%positive = Some ex_frameset /\
  astIsAUnitMap (astSimplify (astGetMapping ex_frameset AST__BASE AST__CURRENT)) = true /\
  RegTransform (fun _ _ _ out => ret out) 1%positive (Some 2%positive) 0 None true ex_state
    = Some (ex_state, (Some 2%positive, Some ex_frame)).
Proof.
  assert (H1 : status ex_state = None) by reflexivity.
  assert (H2 : regions ex_state !! 1%positive = Some ex_boxA) by reflexivity.
  assert (H3 : frameset ex_boxA = Some 1%positive) by reflexivity.
  assert (H4 : framesets ex_state !! 1%positive = Some ex_frameset) by reflexivity.
  assert (H5 : astIsAUnitMap (astSimplify (astGetMapping ex_frameset AST__BASE AST__CURRENT))
               = true) by reflexivity.
  do 5 (split; [assumption|]).
  exact (proj1 (RegTransform_unit (fun _ _ _ out => ret out) 1%positive 1%positive
                  2%positive 0 ex_state ex_boxA ex_frameset H1 H2 H3 H4 H5)).
Defined.

Lemma TestAttrib_hidden_witness :
  "current" ∈ read_only_attributes ++ frameset_attributes /\
  TestAttrib (fun _ => ret 1) (fun _ => ret 1) (fun _ => ret 1) (fun _ => ret 1)
             (fun _ _ => ret 1) 1%positive "current" ex_state = Some (ex_state, 0) /\
  TestAttrib (fun _ => ret 1) (fun _ => ret 1) (fun _ => ret 1) (fun _ => ret 1)
             (fun _ _ => ret 1) 1%positive "domain" ex_state = Some (ex_state, 1).
Proof.
  assert (H1 : "current" ∈ read_only_attributes ++ frameset_attributes).
  { apply list_elem_of_In. cbn. auto 20. }
  split; [exact H1|]. split.
  - exact (TestAttrib_hidden (K := Cartesian) (fun _ => ret 1) (fun _ => ret 1)
             (fun _ => ret 1) (fun _ => ret 1) (fun _ _ => ret 1) 1%positive "current"
             ex_state H1).
  - reflexivity.
Defined.

Lemma RegCurBox_unit_witness :
  status ex_state = None /\
  regions ex_state !! 1%positive = Some ex_boxA /\
  frameset ex_boxA = Some 1%positive /\
  framesets ex_state !! 1%positive = Some ex_frameset /\
  astRegBaseBox 1%positive ex_state = Some (ex_state, ([dbl_of_Z 0], [dbl_of_Z 10])) /\
  astIsAUnitMap (astSimplify (astGetMapping ex_frameset AST__BASE AST__CURRENT)) = true /\
  (Z.to_nat (astGetNout_FrameSet ex_frameset) <= length [dbl_of_Z 0])%nat /\
  (Z.to_nat (astGetNout_FrameSet ex_frameset) <= length [dbl_of_Z 10])%nat /\
  RegCurBox 1%positive ex_state = Some (ex_state, ([dbl_of_Z 0], [dbl_of_Z 10])).
Proof.
  assert (H1 : status ex_state = None) by reflexivity.
  assert (H2 : regions ex_state !! 1%positive = Some ex_boxA) by reflexivity.
  assert (H3 : frameset ex_boxA = Some 1%positive) by reflexivity.
  assert (H4 : framesets ex_state !! 1%positive = Some ex_frameset) by reflexivity.
  assert (H6 : astIsAUnitMap (astSimplify (astGetMapping ex_frameset AST__BASE AST__CURRENT))
               = true) by reflexivity.
  assert (H7 : (Z.to_nat (astGetNout_FrameSet ex_frameset) <= length [dbl_of_Z 0])%nat)
    by (vm_compute; lia).
  assert (H8 : (Z.to_nat (astGetNout_FrameSet ex_frameset) <= length [dbl_of_Z 10])%nat)
    by (vm_compute; lia).
  assert (H5 : astRegBaseBox 1%positive ex_state
               = Some (ex_state, ([dbl_of_Z 0], [dbl_of_Z 10]))) by reflexivity.
  split; [exact H1|]. split; [exact H2|]. split; [exact H3|]. split; [exact H4|].
  split; [exact H5|]. split; [exact H6|]. split; [exact H7|]. split; [exact H8|].
  exact (RegCurBox_unit 1%positive 1%positive 1%positive ex_state ex_state ex_boxA ex_boxA
           ex_frameset ex_frameset [dbl_of_Z 0] [dbl_of_Z 10]
           H1 H2 H3 H4 H5 H1 H2 H3 H4 H6 H7 H8).
Defined.

Lemma ast_normmap_commas_witness :
  ret (Some "a=1,b=2") ex_state = Some (ex_state, Some "a=1,b=2") /\
  status ex_state = None /\
  (forall i, String.get i "a=1,b=2" <> Some char_null) /\
  exists o',
    ast_normmap (fun o => ret (Some o)) (fun frame _ => ret frame) 1 "a=1,b=2" ex_state
      = Some (ex_state, 1) /\
    String.get 3 o' = Some char_newline /\
    (forall i, String.get i o' <> Some char_comma).
Proof.
  assert (H1 : ret (Some "a=1,b=2") ex_state = Some (ex_state, Some "a=1,b=2"))
    by reflexivity.
  assert (H2 : status ex_state = None) by reflexivity.
  assert (H3 : forall i, String.get i "a=1,b=2" <> Some char_null).
  { intros i. do 8 (destruct i as [|i]; [discriminate|]). discriminate. }
  do 3 (split; [assumption|]).
  destruct (ast_normmap_commas (K := Cartesian) (fun o => ret (Some o))
              (fun frame _ => ret frame) 1 "a=1,b=2" "a=1,b=2" ex_state ex_state H1 H2 H3)
    as (o' & E & _ & Hno & _ & Hnl).
  exists o'. split; [rewrite E; reflexivity|]. split; [apply Hnl; reflexivity | exact Hno].
Defined.

(** * The initialiser, the arrays of points and the mesh within a box *)

Section InitRegionProperties.
Context `{K : Collaborators} `{!Methods}.
Variable astFrameSet : AstFrame -> AstFrameSet.
Variable astUnitMap : Z -> AstMapping.
Variable astGetNaxes_FrameSet : AstFrameSet -> Z.
Variable astInitFrame : string -> M (option loc).


Lemma astGetNcoord__get (q : loc) (s : State) ps :
  status s = None -> pointsets s !! q = Some ps ->
  astGetNcoord_ (Some q) s = Some (s, ncoord ps).
Proof.
  intros Hok Hq. unfold astGetNcoord_. rewrite (invoke_clear _ _ _ _ Hok).
  unfold bind, getPointSet, lift. rewrite Hq. reflexivity.
Qed.



(** A [frameset] member that is neither [NULL] nor a pointer to a
    FrameSet cannot be annulled. *)
Lemma SetRegFS_dangling (this p : loc) (frm : AstFrame) (s : State) r :
  status s = None ->
  regions s !! this = Some r -> frameset r = Some p ->
  framesets s !! p = None -> p <> fresh (dom (framesets s)) ->
  SetRegFS astFrameSet astUnitMap this frm s = None.
Proof.
  intros Hok Hr Hp Hnone Hne. unfold SetRegFS. rewrite (ifOK_clear _ _ _ Hok).
  unfold bind at 1. unfold newFrameSet at 1.
  unfold bind at 1. unfold getFrameSet at 1.
  cbn [status reported regions framesets pointsets].
  rewrite lookup_insert_eq. cbn [lift].
  unfold bind at 1. unfold putFrameSet at 1.
  cbn [status reported regions framesets pointsets].
  rewrite lookup_insert_eq, insert_insert_eq.
  erewrite bind_eq; [|apply member_get; exact Hr].
  rewrite Hp. unfold bind at 1. unfold astAnnul_FrameSet, bind, getFrameSet, lift.
  cbn [framesets]. rewrite lookup_insert_ne by congruence. rewrite Hnone. reflexivity.
Qed.



(** [astInitRegion] refuses a PointSet whose number of coordinates per
    point differs from the number of axes of the Frame: it reports
    AST__NCPIN twice and returns NULL (as the parent initialiser does
    once the status is set); no Region is made and the objects given
    are as they were. *)
Theorem InitRegion_wrong_ncoord (name : string) (frame : FrameArg) (q : loc)
    (unc_ : option loc) (s : State) (ps : AstPointSet) (nax : Z) :
  status s = None ->
  astGetNaxes_of astGetNaxes_FrameSet frame s = Some (s, nax) ->
  pointsets s !! q = Some ps ->
  ncoord ps <> nax ->
  (forall t e, status t = Some e -> astInitFrame name t = Some (t, None)) ->
  astInitRegion_ astFrameSet astUnitMap astGetNaxes_FrameSet astInitFrame
      name frame (Some q) unc_ s =
    Some (mkState (Some AST__NCPIN) (reported s ++ [AST__NCPIN; AST__NCPIN])
            (regions s) (framesets s) (pointsets s), None).
Proof.
  intros Hok Hnax Hq Hne Hinit.
  unfold astInitRegion_. rewrite (ifOK_clear _ _ _ Hok).
  mstep Hnax. mstep (astGetNcoord__get q s ps Hok Hq). mstep (astOK_clear s Hok).
  apply Z.eqb_neq in Hne. rewrite Hne. cbn [andb negb].
  rewrite ?bind_assoc.
  rewrite (bind_eq _ _ _ _ _ (astError_get AST__NCPIN s)).
  erewrite bind_eq; [|apply astError_get].
  cbn [status reported regions framesets pointsets].
  rewrite <- app_assoc. cbn [app].
  set (s2 := mkState (Some AST__NCPIN) (reported s ++ [AST__NCPIN; AST__NCPIN])
               (regions s) (framesets s) (pointsets s)).
  rewrite (bind_eq _ _ _ _ _ (Hinit s2 AST__NCPIN eq_refl)).
  rewrite (bind_eq _ _ _ _ _ (astOK_set s2 AST__NCPIN eq_refl)).
  reflexivity.
Qed.

End InitRegionProperties.

Section ArrayLayout.

Lemma RegTranPoint_store_spec (in_ : list double) (ip : nat) (n : nat) :
  forall (ic p : nat) (ptr_ : list (list double)),
  (ic + n <= length ptr_)%nat ->
  Forall (fun row => (ip < length row)%nat) ptr_ ->
  (p + n <= length in_)%nat ->
  exists ptr',
    RegTranPoint_store n ic ip p in_ ptr_ = Some ptr' /\
    length ptr' = length ptr_ /\
    forall j : nat,
      ptr' !! j =
        (row ← ptr_ !! j;
         Some (if bool_decide (ic <= j < ic + n)%nat
               then <[ip := default AST__BAD (in_ !! (p + (j - ic))%nat)]> row
               else row)).
Proof.
  induction n as [|n IH]; intros ic p ptr_ Hlen Hrows Hin.
  - exists ptr_. split; [reflexivity|]. split; [reflexivity|].
    intros j. rewrite bool_decide_eq_false_2 by lia.
    destruct (ptr_ !! j); reflexivity.
  - cbn [RegTranPoint_store].
    destruct (lookup_lt_is_Some_2 in_ p ltac:(lia)) as (v & Hv).
    destruct (lookup_lt_is_Some_2 ptr_ ic ltac:(lia)) as (row & Hrow).
    rewrite Hv, Hrow. cbn [mbind option_bind].
    assert (Hip : (ip < length row)%nat).
    { rewrite Forall_lookup in Hrows. exact (Hrows ic row Hrow). }
    rewrite bool_decide_eq_true_2 by exact Hip.
    destruct (IH (S ic) (S p) (<[ic := <[ip := v]> row]> ptr_)) as (ptr' & E & Hl & Hj).
    + rewrite length_insert. lia.
    + rewrite Forall_lookup. intros j row' Hj.
      destruct (decide (j = ic)) as [->|Hne].
      * rewrite list_lookup_insert_eq in Hj by lia. injection Hj as <-.
        rewrite length_insert. exact Hip.
      * rewrite list_lookup_insert_ne in Hj by congruence.
        rewrite Forall_lookup in Hrows. exact (Hrows j row' Hj).
    + lia.
    + exists ptr'. split; [exact E|]. split; [rewrite Hl; apply length_insert|].
      intros j. rewrite Hj.
      destruct (decide (j = ic)) as [->|Hne].
      * rewrite list_lookup_insert_eq by lia. rewrite Hrow. cbn [mbind option_bind].
        rewrite bool_decide_eq_false_2 by lia. rewrite bool_decide_eq_true_2 by lia.
        rewrite Nat.sub_diag, Nat.add_0_r, Hv. reflexivity.
      * rewrite list_lookup_insert_ne by congruence.
        destruct (ptr_ !! j) as [rowj|]; [|reflexivity]. cbn [mbind option_bind].
        destruct (decide (S ic <= j < S ic + n)%nat) as [Hr|Hr].
        -- rewrite !bool_decide_eq_true_2 by lia.
           replace (S p + (j - S ic))%nat with (p + (j - ic))%nat by lia. reflexivity.
        -- rewrite !bool_decide_eq_false_2 by lia. reflexivity.
Qed.

Lemma RegTranPoint_store_all_spec (in_ : list double) (np nax : nat) (n : nat) :
  forall (ip : nat) (ptr_ : list (list double)),
  length ptr_ = nax ->
  Forall (fun row => length row = np) ptr_ ->
  (ip + n <= np)%nat ->
  (np * nax <= length in_)%nat ->
  exists ptr',
    RegTranPoint_store_all n ip nax (ip * nax) in_ ptr_ = Some ptr' /\
    length ptr' = nax /\
    Forall (fun row => length row = np) ptr' /\
    forall (j i : nat) row, ptr_ !! j = Some row ->
      ptr' !! j ≫= (.!! i) =
        if bool_decide (ip <= i < ip + n)%nat then in_ !! (i * nax + j)%nat
        else row !! i.
Proof.
  induction n as [|n IH]; intros ip ptr_ Hlen Hrows Hn Hin.
  - exists ptr_. split; [reflexivity|]. split; [exact Hlen|]. split; [exact Hrows|].
    intros j i row Hj. rewrite Hj. rewrite bool_decide_eq_false_2 by lia. reflexivity.
  - cbn [RegTranPoint_store_all].
    destruct (RegTranPoint_store_spec in_ ip nax 0 (ip * nax) ptr_) as (ptr1 & E1 & Hl1 & Hj1).
    + lia.
    + eapply Forall_impl; [exact Hrows|]. cbn. intros row ->. lia.
    + nia.
    + rewrite E1. cbn [mbind option_bind].
      replace (ip * nax + nax)%nat with (S ip * nax)%nat by lia.
      assert (Hrows1 : Forall (fun row => length row = np) ptr1).
      { rewrite Forall_lookup. intros j row1 Hr1. rewrite Hj1 in Hr1.
        destruct (ptr_ !! j) as [row|] eqn:Hr; [|discriminate].
        cbn [mbind option_bind] in Hr1. injection Hr1 as <-.
        rewrite Forall_lookup in Hrows. pose proof (Hrows j row Hr) as Hlr.
        destruct (bool_decide _); [rewrite length_insert|]; exact Hlr. }
      destruct (IH (S ip) ptr1 ltac:(lia) Hrows1 ltac:(lia) Hin) as (ptr' & E & Hl & Hr' & Hj).
      exists ptr'. split; [exact E|]. split; [exact Hl|]. split; [exact Hr'|].
      intros j i row Hr.
      assert (Hjn : (j < nax)%nat) by (rewrite <- Hlen; eapply lookup_lt_Some; exact Hr).
      assert (Hlr : length row = np).
      { rewrite Forall_lookup in Hrows. exact (Hrows j row Hr). }
      pose proof (Hj1 j) as Hr1. rewrite Hr in Hr1. cbn [mbind option_bind] in Hr1.
      rewrite bool_decide_eq_true_2 in Hr1 by lia.
      rewrite (Hj j i _ Hr1).
      destruct (decide (i = ip)) as [->|Hne].
      * rewrite bool_decide_eq_false_2 by lia. rewrite bool_decide_eq_true_2 by lia.
        rewrite list_lookup_insert_eq by lia.
        rewrite Nat.sub_0_r.
        destruct (lookup_lt_is_Some_2 in_ (ip * nax + j) ltac:(nia)) as (v & ->).
        reflexivity.
      * rewrite list_lookup_insert_ne by congruence.
        destruct (decide (S ip <= i < S ip + n)%nat).
        -- rewrite !bool_decide_eq_true_2 by lia. reflexivity.
        -- rewrite !bool_decide_eq_false_2 by lia. reflexivity.
Qed.

(** The loops that store the array given in a PointSet terminate
    without a fault and leave the points laid out by axis. *)
Lemma RegTranPoint_store_all_points (in_ : list double) (np nax : nat)
    (ptr_ : list (list double)) :
  length ptr_ = nax ->
  Forall (fun row => length row = np) ptr_ ->
  (np * nax <= length in_)%nat ->
  RegTranPoint_store_all np 0 nax 0 in_ ptr_ = Some (points_of_array in_ np nax).
Proof.
  intros Hlen Hrows Hin.
  destruct (RegTranPoint_store_all_spec in_ np nax np 0 ptr_ Hlen Hrows ltac:(lia) Hin)
    as (ptr' & E & Hl & Hr & Hj).
  cbn [Nat.mul] in E. rewrite E. f_equal.
  apply list_eq. intros j. unfold points_of_array. rewrite list_lookup_fmap.
  destruct (decide (j < nax)%nat) as [Hjn|Hjn].
  - rewrite lookup_seq_lt by exact Hjn. cbn [fmap option_fmap option_map Nat.add].
    destruct (lookup_lt_is_Some_2 ptr' j ltac:(lia)) as (row' & Hrow').
    destruct (lookup_lt_is_Some_2 ptr_ j ltac:(lia)) as (row & Hrow).
    rewrite Hrow'. f_equal.
    assert (Hlr : length row' = np).
    { rewrite Forall_lookup in Hr. exact (Hr j row' Hrow'). }
    apply list_eq. intros i. rewrite list_lookup_fmap.
    pose proof (Hj j i row Hrow) as Hi. rewrite Hrow' in Hi. cbn [mbind option_bind] in Hi.
    destruct (decide (i < np)%nat) as [Hin'|Hin'].
    + rewrite lookup_seq_lt by exact Hin'. cbn [fmap option_fmap option_map Nat.add].
      rewrite Hi. rewrite bool_decide_eq_true_2 by lia.
      destruct (lookup_lt_is_Some_2 in_ (i * nax + j) ltac:(nia)) as (v & ->).
      reflexivity.
    + rewrite lookup_seq_ge by lia. cbn [fmap option_fmap option_map].
      apply lookup_ge_None_2. lia.
  - rewrite lookup_seq_ge by lia. cbn [fmap option_fmap option_map].
    apply lookup_ge_None_2. lia.
Qed.

Lemma RegTranPoint_fetch_spec (ptr_out : list (list double)) (ip : nat) (n : nat) :
  forall (ic p : nat) (result : list double),
  (ic + n <= length ptr_out)%nat ->
  Forall (fun row => (ip < length row)%nat) ptr_out ->
  (p + n <= length result)%nat ->
  exists result',
    RegTranPoint_fetch n ic ip p ptr_out result = Some result' /\
    length result' = length result /\
    forall k : nat,
      result' !! k =
        if bool_decide (p <= k < p + n)%nat
        then ptr_out !! (ic + (k - p))%nat ≫= (.!! ip)
        else result !! k.
Proof.
  induction n as [|n IH]; intros ic p result Hlen Hrows Hres.
  - exists result. split; [reflexivity|]. split; [reflexivity|].
    intros k. rewrite bool_decide_eq_false_2 by lia. reflexivity.
  - cbn [RegTranPoint_fetch].
    destruct (lookup_lt_is_Some_2 ptr_out ic ltac:(lia)) as (row & Hrow).
    assert (Hip : (ip < length row)%nat).
    { rewrite Forall_lookup in Hrows. exact (Hrows ic row Hrow). }
    destruct (lookup_lt_is_Some_2 row ip Hip) as (v & Hv).
    rewrite Hrow. cbn [mbind option_bind]. rewrite Hv. cbn [mbind option_bind].
    rewrite bool_decide_eq_true_2 by lia.
    destruct (IH (S ic) (S p) (<[p := v]> result)) as (res' & E & Hl & Hk).
    + lia.
    + exact Hrows.
    + rewrite length_insert. lia.
    + exists res'. split; [exact E|]. split; [rewrite Hl; apply length_insert|].
      intros k. rewrite Hk.
      destruct (decide (k = p)) as [->|Hne].
      * rewrite bool_decide_eq_false_2 by lia. rewrite bool_decide_eq_true_2 by lia.
        rewrite list_lookup_insert_eq by lia.
        rewrite Nat.sub_diag, Nat.add_0_r, Hrow. cbn [mbind option_bind].
        symmetry. exact Hv.
      * rewrite list_lookup_insert_ne by congruence.
        destruct (decide (S p <= k < S p + n)%nat).
        -- rewrite !bool_decide_eq_true_2 by lia.
           replace (S ic + (k - S p))%nat with (ic + (k - p))%nat by lia. reflexivity.
        -- rewrite !bool_decide_eq_false_2 by lia. reflexivity.
Qed.

Lemma RegTranPoint_fetch_all_spec (ptr_out : list (list double)) (np nax : nat) (n : nat) :
  forall (ip : nat) (result : list double),
  length ptr_out = nax ->
  Forall (fun row => length row = np) ptr_out ->
  (ip + n <= np)%nat ->
  (np * nax <= length result)%nat ->
  exists result',
    RegTranPoint_fetch_all n ip nax (ip * nax) ptr_out result = Some result' /\
    length result' = length result /\
    forall k : nat,
      result' !! k =
        if bool_decide (ip * nax <= k < (ip + n) * nax)%nat
        then ptr_out !! (k mod nax)%nat ≫= (.!! (k / nax)%nat)
        else result !! k.
Proof.
  induction n as [|n IH]; intros ip result Hlen Hrows Hn Hres.
  - exists result. split; [reflexivity|]. split; [reflexivity|].
    intros k. rewrite bool_decide_eq_false_2 by lia. reflexivity.
  - cbn [RegTranPoint_fetch_all].
    destruct (RegTranPoint_fetch_spec ptr_out ip nax 0 (ip * nax) result)
      as (res1 & E1 & Hl1 & Hk1).
    + lia.
    + eapply Forall_impl; [exact Hrows|]. cbn. intros row ->. lia.
    + nia.
    + rewrite E1. cbn [mbind option_bind].
      replace (ip * nax + nax)%nat with (S ip * nax)%nat by lia.
      destruct (IH (S ip) res1 Hlen Hrows ltac:(lia) ltac:(lia)) as (res' & E & Hl & Hk).
      exists res'. split; [exact E|]. split; [lia|].
      intros k. rewrite Hk.
      destruct (decide (S ip * nax <= k < (S ip + n) * nax)%nat) as [Hr|Hr].
      * rewrite !bool_decide_eq_true_2 by lia. reflexivity.
      * rewrite bool_decide_eq_false_2 by exact Hr. rewrite Hk1.
        destruct (decide (ip * nax <= k < ip * nax + nax)%nat) as [Hr1|Hr1].
        -- rewrite !bool_decide_eq_true_2 by lia.
           assert (Hq : (k / nax = ip)%nat).
           { symmetry. apply (Nat.div_unique k nax ip (k - ip * nax)); lia. }
           assert (Hm : (k mod nax = k - ip * nax)%nat).
           { symmetry. apply (Nat.mod_unique k nax ip (k - ip * nax)); lia. }
           rewrite Hq, Hm. reflexivity.
        -- rewrite !bool_decide_eq_false_2 by lia. reflexivity.
Qed.

(** The loops that fill the array returned terminate without a fault and
    leave the axis values of each point next to each other. *)
Lemma RegTranPoint_fetch_all_array (ptr_out : list (list double)) (np nax : nat)
    (result : list double) :
  length ptr_out = nax ->
  Forall (fun row => length row = np) ptr_out ->
  length result = (np * nax)%nat ->
  RegTranPoint_fetch_all np 0 nax 0 ptr_out result = Some (array_of_points ptr_out np nax).
Proof.
  intros Hlen Hrows Hres.
  destruct (RegTranPoint_fetch_all_spec ptr_out np nax np 0 result Hlen Hrows
              ltac:(lia) ltac:(lia)) as (res' & E & Hl & Hk).
  cbn [Nat.mul] in E. rewrite E. f_equal.
  apply list_eq. intros k. unfold array_of_points. rewrite list_lookup_fmap, Hk.
  destruct (decide (k < np * nax)%nat) as [Hlt|Hge].
  - rewrite lookup_seq_lt by exact Hlt. cbn [fmap option_fmap option_map Nat.add].
    rewrite bool_decide_eq_true_2 by lia.
    assert (Hnax : (0 < nax)%nat) by nia.
    assert (Hm : (k mod nax < nax)%nat) by (apply Nat.mod_upper_bound; lia).
    assert (Hq : (k / nax < np)%nat) by (apply Nat.Div0.div_lt_upper_bound; lia).
    destruct (lookup_lt_is_Some_2 ptr_out (k mod nax) ltac:(lia)) as (row & Hrow).
    rewrite Hrow. cbn [mbind option_bind].
    assert (Hlr : length row = np).
    { rewrite Forall_lookup in Hrows. exact (Hrows _ row Hrow). }
    destruct (lookup_lt_is_Some_2 row (k / nax) ltac:(lia)) as (v & ->). reflexivity.
  - rewrite lookup_seq_ge by lia. cbn [fmap option_fmap option_map].
    rewrite bool_decide_eq_false_2 by lia. apply lookup_ge_None_2. lia.
Qed.

Lemma points_of_array_shape (in_ : list double) (np nax : nat) :
  length (points_of_array in_ np nax) = nax /\
  Forall (fun row => length row = np) (points_of_array in_ np nax).
Proof.
  unfold points_of_array. split.
  - rewrite length_fmap, length_seq. reflexivity.
  - rewrite Forall_fmap. apply Forall_forall. intros ic _. cbn.
    rewrite length_fmap, length_seq. reflexivity.
Qed.

Lemma array_of_points_of_array (in_ : list double) (np nax : nat) :
  (np * nax <= length in_)%nat ->
  array_of_points (points_of_array in_ np nax) np nax = take (np * nax) in_.
Proof.
  intros Hin. apply list_eq. intros k. unfold array_of_points.
  rewrite list_lookup_fmap.
  destruct (decide (k < np * nax)%nat) as [Hlt|Hge].
  - rewrite lookup_seq_lt by exact Hlt. cbn [fmap option_fmap option_map Nat.add].
    rewrite lookup_take_lt by exact Hlt.
    assert (Hnax : (0 < nax)%nat) by nia.
    assert (Hm : (k mod nax < nax)%nat) by (apply Nat.mod_upper_bound; lia).
    assert (Hq : (k / nax < np)%nat) by (apply Nat.Div0.div_lt_upper_bound; lia).
    unfold points_of_array. rewrite list_lookup_fmap.
    rewrite lookup_seq_lt by exact Hm. cbn [fmap option_fmap option_map Nat.add mbind option_bind].
    rewrite list_lookup_fmap. rewrite lookup_seq_lt by exact Hq.
    cbn [fmap option_fmap option_map Nat.add default].
    replace (k / nax * nax + k mod nax)%nat with k
      by (rewrite (Nat.div_mod_eq k nax) at 1; lia).
    destruct (lookup_lt_is_Some_2 in_ k ltac:(lia)) as (v & ->). reflexivity.
  - rewrite lookup_seq_ge by lia. cbn [fmap option_fmap option_map].
    symmetry. apply lookup_ge_None_2. rewrite length_take. lia.
Qed.

(** The array that astRegTranPoint copies into a PointSet and the array
    it makes of a PointSet have the same layout: storing [np] points of
    [nax] axis values each and fetching them again gives back the
    [np * nax] values stored, in their order.  Both pairs of loops run
    to their end without leaving an array. *)
Theorem RegTranPoint_round_trip (in_ : list double) (np nax : nat)
    (ptr_in : list (list double)) (result : list double) :
  length ptr_in = nax ->
  Forall (fun row => length row = np) ptr_in ->
  length result = (np * nax)%nat ->
  (np * nax <= length in_)%nat ->
  exists ptr',
    RegTranPoint_store_all np 0 nax 0 in_ ptr_in = Some ptr' /\
    RegTranPoint_fetch_all np 0 nax 0 ptr' result = Some (take (np * nax) in_).
Proof.
  intros Hlen Hrows Hres Hin.
  exists (points_of_array in_ np nax).
  split; [exact (RegTranPoint_store_all_points in_ np nax ptr_in Hlen Hrows Hin)|].
  destruct (points_of_array_shape in_ np nax) as (Hl & Hr).
  rewrite (RegTranPoint_fetch_all_array _ np nax result Hl Hr Hres).
  rewrite (array_of_points_of_array in_ np nax Hin). reflexivity.
Qed.

End ArrayLayout.

Section RegTranPointProperties.
Context `{K : Collaborators} `{!Methods}.
Variable astPointSet : Z -> Z -> M (option loc).
Variable astMalloc_double : Z -> M (option (list double)).

Lemma astGetPoints__get (q : loc) (s : State) ps :
  status s = None -> pointsets s !! q = Some ps ->
  astGetPoints_ (Some q) s = Some (s, ptr ps).
Proof.
  intros Hok Hq. unfold astGetPoints_. rewrite (invoke_clear _ _ _ _ Hok).
  unfold bind, getPointSet, lift. rewrite Hq. reflexivity.
Qed.

(** astRegTranPoint takes and returns arrays in which the axis values of
    a point are next to each other, and gives the Mapping a PointSet, in
    which the values of an axis are next to each other: the PointSet it
    transforms holds axis ic of point ip from element ip * naxin + ic of
    the array given, and element k of the array returned is axis
    k mod naxout of point k / naxout of the transformed PointSet.  The
    Mapping is the base to current Mapping of the Region if forward is
    non-zero and the current to base Mapping otherwise, and is always
    applied in its forward direction. *)
Theorem RegTranPoint_layout (this : loc) (in_ : list double) (np forward : Z)
    (s s1 s3 : State) (r : AstRegion) (f q qo : loc) (fs : AstFrameSet)
    (ps pso : AstPointSet) (res0 : list double) :
  let map := if negb (forward =? 0)
             then astGetMapping fs AST__BASE AST__CURRENT
             else astGetMapping fs AST__CURRENT AST__BASE in
  let n := Z.to_nat np in
  let naxin := Z.to_nat (astGetNin map) in
  let naxout := Z.to_nat (astGetNout map) in
  status s = None ->
  regions s !! this = Some r -> frameset r = Some f -> framesets s !! f = Some fs ->
  astPointSet np (astGetNin map) s = Some (s1, Some q) ->
  status s1 = None ->
  pointsets s1 !! q = Some ps ->
  length (ptr ps) = naxin ->
  Forall (fun row => length row = n) (ptr ps) ->
  astMalloc_double (wrap_int (astGetNout map * np)) s1 = Some (s1, Some res0) ->
  length res0 = (n * naxout)%nat ->
  (n * naxin <= length in_)%nat ->
  astTransform map (Some q) 1
    (mkState (status s1) (reported s1) (regions s1) (framesets s1)
       (<[q := mkPointSet (ncoord ps) (npoint ps) (points_of_array in_ n naxin)]>
          (pointsets s1))) = Some (s3, Some qo) ->
  status s3 = None ->
  pointsets s3 !! qo = Some pso ->
  length (ptr pso) = naxout ->
  Forall (fun row => length row = n) (ptr pso) ->
  astRegTranPoint_ astPointSet astMalloc_double this in_ np forward s =
    Some (s3, Some (array_of_points (ptr pso) n naxout)).
Proof.
  intros map n naxin naxout Hok Hr Hf Hfs Hps Hok1 Hq Hlen Hrows Hmal Hres Hin
    Htr Hok3 Hqo Hleno Hrowso.
  unfold astRegTranPoint_. rewrite (ifOK_clear _ _ _ Hok).
  mstep (regionFrameSet_get this f s r fs Hr Hf Hfs).
  fold map. cbv zeta. mstep Hps.
  mstep (astGetPoints__get q s1 ps Hok1 Hq).
  mstep Hmal. mstep (astOK_clear s1 Hok1).
  fold n naxin naxout.
  rewrite (RegTranPoint_store_all_points in_ n naxin (ptr ps) Hlen Hrows Hin).
  rewrite ?bind_assoc. rewrite bind_lift_Some.
  set (s2 := mkState (status s1) (reported s1) (regions s1) (framesets s1) _) in Htr.
  assert (Hset : setPoints q (points_of_array in_ n naxin) s1 = Some (s2, tt)).
  { unfold setPoints. rewrite Hq. reflexivity. }
  mstep Hset.
  assert (Hok2 : status s2 = None) by exact Hok1.
  assert (Htr' : astTransform_ (Some map) (Some q) 1 s2 = Some (s3, Some qo)).
  { unfold astTransform_. rewrite (ifOK_clear _ _ _ Hok2). rewrite bind_lift_Some.
    exact Htr. }
  mstep Htr'. mstep (astGetPoints__get qo s3 pso Hok3 Hqo).
  mstep (astOK_clear s3 Hok3).
  destruct ((0 <? np) && (0 <? astGetNout map)) eqn:Hpos.
  - rewrite ?bind_assoc. rewrite bind_lift_Some.
    rewrite (RegTranPoint_fetch_all_array (ptr pso) n naxout res0 Hleno Hrowso Hres).
    rewrite ?bind_assoc. rewrite bind_lift_Some. rewrite bind_ret_l.
    mstep (astOK_clear s3 Hok3). reflexivity.
  - rewrite bind_ret_l. mstep (astOK_clear s3 Hok3).
    assert (Hz : (n * naxout = 0)%nat).
    { apply andb_false_iff in Hpos as [Hp|Hp]; apply Z.ltb_ge in Hp.
      - subst n. rewrite Z2Nat.nonpos by lia. reflexivity.
      - subst naxout. rewrite Z2Nat.nonpos by lia. lia. }
    unfold array_of_points. rewrite Hz. cbn [seq fmap list_fmap].
    rewrite Hz in Hres. apply nil_length_inv in Hres. rewrite Hres. reflexivity.
Qed.

End RegTranPointProperties.

Section BndBaseMeshProperties.
Context `{K : Collaborators} `{!Methods}.
Variable astBox_Region :
  loc -> Z -> list double -> list double -> option loc -> M (option loc).
Variable astCmpRegion : option loc -> option loc -> Z -> M (option loc).
Variable AST__AND : Z.
Variable astPointSet : Z -> Z -> M (option loc).

Lemma BndBaseMesh_bad_spec (n : nat) :
  forall (ic : nat) (ptr_ : list (list double)),
  (ic + n <= length ptr_)%nat ->
  Forall (fun row => length row = 1%nat) ptr_ ->
  exists ptr',
    BndBaseMesh_bad n ic ptr_ = Some ptr' /\
    length ptr' = length ptr_ /\
    forall j : nat,
      ptr' !! j = if bool_decide (ic <= j < ic + n)%nat then Some [AST__BAD]
                  else ptr_ !! j.
Proof.
  induction n as [|n IH]; intros ic ptr_ Hlen Hrows.
  - exists ptr_. split; [reflexivity|]. split; [reflexivity|].
    intros j. rewrite bool_decide_eq_false_2 by lia. reflexivity.
  - cbn [BndBaseMesh_bad].
    destruct (lookup_lt_is_Some_2 ptr_ ic ltac:(lia)) as (row & Hrow).
    assert (Hl1 : length row = 1%nat).
    { rewrite Forall_lookup in Hrows. exact (Hrows ic row Hrow). }
    rewrite Hrow. cbn [mbind option_bind].
    rewrite bool_decide_eq_true_2 by lia.
    assert (Hbad : <[0%nat := AST__BAD]> row = [AST__BAD]).
    { destruct row as [|x [|y row]]; try discriminate Hl1. reflexivity. }
    rewrite Hbad.
    destruct (IH (S ic) (<[ic := [AST__BAD]]> ptr_)) as (ptr' & E & Hl & Hj).
    + rewrite length_insert. lia.
    + rewrite Forall_lookup. intros j row' Hr'.
      destruct (decide (j = ic)) as [->|Hne].
      * rewrite list_lookup_insert_eq in Hr' by lia. injection Hr' as <-. reflexivity.
      * rewrite list_lookup_insert_ne in Hr' by congruence.
        rewrite Forall_lookup in Hrows. exact (Hrows j row' Hr').
    + exists ptr'. split; [exact E|]. split; [rewrite Hl; apply length_insert|].
      intros j. rewrite Hj.
      destruct (decide (j = ic)) as [->|Hne].
      * rewrite bool_decide_eq_false_2 by lia. rewrite bool_decide_eq_true_2 by lia.
        apply list_lookup_insert_eq. lia.
      * rewrite list_lookup_insert_ne by congruence.
        destruct (decide (S ic <= j < S ic + n)%nat).
        -- rewrite !bool_decide_eq_true_2 by lia. reflexivity.
        -- rewrite !bool_decide_eq_false_2 by lia. reflexivity.
Qed.

Lemma BndBaseMesh_bad_all (ptr_ : list (list double)) :
  Forall (fun row => length row = 1%nat) ptr_ ->
  BndBaseMesh_bad (length ptr_) 0 ptr_ = Some (replicate (length ptr_) [AST__BAD]).
Proof.
  intros Hrows.
  destruct (BndBaseMesh_bad_spec (length ptr_) 0 ptr_ ltac:(lia) Hrows)
    as (ptr' & E & Hl & Hj).
  rewrite E. f_equal. apply list_eq. intros j. rewrite Hj.
  destruct (decide (j < length ptr_)%nat) as [Hlt|Hge].
  - rewrite bool_decide_eq_true_2 by lia. symmetry.
    apply lookup_replicate_2. exact Hlt.
  - rewrite bool_decide_eq_false_2 by lia.
    rewrite lookup_ge_None_2 by lia. symmetry.
    apply lookup_ge_None_2. rewrite length_replicate. lia.
Qed.

(** BndBaseMesh returns the mesh of the intersection with the box only
    when astOverlap reports that the Region and the box overlap in part
    (4), are identical (5) or are each other's negation (6).  For every
    other result of astOverlap, 0 to 3 (which includes a Region that is
    inside the box and a box that is inside the Region), it returns a
    new PointSet of one point with as many axes as the base Frame, every
    axis value of which is AST__BAD; no CmpRegion is made. *)
Theorem BndBaseMesh_single_bad_point (this : loc) (lbnd ubnd : list double)
    (s s1 s2 s3 : State) (box : option loc) (o : Z) (r : AstRegion) (f q : loc)
    (fs : AstFrameSet) (ps : AstPointSet) :
  status s = None ->
  astBox_Region this 1 lbnd ubnd None s = Some (s1, box) ->
  astOverlap_ (Some this) box s1 = Some (s2, o) ->
  o <= 3 ->
  status s2 = None ->
  regions s2 !! this = Some r -> frameset r = Some f -> framesets s2 !! f = Some fs ->
  astPointSet 1 (astGetNin_FrameSet fs) s2 = Some (s3, Some q) ->
  status s3 = None ->
  pointsets s3 !! q = Some ps ->
  length (ptr ps) = Z.to_nat (astGetNin_FrameSet fs) ->
  Forall (fun row => length row = 1%nat) (ptr ps) ->
  BndBaseMesh astBox_Region astCmpRegion AST__AND astPointSet this lbnd ubnd s =
    Some (mkState None (reported s3) (regions s3) (framesets s3)
            (<[q := mkPointSet (ncoord ps) (npoint ps)
                      (replicate (Z.to_nat (astGetNin_FrameSet fs)) [AST__BAD])]>
               (pointsets s3)),
          Some q).
Proof.
  intros Hok Hbox Hov Ho Hok2 Hr Hf Hfs Hps Hok3 Hq Hlen Hrows.
  unfold BndBaseMesh. rewrite (ifOK_clear _ _ _ Hok).
  mstep Hbox. mstep Hov.
  assert (Hlt : (3 <? o) = false) by (apply Z.ltb_ge; exact Ho).
  rewrite Hlt.
  mstep (member_get frameset this s2 r Hr). rewrite Hf.
  assert (Hnc : ifOK 0 (p <- deref (Some f) ;; fs0 <- getFrameSet p ;;
                        ret (astGetNin_FrameSet fs0)) s2
                = Some (s2, astGetNin_FrameSet fs)).
  { rewrite (ifOK_clear _ _ _ Hok2). unfold deref. rewrite bind_lift_Some.
    unfold bind, getFrameSet, lift. rewrite Hfs. reflexivity. }
  mstep Hnc. mstep Hps.
  mstep (astGetPoints__get q s3 ps Hok3 Hq).
  mstep (astOK_clear s3 Hok3).
  rewrite <- Hlen. rewrite (BndBaseMesh_bad_all (ptr ps) Hrows).
  rewrite ?bind_assoc. rewrite bind_lift_Some.
  set (s4 := mkState (status s3) (reported s3) (regions s3) (framesets s3)
               (<[q := mkPointSet (ncoord ps) (npoint ps)
                         (replicate (length (ptr ps)) [AST__BAD])]> (pointsets s3))).
  assert (Hset : setPoints q (replicate (length (ptr ps)) [AST__BAD]) s3 = Some (s4, tt)).
  { unfold setPoints. rewrite Hq. reflexivity. }
  mstep Hset. rewrite bind_ret_l.
  assert (Hok4 : status s4 = None) by exact Hok3.
  mstep (astOK_clear s4 Hok4).
  unfold s4. rewrite Hok3. reflexivity.
Qed.

End BndBaseMeshProperties.

(** ** At the example Regions *)


Lemma InitRegion_wrong_ncoord_witness :
  astInitRegion_ ex_astFrameSet CUnit ex_astGetNaxes_FrameSet ex_astInitFrame
      "Box" (AFrame (mkCFrame 2 "")) (Some 1%positive) None ex_state =
    Some (mkState (Some AST__NCPIN) [AST__NCPIN; AST__NCPIN]
            (regions ex_state) (framesets ex_state) (pointsets ex_state), None).
Proof.
  assert (H1 : status ex_state = None) by reflexivity.
  assert (H2 : astGetNaxes_of ex_astGetNaxes_FrameSet (AFrame (mkCFrame 2 "")) ex_state
               = Some (ex_state, 2)) by reflexivity.
  assert (H3 : pointsets ex_state !! 1%positive
               = Some (ex_points (dbl_of_Z 5) (dbl_of_Z 10))) by reflexivity.
  assert (H4 : ncoord (ex_points (dbl_of_Z 5) (dbl_of_Z 10)) <> 2)
    by (intros H; discriminate H).
  assert (H5 : forall (t : State) e, status t = Some e ->
            ex_astInitFrame "Box" t = Some (t, None)).
  { intros t e Ht. apply (ifOK_set _ _ _ _ Ht). }
  exact (InitRegion_wrong_ncoord ex_astFrameSet CUnit ex_astGetNaxes_FrameSet
           ex_astInitFrame "Box" (AFrame (mkCFrame 2 "")) 1%positive None ex_state
           _ 2 H1 H2 H3 H4 H5).
Defined.

Lemma RegTranPoint_round_trip_witness :
  exists ptr',
    RegTranPoint_store_all 3 0 2 0
      [dbl_0; dbl_1; dbl_half; AST__BAD; dbl_1; dbl_0; dbl_half]
      [[dbl_0; dbl_0; dbl_0]; [dbl_0; dbl_0; dbl_0]] = Some ptr' /\
    RegTranPoint_fetch_all 3 0 2 0 ptr' (repeat AST__BAD 6) =
      Some [dbl_0; dbl_1; dbl_half; AST__BAD; dbl_1; dbl_0].
Proof.
  apply (RegTranPoint_round_trip
           [dbl_0; dbl_1; dbl_half; AST__BAD; dbl_1; dbl_0; dbl_half] 3 2
           [[dbl_0; dbl_0; dbl_0]; [dbl_0; dbl_0; dbl_0]] (repeat AST__BAD 6)).
  - reflexivity.
  - repeat constructor.
  - reflexivity.
  - cbn. lia.
Defined.

Lemma RegTranPoint_layout_witness :
  exists s3,
    astRegTranPoint_ ex_astPointSet ex_astMalloc_double 1%positive
      [dbl_of_Z 5; dbl_of_Z 7] 2 1 ex_state_moved =
    Some (s3, Some [dbl_of_Z 7; dbl_of_Z 9]).
Proof.
  assert (H1 : status ex_state_moved = None) by reflexivity.
  assert (H2 : regions ex_state_moved !! 1%positive = Some ex_boxA) by reflexivity.
  assert (H3 : frameset ex_boxA = Some 1%positive) by reflexivity.
  assert (H4 : framesets ex_state_moved !! 1%positive = Some ex_frameset_moved)
    by reflexivity.
  destruct (ex_astPointSet 2 1 ex_state_moved) as [[s1 [q|]]|] eqn:E;
    [| exfalso; revert E; clear; intros E; discriminate E
     | exfalso; revert E; clear; intros E; discriminate E].
  assert (H5 : status s1 = None).
  { revert E. clear. intros E. injection E as <- _. reflexivity. }
  assert (H6 : pointsets s1 !! q = Some (mkPointSet 1 2 [[dbl_0; dbl_0]])).
  { revert E. clear. intros E. injection E as <- <-. apply lookup_insert_eq. }
  assert (H7 : ex_astMalloc_double 2 s1 = Some (s1, Some [dbl_0; dbl_0])).
  { unfold ex_astMalloc_double. rewrite (ifOK_clear _ _ _ H5). reflexivity. }
  destruct (@astTransform Cartesian CartesianBox (CShift 1 2) (Some q) 1
              (mkState (status s1) (reported s1) (regions s1) (framesets s1)
                 (<[q := mkPointSet 1 2 (points_of_array [dbl_of_Z 5; dbl_of_Z 7] 2 1)]>
                    (pointsets s1)))) as [[s3 [qo|]]|] eqn:E3;
    [| exfalso; revert E3; clear; intros E3;
       cbn [astTransform CartesianBox] in E3; unfold bind, deref, lift, getPointSet in E3;
       cbn [pointsets] in E3; rewrite lookup_insert_eq in E3; discriminate E3
     | exfalso; revert E3; clear; intros E3;
       cbn [astTransform CartesianBox] in E3; unfold bind, deref, lift, getPointSet in E3;
       cbn [pointsets] in E3; rewrite lookup_insert_eq in E3; discriminate E3].
  assert (E3' := E3).
  cbn [astTransform CartesianBox] in E3'. unfold bind, deref, lift, getPointSet in E3'.
  cbn [pointsets] in E3'. rewrite lookup_insert_eq in E3'.
  assert (H8 : status s3 = None).
  { revert E3' H5. clear. intros E3' H5. injection E3' as <- _. exact H5. }
  assert (H9 : pointsets s3 !! qo =
               Some (mkPointSet 1 2 [[dbl_of_Z 7; dbl_of_Z 9]])).
  { revert E3'. clear. intros E3'. injection E3' as <- <-.
    cbn [pointsets]. rewrite lookup_insert_eq. f_equal. }
  pose proof (RegTranPoint_layout ex_astPointSet ex_astMalloc_double 1%positive
                [dbl_of_Z 5; dbl_of_Z 7] 2 1 ex_state_moved s1 s3 ex_boxA 1%positive
                q qo ex_frameset_moved _ _ [dbl_0; dbl_0]
                H1 H2 H3 H4 E H5 H6 eq_refl
                ltac:(repeat constructor) H7 eq_refl ltac:(vm_compute; lia) E3 H8 H9 eq_refl
                ltac:(repeat constructor)) as E4.
  exists s3. exact E4.
Defined.

Lemma BndBaseMesh_single_bad_point_witness :
  exists s4 q,
    BndBaseMesh ex_astBox_Region (fun _ _ _ => ret None) 1 ex_astPointSet 1%positive
      [dbl_of_Z 20] [dbl_of_Z 30] ex_state = Some (s4, Some q) /\
    pointsets s4 !! q = Some (mkPointSet 1 1 [[AST__BAD]]).
Proof.
  assert (H1 : status ex_state = None) by reflexivity.
  destruct (ex_astBox_Region 1%positive 1 [dbl_of_Z 20] [dbl_of_Z 30] None ex_state)
    as [[s1 box]|] eqn:E1;
    [| exfalso; revert E1; clear; intros E1; discriminate E1].
  assert (Eo : snd <$> astOverlap_ (Some 1%positive) box s1 = Some 1).
  { revert E1. clear. intros E1. injection E1 as <- <-. vm_compute. reflexivity. }
  destruct (astOverlap_ (Some 1%positive) box s1) as [[s2 o]|] eqn:E2;
    [| exfalso; revert Eo; clear; intros Eo; discriminate Eo].
  assert (Ho : o = 1) by (revert Eo; clear; intros Eo; injection Eo as ->; reflexivity).
  clear Eo. subst o.
  assert (H2 : status s2 = None /\
               frameset <$> regions s2 !! 1%positive = Some (Some 1%positive) /\
               framesets s2 !! 1%positive = Some ex_frameset).
  { revert E1 E2. clear. intros E1 E2. injection E1 as <- <-.
    apply (f_equal (fmap fst)) in E2.
    assert (E3 : status <$> (fst <$> Some (s2, 1)) = Some None).
    { rewrite <- E2. vm_compute. reflexivity. }
    assert (E4 : (fun t => frameset <$> regions t !! 1%positive) <$> (fst <$> Some (s2, 1))
                 = Some (Some (Some 1%positive))).
    { rewrite <- E2. vm_compute. reflexivity. }
    assert (E5 : (fun t => framesets t !! 1%positive) <$> (fst <$> Some (s2, 1))
                 = Some (Some ex_frameset)).
    { rewrite <- E2. vm_compute. reflexivity. }
    cbn in E3, E4, E5. injection E3 as E3. injection E4 as E4. injection E5 as E5.
    split; [exact E3|]. split; [exact E4 | exact E5]. }
  destruct H2 as (H2 & H3 & H4).
  destruct (regions s2 !! 1%positive) as [r|] eqn:Hr;
    [| exfalso; revert H3; clear; intros H3; discriminate H3].
  assert (Hf : frameset r = Some 1%positive).
  { revert H3. clear. intros H3. cbn in H3. injection H3 as H3. exact H3. }
  clear H3.
  destruct (ex_astPointSet 1 1 s2) as [[s3 [q|]]|] eqn:E3;
    [| exfalso; revert E3 H2; clear; intros E3 H2; unfold ex_astPointSet in E3;
       rewrite (ifOK_clear _ _ _ H2) in E3; discriminate E3
     | exfalso; revert E3 H2; clear; intros E3 H2; unfold ex_astPointSet in E3;
       rewrite (ifOK_clear _ _ _ H2) in E3; discriminate E3].
  assert (E3' := E3). unfold ex_astPointSet in E3'.
  rewrite (ifOK_clear _ _ _ H2) in E3'.
  assert (H5 : status s3 = None).
  { revert E3' H2. clear. intros E3' H2. injection E3' as <- _. exact H2. }
  assert (H6 : pointsets s3 !! q = Some (mkPointSet 1 1 [[dbl_0]])).
  { revert E3'. clear. intros E3'. injection E3' as <- <-. apply lookup_insert_eq. }
  pose proof (BndBaseMesh_single_bad_point ex_astBox_Region (fun _ _ _ => ret None) 1
                ex_astPointSet 1%positive [dbl_of_Z 20] [dbl_of_Z 30]
                ex_state s1 s2 s3 box 1 r 1%positive q ex_frameset _
                H1 E1 E2 ltac:(lia) H2 Hr Hf H4 E3 H5 H6 eq_refl
                ltac:(repeat constructor)) as E.
  eexists _, q. split; [exact E|]. apply lookup_insert_eq.
Defined.
